(** * Reader bookmarks of the Electric Book template

    A shallow embedding of [assets/js/bookmarks.js]: the session
    identifier, the fingerprint index, the bookmark store kept in
    [localStorage], the pruning of last-location records and the marking
    and listing of bookmarks in the page.

    The browser is modelled by a [World]: the two storage areas, the
    part of the document the script reads and writes, the alerts shown
    to the user and the clock.  Every function of the script is a
    computation in a state-and-exception monad over that world, so a
    thrown [TypeError] keeps the writes made before it, as in the
    browser.

    What the model leaves out: strings are sequences of 8-bit characters
    where JavaScript has 16-bit code units (keys, ids, addresses and
    session dates are ASCII, where the two agree; a text that is cut is
    taken to be ASCII where it matters); a stored value is either the
    JSON text of a bookmark object or a text that does not parse, and
    not another JSON value; session dates are read by their leading
    digits; the elements of the page are a list, without the nesting of
    one in another, and an element with an empty id stands for one
    without an id; the two icons of the page template and the texts of
    the locale are taken to be there.  The statements say where they
    depend on one of these ([rawNotJSON], [parseable], [plainDates],
    [asciiText]). *)

From Stdlib Require Import String Ascii List ZArith Lia Bool DecimalString.
From Stdlib Require Import RelationClasses.
Import ListNotations.
Local Open Scope string_scope.
Local Open Scope Z_scope.

Set Implicit Arguments.

(** ** Strings and values of the script *)

(** [String.prototype.startsWith]. *)
Definition startsWith (s p : string) : bool := String.prefix p s.

(** [String.prototype.includes]: [p] occurs somewhere in [s]. *)
Fixpoint includes (s p : string) : bool :=
  String.prefix p s ||
  match s with
  | EmptyString => false
  | String _ s' => includes s' p
  end.

(** [String.prototype.lastIndexOf] of one character, [-1] when absent. *)
Fixpoint lastIndexOf (s : string) (c : ascii) : Z :=
  match s with
  | EmptyString => -1
  | String a s' =>
      let i := lastIndexOf s' c in
      if 0 <=? i then i + 1
      else if Ascii.eqb a c then 0 else -1
  end.

(** The first [n] characters, or all of them when there are fewer. *)
Fixpoint take (n : nat) (s : string) : string :=
  match n, s with
  | S n', String a s' => String a (take n' s')
  | _, _ => EmptyString
  end.

(** [s.slice(0, e)]: a negative end counts from the end of the string. *)
Definition slice0 (s : string) (e : Z) : string :=
  let len := Z.of_nat (String.length s) in
  let stop := if e <? 0 then Z.max (len + e) 0 else Z.min e len in
  take (Z.to_nat stop) s.

(** [s.split('#')[0]]: the text before the first hash sign. *)
Fixpoint beforeHash (s : string) : string :=
  match s with
  | EmptyString => EmptyString
  | String a s' => if Ascii.eqb a "#" then EmptyString else String a (beforeHash s')
  end.

(** [window.location.hash]: the fragment with its hash sign, empty when
    the address has no fragment or an empty one. *)
Fixpoint fragmentOf (s : string) : string :=
  match s with
  | EmptyString => EmptyString
  | String a s' =>
      if Ascii.eqb a "#"
      then match s' with EmptyString => EmptyString | _ => s end
      else fragmentOf s'
  end.

(** A string in a condition: only the empty string is falsy. *)
Definition truthy (s : string) : bool := negb (s =? "")%string.

(** The values a session identifier takes: [Date.now()] is a number, what
    comes back from storage is a string.  The script compares them with
    [===] and [!==], which tell the two apart. *)
Inductive JSVal : Type :=
| VNum (n : Z)
| VStr (s : string).

(** [a === b]. *)
Definition strictEq (a b : JSVal) : bool :=
  match a, b with
  | VNum x, VNum y => x =? y
  | VStr x, VStr y => (x =? y)%string
  | _, _ => false
  end.

(** [String(n)] for an integer. *)
Definition string_of_Z (n : Z) : string := NilZero.string_of_int (Z.to_int n).

(** [String(v)], the conversion [includes], [setItem] and [+] apply. *)
Definition toStr (v : JSVal) : string :=
  match v with
  | VNum n => string_of_Z n
  | VStr s => s
  end.

Definition digit_of (a : ascii) : option Z :=
  let n := Z.of_nat (nat_of_ascii a) in
  if (48 <=? n) && (n <=? 57) then Some (n - 48) else None.

(** The leading decimal digits of a string; [None] is [NaN]. *)
Fixpoint leadingDigits (s : string) (acc : option Z) : option Z :=
  match s with
  | EmptyString => acc
  | String a s' =>
      match digit_of a with
      | Some d =>
          leadingDigits s' (Some (10 * match acc with Some x => x | None => 0 end + d))
      | None => acc
      end
  end.

(** [parseFloat], exact on the identifiers the script writes: the decimal
    digits of a non-negative integer (below 2^53, where a double is
    exact).  Signs, fractions and exponents are outside the model. *)
Definition parseFloat (v : JSVal) : option Z :=
  match v with
  | VNum n => Some n
  | VStr s => leadingDigits s None
  end.

(** ** Persisted records *)

(** The bookmark object of [ebBookmarksSetBookmark], which is also what
    [JSON.parse] gives back for a stored one. *)
Record Bookmark : Type := mkBookmark {
  b_sessionDate : JSVal;
  b_type : string;
  b_bookTitle : string;
  b_pageTitle : string;
  b_description : string;
  b_id : string;
  b_fingerprint : option string;
  b_location : string;
  b_key : string
}.

(** A value of [localStorage]: the JSON text of a bookmark object, kept
    parsed, or a text that [JSON.parse] rejects.  A text that is JSON
    but not a record ([null], a number, an object without the fields of
    a record) is not a value of the model. *)
Inductive Stored : Type :=
| Json (b : Bookmark)
| Raw (s : string).

(** [localStorage]: the keys in the order [Object.keys] lists them. *)
Definition LocalStorage : Type := list (string * Stored).

(** [sessionStorage], of which the script uses two keys: ['sessionDate']
    and ['index-of-bookmarks'], the JSON text of an object from
    fingerprints to element ids, kept parsed. *)
Record SessionStorage : Type := mkSession {
  ss_sessionDate : option string;
  ss_index : option (list (string * string))
}.

(** ** The document *)

Inductive Icon : Type := BookmarkIcon | HistoryIcon.

(** An element of the page with the attributes the script reads or sets;
    an empty [el_id] is an element without an id, and [el_button] is the
    icon inside the [button.bookmark-button] that
    [element.querySelector] finds in it, if it finds one.  On a page
    where a bookmarkable element lies inside another, that button may
    be the button of the inner element: what is proved of the button of
    one element says nothing of the buttons of the others. *)
Record Element : Type := mkElement {
  el_id : string;
  el_innerText : string;
  el_fingerprint : option string;
  el_bookmarked : option string;
  el_title : option string;
  el_bookmarkType : option string;
  el_bookmark : option string;
  el_button : option Icon
}.

(** An item of one of the two lists of the bookmarks panel. *)
Inductive ListItem : Type :=
| BookmarkItem (b : Bookmark)
| DeleteAllItem.

Record Document : Type := mkDocument {
  elements : list Element;
  href : string;
  docTitle : string;
  bodyTitle : string;
  bookmarksList : option (list ListItem);
  lastLocationsList : option (list ListItem)
}.

(** ** The world and the monad *)

Record World : Type := mkWorld {
  localStorage : LocalStorage;
  sessionStorage : SessionStorage;
  document : Document;
  alerts : list string;
  clock : Z
}.

Inductive Error : Type := TypeError | SyntaxError.

Inductive Completion (A : Type) : Type :=
| Normal (a : A)
| Throw (e : Error).
Arguments Throw {A} e.

Definition M (A : Type) : Type := World -> Completion A * World.

Definition ret {A} (a : A) : M A := fun w => (Normal a, w).

Definition bind {A B} (m : M A) (f : A -> M B) : M B :=
  fun w =>
    match m w with
    | (Normal a, w') => f a w'
    | (Throw e, w') => (Throw e, w')
    end.

Definition throw {A} (e : Error) : M A := fun w => (Throw e, w).

Declare Scope js_scope.
Delimit Scope js_scope with js.
Notation "x <- m ;; k" := (bind m (fun x => k))
  (at level 61, m at next level, right associativity) : js_scope.
Notation "m ;; k" := (bind m (fun _ => k))
  (at level 61, right associativity) : js_scope.
Local Open Scope js_scope.

(** [xs.forEach(f)]. *)
Fixpoint forEach {A} (f : A -> M unit) (xs : list A) : M unit :=
  match xs with
  | [] => ret tt
  | x :: xs' => f x ;; forEach f xs'
  end.

(** A [forEach] whose callback pushes onto an array declared outside. *)
Fixpoint forEachPush {A B} (f : list B -> A -> M (list B)) (xs : list A)
    (acc : list B) : M (list B) :=
  match xs with
  | [] => ret acc
  | x :: xs' => acc' <- f acc x ;; forEachPush f xs' acc'
  end.

(** [xs.filter(p)] with a callback that runs in the world. *)
Fixpoint filterM {A} (p : A -> M bool) (xs : list A) : M (list A) :=
  match xs with
  | [] => ret []
  | x :: xs' =>
      keep <- p x ;;
      rest <- filterM p xs' ;;
      ret (if keep then x :: rest else rest)
  end.

(** *** Storage primitives *)

Fixpoint lookup {V} (k : string) (l : list (string * V)) : option V :=
  match l with
  | [] => None
  | (k', v) :: l' => if (k =? k')%string then Some v else lookup k l'
  end.

Definition remove {V} (k : string) (l : list (string * V)) : list (string * V) :=
  filter (fun e => negb (k =? fst e)%string) l.

(** [setItem]: an existing key keeps its place, a new one goes last. *)
Fixpoint assign {V} (k : string) (v : V) (l : list (string * V)) : list (string * V) :=
  match l with
  | [] => [(k, v)]
  | (k', v') :: l' =>
      if (k =? k')%string then (k, v) :: l' else (k', v') :: assign k v l'
  end.

Definition setLocal (ls : LocalStorage) (w : World) : World :=
  mkWorld ls (sessionStorage w) (document w) (alerts w) (clock w).

Definition setSession (ss : SessionStorage) (w : World) : World :=
  mkWorld (localStorage w) ss (document w) (alerts w) (clock w).

Definition setDocument (d : Document) (w : World) : World :=
  mkWorld (localStorage w) (sessionStorage w) d (alerts w) (clock w).

(** [Object.keys(localStorage)]. *)
Definition objectKeys : M (list string) :=
  fun w => (Normal (map fst (localStorage w)), w).

(** [localStorage.getItem(key)], [None] for [null]. *)
Definition getItem (key : string) : M (option Stored) :=
  fun w => (Normal (lookup key (localStorage w)), w).

(** [localStorage.removeItem(key)]. *)
Definition removeItem (key : string) : M unit :=
  fun w => (Normal tt, setLocal (remove key (localStorage w)) w).

(** [localStorage.setItem(key, JSON.stringify(bookmark))]. *)
Definition setItem (key : string) (v : Stored) : M unit :=
  fun w => (Normal tt, setLocal (assign key v (localStorage w)) w).

(** [JSON.parse]: [null] parses to [null], the text of a bookmark to the
    bookmark, a text that is not JSON is a syntax error. *)
Definition JSON_parse (item : option Stored) : M (option Bookmark) :=
  match item with
  | None => ret None
  | Some (Json b) => ret (Some b)
  | Some (Raw _) => throw SyntaxError
  end.

(** Reading a property of a value that may be [null]. *)
Definition deref {A} (o : option A) : M A :=
  match o with
  | Some a => ret a
  | None => throw TypeError
  end.

(** [window.alert(message)]. *)
Definition alert (message : string) : M unit :=
  fun w => (Normal tt,
            mkWorld (localStorage w) (sessionStorage w) (document w)
                    (alerts w ++ [message])%list (clock w)).

(** The text [locales[pageLanguage].bookmarks['bookmarks-shifted-warning']]. *)
Definition bookmarks_shifted_warning : string := "bookmarks-shifted-warning".

(** [Date.now()]. *)
Definition dateNow : M Z := fun w => (Normal (clock w), w).

(** [sessionStorage.getItem('sessionDate')]. *)
Definition getSessionDate : M (option string) :=
  fun w => (Normal (ss_sessionDate (sessionStorage w)), w).

(** [sessionStorage.setItem('sessionDate', value)]. *)
Definition setSessionDate (value : string) : M unit :=
  fun w => (Normal tt,
            setSession (mkSession (Some value) (ss_index (sessionStorage w))) w).

(** [sessionStorage.getItem('index-of-bookmarks')], parsed. *)
Definition getIndex : M (option (list (string * string))) :=
  fun w => (Normal (ss_index (sessionStorage w)), w).

(** [sessionStorage.setItem('index-of-bookmarks', JSON.stringify(index))]. *)
Definition setIndex (index : list (string * string)) : M unit :=
  fun w => (Normal tt,
            setSession (mkSession (ss_sessionDate (sessionStorage w)) (Some index)) w).

(** *** Document primitives

    A node is the position of its element in the document. *)

Definition getDocument : M Document := fun w => (Normal (document w), w).

Definition putDocument (d : Document) : M unit :=
  fun w => (Normal tt, setDocument d w).

Fixpoint findIndex {A} (p : A -> bool) (l : list A) : option nat :=
  match l with
  | [] => None
  | x :: l' => if p x then Some O else option_map S (findIndex p l')
  end.

(** The node of the first element with the id, if there is one. *)
Definition findById (d : Document) (id : string) : option nat :=
  if truthy id
  then findIndex (fun e => (el_id e =? id)%string) (elements d)
  else None.

(** [document.getElementById(id)]. *)
Definition getElementById (id : string) : M (option nat) :=
  d <- getDocument ;;
  ret (findById d id).

(** [document.querySelector('[data-bookmark="onscreen"]')]. *)
Definition queryOnscreen : M (option nat) :=
  d <- getDocument ;;
  ret (findIndex (fun e => match el_bookmark e with
                           | Some v => (v =? "onscreen")%string
                           | None => false
                           end) (elements d)).

(** [document.querySelector('[id]')], on a page where no element has
    an id attribute that is empty. *)
Definition queryWithId : M (option nat) :=
  d <- getDocument ;;
  ret (findIndex (fun e => truthy (el_id e)) (elements d)).

(** Reading through a node, a [TypeError] when it is [null]. *)
Definition node (element : option nat) : M Element :=
  d <- getDocument ;;
  deref (match element with
         | Some n => nth_error (elements d) n
         | None => None
         end).

Fixpoint updateNth {A} (n : nat) (f : A -> A) (l : list A) : list A :=
  match l, n with
  | [], _ => []
  | x :: l', O => f x :: l'
  | x :: l', S n' => x :: updateNth n' f l'
  end.

Definition withElements (f : list Element -> list Element) (d : Document) : Document :=
  mkDocument (f (elements d)) (href d) (docTitle d) (bodyTitle d)
             (bookmarksList d) (lastLocationsList d).

(** Writing an attribute through a node, a [TypeError] when it is [null]. *)
Definition setAttribute (element : option nat) (f : Element -> Element) : M unit :=
  node element ;;
  d <- getDocument ;;
  putDocument (withElements (updateNth (match element with Some n => n | None => O end) f) d).

Definition set_bookmarked (v : option string) (e : Element) : Element :=
  mkElement (el_id e) (el_innerText e) (el_fingerprint e) v (el_title e)
            (el_bookmarkType e) (el_bookmark e) (el_button e).

Definition set_title (v : string) (e : Element) : Element :=
  mkElement (el_id e) (el_innerText e) (el_fingerprint e) (el_bookmarked e) (Some v)
            (el_bookmarkType e) (el_bookmark e) (el_button e).

Definition set_bookmarkType (v : string) (e : Element) : Element :=
  mkElement (el_id e) (el_innerText e) (el_fingerprint e) (el_bookmarked e) (el_title e)
            (Some v) (el_bookmark e) (el_button e).

Definition set_button (i : Icon) (e : Element) : Element :=
  mkElement (el_id e) (el_innerText e) (el_fingerprint e) (el_bookmarked e) (el_title e)
            (el_bookmarkType e) (el_bookmark e) (Some i).

(** ** The session identifier *)

(** [ebBookmarksSessionDate]: the stored identifier if there is one,
    otherwise the current time, stored and returned. *)
Definition ebBookmarksSessionDate : M JSVal :=
  stored <- getSessionDate ;;
  if match stored with Some s => truthy s | None => false end
  then
    stored' <- getSessionDate ;;
    ret (VStr (match stored' with Some s => s | None => "" end))
  else
    sessionDate <- dateNow ;;
    setSessionDate (string_of_Z sessionDate) ;;
    ret (VNum sessionDate).

(** ** The fingerprint index *)

(** [ebBookmarksCreateFingerprintIndex].  The index is an object: the
    assignment [indexOfBookmarks['__proto__'] = elementID] sets its
    prototype, which ignores a string, and stores no property. *)
Definition ebBookmarksCreateFingerprintIndex : M unit :=
  d <- getDocument ;;
  let indexOfBookmarks :=
    fold_left (fun index element =>
                 match el_fingerprint element with
                 | Some elementFingerprint =>
                     if (elementFingerprint =? "__proto__")%string then index
                     else assign elementFingerprint (el_id element) index
                 | None => index
                 end) (elements d) [] in
  setIndex indexOfBookmarks.

(** What [ebBookmarksFingerprintID] returns: [false], nothing at all
    (after the warning), or the indexed id. *)
Inductive Resolved : Type :=
| NotFound
| Unverified
| Verified (indexedID : string).

(** [ebBookmarksFingerprintID]. *)
Definition ebBookmarksFingerprintID (elementID : string) : M Resolved :=
  found <- getElementById elementID ;;
  match found with
  | None => ret NotFound
  | Some _ =>
      element <- node found ;;
      index <- getIndex ;;
      match el_fingerprint element, index with
      | Some fingerprintToCheck, Some indexOfBookmarks =>
          if truthy fingerprintToCheck then
            match lookup fingerprintToCheck indexOfBookmarks with
            | Some indexedID =>
                if (elementID =? indexedID)%string
                then ret (Verified indexedID)
                else alert bookmarks_shifted_warning ;; ret Unverified
            | None => alert bookmarks_shifted_warning ;; ret Unverified
            end
          else ret NotFound
      | _, _ => ret NotFound
      end
  end.

(** ** Pruning the last locations *)

(** A key of a last-location record. *)
Definition isLastLocationKey (key : string) : bool :=
  startsWith key "bookmark-" && includes key "-lastLocation-".

(** The comparison function of the sort: the difference of the two
    session numbers, [None] when one of them is [NaN]. *)
Definition bySessionDate (a b : Bookmark) : option Z :=
  match parseFloat (b_sessionDate a), parseFloat (b_sessionDate b) with
  | Some x, Some y => Some (x - y)
  | _, _ => None
  end.

(** [Array.prototype.sort] with a comparison function, as a stable
    insertion sort: an element moves behind another only when the
    comparison is positive, and a [NaN] comparison counts as zero.  The
    script sorts at most two elements, where every sort does this. *)
Fixpoint insertBy {A} (cmp : A -> A -> option Z) (x : A) (l : list A) : list A :=
  match l with
  | [] => [x]
  | y :: l' =>
      if match cmp x y with Some d => 0 <? d | None => false end
      then y :: insertBy cmp x l'
      else x :: y :: l'
  end.

Fixpoint sortBy {A} (cmp : A -> A -> option Z) (l : list A) : list A :=
  match l with
  | [] => []
  | x :: l' => insertBy cmp x (sortBy cmp l')
  end.

(** [xs.slice(Math.max(xs.length - 2, 0))]. *)
Definition lastTwo {A} (xs : list A) : list A :=
  skipn (Z.to_nat (Z.max (Z.of_nat (length xs) - 2) 0)) xs.

(** The number of kept last locations whose session date occurs in the key. *)
Definition countMatches (key : string) (lastLocations : list Bookmark) : nat :=
  length (filter (fun lastLocation => includes key (toStr (b_sessionDate lastLocation)))
                 lastLocations).

(** The callback of the first loop of [ebBookmarksCleanLastLocations]:
    it pushes the record under a last-location key when its title is the
    one to clean. *)
Definition collectLastLocation (bookTitleToClean : string)
    (lastLocations : list Bookmark) (key : string) : M (list Bookmark) :=
  if isLastLocationKey key then
    item <- getItem key ;;
    parsed <- JSON_parse item ;;
    bookmark <- deref parsed ;;
    if (bookTitleToClean =? b_bookTitle bookmark)%string then
      item' <- getItem key ;;
      parsed' <- JSON_parse item' ;;
      ret (lastLocations ++ match parsed' with Some b => [b] | None => [] end)%list
    else ret lastLocations
  else ret lastLocations.

(** The callback of its filter: the location is of another session. *)
Definition notThisSession (location : Bookmark) : M bool :=
  current <- ebBookmarksSessionDate ;;
  ret (negb (strictEq (b_sessionDate location) current)).

(** The callback of its second loop: it removes the entry of the title
    whose key contains the session date of no kept last location. *)
Definition removeUnlessKept (bookTitleToClean : string)
    (lastLocations : list Bookmark) (key : string) : M unit :=
  if isLastLocationKey key then
    item <- getItem key ;;
    parsed <- JSON_parse item ;;
    bookmark <- deref parsed ;;
    if (bookTitleToClean =? b_bookTitle bookmark)%string then
      if (countMatches key lastLocations =? 0)%nat
      then removeItem key
      else ret tt
    else ret tt
  else ret tt.

(** [ebBookmarksCleanLastLocations]. *)
Definition ebBookmarksCleanLastLocations (bookTitleToClean : string) : M unit :=
  keys <- objectKeys ;;
  lastLocations <- forEachPush (collectLastLocation bookTitleToClean) keys [] ;;
  let lastLocations := lastTwo lastLocations in
  let lastLocations := sortBy bySessionDate lastLocations in
  previous <- filterM notThisSession lastLocations ;;
  let previousSessionLocations := length previous in
  let lastLocations :=
    if (1 <? previousSessionLocations)%nat then skipn 1 lastLocations
    else lastLocations in
  keys' <- objectKeys ;;
  forEach (removeUnlessKept bookTitleToClean lastLocations) keys'.

(** ** Marking and listing *)

(** [ebBookmarksCheckForCurrentPage]. *)
Definition ebBookmarksCheckForCurrentPage (url : string) : M bool :=
  d <- getDocument ;;
  let pageURL := beforeHash (href d) in
  let bookmarkURL := beforeHash url in
  ret (pageURL =? bookmarkURL)%string.

(** [ebBookmarksToggleButtonOnElement]; the two icons of the page
    template are taken to be there. *)
Definition ebBookmarksToggleButtonOnElement (element : option nat) : M unit :=
  match element with
  | None => ret tt
  | Some _ =>
      e <- node element ;;
      let bookmarkType :=
        match el_bookmarkType e with
        | Some t => t
        | None => ""
        end in
      match el_button e with
      | None =>
          if (bookmarkType =? "lastLocation")%string
          then setAttribute element (set_button HistoryIcon)
          else setAttribute element (set_button BookmarkIcon)
      | Some icon =>
          if match icon with HistoryIcon => true | BookmarkIcon => false end
             && (bookmarkType =? "userBookmark")%string
          then setAttribute element (set_button BookmarkIcon)
          else if (bookmarkType =? "userBookmark")%string
          then setAttribute element (set_button BookmarkIcon)
          else if (bookmarkType =? "")%string
          then setAttribute element (set_button BookmarkIcon)
          else setAttribute element (set_button HistoryIcon)
      end
  end.

(** The callback of the loop of [ebBookmarksMarkBookmarks]. *)
Definition markBookmark (bookmark : Bookmark) : M unit :=
  elementToMark <- getElementById (b_id bookmark) ;;
  onPage <- ebBookmarksCheckForCurrentPage (b_location bookmark) ;;
  if onPage then
    setAttribute elementToMark (set_bookmarked (Some "true")) ;;
    setAttribute elementToMark (set_title (b_description bookmark)) ;;
    e <- node elementToMark ;;
    (if match el_bookmarkType e with
        | Some t => (t =? "userBookmark")%string
        | None => false
        end
     then setAttribute elementToMark (set_bookmarkType "userBookmark")
     else setAttribute elementToMark (set_bookmarkType (b_type bookmark))) ;;
    ebBookmarksToggleButtonOnElement elementToMark
  else ret tt.

(** [ebBookmarksMarkBookmarks]. *)
Definition ebBookmarksMarkBookmarks (bookmarks : list Bookmark) : M unit :=
  d <- getDocument ;;
  putDocument (withElements (map (set_bookmarked None)) d) ;;
  forEach markBookmark bookmarks.

(** [list.appendChild(item)], a [TypeError] when the list is not in the page. *)
Definition appendToBookmarksList (item : ListItem) : M unit :=
  d <- getDocument ;;
  items <- deref (bookmarksList d) ;;
  putDocument (mkDocument (elements d) (href d) (docTitle d) (bodyTitle d)
                          (Some (items ++ [item])%list) (lastLocationsList d)).

Definition appendToLastLocationsList (item : ListItem) : M unit :=
  d <- getDocument ;;
  items <- deref (lastLocationsList d) ;;
  putDocument (mkDocument (elements d) (href d) (docTitle d) (bodyTitle d)
                          (bookmarksList d) (Some (items ++ [item])%list)).

(** Emptying the two lists that are in the page. *)
Definition clearLists : M unit :=
  d <- getDocument ;;
  putDocument (mkDocument (elements d) (href d) (docTitle d) (bodyTitle d)
                          (option_map (fun _ => []) (bookmarksList d))
                          (option_map (fun _ => []) (lastLocationsList d))).

(** The callback of the loop of [ebBookmarksListBookmarks]. *)
Definition listBookmark (bookmark : Bookmark) : M unit :=
  ebBookmarksCleanLastLocations (b_bookTitle bookmark) ;;
  sameSession <-
    (if (b_type bookmark =? "lastLocation")%string
     then current <- ebBookmarksSessionDate ;;
          ret (strictEq (b_sessionDate bookmark) current)
     else ret false) ;;
  if sameSession then ret tt
  else
    let listItem := BookmarkItem bookmark in
    if (b_type bookmark =? "lastLocation")%string
    then appendToLastLocationsList listItem
    else appendToBookmarksList listItem.

(** [ebBookmarksListBookmarks]. *)
Definition ebBookmarksListBookmarks (bookmarks : list Bookmark) : M unit :=
  clearLists ;;
  forEach listBookmark bookmarks ;;
  appendToBookmarksList DeleteAllItem ;;
  appendToLastLocationsList DeleteAllItem.

(** ** Reading the stored bookmarks *)

(** The callback of the first loop of [ebBookmarksCheckForBookmarks]. *)
Definition cleanTitleOf (key : string) : M unit :=
  if startsWith key "bookmark-" then
    item <- getItem key ;;
    entry <- JSON_parse item ;;
    match entry with
    | Some e => ebBookmarksCleanLastLocations (b_bookTitle e)
    | None => ret tt
    end
  else ret tt.

(** The callback of its second loop: every bookmark that is not a last
    location, and the last locations of other sessions. *)
Definition pushVisible (bookmarks : list Bookmark) (key : string) : M (list Bookmark) :=
  if startsWith key "bookmark-" then
    item <- getItem key ;;
    parsed <- JSON_parse item ;;
    bookmark <- deref parsed ;;
    if negb (b_type bookmark =? "lastLocation")%string
    then ret (bookmarks ++ [bookmark])%list
    else
      current <- ebBookmarksSessionDate ;;
      if negb (strictEq (b_sessionDate bookmark) current)
      then ret (bookmarks ++ [bookmark])%list
      else ret bookmarks
  else ret bookmarks.

(** The first loop. *)
Definition cleanStoredTitles : M unit :=
  keys <- objectKeys ;;
  forEach cleanTitleOf keys.

(** The second loop: the bookmarks handed to the marking and to the
    listing. *)
Definition storedBookmarks : M (list Bookmark) :=
  keys <- objectKeys ;;
  forEachPush pushVisible keys [].

(** [ebBookmarksCheckForBookmarks]. *)
Definition ebBookmarksCheckForBookmarks : M unit :=
  cleanStoredTitles ;;
  bookmarks <- storedBookmarks ;;
  ebBookmarksMarkBookmarks bookmarks ;;
  ebBookmarksListBookmarks bookmarks.

(** [ebBookmarksDeleteBookmark]. *)
Definition ebBookmarksDeleteBookmark (bookmark : Bookmark) : M unit :=
  removeItem (b_key bookmark) ;;
  ebBookmarksCheckForBookmarks.

(** [ebBookmarksDeleteAllBookmarks]; [confirmed] is the answer the user
    gives to [window.confirm], [None] a call without a type. *)
Definition ebBookmarksDeleteAllBookmarks (confirmed : bool) (type : option string)
  : M unit :=
  if confirmed then
    keys <- objectKeys ;;
    forEach (fun key =>
      if startsWith key "bookmark-" then
        item <- getItem key ;;
        parsed <- JSON_parse item ;;
        bookmark <- deref parsed ;;
        let bookmarkType := b_type bookmark in
        match type with
        | Some t =>
            if truthy t then
              if (t =? bookmarkType)%string then removeItem key else ret tt
            else removeItem key
        | None => removeItem key
        end
      else ret tt) keys ;;
    ebBookmarksCheckForBookmarks
  else ret tt.

(** ** Capturing a bookmark *)

(** [ebBookmarksElementID]. *)
Definition ebBookmarksElementID (element : option nat) : M string :=
  element <- match element with
             | Some _ => ret element
             | None => queryOnscreen
             end ;;
  e <- node element ;;
  if truthy (el_id e) then ret (el_id e)
  else
    d <- getDocument ;;
    if truthy (fragmentOf (href d)) then ret (fragmentOf (href d))
    else
      first <- queryWithId ;;
      e' <- node first ;;
      ret (el_id e').

(** The text put after a derived description: a space and an ellipsis. *)
Definition ellipsis : string := " …".

(** The fallback description of [ebBookmarksSetBookmark]; the fifty
    characters it counts are code units in the browser, which the
    characters of the model are in an ASCII text. *)
Definition fallbackDescription (innerText : string) : string :=
  let description := slice0 innerText 50 in
  let indexOfLastSpace := lastIndexOf description " " in
  let indexOfLastFullStop := lastIndexOf description "." in
  let elideFrom :=
    if indexOfLastSpace <? indexOfLastFullStop then indexOfLastFullStop
    else indexOfLastSpace in
  (slice0 description elideFrom ++ ellipsis)%string.

Section Capture.

(** [ebSlugify] lives in another script of the template. *)
Variable ebSlugify : string -> string.

(** The key a bookmark is stored under. *)
Definition bookmarkKey (bookTitle type : string) (session : option JSVal) : string :=
  match session with
  | Some s =>
      ("bookmark-" ++ ebSlugify bookTitle ++ "-" ++ type ++ "-" ++ toStr s)%string
  | None =>
      ("bookmark-" ++ ebSlugify bookTitle ++ "-" ++ type)%string
  end.

(** [ebBookmarksSetBookmark]; [description] is [None] when the caller
    passes none. *)
Definition ebBookmarksSetBookmark (type : string) (element : option nat)
    (description : option string) : M unit :=
  description <-
    (if match description with Some s => truthy s | None => false end
     then ret (match description with Some s => s | None => "" end)
     else e <- node element ;; ret (fallbackDescription (el_innerText e))) ;;
  sessionDate <- ebBookmarksSessionDate ;;
  d <- getDocument ;;
  id <- ebBookmarksElementID element ;;
  e <- node element ;;
  id' <- ebBookmarksElementID element ;;
  let location := (beforeHash (href d) ++ "#" ++ id')%string in
  session <-
    (if (type =? "lastLocation")%string
     then current <- ebBookmarksSessionDate ;; ret (Some current)
     else ret None) ;;
  let bookmarkKey := bookmarkKey (bodyTitle d) type session in
  let bookmark :=
    mkBookmark sessionDate type (bodyTitle d) (docTitle d) description id
               (el_fingerprint e) location bookmarkKey in
  setItem bookmarkKey (Json bookmark) ;;
  ebBookmarksCheckForBookmarks.

(** The description [ebBookmarksSetBookmark] stores. *)
Definition capturedDescription (e : Element) (description : option string) : string :=
  match description with
  | Some s => if truthy s then s else fallbackDescription (el_innerText e)
  | None => fallbackDescription (el_innerText e)
  end.

(** The record it builds for an element that has an id, in a session
    whose identifier reads [sessionDate]. *)
Definition captured (type : string) (e : Element) (description : option string)
    (sessionDate : JSVal) (d : Document) : Bookmark :=
  mkBookmark sessionDate type (bodyTitle d) (docTitle d)
             (capturedDescription e description) (el_id e) (el_fingerprint e)
             (beforeHash (href d) ++ "#" ++ el_id e)%string
             (bookmarkKey (bodyTitle d) type
                (if (type =? "lastLocation")%string then Some sessionDate else None)).

End Capture.


(** * Vocabulary of the statements *)

(** ** Running a computation *)

Definition result {A} (m : M A) (w : World) : Completion A := fst (m w).
Definition after {A} (m : M A) (w : World) : World := snd (m w).

(** A relation between the world before and the world after that every
    step of a computation keeps. *)
Definition preserves (R : World -> World -> Prop) {A} (m : M A) : Prop :=
  forall w, R w (after m w).

(** ** Relations between the world before and after *)

(** The worlds with the same [localStorage]. *)
Definition sameLocal (w w' : World) : Prop := localStorage w' = localStorage w.

(** The worlds with the same two storage areas. *)
Definition sameStores (w w' : World) : Prop :=
  localStorage w' = localStorage w /\ sessionStorage w' = sessionStorage w.

(** The document is untouched. *)
Definition sameDocument (w w' : World) : Prop := document w' = document w.

(** From [ls] to [ls'] nothing happened but the removal of last-location
    records of [title]. *)
Definition prunedOnly (title : string) (ls ls' : LocalStorage) : Prop :=
  forall k,
    lookup k ls' = lookup k ls \/
    (isLastLocationKey k = true /\
     exists b, lookup k ls = Some (Json b) /\ b_bookTitle b = title /\
               lookup k ls' = None).

Definition prunedOnlyW (title : string) (w w' : World) : Prop :=
  prunedOnly title (localStorage w) (localStorage w').

(** From [w] to [w'] nothing happened to [localStorage] but the removal
    of entries under last-location keys. *)
Definition prunedW (w w' : World) : Prop :=
  forall k,
    lookup k (localStorage w') = lookup k (localStorage w) \/
    (isLastLocationKey k = true /\ lookup k (localStorage w') = None).

(** [localStorage] lost entries and is otherwise as it was, in order. *)
Definition shrunkW (w w' : World) : Prop :=
  exists f, localStorage w' = filter f (localStorage w).

(** The tab has its session identifier. *)
Definition sessionIs (session : string) (w : World) : Prop :=
  ss_sessionDate (sessionStorage w) = Some session /\ truthy session = true.

(** A tab that has the session identifier [session] keeps its
    [sessionStorage]. *)
Definition sessionKept (session : string) (w w' : World) : Prop :=
  sessionIs session w -> sessionStorage w' = sessionStorage w.

(** What the capture reads of an element. *)
Definition pageReads (e : Element) : string * string * option string * option string :=
  (el_id e, el_innerText e, el_fingerprint e, el_bookmark e).

(** The page is the same for a capture: address, titles and what is
    read of each element. *)
Definition samePage (w w' : World) : Prop :=
  href (document w') = href (document w) /\
  docTitle (document w') = docTitle (document w) /\
  bodyTitle (document w') = bodyTitle (document w) /\
  map pageReads (elements (document w')) = map pageReads (elements (document w)).

(** Marking moves no element and changes no id or address, and an
    element marked as a user bookmark stays one. *)
Definition marksOnly (w w' : World) : Prop :=
  href (document w') = href (document w) /\
  map el_id (elements (document w')) = map el_id (elements (document w)) /\
  forall n e,
    nth_error (elements (document w)) n = Some e ->
    el_bookmarkType e = Some "userBookmark" ->
    exists e', nth_error (elements (document w')) n = Some e' /\
               el_bookmarkType e' = Some "userBookmark".

(** In a tab that has the session identifier [session] and the storage
    [ls], nothing is written to either. *)
Definition settledKept (session : string) (ls : LocalStorage) (w w' : World) : Prop :=
  sessionIs session w /\ localStorage w = ls ->
  sessionStorage w' = sessionStorage w /\ localStorage w' = ls.

(** ** The pruning, step by step *)

(** The last-location entries of a title, in storage order. *)
Definition titleEntries (title : string) (ls : LocalStorage) : list (string * Bookmark) :=
  flat_map (fun e =>
              match snd e with
              | Json b =>
                  if isLastLocationKey (fst e) && (title =? b_bookTitle b)%string
                  then [(fst e, b)] else []
              | Raw _ => []
              end) ls.

(** What the first loop of the pruning collects. *)
Definition titleLastLocations (title : string) (ls : LocalStorage) : list Bookmark :=
  map snd (titleEntries title ls).

(** Some last-location key holds a text that is not a record. *)
Definition rawLastLocation (ls : LocalStorage) : bool :=
  existsb (fun e => isLastLocationKey (fst e) &&
                    match snd e with Raw _ => true | Json _ => false end) ls.

(** A record of another session than the one named [session]. *)
Definition isPrevious (session : string) (b : Bookmark) : bool :=
  negb (strictEq (b_sessionDate b) (VStr session)).

(** The records the pruning keeps of those it collected. *)
Definition retainedOf (session : string) (collected : list Bookmark) : list Bookmark :=
  let lastLocations := sortBy bySessionDate (lastTwo collected) in
  if (1 <? length (filter (isPrevious session) lastLocations))%nat
  then skipn 1 lastLocations
  else lastLocations.

(** The entries the second loop of the pruning leaves in storage. *)
Definition keepEntry (title : string) (retained : list Bookmark)
    (e : string * Stored) : bool :=
  negb (isLastLocationKey (fst e) &&
        match snd e with
        | Json b => (title =? b_bookTitle b)%string &&
                    (countMatches (fst e) retained =? 0)%nat
        | Raw _ => false
        end).

Fixpoint distinct (l : list string) : bool :=
  match l with
  | [] => true
  | x :: l' => negb (existsb (String.eqb x) l') && distinct l'
  end.

(** The keys of a storage area are distinct. *)
Definition uniqueKeys (ls : LocalStorage) : bool := distinct (map fst ls).

(** Two records carry the same session date, as text. *)
Definition sameSession (a b : Bookmark) : bool :=
  (toStr (b_sessionDate a) =? toStr (b_sessionDate b))%string.

(** Among the last locations of a title, a key contains the session
    date of a record exactly when that is the session date of its own
    record. *)
Definition keysTellSessionsApart (title : string) (ls : LocalStorage) : bool :=
  let entries := titleEntries title ls in
  forallb (fun e =>
    forallb (fun e' =>
      Bool.eqb (includes (fst e) (toStr (b_sessionDate (snd e'))))
               (toStr (b_sessionDate (snd e)) =? toStr (b_sessionDate (snd e')))%string)
      entries) entries.

(** The session dates of the last locations of a title are distinct, as
    texts. *)
Definition distinctSessions (title : string) (ls : LocalStorage) : bool :=
  distinct (map (fun b => toStr (b_sessionDate b)) (titleLastLocations title ls)).

(** The pruning of a title would remove nothing. *)
Definition nothingToPrune (session title : string) (ls : LocalStorage) : bool :=
  forallb (keepEntry title (retainedOf session (titleLastLocations title ls))) ls.

(** The storage is as a reconciliation in this session leaves it: for
    the title of every record the keys tell the sessions apart, the
    session dates are distinct and the pruning would remove nothing. *)
Definition settled (session : string) (ls : LocalStorage) : bool :=
  uniqueKeys ls &&
  forallb (fun e =>
             match snd e with
             | Json b =>
                 keysTellSessionsApart (b_bookTitle b) ls &&
                 distinctSessions (b_bookTitle b) ls &&
                 nothingToPrune session (b_bookTitle b) ls
             | Raw _ => true
             end) ls.

(** ** The page and the panel *)

(** The element [document.getElementById] finds. *)
Definition elementById (d : Document) (id : string) : option Element :=
  match findById d id with
  | Some n => nth_error (elements d) n
  | None => None
  end.

(** The world after one more alert. *)
Definition alerted (message : string) (w : World) : World :=
  mkWorld (localStorage w) (sessionStorage w) (document w)
          (alerts w ++ [message]) (clock w).

(** The bookmark is on the page of the document. *)
Definition onCurrentPage (d : Document) (url : string) : bool :=
  (beforeHash (href d) =? beforeHash url)%string.

(** No last location of the session [session] is among the bookmarks. *)
Definition noneOfSession (session : string) (bookmarks : list Bookmark) : Prop :=
  forall b, In b bookmarks -> b_type b = "lastLocation"%string ->
            strictEq (b_sessionDate b) (VStr session) = false.

(** The bookmarks shown in a list of the panel. *)
Definition shownIn (items : option (list ListItem)) : list Bookmark :=
  match items with
  | Some l => flat_map (fun item => match item with
                                    | BookmarkItem b => [b]
                                    | DeleteAllItem => []
                                    end) l
  | None => []
  end.

(** ** Captured records *)



(** [wellKeyed], as a proposition. *)
Definition WellKeyed (ebSlugify : string -> string) (ls : LocalStorage) : Prop :=
  NoDup (map fst ls) /\
  forall k b, In (k, Json b) ls -> b_type b = "userBookmark"%string ->
              k = bookmarkKey ebSlugify (b_bookTitle b) "userBookmark" None.

(** User bookmarks stay under their derived keys. *)
Definition keysKept (ebSlugify : string -> string) (w w' : World) : Prop :=
  WellKeyed ebSlugify (localStorage w) -> WellKeyed ebSlugify (localStorage w').

(** A character at which the derived description may end. *)
Definition isBoundary (c : ascii) : bool := Ascii.eqb c " " || Ascii.eqb c ".".

(** No character of the string is a boundary. *)
Fixpoint noBoundary (s : string) : bool :=
  match s with
  | EmptyString => true
  | String c s' => negb (isBoundary c) && noBoundary s'
  end.

(** * Sample worlds *)

(** ** Records, pages and tabs *)

(** A record of the element "sec-3" of a page of a book. *)
Definition sampleRecord (type title session : string) (key : string) : Bookmark :=
  mkBookmark (VStr session) type title "Page" "Some text …" "sec-3" None
             "https://site/book/page.html#sec-3" key.

(** The entry of a last location and that of a user bookmark, under the
    keys the capture derives. *)
Definition lastLocationEntry (slug title session : string) : string * Stored :=
  let key := ("bookmark-" ++ slug ++ "-lastLocation-" ++ session)%string in
  (key, Json (sampleRecord "lastLocation" title session key)).

Definition userBookmarkEntry (slug title session : string) : string * Stored :=
  let key := ("bookmark-" ++ slug ++ "-userBookmark")%string in
  (key, Json (sampleRecord "userBookmark" title session key)).

(** A page with that element and the two lists of the panel. *)
Definition samplePage : Document :=
  mkDocument
    [mkElement "sec-3" "Call me Ishmael. Some years ago" (Some "abc") None None None None None]
    "https://site/book/page.html" "Page" "Book" (Some []) (Some []).

(** A tab on that page, with a storage and a session identifier. *)
Definition tabOf (ls : LocalStorage) (session : string) : World :=
  mkWorld ls (mkSession (Some session) None) samplePage [] 1700000000400.

(** A tab that has no identifier yet, at a time of the year 2023. *)
Definition freshTab : World :=
  mkWorld [] (mkSession None None)
          (mkDocument [] "https://site/book/page.html" "Page" "Book" (Some []) (Some []))
          [] 1700000000000.

(** A page whose element with fingerprint "abc" was indexed as "sec-3"
    and now carries the id "sec-9". *)
Definition shiftedPage : World :=
  mkWorld []
    (mkSession (Some "1700000000300") (Some [("abc", "sec-3"); ("def", "sec-4")]))
    (mkDocument
       [ mkElement "sec-9" "Moved paragraph." (Some "abc") None None None None None;
         mkElement "sec-4" "Second paragraph." (Some "def") None None None None None;
         mkElement "sec-5" "No fingerprint." None None None None None None ]
       "https://site/book/page.html" "Page" "Book" (Some []) (Some []))
    [] 1700000000400.

(** A page with two paragraphs, and a user bookmark and a last location
    of an earlier session on the first of them. *)
Definition twoParagraphs : World :=
  mkWorld []
    (mkSession (Some "1700000000300") None)
    (mkDocument
       [ mkElement "sec-3" "Call me Ishmael. Some years ago" (Some "abc") None None None None None;
         mkElement "sec-4" "There now is your insular city." (Some "def") None None None None None ]
       "https://site/book/page.html#sec-4" "Page" "Book" (Some []) (Some []))
    [] 1700000000400.

(** A user bookmark and a last location on the element "sec-3". *)
Definition userBookmarkOnSec3 : Bookmark :=
  sampleRecord "userBookmark" "Book" "1700000000100" "bookmark-book-userBookmark".

Definition lastLocationOnSec3 : Bookmark :=
  sampleRecord "lastLocation" "Book" "1700000000200"
               "bookmark-book-lastLocation-1700000000200".

(** A user bookmark of the same page whose element, "sec-99", is no
    longer in the document. *)
Definition staleRecord : Bookmark :=
  mkBookmark (VStr "1700000000100") "userBookmark" "Other" "Page" "Gone" "sec-99" None
             "https://site/book/page.html#sec-99" "bookmark-other-userBookmark".

(** A letter in lower case, a hyphen for a space. *)
Definition lowerCase (a : ascii) : ascii :=
  let n := nat_of_ascii a in
  if (Nat.leb 65 n && Nat.leb n 90)%bool then ascii_of_nat (n + 32)
  else if Ascii.eqb a " " then "-"%char else a.

(** A stand-in for [ebSlugify] in the examples: lower case, and hyphens
    for spaces. *)
Fixpoint sampleSlugify (s : string) : string :=
  match s with
  | EmptyString => EmptyString
  | String a s' => String (lowerCase a) (sampleSlugify s')
  end.

(** A heading of one word and a paragraph. *)
Definition introHeading : Element :=
  mkElement "introduction" "Introduction" (Some "abc") None None None None None.

Definition cityParagraph : Element :=
  mkElement "sec-4"
    "There now is your insular city of the Manhattoes, belted round by wharves."
    (Some "def") None None None None None.

(** A page of the book with the two, in a tab that has its session. *)
Definition headingPage : World :=
  mkWorld []
    (mkSession (Some "1700000000300") None)
    (mkDocument [introHeading; cityParagraph]
       "https://site/book/page.html" "Page" "My Book" (Some []) (Some []))
    [] 1700000000400.

(** ** Storage states *)

(** A user bookmark, a setting of another script and last locations of
    two books. *)
Definition mixedStorage : LocalStorage :=
  [ userBookmarkEntry "book" "Book" "1700000000100";
    ("theme", Raw "dark");
    lastLocationEntry "book" "Book" "1700000000100";
    lastLocationEntry "other" "Other" "1700000000100";
    lastLocationEntry "book" "Book" "1700000000200";
    lastLocationEntry "book" "Book" "1700000000300" ].

(** A user bookmark and the last locations of three sessions of its
    book, not pruned yet. *)
Definition unprunedStorage : LocalStorage :=
  [ userBookmarkEntry "book" "Book" "1700000000100";
    lastLocationEntry "book" "Book" "1700000000100";
    lastLocationEntry "book" "Book" "1700000000200";
    lastLocationEntry "book" "Book" "1700000000300" ].

(** The last locations of the previous and of the current session. *)
Definition chronologicalPair : LocalStorage :=
  [ lastLocationEntry "book" "Book" "1700000000200";
    lastLocationEntry "book" "Book" "1700000000300" ].

(** The three sessions in the order of their dates. *)
Definition chronologicalStorage : LocalStorage :=
  [ lastLocationEntry "book" "Book" "1700000000100";
    lastLocationEntry "book" "Book" "1700000000200";
    lastLocationEntry "book" "Book" "1700000000300" ].

(** Last locations of three sessions of one book, listed by
    [Object.keys] in another order than that of their session dates. *)
Definition outOfOrderStorage : LocalStorage :=
  [ lastLocationEntry "book" "Book" "1700000000200";
    lastLocationEntry "book" "Book" "1700000000300";
    lastLocationEntry "book" "Book" "1700000000100" ].

(** The same three, with the record of the current session first. *)
Definition currentFirstStorage : LocalStorage :=
  [ lastLocationEntry "book" "Book" "1700000000300";
    lastLocationEntry "book" "Book" "1700000000100";
    lastLocationEntry "book" "Book" "1700000000200" ].

(** Last locations whose session dates are 12, 1 and 2 milliseconds
    after the epoch: the first key contains the session date of the last. *)
Definition nestedDatesStorage : LocalStorage :=
  [ lastLocationEntry "book" "Book" "12";
    lastLocationEntry "book" "Book" "1";
    lastLocationEntry "book" "Book" "2" ].

(** * The listeners of the script

    The functions of [assets/js/bookmarks.js] that run when the reader
    acts: the click on a bookmark button, the report of the
    intersection observer and the leaving of the page.  A listener is
    modelled by the computation it runs for one event; what the event
    carries (the element clicked, the text selected, the entries
    reported) is an argument. *)

(** ** Marking the element a bookmark was placed on *)

(** [ebBookmarkUnmarkBookmarkedElements]. *)
Definition ebBookmarkUnmarkBookmarkedElements (element : option nat) : M unit :=
  marked <-
    match element with
    | Some _ =>
        e <- node element ;;
        ret (match el_bookmarked e with Some v => truthy v | None => false end)
    | None => ret false
    end ;;
  if marked then setAttribute element (set_bookmarked None)
  else
    d <- getDocument ;;
    putDocument (withElements (map (set_bookmarked None)) d).

(** [ebBookmarkMarkBookmarkedElement]; it calls the function above
    without an argument. *)
Definition ebBookmarkMarkBookmarkedElement (element : option nat) : M unit :=
  ebBookmarkUnmarkBookmarkedElements None ;;
  setAttribute element (set_bookmarked (Some "true")).

(** ** Elements in the viewport *)

Definition set_bookmark (v : string) (e : Element) : Element :=
  mkElement (el_id e) (el_innerText e) (el_fingerprint e) (el_bookmarked e) (el_title e)
            (el_bookmarkType e) (Some v) (el_button e).

(** An entry of the intersection observer: its target and whether it
    is intersecting. *)
Record Entry : Type := mkEntry {
  target : nat;
  isIntersecting : bool
}.

(** The callback [ebBookmarksMarkVisibleElements] gives the observer. *)
Definition bookmarkObserver (entries : list Entry) : M unit :=
  forEach (fun entry =>
             if isIntersecting entry
             then setAttribute (Some (target entry)) (set_bookmark "onscreen")
             else setAttribute (Some (target entry)) (set_bookmark "offscreen"))
          entries.

Section Listeners.

Variable ebSlugify : string -> string.

(** The listener [ebBookmarksListenForClicks] puts on a bookmark
    button, for one click: [parentNode] is the element the button is in,
    [ebCurrentSelectionText] the global of that name at the time of the
    click, [None] while no selection was ever made. *)
Definition ebBookmarksListenForClicks (parentNode : option nat)
    (ebCurrentSelectionText : option string) : M unit :=
  ebBookmarksSetBookmark ebSlugify "userBookmark" parentNode ebCurrentSelectionText ;;
  ebBookmarkMarkBookmarkedElement parentNode.

(** The listener [ebBookmarksProcess] puts on [beforeunload]: it stores
    the last location. *)
Definition storeLastLocation : M unit :=
  id <- ebBookmarksElementID None ;;
  element <- getElementById id ;;
  ebBookmarksSetBookmark ebSlugify "lastLocation" element None.

End Listeners.

(** * Vocabulary of the further statements *)

(** ** Where the model is exact

    The model reads a text of [localStorage] that is not the JSON of a
    record as one that [JSON.parse] rejects, a session date by its
    leading digits, and a text by its 8-bit characters.  The predicates
    below delimit the storages and the texts on which this is what the
    browser does; the statements that depend on it assume them. *)

Definition isJSONSpace (c : ascii) : bool :=
  let n := nat_of_ascii c in
  (n =? 32)%nat || (n =? 9)%nat || (n =? 10)%nat || (n =? 13)%nat.

(** The characters a JSON value can begin with: a brace, a bracket, a
    quote, a minus sign, a digit, and the first letters of [true],
    [false] and [null]. *)
Definition beginsJSONValue (c : ascii) : bool :=
  let n := nat_of_ascii c in
  (n =? 123)%nat || (n =? 91)%nat || (n =? 34)%nat || (n =? 45)%nat ||
  ((48 <=? n)%nat && (n <=? 57)%nat) ||
  (n =? 116)%nat || (n =? 102)%nat || (n =? 110)%nat.

(** A text that is certainly not JSON: after the white space that JSON
    allows it is empty or begins with a character no JSON value begins
    with, so [JSON.parse] throws a [SyntaxError] on it. *)
Fixpoint notJSON (text : string) : bool :=
  match text with
  | EmptyString => true
  | String c rest =>
      if isJSONSpace c then notJSON rest else negb (beginsJSONValue c)
  end.

(** Every text under a ['bookmark-'] key that is not the JSON of a
    record is not JSON at all: the storage holds no other JSON value
    ([null], a number, an object without the fields of a record) where
    the script parses. *)
Definition rawNotJSON (ls : LocalStorage) : bool :=
  forallb (fun e => match snd e with
                    | Json _ => true
                    | Raw text => negb (startsWith (fst e) "bookmark-") || notJSON text
                    end) ls.

Fixpoint allDigits (s : string) : bool :=
  match s with
  | EmptyString => true
  | String c rest =>
      match digit_of c with
      | Some _ => allDigits rest
      | None => false
      end
  end.

(** A session date as the script writes it: a non-negative integer
    below 2^53, or its decimal digits, at most fifteen.  On these the
    [parseFloat] of the model is that of the browser; it is not on a
    text with a sign, a fraction or an exponent, nor on a longer one. *)
Definition plainDate (v : JSVal) : bool :=
  match v with
  | VNum n => (0 <=? n) && (n <? 2 ^ 53)
  | VStr s => allDigits s && (1 <=? String.length s)%nat && (String.length s <=? 15)%nat
  end.

(** The records under last-location keys have plain session dates. *)
Definition plainDates (ls : LocalStorage) : bool :=
  forallb (fun e => match snd e with
                    | Json b => negb (isLastLocationKey (fst e)) || plainDate (b_sessionDate b)
                    | Raw _ => true
                    end) ls.

(** A text of ASCII characters, in which a character of the model is a
    code unit of the browser. *)
Fixpoint asciiText (s : string) : bool :=
  match s with
  | EmptyString => true
  | String c rest => (nat_of_ascii c <? 128)%nat && asciiText rest
  end.

(** The description of a capture is supplied, or derived from an ASCII
    text. *)
Definition plainDescription (e : Element) (description : option string) : bool :=
  match description with
  | Some s => truthy s || asciiText (el_innerText e)
  | None => asciiText (el_innerText e)
  end.

(** What an element carries but for its button. *)
Definition attributesOf (e : Element)
  : string * string * option string * option string * option string * option string
    * option string :=
  (el_id e, el_innerText e, el_fingerprint e, el_bookmarked e, el_title e,
   el_bookmarkType e, el_bookmark e).

(** ** The fingerprint index *)

(** The element carries the fingerprint. *)
Definition hasFingerprint (fingerprint : string) (e : Element) : bool :=
  match el_fingerprint e with
  | Some f => (f =? fingerprint)%string
  | None => false
  end.

(** The id of the last element of the page that carries the fingerprint. *)
Definition lastWithFingerprint (fingerprint : string) (els : list Element) : option string :=
  option_map el_id (find (hasFingerprint fingerprint) (rev els)).

(** The world with another index of fingerprints. *)
Definition indexed (index : list (string * string)) (w : World) : World :=
  setSession (mkSession (ss_sessionDate (sessionStorage w)) (Some index)) w.

(** ** Marks and buttons *)

(** The bookmark type the button of an element is chosen by: the
    attribute, or the empty text when the element has none. *)
Definition bookmarkTypeOf (e : Element) : string :=
  match el_bookmarkType e with
  | Some t => t
  | None => ""
  end.

(** The icon of a bookmark type. *)
Definition iconOf (type : string) : Icon :=
  if (type =? "lastLocation")%string then HistoryIcon else BookmarkIcon.

(** The element without its [data-bookmarked]. *)
Definition unmarked (e : Element) : Element := set_bookmarked None e.

(** The world with other elements in its document. *)
Definition withPage (f : list Element -> list Element) (w : World) : World :=
  setDocument (withElements f (document w)) w.

(** The icon [ebBookmarksToggleButtonOnElement] gives the button of an
    element. *)
Definition toggledIcon (e : Element) : Icon :=
  match el_button e with
  | None => iconOf (bookmarkTypeOf e)
  | Some _ =>
      if (bookmarkTypeOf e =? "userBookmark")%string || (bookmarkTypeOf e =? "")%string
      then BookmarkIcon else HistoryIcon
  end.

(** The element after [ebBookmarksMarkBookmarks] marked it for a
    bookmark. *)
Definition markedBy (e : Element) (b : Bookmark) : Element :=
  let marked := set_title (b_description b) (set_bookmarked (Some "true") e) in
  let typed :=
    set_bookmarkType (if (bookmarkTypeOf e =? "userBookmark")%string
                      then "userBookmark" else b_type b) marked in
  set_button (toggledIcon typed) typed.

(** The bookmark is on the page of the document and its id is that of
    the node [n]. *)
Definition targets (d : Document) (n : nat) (b : Bookmark) : bool :=
  onCurrentPage d (b_location b) &&
  match findById d (b_id b) with
  | Some m => (m =? n)%nat
  | None => false
  end.

(** The element of the node [n] after it was marked, in turn, for the
    bookmarks that target it. *)
Definition markedElement (d : Document) (bookmarks : list Bookmark) (n : nat)
    (e : Element) : Element :=
  fold_left markedBy (filter (targets d n) bookmarks) e.

(** ** Elements on screen *)

(** The element is marked as on screen by the observer. *)
Definition onscreen (e : Element) : bool :=
  match el_bookmark e with
  | Some v => (v =? "onscreen")%string
  | None => false
  end.

(** ** The reconciliation, step by step *)

(** Every key that starts with ['bookmark-'] holds a record. *)
Definition parseable (ls : LocalStorage) : bool :=
  forallb (fun e => negb (startsWith (fst e) "bookmark-") ||
                    match snd e with Json _ => true | Raw _ => false end) ls.

(** The storage after the pruning of a title, in the session [session]. *)
Definition pruneTitle (session title : string) (ls : LocalStorage) : LocalStorage :=
  filter (keepEntry title (retainedOf session (titleLastLocations title ls))) ls.

(** The storage after the first loop of [ebBookmarksCheckForBookmarks]
    came by the key: the title of the record it holds is pruned. *)
Definition pruneFor (session : string) (ls : LocalStorage) (key : string) : LocalStorage :=
  if startsWith key "bookmark-" then
    match lookup key ls with
    | Some (Json entry) => pruneTitle session (b_bookTitle entry) ls
    | _ => ls
    end
  else ls.

(** The storage after that loop: it goes by the keys that were there
    when it started. *)
Definition prunedStorage (session : string) (ls : LocalStorage) : LocalStorage :=
  fold_left (pruneFor session) (map fst ls) ls.

(** The storage after the titles of the bookmarks were pruned in turn,
    as the loop of [ebBookmarksListBookmarks] does. *)
Definition prunedFor (session : string) (bookmarks : list Bookmark) (ls : LocalStorage)
  : LocalStorage :=
  fold_left (fun ls b => pruneTitle session (b_bookTitle b) ls) bookmarks ls.

(** A record the reconciliation shows: all but the last locations of
    the session [session]. *)
Definition isVisible (session : string) (b : Bookmark) : bool :=
  negb (b_type b =? "lastLocation")%string ||
  negb (strictEq (b_sessionDate b) (VStr session)).

(** The records the second loop of [ebBookmarksCheckForBookmarks]
    reads, in the order of their keys. *)
Definition visibleBookmarks (session : string) (ls : LocalStorage) : list Bookmark :=
  flat_map (fun e =>
              if startsWith (fst e) "bookmark-" then
                match snd e with
                | Json b => if isVisible session b then [b] else []
                | Raw _ => []
                end
              else []) ls.

(** The bookmarks that go to the list of bookmarks, and those that go
    to the list of last locations. *)
Definition listedAsBookmark (b : Bookmark) : bool :=
  negb (b_type b =? "lastLocation")%string.

Definition listedAsLastLocation (session : string) (b : Bookmark) : bool :=
  (b_type b =? "lastLocation")%string &&
  negb (strictEq (b_sessionDate b) (VStr session)).

(** A list of the panel: an item for each bookmark, and the item with
    the button that deletes them all. *)
Definition panelList (bookmarks : list Bookmark) : list ListItem :=
  (map BookmarkItem bookmarks ++ [DeleteAllItem])%list.

(** The world with another [localStorage] and other lists in the panel. *)
Definition repaired (ls : LocalStorage) (bl ll : option (list ListItem)) (w : World)
  : World :=
  mkWorld ls (sessionStorage w)
          (mkDocument (elements (document w)) (href (document w))
                      (docTitle (document w)) (bodyTitle (document w)) bl ll)
          (alerts w) (clock w).

(** Every stored record that the reconciliation shows and that is on
    the page of the document has its element there. *)
Definition anchored (session : string) (d : Document) (ls : LocalStorage) : Prop :=
  forall k b,
    In (k, Json b) ls -> startsWith k "bookmark-" = true ->
    isVisible session b = true -> onCurrentPage d (b_location b) = true ->
    elementById d (b_id b) <> None.

(** A state from which the reconciliation completes: the tab has its
    session identifier, the keys of [localStorage] are distinct and
    those that start with ['bookmark-'] hold records, the page has the
    two lists of the panel and the elements of the records that are on
    it. *)
Definition reconcilable (session : string) (w : World) : Prop :=
  sessionIs session w /\
  uniqueKeys (localStorage w) = true /\
  parseable (localStorage w) = true /\
  bookmarksList (document w) <> None /\
  lastLocationsList (document w) <> None /\
  anchored session (document w) (localStorage w).

(** ** Deleting all bookmarks *)

(** The callback of the loop of [ebBookmarksDeleteAllBookmarks]. *)
Definition deleteOfType (type : option string) (key : string) : M unit :=
  if startsWith key "bookmark-" then
    item <- getItem key ;;
    parsed <- JSON_parse item ;;
    bookmark <- deref parsed ;;
    let bookmarkType := b_type bookmark in
    match type with
    | Some t =>
        if truthy t then
          if (t =? bookmarkType)%string then removeItem key else ret tt
        else removeItem key
    | None => removeItem key
    end
  else ret tt.

(** The record is one that is deleted for the type: every record when
    no type is given, those of the type otherwise. *)
Definition deletedFor (type : option string) (b : Bookmark) : bool :=
  match type with
  | Some t => if truthy t then (t =? b_type b)%string else true
  | None => true
  end.

(** The entries the loop leaves. *)
Definition survives (type : option string) (e : string * Stored) : bool :=
  negb (startsWith (fst e) "bookmark-" &&
        match snd e with
        | Json b => deletedFor type b
        | Raw _ => false
        end).

(** The value the observer writes for an entry. *)
Definition reported (entry : Entry) : string :=
  if isIntersecting entry then "onscreen" else "offscreen".

(** The last entry that reports the node. *)
Definition lastReport (n : nat) (entries : list Entry) : option Entry :=
  find (fun entry => (target entry =? n)%nat) (rev entries).

(** ** Storing the last location *)

(** The entry is the last or the last but one of the list. *)
Definition amongLastTwo {A} (x : A) (l : list A) : Prop :=
  exists pre post, l = (pre ++ x :: post)%list /\ (length post <= 1)%nat.

(** A list of the panel that is not in the page is still not there. *)
Definition missingKept (w w' : World) : Prop :=
  (bookmarksList (document w) = None -> bookmarksList (document w') = None) /\
  (lastLocationsList (document w) = None -> lastLocationsList (document w') = None).

(** * Further sample worlds *)

(** A page on which a paragraph was copied with its fingerprint: the
    first two elements carry the same one. *)
Definition copiedParagraph : World :=
  mkWorld []
    (mkSession (Some "1700000000300") None)
    (mkDocument
       [ mkElement "sec-1" "First paragraph." (Some "abc") None None None None None;
         mkElement "sec-2" "First paragraph." (Some "abc") None None None None None;
         mkElement "sec-3" "Third paragraph." (Some "xyz") None None None None None ]
       "https://site/book/page.html" "Page" "Book" (Some []) (Some []))
    [] 1700000000400.

(** A page of the book with its second paragraph on screen, in a tab
    of a later session than the stored last location. *)
Definition firstParagraph : Element :=
  mkElement "sec-3" "Call me Ishmael. Some years ago" (Some "abc")
            None None None (Some "offscreen") None.

Definition secondParagraph : Element :=
  mkElement "sec-4" "There now is your insular city." (Some "def")
            None None None (Some "onscreen") None.

Definition readingPage : World :=
  mkWorld [ userBookmarkEntry "book" "Book" "1700000000100";
            lastLocationEntry "book" "Book" "1700000000200" ]
    (mkSession (Some "1700000000300") None)
    (mkDocument [firstParagraph; secondParagraph]
       "https://site/book/page.html" "Page" "Book" (Some []) (Some []))
    [] 1700000000400.

(** * The start of the script

    The functions that run once when the page is loaded: the test of
    the browser, the main process and the poller that waits for
    [setup.js].  Besides the [World] they read and write the chrome of
    the bookmarks panel, and they register listeners with the browser;
    both are kept in a [Chrome].

    Of the listeners registered here, that of the list headers is
    modelled ([openList]); those of [beforeunload], of the bookmark
    buttons and of the observer are [storeLastLocation],
    [ebBookmarksListenForClicks] and [bookmarkObserver] above.  The
    listener of the bookmarks button, which styles the modal and an
    overlay it inserts in the body, and that of [selectionchange], which
    walks from the node of the selection to its ancestors, act on parts
    of the page that the document of the model does not have; of these
    two the start is modelled, that is their registration. *)

(** ** The chrome of the panel *)

(** The bookmarks button, [.bookmarks]: whether it has the class
    [visuallyhidden], and its [style.display]. *)
Record Controls : Type := mkControls {
  visuallyhidden : bool;
  display : option string
}.

(** An element that has one of the classes [bookmarks-list-header],
    [last-locations-list-header] and [bookmarks-list-header-open];
    [h_parent] is the position of its [parentElement] among the
    [parents] of the chrome. *)
Record Header : Type := mkHeader {
  h_bookmarks : bool;
  h_lastLocations : bool;
  h_open : bool;
  h_parent : nat
}.

(** What the script registers with the browser: the listener of a
    click on the bookmarks button, that of a click on a list header,
    that of [beforeunload], an element a [bookmarkObserver] observes,
    and the listener [ebBookmarksAddButtons] adds to an element for an
    action. *)
Inductive Listener : Type :=
| OpenModal
| OpenList (header : nat)
| StoreLastLocation
| Observe (element : nat)
| ToggleButton (action : string) (element : nat).

(** The browser and the page as the start sees them: the features
    [ebBookmarksSupport] tests; the bookmarks button that
    [document.querySelector('.bookmarks')] finds; the elements with a
    class of a list header, in the order of the document, and their
    parents, each with or without the class [bookmarks-list-open]; the
    elements that the selector ['#content [id]'] selects, as positions
    in the order of the document; the two globals of [setup.js];
    whether the interval [ebBookmarksCheckForIDs] is set; what was
    registered, in the order of registration; and whether
    [document.onselectionchange] was assigned. *)
Record Chrome : Type := mkChrome {
  hasIntersectionObserver : bool;
  hasGetSelection : bool;
  hasSelectionToString : bool;
  hasLocalStorage : bool;
  controls : option Controls;
  headers : list Header;
  parents : list bool;
  bookmarkable : list nat;
  ebIDsAssigned : bool;
  ebFingerprintsAssigned : bool;
  ebBookmarksCheckForIDs : bool;
  listeners : list Listener;
  onselectionchange : bool
}.

Record Browser : Type := mkBrowser {
  world : World;
  chrome : Chrome
}.

Definition setControls (v : option Controls) (c : Chrome) : Chrome :=
  mkChrome (hasIntersectionObserver c) (hasGetSelection c) (hasSelectionToString c)
           (hasLocalStorage c) v (headers c) (parents c) (bookmarkable c)
           (ebIDsAssigned c) (ebFingerprintsAssigned c) (ebBookmarksCheckForIDs c)
           (listeners c) (onselectionchange c).

Definition setHeaders (v : list Header) (c : Chrome) : Chrome :=
  mkChrome (hasIntersectionObserver c) (hasGetSelection c) (hasSelectionToString c)
           (hasLocalStorage c) (controls c) v (parents c) (bookmarkable c)
           (ebIDsAssigned c) (ebFingerprintsAssigned c) (ebBookmarksCheckForIDs c)
           (listeners c) (onselectionchange c).

Definition setParents (v : list bool) (c : Chrome) : Chrome :=
  mkChrome (hasIntersectionObserver c) (hasGetSelection c) (hasSelectionToString c)
           (hasLocalStorage c) (controls c) (headers c) v (bookmarkable c)
           (ebIDsAssigned c) (ebFingerprintsAssigned c) (ebBookmarksCheckForIDs c)
           (listeners c) (onselectionchange c).

Definition setInterval (v : bool) (c : Chrome) : Chrome :=
  mkChrome (hasIntersectionObserver c) (hasGetSelection c) (hasSelectionToString c)
           (hasLocalStorage c) (controls c) (headers c) (parents c) (bookmarkable c)
           (ebIDsAssigned c) (ebFingerprintsAssigned c) v
           (listeners c) (onselectionchange c).

Definition setListeners (v : list Listener) (c : Chrome) : Chrome :=
  mkChrome (hasIntersectionObserver c) (hasGetSelection c) (hasSelectionToString c)
           (hasLocalStorage c) (controls c) (headers c) (parents c) (bookmarkable c)
           (ebIDsAssigned c) (ebFingerprintsAssigned c) (ebBookmarksCheckForIDs c)
           v (onselectionchange c).

Definition setOnselectionchange (v : bool) (c : Chrome) : Chrome :=
  mkChrome (hasIntersectionObserver c) (hasGetSelection c) (hasSelectionToString c)
           (hasLocalStorage c) (controls c) (headers c) (parents c) (bookmarkable c)
           (ebIDsAssigned c) (ebFingerprintsAssigned c) (ebBookmarksCheckForIDs c)
           (listeners c) v.

(** ** The monad of the start *)

Definition B (A : Type) : Type := Browser -> Completion A * Browser.

Definition retB {A} (a : A) : B A := fun b => (Normal a, b).

Definition bindB {A A'} (m : B A) (f : A -> B A') : B A' :=
  fun b =>
    match m b with
    | (Normal a, b') => f a b'
    | (Throw e, b') => (Throw e, b')
    end.

Definition throwB {A} (e : Error) : B A := fun b => (Throw e, b).

(** A function of the script that acts on the [World] alone. *)
Definition lift {A} (m : M A) : B A :=
  fun b =>
    match m (world b) with
    | (r, w') => (r, mkBrowser w' (chrome b))
    end.

Declare Scope browser_scope.
Delimit Scope browser_scope with B.
Notation "x <- m ;; k" := (bindB m (fun x => k))
  (at level 61, m at next level, right associativity) : browser_scope.
Notation "m ;; k" := (bindB m (fun _ => k))
  (at level 61, right associativity) : browser_scope.

Definition getChrome : B Chrome := fun b => (Normal (chrome b), b).

Definition putChrome (c : Chrome) : B unit :=
  fun b => (Normal tt, mkBrowser (world b) c).

(** Reading through what a query found, a [TypeError] when it is [null]. *)
Definition derefB {A} (o : option A) : B A :=
  match o with
  | Some a => retB a
  | None => throwB TypeError
  end.

(** [xs.forEach(f)]. *)
Fixpoint forEachB {A} (f : A -> B unit) (xs : list A) : B unit :=
  match xs with
  | [] => retB tt
  | x :: xs' => (f x ;; forEachB f xs')%B
  end.

(** [addEventListener] and [observe]. *)
Definition register (l : Listener) : B unit :=
  (c <- getChrome ;;
   putChrome (setListeners (listeners c ++ [l]) c))%B.

(** The positions of the members of a list that satisfy a test. *)
Definition positions {A} (p : A -> bool) (l : list A) : list nat :=
  filter (fun n => match nth_error l n with
                   | Some x => p x
                   | None => false
                   end) (seq 0 (length l)).

(** [document.querySelectorAll(ebBookmarkableElements)], with the
    selector ['#content [id]']. *)
Definition queryBookmarkable : B (list nat) :=
  fun b => (Normal (bookmarkable (chrome b)), b).

(** ** The test of the browser *)

(** [ebBookmarksSupport].  Its last test, [Storage !== 'undefined'],
    compares the constructor with a text and is true in every browser
    that passes the test before it. *)
Definition ebBookmarksSupport : B bool :=
  (c <- getChrome ;;
   if hasIntersectionObserver c
      && hasGetSelection c
      && hasSelectionToString c
      && hasLocalStorage c
   then retB true
   else
     bookmarking <- derefB (controls c) ;;
     putChrome (setControls (Some (mkControls (visuallyhidden bookmarking) (Some "none"))) c) ;;
     retB false)%B.

(** ** Elements in the viewport *)

(** [ebBookmarksMarkVisibleElements].  Its filter compares the id with
    the text ['undefined'].  Without [IntersectionObserver] the loop of
    the fallback reads [window.scrollTop], which is [undefined], so its
    test is false for every element, and the branch it takes reads
    [element.target], which an element does not have, to call
    [setAttribute] on it. *)
Definition ebBookmarksMarkVisibleElements (elements : list nat) : B unit :=
  (elementsWithIDs <-
     lift (filterM (fun element =>
                      (e <- node (Some element) ;;
                       ret (negb (el_id e =? "undefined")%string))%js) elements) ;;
   c <- getChrome ;;
   if hasIntersectionObserver c
   then forEachB (fun element => register (Observe element)) elementsWithIDs
   else forEachB (fun _ => throwB TypeError) elementsWithIDs)%B.

(** [ebBookmarksAddButtons]. *)
Definition ebBookmarksAddButtons (elements : list nat) (action : option string) : B unit :=
  if match action with Some a => truthy a | None => false end
  then forEachB (fun element =>
                   register (ToggleButton (match action with Some a => a | None => "" end)
                                          element)) elements
  else retB tt.

(** ** The panel *)

(** [ebBookmarksOpenOnClick]: the listener is added to the button. *)
Definition ebBookmarksOpenOnClick : B unit :=
  (c <- getChrome ;;
   derefB (controls c) ;;
   register OpenModal)%B.

Definition set_open (v : bool) (h : Header) : Header :=
  mkHeader (h_bookmarks h) (h_lastLocations h) v (h_parent h).

(** [header.classList.add] or [remove] of [bookmarks-list-header-open],
    a [TypeError] when the header is [null]. *)
Definition setOpen (header : option nat) (v : bool) : B unit :=
  (c <- getChrome ;;
   derefB (match header with
           | Some n => nth_error (headers c) n
           | None => None
           end) ;;
   putChrome (setHeaders (updateNth (match header with Some n => n | None => O end)
                                    (set_open v) (headers c)) c))%B.

(** [header.parentElement.classList.add] or [remove] of
    [bookmarks-list-open], a [TypeError] when there is no such parent. *)
Definition setListOpen (header : nat) (v : bool) : B unit :=
  (c <- getChrome ;;
   h <- derefB (nth_error (headers c) header) ;;
   derefB (nth_error (parents c) (h_parent h)) ;;
   putChrome (setParents (updateNth (h_parent h) (fun _ => v) (parents c)) c))%B.

(** The listener [ebBookmarkListsOpenOnClick] adds to a list header,
    for one click on that header. *)
Definition openList (header : nat) : B unit :=
  (c <- getChrome ;;
   match findIndex h_open (headers c) with
   | Some openHeader =>
       setOpen (Some openHeader) false ;;
       setOpen (Some header) true ;;
       setListOpen openHeader false ;;
       setListOpen header true
   | None => retB tt
   end)%B.

(** [ebBookmarkListsOpenOnClick]. *)
Definition ebBookmarkListsOpenOnClick : B unit :=
  (c <- getChrome ;;
   let listHeaders := positions (fun h => h_bookmarks h || h_lastLocations h) (headers c) in
   forEachB (fun header => register (OpenList header)) listHeaders ;;
   c' <- getChrome ;;
   let bookmarksListHeader := findIndex h_bookmarks (headers c') in
   setOpen bookmarksListHeader true)%B.

(** [ebBookmarksListenForTextSelection]: the handler is assigned. *)
Definition ebBookmarksListenForTextSelection : B unit :=
  (c <- getChrome ;;
   putChrome (setOnselectionchange true c))%B.

(** ** The main process *)

(** [ebBookmarksProcess]. *)
Definition ebBookmarksProcess : B unit :=
  (lift ebBookmarksSessionDate ;;
   lift ebBookmarksCreateFingerprintIndex ;;
   c <- getChrome ;;
   bookmarksControls <- derefB (controls c) ;;
   putChrome (setControls (Some (mkControls false (display bookmarksControls))) c) ;;
   ebBookmarksOpenOnClick ;;
   ebBookmarkListsOpenOnClick ;;
   register StoreLastLocation ;;
   elements <- queryBookmarkable ;;
   ebBookmarksMarkVisibleElements elements ;;
   elements' <- queryBookmarkable ;;
   ebBookmarksAddButtons elements' None ;;
   lift ebBookmarksCheckForBookmarks ;;
   ebBookmarksListenForTextSelection)%B.

(** [ebBookmarksInit]. *)
Definition ebBookmarksInit : B unit :=
  (supported <- ebBookmarksSupport ;;
   if supported then ebBookmarksProcess else retB tt)%B.

(** ** The poller *)

(** The callback of the interval [ebBookmarksCheckForIDs]. *)
Definition checkForIDs : B unit :=
  (c <- getChrome ;;
   if ebIDsAssigned c && ebFingerprintsAssigned c
   then
     ebBookmarksInit ;;
     c' <- getChrome ;;
     putChrome (setInterval false c')
   else retB tt)%B.


(** ** Vocabulary of the statements about the start *)

Definition resultB {A} (m : B A) (b : Browser) : Completion A := fst (m b).
Definition afterB {A} (m : B A) (b : Browser) : Browser := snd (m b).

(** The browser passes the test of [ebBookmarksSupport]. *)
Definition supported (c : Chrome) : bool :=
  hasIntersectionObserver c && hasGetSelection c && hasSelectionToString c
  && hasLocalStorage c.

(** [setup.js] has assigned the ids and the fingerprints. *)
Definition ready (c : Chrome) : bool := ebIDsAssigned c && ebFingerprintsAssigned c.

(** The session identifier of the tab once [ebBookmarksSessionDate] was
    called: the one it has, or the time of the call. *)
Definition sessionOf (w : World) : string :=
  match ss_sessionDate (sessionStorage w) with
  | Some s => if truthy s then s else string_of_Z (clock w)
  | None => string_of_Z (clock w)
  end.

(** The world of a tab that has the session identifier [session]. *)
Definition inSession (session : string) (w : World) : World :=
  setSession (mkSession (Some session) (ss_index (sessionStorage w))) w.

(** The bookmarkable elements are elements of the page. *)
Definition bookmarkableOnPage (b : Browser) : Prop :=
  forall n, In n (bookmarkable (chrome b)) ->
            nth_error (elements (document (world b))) n <> None.

(** The elements the start has observed: the bookmarkable ones, but for
    an element whose id is the text ['undefined']. *)
Definition observedElements (b : Browser) : list nat :=
  filter (fun n => match nth_error (elements (document (world b))) n with
                   | Some e => negb (el_id e =? "undefined")%string
                   | None => false
                   end) (bookmarkable (chrome b)).

(** What a start that reaches its end registers, in that order. *)
Definition registeredAtStart (b : Browser) : list Listener :=
  (OpenModal
   :: map OpenList (positions (fun h => h_bookmarks h || h_lastLocations h)
                              (headers (chrome b)))
   ++ StoreLastLocation
   :: map Observe (observedElements b))%list.

(** The world once the start has set the session identifier and
    written the index of fingerprints. *)
Definition started (w : World) : World :=
  after ebBookmarksCreateFingerprintIndex (inSession (sessionOf w) w).

(** The chrome once the start has shown the button [ctl], opened the
    header at [first] and registered its listeners. *)
Definition startedChrome (ctl : Controls) (first : nat) (b : Browser) : Chrome :=
  setListeners (listeners (chrome b) ++ registeredAtStart b)
    (setHeaders (updateNth first (set_open true) (headers (chrome b)))
       (setControls (Some (mkControls false (display ctl))) (chrome b))).



(** The header at position [n] is the one that is open, and no other. *)
Definition onlyOpen (n : nat) (c : Chrome) : Prop :=
  forall i h, nth_error (headers c) i = Some h -> h_open h = (i =? n)%nat.

(** No list is marked as open but the parent of the header at [n]. *)
Definition listsClosedBut (n : nat) (c : Chrome) : Prop :=
  forall p, nth_error (parents c) p = Some true ->
            exists h, nth_error (headers c) n = Some h /\ p = h_parent h.

(** A header the listener was added to, with its parent in the page. *)
Definition clickable (c : Chrome) (n : nat) : Prop :=
  exists h, nth_error (headers c) n = Some h /\
            h_bookmarks h || h_lastLocations h = true /\
            (h_parent h < length (parents c))%nat.

(** * Sample browsers *)

(** The panel with its two headers, each in its list, as the page is
    served: the button hidden, no header open. *)
Definition servedChrome : Chrome :=
  mkChrome true true true true
           (Some (mkControls true None))
           [mkHeader true false false 0; mkHeader false true false 1]
           [false; false]
           [0%nat; 1%nat]
           true true true [] false.

(** The reading page in a browser that has all the script needs, once
    [setup.js] is done. *)
Definition readingBrowser : Browser := mkBrowser readingPage servedChrome.


(** * Properties *)

Local Open Scope list_scope.

(** ** Running computations *)

Lemma bind_normal {A B} (m : M A) (f : A -> M B) w a w' :
  m w = (Normal a, w') -> bind m f w = f a w'.
Proof. unfold bind; intros ->; reflexivity. Qed.

Lemma bind_throw {A B} (m : M A) (f : A -> M B) w e w' :
  m w = (Throw e, w') -> bind m f w = (Throw e, w').
Proof. unfold bind; intros ->; reflexivity. Qed.

Arguments bind_normal {A B m f w a w'} _.
Arguments bind_throw {A B m f w e w'} _.

Section Preserves.

Context (R : World -> World -> Prop) `{!PreOrder R}.

Lemma preserves_ret {A} (a : A) : preserves R (ret a).
Proof. intros w; reflexivity. Qed.

Lemma preserves_throw {A} e : preserves R (@throw A e).
Proof. intros w; reflexivity. Qed.

Lemma preserves_reader {A} (g : World -> A) :
  preserves R (fun w => (Normal (g w), w)).
Proof. intros w; reflexivity. Qed.

Lemma preserves_bind {A B} (m : M A) (f : A -> M B) :
  preserves R m -> (forall a, preserves R (f a)) -> preserves R (bind m f).
Proof.
  intros Hm Hf w. unfold after, bind.
  specialize (Hm w). unfold after in Hm.
  destruct (m w) as [[a|e] w']; simpl in *; [|assumption].
  etransitivity; [eassumption|]. apply Hf.
Qed.

Lemma preserves_forEach {A} (f : A -> M unit) xs :
  (forall x, preserves R (f x)) -> preserves R (forEach f xs).
Proof.
  intros Hf. induction xs as [|x xs IH]; simpl.
  - apply preserves_ret.
  - apply preserves_bind; auto.
Qed.

Lemma preserves_forEachPush {A B} (f : list B -> A -> M (list B)) xs acc :
  (forall acc x, preserves R (f acc x)) -> preserves R (forEachPush f xs acc).
Proof.
  intros Hf. revert acc. induction xs as [|x xs IH]; intros acc; simpl.
  - apply preserves_ret.
  - apply preserves_bind; auto.
Qed.

Lemma preserves_filterM {A} (p : A -> M bool) xs :
  (forall x, preserves R (p x)) -> preserves R (filterM p xs).
Proof.
  intros Hp. induction xs as [|x xs IH]; simpl.
  - apply preserves_ret.
  - apply preserves_bind; [apply Hp|]. intros keep.
    apply preserves_bind; [exact IH|]. intros rest. apply preserves_ret.
Qed.

Lemma preserves_deref {A} (o : option A) : preserves R (deref o).
Proof. destruct o; [apply preserves_ret | apply preserves_throw]. Qed.

Lemma preserves_JSON_parse item : preserves R (JSON_parse item).
Proof.
  destruct item as [[b|s]|]; simpl;
    [apply preserves_ret | apply preserves_throw | apply preserves_ret].
Qed.

End Preserves.

Lemma preserves_weaken (R1 R2 : World -> World -> Prop) {A} (m : M A) :
  (forall w w', R1 w w' -> R2 w w') -> preserves R1 m -> preserves R2 m.
Proof. intros H H1 w. apply H, H1. Qed.

(** Going through the binds, loops and branches of a computation. *)
Ltac preserve :=
  unfold objectKeys, getItem, getSessionDate, getIndex, getDocument, dateNow;
  repeat first
    [ apply preserves_ret; exact _
    | apply preserves_throw; exact _
    | apply preserves_deref; exact _
    | apply preserves_JSON_parse; exact _
    | apply preserves_reader; exact _
    | apply preserves_bind; [exact _ | | intros ?]
    | apply preserves_forEach; [exact _ | intros ?]
    | apply preserves_forEachPush; [exact _ | intros ? ?]
    | apply preserves_filterM; [exact _ | intros ?]
    | match goal with
      | |- preserves _ (if ?c then _ else _) => destruct c
      | |- preserves _ (match ?c with _ => _ end) => destruct c
      end ].

(** ** Facts about the storage primitives *)

Lemma lookup_remove {V} k key (l : list (string * V)) :
  lookup k (remove key l) = if (k =? key)%string then None else lookup k l.
Proof.
  induction l as [|[k' v] l IH]; simpl.
  - destruct (k =? key)%string; reflexivity.
  - destruct (String.eqb_spec key k') as [->|Hne]; simpl.
    + rewrite IH. destruct (String.eqb_spec k k'); reflexivity.
    + rewrite IH. destruct (String.eqb_spec k k') as [->|Hne'].
      * destruct (String.eqb_spec k' key); [congruence | reflexivity].
      * reflexivity.
Qed.

Lemma lookup_assign {V} k key (v : V) (l : list (string * V)) :
  lookup k (assign key v l) = if (k =? key)%string then Some v else lookup k l.
Proof.
  induction l as [|[k' v'] l IH]; simpl.
  - reflexivity.
  - destruct (String.eqb_spec key k') as [->|Hne]; simpl.
    + destruct (String.eqb_spec k k'); reflexivity.
    + rewrite IH. destruct (String.eqb_spec k k') as [->|Hne'].
      * destruct (String.eqb_spec k' key); [congruence | reflexivity].
      * reflexivity.
Qed.

Lemma lookup_In {V} k (v : V) (l : list (string * V)) :
  lookup k l = Some v -> In (k, v) l.
Proof.
  induction l as [|[k' v'] l IH]; simpl; [discriminate|].
  destruct (String.eqb_spec k k') as [->|Hne].
  - intros [= ->]. now left.
  - intros H. right. auto.
Qed.

Lemma lookup_NoDup {V} k (v : V) (l : list (string * V)) :
  NoDup (map fst l) -> In (k, v) l -> lookup k l = Some v.
Proof.
  induction l as [|[k' v'] l IH]; simpl; [contradiction|].
  intros Hnd [[= -> ->]|Hin].
  - now rewrite String.eqb_refl.
  - inversion Hnd as [|? ? Hnotin Hnd']; subst.
    destruct (String.eqb_spec k k') as [->|Hne].
    + exfalso. apply Hnotin. apply (in_map fst) in Hin. exact Hin.
    + auto.
Qed.

(** ** The session identifier *)

Lemma string_of_Z_truthy n : truthy (string_of_Z n) = true.
Proof.
  unfold string_of_Z, NilZero.string_of_int.
  destruct (Z.to_int n) as [d|d]; [|reflexivity].
  unfold NilZero.string_of_uint. destruct d; reflexivity.
Qed.

(** Once an identifier is stored, the function returns it and writes
    nothing. *)
Lemma ebBookmarksSessionDate_established w s :
  ss_sessionDate (sessionStorage w) = Some s -> truthy s = true ->
  ebBookmarksSessionDate w = (Normal (VStr s), w).
Proof.
  intros Hs Ht. unfold ebBookmarksSessionDate, bind, getSessionDate, ret.
  rewrite Hs, Ht. rewrite Hs. reflexivity.
Qed.

(** Without one, it returns the clock as a number and stores its text. *)
Lemma ebBookmarksSessionDate_fresh w :
  match ss_sessionDate (sessionStorage w) with
  | Some s => truthy s
  | None => false
  end = false ->
  ebBookmarksSessionDate w =
    (Normal (VNum (clock w)),
     setSession (mkSession (Some (string_of_Z (clock w)))
                           (ss_index (sessionStorage w))) w).
Proof.
  intros H. unfold ebBookmarksSessionDate, bind, getSessionDate.
  simpl. rewrite H. reflexivity.
Qed.

(** Every call after the first returns the stored text, the one the
    first call returned or wrote, and leaves the world as it is. *)
Lemma ebBookmarksSessionDate_repeat w :
  exists v,
    result ebBookmarksSessionDate w = Normal v /\
    ebBookmarksSessionDate (after ebBookmarksSessionDate w)
    = (Normal (VStr (toStr v)), after ebBookmarksSessionDate w).
Proof.
  unfold result, after.
  destruct (match ss_sessionDate (sessionStorage w) with
            | Some s => truthy s
            | None => false
            end) eqn:E.
  - destruct (ss_sessionDate (sessionStorage w)) as [s|] eqn:Hs; [|discriminate].
    rewrite (ebBookmarksSessionDate_established w Hs E). simpl.
    exists (VStr s). split; [reflexivity|].
    apply ebBookmarksSessionDate_established; assumption.
  - rewrite (ebBookmarksSessionDate_fresh w E). simpl.
    exists (VNum (clock w)). split; [reflexivity|].
    apply ebBookmarksSessionDate_established; [reflexivity|].
    apply string_of_Z_truthy.
Qed.

(** C3, at the first two calls of a tab: the first call returns the
    number 1700000000000 and the second the string "1700000000000",
    which [===] does not take for the same value; so not every call of a
    session returns an identical value. *)
Theorem sessionDate_first_call_is_a_number :
  result ebBookmarksSessionDate freshTab = Normal (VNum 1700000000000) /\
  result ebBookmarksSessionDate (after ebBookmarksSessionDate freshTab)
  = Normal (VStr "1700000000000") /\
  strictEq (VNum 1700000000000) (VStr "1700000000000") = false.
Proof. repeat split. Qed.

(** ** What pruning may touch *)

#[local] Instance sameLocal_PreOrder : PreOrder sameLocal.
Proof.
  split.
  - intros w; reflexivity.
  - intros w1 w2 w3 H12 H23. unfold sameLocal in *. congruence.
Qed.

#[local] Instance prunedOnlyW_PreOrder title : PreOrder (prunedOnlyW title).
Proof.
  split.
  - intros w k. now left.
  - intros w1 w2 w3 H12 H23 k.
    destruct (H23 k) as [E23|(Hk & b & Hb & Ht & Hn)].
    + destruct (H12 k) as [E12|(Hk & b & Hb & Ht & Hn)].
      * left. congruence.
      * right. split; [assumption|]. exists b. repeat split; congruence.
    + destruct (H12 k) as [E12|(_ & _ & _ & _ & Hn')]; [|congruence].
      right. split; [assumption|]. exists b. repeat split; congruence.
Qed.

Lemma sameLocal_prunedOnlyW title w w' : sameLocal w w' -> prunedOnlyW title w w'.
Proof. intros H k. left. unfold sameLocal in H. now rewrite H. Qed.

Lemma ebBookmarksSessionDate_sameLocal : preserves sameLocal ebBookmarksSessionDate.
Proof.
  unfold ebBookmarksSessionDate. preserve; intros w; reflexivity.
Qed.

Lemma ebBookmarksCleanLastLocations_prunedOnly title :
  preserves (prunedOnlyW title) (ebBookmarksCleanLastLocations title).
Proof.
  unfold ebBookmarksCleanLastLocations, objectKeys.
  apply preserves_bind; [exact _ | apply preserves_reader; exact _ |].
  intros keys.
  apply preserves_bind; [exact _ | |].
  { apply preserves_forEachPush; [exact _|]. intros acc key.
    unfold collectLastLocation. preserve. }
  intros lastLocations.
  apply preserves_bind; [exact _ | |].
  { apply preserves_filterM; [exact _|]. intros location. unfold notThisSession.
    apply preserves_bind; [exact _ | | intros current; apply preserves_ret; exact _].
    eapply preserves_weaken; [apply sameLocal_prunedOnlyW|].
    apply ebBookmarksSessionDate_sameLocal. }
  intros previous.
  apply preserves_bind; [exact _ | apply preserves_reader; exact _ |].
  intros keys'.
  apply preserves_forEach; [exact _|]. intros key w.
  unfold removeUnlessKept, after, bind, getItem.
  destruct (isLastLocationKey key) eqn:Hkey; simpl; [|reflexivity].
  destruct (lookup key (localStorage w)) as [[b|s]|] eqn:Hlook; simpl;
    try reflexivity.
  destruct (String.eqb_spec title (b_bookTitle b)) as [Ht|Ht]; [|reflexivity].
  destruct (countMatches key _ =? 0)%nat; simpl; [|reflexivity].
  intros k. simpl. rewrite lookup_remove.
  destruct (String.eqb_spec k key) as [->|Hne]; [|now left].
  right. split; [assumption|]. exists b. repeat split; congruence.
Qed.

(** C10: pruning the last locations of a title removes nothing but
    entries under a last-location key whose record has that title, and
    changes no entry: an entry under a key without the bookmark prefix
    or without the last-location segment (the setting of another
    script) and a record of another title are as before, and so is
    every user bookmark that is stored under a key that is not a
    last-location key, as the key of its type is. *)
Theorem ebBookmarksCleanLastLocations_frame title w :
  let ls := localStorage w in
  let ls' := localStorage (after (ebBookmarksCleanLastLocations title) w) in
  (forall k,
     lookup k ls' = lookup k ls \/
     (startsWith k "bookmark-" = true /\ includes k "-lastLocation-" = true /\
      exists b, lookup k ls = Some (Json b) /\ b_bookTitle b = title /\
                lookup k ls' = None)) /\
  (forall k, startsWith k "bookmark-" = false -> lookup k ls' = lookup k ls) /\
  (forall k, includes k "-lastLocation-" = false -> lookup k ls' = lookup k ls) /\
  (forall k b, lookup k ls = Some (Json b) -> b_bookTitle b <> title ->
               lookup k ls' = Some (Json b)) /\
  (forall k b, lookup k ls = Some (Json b) -> b_type b = "userBookmark"%string ->
               isLastLocationKey k = false -> lookup k ls' = Some (Json b)).
Proof.
  intros ls ls'.
  pose proof (ebBookmarksCleanLastLocations_prunedOnly title w) as H.
  change (prunedOnly title ls ls') in H.
  assert (Hk : forall k, isLastLocationKey k = true ->
                         startsWith k "bookmark-" = true /\
                         includes k "-lastLocation-" = true).
  { intros k. unfold isLastLocationKey. apply andb_true_iff. }
  repeat split.
  - intros k. destruct (H k) as [E|(Hll & b & Hb & Ht & Hn)]; [now left|].
    right. destruct (Hk k Hll). repeat split; try assumption. now exists b.
  - intros k Hp. destruct (H k) as [E|(Hll & _)]; [assumption|].
    destruct (Hk k Hll). congruence.
  - intros k Hp. destruct (H k) as [E|(Hll & _)]; [assumption|].
    destruct (Hk k Hll). congruence.
  - intros k b Hb Ht. destruct (H k) as [E|(_ & b' & Hb' & Ht' & _)]; [congruence|].
    congruence.
  - intros k b Hb _ Hnot. destruct (H k) as [E|(Hll & _)]; congruence.
Qed.

Lemma ebBookmarksCleanLastLocations_frame_witness :
  let w := tabOf mixedStorage "1700000000300" in
  let ls' := localStorage (after (ebBookmarksCleanLastLocations "Book") w) in
  lookup "theme" ls' = Some (Raw "dark") /\
  lookup "bookmark-book-userBookmark" ls'
  = Some (Json (sampleRecord "userBookmark" "Book" "1700000000100"
                             "bookmark-book-userBookmark")) /\
  lookup "bookmark-other-lastLocation-1700000000100" ls'
  = lookup "bookmark-other-lastLocation-1700000000100" mixedStorage /\
  lookup "bookmark-book-lastLocation-1700000000100" ls' = None.
Proof.
  intros w ls'.
  destruct (ebBookmarksCleanLastLocations_frame "Book" w) as (H1 & H2 & H3 & H4 & H5).
  split; [apply (H2 "theme"); reflexivity|].
  split; [apply (H5 "bookmark-book-userBookmark"%string); reflexivity|].
  split; [|reflexivity].
  apply (H4 "bookmark-other-lastLocation-1700000000100"
            (sampleRecord "lastLocation" "Other" "1700000000100"
                          "bookmark-other-lastLocation-1700000000100"));
    [reflexivity | discriminate].
Defined.

(** ** Resolving an element against the fingerprint index *)

Lemma findIndex_Some {A} (p : A -> bool) l n :
  findIndex p l = Some n -> exists x, nth_error l n = Some x /\ p x = true.
Proof.
  revert n. induction l as [|y l IH]; simpl; intros n; [discriminate|].
  destruct (p y) eqn:Hy.
  - intros [= <-]. exists y. now split.
  - destruct (findIndex p l) as [m|]; simpl; [|discriminate].
    intros [= <-]. apply IH. reflexivity.
Qed.

Lemma findIndex_None {A} (p : A -> bool) l :
  findIndex p l = None -> forall x, In x l -> p x = false.
Proof.
  induction l as [|y l IH]; simpl; [contradiction|].
  destruct (p y) eqn:Hy; [discriminate|].
  destruct (findIndex p l); simpl; [discriminate|].
  intros _ x [<-|Hin]; auto.
Qed.

Lemma ebBookmarksFingerprintID_unfold elementID w :
  ebBookmarksFingerprintID elementID w =
  match elementById (document w) elementID with
  | None => (Normal NotFound, w)
  | Some element =>
      match el_fingerprint element, ss_index (sessionStorage w) with
      | Some fingerprint, Some index =>
          if truthy fingerprint then
            match lookup fingerprint index with
            | Some indexedID =>
                if (elementID =? indexedID)%string
                then (Normal (Verified indexedID), w)
                else (Normal Unverified, alerted bookmarks_shifted_warning w)
            | None => (Normal Unverified, alerted bookmarks_shifted_warning w)
            end
          else (Normal NotFound, w)
      | _, _ => (Normal NotFound, w)
      end
  end.
Proof.
  unfold ebBookmarksFingerprintID, elementById, getElementById, findById, node,
    getIndex, getDocument, bind, ret. simpl.
  destruct (truthy elementID); [|reflexivity].
  destruct (findIndex _ (elements (document w))) as [n|] eqn:Hn; [|reflexivity].
  destruct (findIndex_Some _ _ Hn) as (e & He & _). rewrite He. simpl.
  destruct (el_fingerprint e) as [fp|]; [|reflexivity].
  destruct (ss_index (sessionStorage w)) as [index|]; [|reflexivity].
  destruct (truthy fp); [|reflexivity].
  destruct (lookup fp index) as [indexedID|]; [|reflexivity].
  destruct (elementID =? indexedID)%string; reflexivity.
Qed.

(** C6: [ebBookmarksFingerprintID] returns "not found" (false) and shows
    nothing when the document has no element with the id, when the
    element has no fingerprint or when there is no index; when the index
    does not give the live id for the fingerprint of the element it
    alerts the user once and returns no identifier; when it gives the
    live id it returns that id, and shows nothing. *)
Theorem ebBookmarksFingerprintID_resolves elementID w :
  (elementById (document w) elementID = None ->
   ebBookmarksFingerprintID elementID w = (Normal NotFound, w)) /\
  (forall element,
     elementById (document w) elementID = Some element ->
     match el_fingerprint element with
     | Some fingerprint => truthy fingerprint
     | None => false
     end = false \/ ss_index (sessionStorage w) = None ->
     ebBookmarksFingerprintID elementID w = (Normal NotFound, w)) /\
  (forall element fingerprint index,
     elementById (document w) elementID = Some element ->
     el_fingerprint element = Some fingerprint -> truthy fingerprint = true ->
     ss_index (sessionStorage w) = Some index ->
     lookup fingerprint index <> Some elementID ->
     ebBookmarksFingerprintID elementID w
     = (Normal Unverified, alerted bookmarks_shifted_warning w)) /\
  (forall element fingerprint index,
     elementById (document w) elementID = Some element ->
     el_fingerprint element = Some fingerprint -> truthy fingerprint = true ->
     ss_index (sessionStorage w) = Some index ->
     lookup fingerprint index = Some elementID ->
     ebBookmarksFingerprintID elementID w = (Normal (Verified elementID), w)).
Proof.
  rewrite ebBookmarksFingerprintID_unfold.
  split; [intros ->; reflexivity|].
  split; [|split].
  - intros element -> [Hf|Hi].
    + destruct (el_fingerprint element) as [fp|]; [|reflexivity].
      rewrite Hf. destruct (ss_index (sessionStorage w)); reflexivity.
    + rewrite Hi. destruct (el_fingerprint element); reflexivity.
  - intros element fp index -> -> Ht -> Hne. rewrite Ht.
    destruct (lookup fp index) as [indexedID|]; [|reflexivity].
    destruct (String.eqb_spec elementID indexedID) as [->|_]; [congruence|reflexivity].
  - intros element fp index -> -> Ht -> ->. rewrite Ht.
    now rewrite String.eqb_refl.
Qed.

Lemma ebBookmarksFingerprintID_resolves_witness :
  ebBookmarksFingerprintID "sec-1" shiftedPage = (Normal NotFound, shiftedPage) /\
  ebBookmarksFingerprintID "sec-5" shiftedPage = (Normal NotFound, shiftedPage) /\
  ebBookmarksFingerprintID "sec-9" shiftedPage
  = (Normal Unverified, alerted bookmarks_shifted_warning shiftedPage) /\
  ebBookmarksFingerprintID "sec-4" shiftedPage = (Normal (Verified "sec-4"), shiftedPage).
Proof.
  split; [apply (ebBookmarksFingerprintID_resolves "sec-1" shiftedPage); reflexivity|].
  split.
  { destruct (ebBookmarksFingerprintID_resolves "sec-5" shiftedPage) as (_ & H & _).
    apply (H (mkElement "sec-5" "No fingerprint." None None None None None None));
      [reflexivity | left; reflexivity]. }
  split.
  { destruct (ebBookmarksFingerprintID_resolves "sec-9" shiftedPage) as (_ & _ & H & _).
    apply (H (mkElement "sec-9" "Moved paragraph." (Some "abc") None None None None None)
             "abc"%string [("abc", "sec-3"); ("def", "sec-4")]%string);
      try reflexivity. discriminate. }
  destruct (ebBookmarksFingerprintID_resolves "sec-4" shiftedPage) as (_ & _ & _ & H).
  apply (H (mkElement "sec-4" "Second paragraph." (Some "def") None None None None None)
           "def"%string [("abc", "sec-3"); ("def", "sec-4")]%string);
    reflexivity.
Defined.


(** ** The pruning, loop by loop *)

Lemma distinct_NoDup l : distinct l = true -> NoDup l.
Proof.
  induction l as [|x l IH]; simpl; intros H; [constructor|].
  apply andb_true_iff in H as [Hx Hl]. constructor; [|auto].
  intros Hin. apply negb_true_iff in Hx.
  assert (existsb (String.eqb x) l = true); [|congruence].
  apply existsb_exists. exists x. split; [assumption | apply String.eqb_refl].
Qed.

Lemma setLocal_setLocal ls ls' w : setLocal ls (setLocal ls' w) = setLocal ls w.
Proof. reflexivity. Qed.

Lemma setLocal_same w : setLocal (localStorage w) w = w.
Proof. destruct w; reflexivity. Qed.

Lemma lookup_app_notin {V} k (l1 l2 : list (string * V)) :
  ~ In k (map fst l1) -> lookup k (l1 ++ l2) = lookup k l2.
Proof.
  induction l1 as [|[k' v] l1 IH]; simpl; intros H; [reflexivity|].
  destruct (String.eqb_spec k k') as [->|Hne]; [exfalso; auto|].
  apply IH. intros Hin. auto.
Qed.

Lemma remove_notin {V} k (l : list (string * V)) :
  ~ In k (map fst l) -> remove k l = l.
Proof.
  induction l as [|[k' v] l IH]; simpl; intros H; [reflexivity|].
  destruct (String.eqb_spec k k') as [->|Hne]; [exfalso; auto|].
  simpl. f_equal. apply IH. intros Hin. auto.
Qed.

Lemma remove_app {V} k (l1 l2 : list (string * V)) :
  remove k (l1 ++ l2) = remove k l1 ++ remove k l2.
Proof. unfold remove. apply filter_app. Qed.

(** What the callback of the first loop does with an entry. *)
Lemma collectLastLocation_Json title acc k b w :
  lookup k (localStorage w) = Some (Json b) ->
  collectLastLocation title acc k w
  = (Normal (if isLastLocationKey k && (title =? b_bookTitle b)%string
             then acc ++ [b] else acc), w).
Proof.
  intros Hlook. unfold collectLastLocation, bind, getItem.
  destruct (isLastLocationKey k); [|reflexivity].
  rewrite Hlook. simpl.
  destruct (title =? b_bookTitle b)%string; [|reflexivity].
  rewrite Hlook. reflexivity.
Qed.

Lemma collectLastLocation_other title acc k w :
  isLastLocationKey k = false ->
  collectLastLocation title acc k w = (Normal acc, w).
Proof. intros Hk. unfold collectLastLocation. now rewrite Hk. Qed.

Lemma collectLastLocation_Raw title acc k s w :
  isLastLocationKey k = true ->
  lookup k (localStorage w) = Some (Raw s) ->
  collectLastLocation title acc k w = (Throw SyntaxError, w).
Proof.
  intros Hk Hlook. unfold collectLastLocation, bind, getItem.
  rewrite Hk, Hlook. reflexivity.
Qed.

Lemma lookup_middle {V} k (v : V) pre suf :
  NoDup (map fst (pre ++ (k, v) :: suf)) ->
  lookup k (pre ++ (k, v) :: suf) = Some v.
Proof.
  intros Hnd. rewrite lookup_app_notin.
  - simpl. now rewrite String.eqb_refl.
  - rewrite map_app in Hnd. simpl in Hnd.
    apply NoDup_remove_2 in Hnd. intros Hin. apply Hnd.
    apply in_or_app. now left.
Qed.

(** The first loop collects the records of the title when every
    last-location key holds a record. *)
Lemma collect_loop title w pre suf acc :
  localStorage w = pre ++ suf ->
  NoDup (map fst (pre ++ suf)) ->
  rawLastLocation suf = false ->
  forEachPush (collectLastLocation title) (map fst suf) acc w
  = (Normal (acc ++ titleLastLocations title suf), w).
Proof.
  revert pre acc. induction suf as [|[k v] suf IH]; intros pre acc Hls Hnd Hraw.
  - simpl. unfold ret. now rewrite app_nil_r.
  - simpl in Hraw. apply orb_false_iff in Hraw as [Hkv Hraw].
    assert (Hlook : lookup k (localStorage w) = Some v).
    { rewrite Hls. now apply lookup_middle. }
    assert (Hrest : forall acc',
      forEachPush (collectLastLocation title) (map fst suf) acc' w
      = (Normal (acc' ++ titleLastLocations title suf), w)).
    { intros acc'. apply (IH (pre ++ [(k, v)])).
      - now rewrite <- app_assoc.
      - now rewrite <- app_assoc.
      - assumption. }
    unfold titleLastLocations, titleEntries. simpl flat_map. simpl map at 1.
    cbn [forEachPush].
    destruct v as [b|s].
    + rewrite (bind_normal (collectLastLocation_Json title acc k w Hlook)).
      rewrite Hrest. unfold titleLastLocations, titleEntries.
      destruct (isLastLocationKey k && (title =? b_bookTitle b)%string); simpl.
      * now rewrite <- app_assoc.
      * reflexivity.
    + simpl in Hkv. rewrite andb_true_r in Hkv.
      rewrite (bind_normal (collectLastLocation_other title acc k w Hkv)).
      rewrite Hrest. reflexivity.
Qed.

(** It stops at the first last-location key that holds another text. *)
Lemma collect_loop_raw title w pre suf acc :
  localStorage w = pre ++ suf ->
  NoDup (map fst (pre ++ suf)) ->
  rawLastLocation suf = true ->
  forEachPush (collectLastLocation title) (map fst suf) acc w
  = (Throw SyntaxError, w).
Proof.
  revert pre acc. induction suf as [|[k v] suf IH]; intros pre acc Hls Hnd Hraw.
  - discriminate.
  - assert (Hlook : lookup k (localStorage w) = Some v).
    { rewrite Hls. now apply lookup_middle. }
    assert (Hrest : rawLastLocation suf = true -> forall acc',
      forEachPush (collectLastLocation title) (map fst suf) acc' w
      = (Throw SyntaxError, w)).
    { intros Hr acc'. apply (IH (pre ++ [(k, v)])).
      - now rewrite <- app_assoc.
      - now rewrite <- app_assoc.
      - assumption. }
    simpl in Hraw. cbn [map fst forEachPush].
    destruct v as [b|s].
    + rewrite andb_false_r in Hraw. simpl in Hraw.
      rewrite (bind_normal (collectLastLocation_Json title acc k w Hlook)).
      now apply Hrest.
    + rewrite andb_true_r in Hraw.
      destruct (isLastLocationKey k) eqn:Hk.
      * now rewrite (bind_throw (collectLastLocation_Raw title acc k w Hk Hlook)).
      * rewrite (bind_normal (collectLastLocation_other title acc k w Hk)).
        now apply Hrest.
Qed.

(** In a tab that has its session identifier the filter is the plain
    filter of the records of other sessions. *)
Lemma notThisSession_established session w location :
  sessionIs session w ->
  notThisSession location w = (Normal (isPrevious session location), w).
Proof.
  intros [Hs Ht]. unfold notThisSession.
  now rewrite (bind_normal (ebBookmarksSessionDate_established w Hs Ht)).
Qed.

Lemma filter_loop session w xs :
  sessionIs session w ->
  filterM notThisSession xs w = (Normal (filter (isPrevious session) xs), w).
Proof.
  intros Hs. induction xs as [|x xs IH]; [reflexivity|].
  cbn [filterM filter].
  rewrite (bind_normal (notThisSession_established x Hs)).
  rewrite (bind_normal IH). reflexivity.
Qed.

(** What the callback of the second loop does with an entry. *)
Lemma removeUnlessKept_eq title kept k v w :
  lookup k (localStorage w) = Some v ->
  (isLastLocationKey k = true -> exists b, v = Json b) ->
  removeUnlessKept title kept k w
  = (Normal tt,
     if keepEntry title kept (k, v) then w
     else setLocal (remove k (localStorage w)) w).
Proof.
  intros Hlook Hjson. unfold removeUnlessKept, keepEntry, bind, getItem. simpl.
  destruct (isLastLocationKey k); [|reflexivity].
  destruct Hjson as [b ->]; [reflexivity|].
  rewrite Hlook. simpl.
  destruct (title =? b_bookTitle b)%string; [|reflexivity].
  destruct (countMatches k kept =? 0)%nat; reflexivity.
Qed.

(** The second loop filters the storage. *)
Lemma remove_loop title kept w pre suf :
  NoDup (map fst (pre ++ suf)) ->
  rawLastLocation suf = false ->
  forEach (removeUnlessKept title kept) (map fst suf) (setLocal (pre ++ suf) w)
  = (Normal tt, setLocal (pre ++ filter (keepEntry title kept) suf) w).
Proof.
  revert pre. induction suf as [|[k v] suf IH]; intros pre Hnd Hraw.
  - reflexivity.
  - simpl in Hraw. apply orb_false_iff in Hraw as [Hkv Hraw].
    cbn [map fst forEach].
    assert (Hlook : lookup k (localStorage (setLocal (pre ++ (k, v) :: suf) w)) = Some v).
    { simpl. now apply lookup_middle. }
    assert (Hjson : isLastLocationKey k = true -> exists b, v = Json b).
    { intros Hk. rewrite Hk in Hkv. destruct v as [b|s]; [now exists b | discriminate]. }
    rewrite (bind_normal (removeUnlessKept_eq title kept k _ Hlook Hjson)).
    cbn [filter].
    destruct (keepEntry title kept (k, v)).
    + replace (pre ++ (k, v) :: suf) with ((pre ++ [(k, v)]) ++ suf)
        by now rewrite <- app_assoc.
      rewrite IH.
      * now rewrite <- app_assoc.
      * now rewrite <- app_assoc.
      * assumption.
    + cbn [localStorage setLocal].
      assert (Hrm : remove k (pre ++ (k, v) :: suf) = pre ++ suf).
      { rewrite map_app in Hnd. simpl in Hnd.
        pose proof (NoDup_remove_2 _ _ _ Hnd) as Hnotin.
        rewrite remove_app. unfold remove at 2. simpl.
        rewrite String.eqb_refl. simpl.
        fold (remove k suf).
        rewrite !remove_notin; [reflexivity| |];
          intros Hin; apply Hnotin; apply in_or_app; auto. }
      rewrite Hrm. rewrite setLocal_setLocal. apply IH; [|assumption].
      rewrite map_app in Hnd |- *. simpl in Hnd.
      now apply NoDup_remove_1 in Hnd.
Qed.

(** The whole pruning, in a tab that has its session identifier and on
    a storage whose last-location keys all hold records: the storage is
    filtered by what the kept records select, and nothing else changes. *)
Lemma ebBookmarksCleanLastLocations_eq title session w :
  sessionIs session w ->
  NoDup (map fst (localStorage w)) ->
  rawLastLocation (localStorage w) = false ->
  ebBookmarksCleanLastLocations title w
  = (Normal tt,
     setLocal (filter (keepEntry title
                         (retainedOf session (titleLastLocations title (localStorage w))))
                      (localStorage w)) w).
Proof.
  intros Hs Hu Hraw.
  unfold ebBookmarksCleanLastLocations.
  unfold objectKeys at 1. unfold bind at 1.
  rewrite (bind_normal (collect_loop title w [] (localStorage w) [] eq_refl Hu Hraw)).
  rewrite (bind_normal (filter_loop _ Hs)).
  cbn [app]. fold (retainedOf session (titleLastLocations title (localStorage w))).
  unfold objectKeys, bind.
  pose proof (remove_loop title
                (retainedOf session (titleLastLocations title (localStorage w)))
                w [] (localStorage w) Hu Hraw) as H.
  cbn [app] in H. rewrite setLocal_same in H. exact H.
Qed.

(** On a storage with another text under a last-location key the pruning
    throws before it removes anything. *)
Lemma ebBookmarksCleanLastLocations_raw title w :
  NoDup (map fst (localStorage w)) ->
  rawLastLocation (localStorage w) = true ->
  ebBookmarksCleanLastLocations title w = (Throw SyntaxError, w).
Proof.
  intros Hu Hraw.
  unfold ebBookmarksCleanLastLocations.
  unfold objectKeys at 1. unfold bind at 1.
  now rewrite (bind_throw (collect_loop_raw title w [] (localStorage w) [] eq_refl Hu Hraw)).
Qed.

(** ** Sorting and slicing *)

Lemma lastTwo_nil {A} : lastTwo (@nil A) = [].
Proof. reflexivity. Qed.

Lemma lastTwo_one {A} (a : A) : lastTwo [a] = [a].
Proof. reflexivity. Qed.

Lemma lastTwo_app {A} (pre : list A) a b : lastTwo (pre ++ [a; b]) = [a; b].
Proof.
  unfold lastTwo. rewrite length_app. simpl length.
  replace (Z.to_nat (Z.max (Z.of_nat (length pre + 2) - 2) 0)) with (length pre) by lia.
  rewrite skipn_app, skipn_all, Nat.sub_diag. reflexivity.
Qed.

Lemma lastTwo_cases {A} (l : list A) :
  l = [] \/ (exists a, l = [a]) \/ (exists pre a b, l = pre ++ [a; b]).
Proof.
  destruct l as [|x l] using rev_ind; [now left|]. right.
  destruct l as [|y l] using rev_ind.
  - left. now exists x.
  - right. exists l, y, x. now rewrite <- app_assoc.
Qed.

Lemma skipn_In {A} n (l : list A) x : In x (skipn n l) -> In x l.
Proof.
  intros H. rewrite <- (firstn_skipn n l). apply in_or_app. now right.
Qed.

Lemma lastTwo_incl {A} (l : list A) x : In x (lastTwo l) -> In x l.
Proof. unfold lastTwo. apply skipn_In. Qed.

Lemma insertBy_In {A} (cmp : A -> A -> option Z) x y l :
  In y (insertBy cmp x l) <-> y = x \/ In y l.
Proof.
  induction l as [|z l IH]; simpl.
  - intuition.
  - destruct (match cmp x z with Some d => 0 <? d | None => false end); simpl.
    + rewrite IH. intuition.
    + intuition.
Qed.

Lemma sortBy_In {A} (cmp : A -> A -> option Z) y l :
  In y (sortBy cmp l) <-> In y l.
Proof.
  induction l as [|x l IH]; simpl; [tauto|].
  rewrite insertBy_In, IH. intuition.
Qed.

Lemma insertBy_length {A} (cmp : A -> A -> option Z) x l :
  length (insertBy cmp x l) = S (length l).
Proof.
  induction l as [|z l IH]; simpl; [reflexivity|].
  destruct (match cmp x z with Some d => 0 <? d | None => false end); simpl; auto.
Qed.

Lemma sortBy_length {A} (cmp : A -> A -> option Z) l :
  length (sortBy cmp l) = length l.
Proof.
  induction l as [|x l IH]; simpl; [reflexivity|].
  now rewrite insertBy_length, IH.
Qed.

Lemma lastTwo_length {A} (l : list A) : (length (lastTwo l) <= 2)%nat.
Proof.
  destruct (lastTwo_cases l) as [->|[[a ->]|(pre & a & b & ->)]].
  - simpl. lia.
  - simpl. lia.
  - rewrite lastTwo_app. simpl. lia.
Qed.

(** ** What the pruning keeps *)

Lemma retainedOf_incl session collected r :
  In r (retainedOf session collected) -> In r collected.
Proof.
  unfold retainedOf. intros H. apply lastTwo_incl.
  apply (sortBy_In bySessionDate).
  destruct (1 <? _)%nat; [now apply skipn_In in H | assumption].
Qed.

(** The records kept are among the last two that were collected,
    whatever their session dates are. *)
Lemma retainedOf_among_last_two session collected r :
  In r (retainedOf session collected) -> In r (lastTwo collected).
Proof.
  unfold retainedOf. intros H. apply (sortBy_In bySessionDate).
  destruct (1 <? _)%nat; [now apply skipn_In in H | assumption].
Qed.

Lemma retainedOf_length session collected :
  (length (retainedOf session collected) <= 2)%nat.
Proof.
  unfold retainedOf.
  pose proof (lastTwo_length collected) as H.
  rewrite <- (sortBy_length bySessionDate) in H.
  destruct (1 <? _)%nat; [rewrite length_skipn; lia | assumption].
Qed.

Lemma retainedOf_nonempty session collected :
  collected <> [] -> retainedOf session collected <> [].
Proof.
  intros Hne. unfold retainedOf.
  assert (Hlen : (1 <= length (sortBy bySessionDate (lastTwo collected)))%nat).
  { rewrite sortBy_length.
    destruct (lastTwo_cases collected) as [->|[[a ->]|(pre & a & b & ->)]];
      [congruence | simpl; lia | rewrite lastTwo_app; simpl; lia]. }
  set (l := sortBy bySessionDate (lastTwo collected)) in *.
  destruct (1 <? length (filter (isPrevious session) l))%nat eqn:E.
  - apply Nat.ltb_lt in E.
    pose proof (filter_length_le (isPrevious session) l) as Hle.
    intros Hnil. apply (f_equal (@length _)) in Hnil.
    rewrite length_skipn in Hnil. simpl in Hnil. lia.
  - intros Hnil. rewrite Hnil in Hlen. simpl in Hlen. lia.
Qed.

(** The last two of a list are still its last two after a filter that
    keeps them. *)
Lemma retainedOf_filter_tail session (P : Bookmark -> bool) pre a b :
  P a = true -> P b = true ->
  retainedOf session (filter P (pre ++ [a; b])) = retainedOf session (pre ++ [a; b]).
Proof.
  intros Ha Hb. unfold retainedOf.
  rewrite filter_app. simpl. rewrite Ha, Hb. now rewrite !lastTwo_app.
Qed.

Lemma sameSession_refl b : sameSession b b = true.
Proof. apply String.eqb_refl. Qed.

Lemma sameSession_trans_l a b c :
  sameSession a c = true -> sameSession b c = true -> sameSession a b = true.
Proof.
  unfold sameSession. rewrite !String.eqb_eq. congruence.
Qed.

(** Pruning again keeps a record for every session date that survived
    the first pruning. *)
Lemma retainedOf_stable session collected :
  let retained := retainedOf session collected in
  let survivors := filter (fun b => existsb (sameSession b) retained) collected in
  forall b, In b survivors ->
            existsb (sameSession b) (retainedOf session survivors) = true.
Proof.
  cbv zeta.
  remember (retainedOf session collected) as retained eqn:Hret.
  remember (filter (fun b => existsb (sameSession b) retained) collected)
    as survivors eqn:Hsurv.
  intros b Hb.
  assert (Hsub : forall r, In r retained -> In r survivors).
  { intros r Hr. rewrite Hsurv. apply filter_In. split.
    - rewrite Hret in Hr. now apply (retainedOf_incl session).
    - apply existsb_exists. exists r. split; [assumption | apply sameSession_refl]. }
  destruct (lastTwo_cases collected) as [E|[[a E]|(pre & x & y & E)]].
  - subst collected. subst survivors. contradiction.
  - subst collected.
    assert (Hr : retained = [a]).
    { rewrite Hret. unfold retainedOf. simpl.
      destruct (isPrevious session a); reflexivity. }
    rewrite Hr in Hsurv. simpl in Hsurv. rewrite sameSession_refl in Hsurv.
    simpl in Hsurv. subst survivors. destruct Hb as [<-|[]].
    rewrite <- Hret, Hr. simpl. now rewrite sameSession_refl.
  - unfold retainedOf in Hret. rewrite E, lastTwo_app in Hret.
    set (sorted := sortBy bySessionDate [x; y]) in *.
    assert (Hsorted : sorted = [x; y] \/ sorted = [y; x]).
    { unfold sorted. simpl.
      destruct (match bySessionDate x y with Some d => 0 <? d | None => false end);
        auto. }
    destruct (1 <? length (filter (isPrevious session) sorted))%nat eqn:Hcount.
    + (* both are of earlier sessions: one record is kept *)
      assert (Hone : exists r, retained = [r]).
      { rewrite Hret. destruct Hsorted as [->| ->]; simpl; eauto. }
      destruct Hone as [r Hr].
      assert (Hall : forall c, In c survivors -> sameSession c r = true).
      { intros c Hc. rewrite Hsurv in Hc. apply filter_In in Hc as [_ Hc].
        rewrite Hr in Hc. simpl in Hc. now rewrite orb_false_r in Hc. }
      assert (Hne : survivors <> []).
      { intros Hnil. specialize (Hsub r). rewrite Hnil, Hr in Hsub.
        apply Hsub. now left. }
      pose proof (retainedOf_nonempty session Hne) as Hne'.
      destruct (retainedOf session survivors) as [|r' rest] eqn:Er'; [congruence|].
      assert (Hr' : In r' survivors).
      { apply (retainedOf_incl session). rewrite Er'. now left. }
      simpl. apply orb_true_iff. left.
      apply sameSession_trans_l with r; auto.
    + (* the sorted two are kept *)
      assert (Hx : existsb (sameSession x) retained = true).
      { apply existsb_exists. exists x. split; [|apply sameSession_refl].
        rewrite Hret. destruct Hsorted as [->| ->]; simpl; auto. }
      assert (Hy : existsb (sameSession y) retained = true).
      { apply existsb_exists. exists y. split; [|apply sameSession_refl].
        rewrite Hret. destruct Hsorted as [->| ->]; simpl; auto. }
      assert (Hsame : retainedOf session survivors = retained).
      { rewrite Hsurv, E.
        rewrite (retainedOf_filter_tail session _ pre x y Hx Hy).
        unfold retainedOf. rewrite lastTwo_app. fold sorted.
        now rewrite Hcount. }
      rewrite Hsame. rewrite Hsurv in Hb. now apply filter_In in Hb as [_ Hb].
Qed.

(** ** Pruning twice *)

Lemma filter_all {A} (f : A -> bool) l :
  (forall x, In x l -> f x = true) -> filter f l = l.
Proof.
  induction l as [|x l IH]; simpl; intros H; [reflexivity|].
  rewrite (H x (or_introl eq_refl)). f_equal. apply IH. intros y Hy. apply H. now right.
Qed.

Lemma existsb_ext_In {A} (f g : A -> bool) l :
  (forall x, In x l -> f x = g x) -> existsb f l = existsb g l.
Proof.
  induction l as [|x l IH]; simpl; intros H; [reflexivity|].
  rewrite (H x (or_introl eq_refl)). f_equal. apply IH. intros y Hy. apply H. now right.
Qed.

Lemma filter_nonempty_existsb {A} (f : A -> bool) l :
  negb (length (filter f l) =? 0)%nat = existsb f l.
Proof.
  induction l as [|x l IH]; simpl; [reflexivity|].
  destruct (f x); simpl; [reflexivity | assumption].
Qed.

Lemma map_snd_filter {A B} (f : B -> bool) (l : list (A * B)) :
  map snd (filter (fun e => f (snd e)) l) = filter f (map snd l).
Proof.
  induction l as [|[a b] l IH]; simpl; [reflexivity|].
  destruct (f b); simpl; now rewrite IH.
Qed.

Lemma NoDup_keys_filter {V} (f : string * V -> bool) l :
  NoDup (map fst l) -> NoDup (map fst (filter f l)).
Proof.
  induction l as [|[k v] l IH]; simpl; intros H; [constructor|].
  inversion H as [|? ? Hnotin Hnd]; subst.
  destruct (f (k, v)); simpl; [|auto].
  constructor; [|auto].
  intros Hin. apply Hnotin. apply in_map_iff in Hin as (e & He & Hin).
  apply filter_In in Hin as [Hin _]. apply in_map_iff. now exists e.
Qed.

Lemma rawLastLocation_filter f ls :
  rawLastLocation ls = false -> rawLastLocation (filter f ls) = false.
Proof.
  unfold rawLastLocation. induction ls as [|e ls IH]; simpl; [reflexivity|].
  intros H. apply orb_false_iff in H as [He Hls].
  destruct (f e); simpl; [|auto].
  rewrite He. simpl. auto.
Qed.

Lemma titleEntries_In title ls k b :
  In (k, b) (titleEntries title ls) <->
  In (k, Json b) ls /\ isLastLocationKey k = true /\ title = b_bookTitle b.
Proof.
  unfold titleEntries. rewrite in_flat_map. split.
  - intros ([k' v] & Hin & H). simpl in H.
    destruct v as [b'|s]; [|contradiction].
    destruct (isLastLocationKey k') eqn:Hk; simpl in H; [|contradiction].
    destruct (String.eqb_spec title (b_bookTitle b')) as [Ht|Ht]; [|contradiction].
    destruct H as [[= -> ->]|[]]. auto.
  - intros (Hin & Hk & Ht). exists (k, Json b). split; [assumption|].
    simpl. rewrite Hk. subst title. rewrite String.eqb_refl. now left.
Qed.

(** The entries of the title that the second loop leaves. *)
Lemma titleEntries_filter title kept ls :
  titleEntries title (filter (keepEntry title kept) ls)
  = filter (fun e => negb (countMatches (fst e) kept =? 0)%nat) (titleEntries title ls).
Proof.
  induction ls as [|[k v] ls IH]; [reflexivity|].
  cbn [filter]. unfold keepEntry at 1. cbn [fst snd].
  unfold titleEntries at 2. cbn [flat_map fst snd]. fold (titleEntries title ls).
  destruct v as [b|s].
  - destruct (isLastLocationKey k) eqn:Hk; cbn [andb negb].
    + destruct (title =? b_bookTitle b)%string eqn:Ht; cbn [andb negb app filter fst].
      * destruct (countMatches k kept =? 0)%nat; cbn [negb].
        -- exact IH.
        -- unfold titleEntries at 1. cbn [flat_map fst snd].
           rewrite Hk, Ht. cbn [andb app]. f_equal. exact IH.
      * unfold titleEntries at 1. cbn [flat_map fst snd].
        rewrite Hk, Ht. exact IH.
    + unfold titleEntries at 1. cbn [flat_map fst snd]. rewrite Hk. exact IH.
  - rewrite andb_false_r. cbn [negb]. exact IH.
Qed.

(** When keys tell sessions apart, a key matches a kept record exactly
    when its own record has the session date of that record. *)
Lemma countMatches_sameSession title ls k b kept :
  keysTellSessionsApart title ls = true ->
  In (k, b) (titleEntries title ls) ->
  (forall r, In r kept -> In r (titleLastLocations title ls)) ->
  negb (countMatches k kept =? 0)%nat = existsb (sameSession b) kept.
Proof.
  intros Hd Hkb Hsub. unfold countMatches.
  rewrite filter_nonempty_existsb. apply existsb_ext_In.
  intros r Hr. apply Hsub in Hr. unfold titleLastLocations in Hr.
  apply in_map_iff in Hr as ([k' b'] & Hb' & Hin'). simpl in Hb'. subst b'.
  unfold keysTellSessionsApart in Hd. rewrite forallb_forall in Hd.
  specialize (Hd _ Hkb). rewrite forallb_forall in Hd.
  specialize (Hd _ Hin'). simpl in Hd. apply eqb_prop in Hd. exact Hd.
Qed.

(** The records of the title after a pruning. *)
Lemma titleLastLocations_pruned title ls kept :
  keysTellSessionsApart title ls = true ->
  (forall r, In r kept -> In r (titleLastLocations title ls)) ->
  titleLastLocations title (filter (keepEntry title kept) ls)
  = filter (fun b => existsb (sameSession b) kept) (titleLastLocations title ls).
Proof.
  intros Hd Hsub. unfold titleLastLocations.
  rewrite titleEntries_filter, <- map_snd_filter. f_equal.
  apply filter_ext_in. intros [k b] Hin.
  now apply (countMatches_sameSession title ls).
Qed.

(** Where the pruning is idempotent: in a tab that has its session
    identifier, on a storage with distinct keys in which the keys of
    the last locations of the title tell their sessions apart, pruning
    the title a second time changes nothing. *)
Lemma ebBookmarksCleanLastLocations_idempotent title session w :
  sessionIs session w ->
  uniqueKeys (localStorage w) = true ->
  keysTellSessionsApart title (localStorage w) = true ->
  after (ebBookmarksCleanLastLocations title)
        (after (ebBookmarksCleanLastLocations title) w)
  = after (ebBookmarksCleanLastLocations title) w.
Proof.
  intros Hs Hu Hd. apply distinct_NoDup in Hu. unfold after.
  destruct (rawLastLocation (localStorage w)) eqn:Hraw.
  { rewrite (ebBookmarksCleanLastLocations_raw title w Hu Hraw). simpl.
    now rewrite (ebBookmarksCleanLastLocations_raw title w Hu Hraw). }
  rewrite (ebBookmarksCleanLastLocations_eq title Hs Hu Hraw). simpl.
  set (ls := localStorage w) in *.
  set (collected := titleLastLocations title ls).
  set (kept := retainedOf session collected).
  set (ls1 := filter (keepEntry title kept) ls).
  assert (Hs1 : sessionIs session (setLocal ls1 w)) by exact Hs.
  assert (Hu1 : NoDup (map fst (localStorage (setLocal ls1 w)))).
  { simpl. now apply NoDup_keys_filter. }
  assert (Hraw1 : rawLastLocation (localStorage (setLocal ls1 w)) = false).
  { simpl. now apply rawLastLocation_filter. }
  rewrite (ebBookmarksCleanLastLocations_eq title Hs1 Hu1 Hraw1). simpl.
  rewrite setLocal_setLocal. f_equal.
  assert (Hkept : forall r, In r kept -> In r (titleLastLocations title ls)).
  { intros r. apply retainedOf_incl. }
  pose proof (titleLastLocations_pruned title ls kept Hd Hkept) as Hcollected1.
  fold ls1 collected in Hcollected1. rewrite Hcollected1.
  set (survivors := filter (fun b => existsb (sameSession b) kept) collected).
  apply filter_all. intros [k v] Hin.
  unfold keepEntry. cbn [fst snd].
  destruct (isLastLocationKey k) eqn:Hk; [|reflexivity].
  destruct v as [b|s]; [|reflexivity].
  destruct (String.eqb_spec title (b_bookTitle b)) as [Ht|Ht]; [|reflexivity].
  cbn [andb].
  assert (Hin1 : In (k, b) (titleEntries title ls1)).
  { apply titleEntries_In. auto. }
  assert (Hin0 : In (k, b) (titleEntries title ls)).
  { apply titleEntries_In. apply filter_In in Hin as [Hin _]. auto. }
  assert (Hb : In b survivors).
  { unfold survivors. rewrite <- Hcollected1. unfold titleLastLocations.
    apply in_map_iff. now exists (k, b). }
  pose proof (retainedOf_stable session collected b Hb) as Hstable.
  cbv zeta in Hstable. fold kept survivors in Hstable.
  rewrite <- (countMatches_sameSession title ls k b _ Hd Hin0) in Hstable.
  - apply negb_true_iff in Hstable. now rewrite Hstable.
  - intros r Hr. apply retainedOf_incl in Hr. unfold survivors in Hr.
    apply filter_In in Hr as [Hr _]. exact Hr.
Qed.

Lemma ebBookmarksCleanLastLocations_idempotent_witness :
  let w := tabOf outOfOrderStorage "1700000000300" in
  after (ebBookmarksCleanLastLocations "Book")
        (after (ebBookmarksCleanLastLocations "Book") w)
  = after (ebBookmarksCleanLastLocations "Book") w.
Proof.
  intros w.
  apply (@ebBookmarksCleanLastLocations_idempotent "Book" "1700000000300" w).
  - split; reflexivity.
  - reflexivity.
  - reflexivity.
Defined.

(** C2, at a storage that lists the last locations of the sessions 12,
    1 and 2 of a book, in a tab of a later session: the first pruning
    keeps the record of 2 alone, and removes the entry of 1, but leaves
    the entry of 12 in the storage, because its key contains the text
    of the session date 2; the second pruning then keeps the record
    of 12 alone and removes the entry of 2.  So the second run changes
    the storage that the first left. *)
Theorem ebBookmarksCleanLastLocations_not_idempotent :
  let w := tabOf nestedDatesStorage "1700000000300" in
  let w1 := after (ebBookmarksCleanLastLocations "Book") w in
  let w2 := after (ebBookmarksCleanLastLocations "Book") w1 in
  retainedOf "1700000000300" (titleLastLocations "Book" (localStorage w))
  = [sampleRecord "lastLocation" "Book" "2" "bookmark-book-lastLocation-2"] /\
  map fst (localStorage w1)
  = ["bookmark-book-lastLocation-12"; "bookmark-book-lastLocation-2"] /\
  retainedOf "1700000000300" (titleLastLocations "Book" (localStorage w1))
  = [sampleRecord "lastLocation" "Book" "12" "bookmark-book-lastLocation-12"] /\
  map fst (localStorage w2) = ["bookmark-book-lastLocation-12"] /\
  w2 <> w1.
Proof.
  split; [reflexivity|]. split; [reflexivity|]. split; [reflexivity|].
  split; [reflexivity|].
  intros H. apply (f_equal (fun w => length (localStorage w))) in H.
  vm_compute in H. discriminate.
Qed.

(** ** What remains after a pruning *)

(** When the last two records collected are in the order of their
    session numbers, the pruning keeps both, or only the later one when
    both are of earlier sessions. *)
Lemma retainedOf_ascending session pre a b x y :
  parseFloat (b_sessionDate a) = Some x ->
  parseFloat (b_sessionDate b) = Some y ->
  x <= y ->
  retainedOf session (pre ++ [a; b])
  = if isPrevious session a && isPrevious session b then [b] else [a; b].
Proof.
  intros Ha Hb Hxy. unfold retainedOf. rewrite lastTwo_app.
  simpl sortBy. unfold bySessionDate. rewrite Ha, Hb.
  destruct (Z.ltb_spec 0 (x - y)); [lia|].
  simpl. destruct (isPrevious session a), (isPrevious session b); reflexivity.
Qed.

(** On the storage that lists three sessions in the order of their
    dates, the pruning keeps the current and the previous session. *)
Lemma ebBookmarksCleanLastLocations_chronological :
  ebBookmarksCleanLastLocations "Book" (tabOf chronologicalStorage "1700000000300")
  = (Normal tt,
     tabOf [ lastLocationEntry "book" "Book" "1700000000200";
             lastLocationEntry "book" "Book" "1700000000300" ] "1700000000300").
Proof. reflexivity. Qed.

Lemma filter_orb_length {A} (f g : A -> bool) l :
  (length (filter (fun x => f x || g x) l)
   <= length (filter f l) + length (filter g l))%nat.
Proof.
  induction l as [|x l IH]; simpl; [lia|].
  destruct (f x), (g x); simpl; lia.
Qed.

Lemma filter_sameSession_length r (l : list Bookmark) :
  NoDup (map (fun b => toStr (b_sessionDate b)) l) ->
  (length (filter (fun b => sameSession b r) l) <= 1)%nat.
Proof.
  induction l as [|x l IH]; simpl; intros H; [lia|].
  inversion H as [|? ? Hnotin Hnd]; subst.
  destruct (sameSession x r) eqn:Hx; [|auto].
  simpl. assert (Hnone : filter (fun b => sameSession b r) l = []).
  { destruct (filter (fun b => sameSession b r) l) as [|z rest] eqn:Hf; [reflexivity|].
    assert (Hz : In z (filter (fun b => sameSession b r) l)) by (rewrite Hf; now left).
    apply filter_In in Hz as [Hz Hzr].
    exfalso. apply Hnotin.
    unfold sameSession in Hx, Hzr. apply String.eqb_eq in Hx, Hzr.
    rewrite Hx, <- Hzr. now apply (in_map (fun b => toStr (b_sessionDate b))). }
  rewrite Hnone. simpl. lia.
Qed.

Lemma filter_existsb_length (kept l : list Bookmark) :
  NoDup (map (fun b => toStr (b_sessionDate b)) l) ->
  (length (filter (fun b => existsb (sameSession b) kept) l) <= length kept)%nat.
Proof.
  intros Hnd. induction kept as [|r kept IH]; simpl.
  - induction l as [|x l IHl]; simpl; [lia|].
    apply IHl. now inversion Hnd.
  - pose proof (filter_orb_length (fun b => sameSession b r)
                                  (fun b => existsb (sameSession b) kept) l) as Hor.
    pose proof (filter_sameSession_length r l Hnd). lia.
Qed.

(** In a tab that has its session identifier, on a storage where the
    keys of the last locations of the title tell their sessions apart
    and the session dates are distinct, at most two last locations of
    the title remain after the pruning, and they are among the records
    the pruning chose to keep. *)
Lemma ebBookmarksCleanLastLocations_at_most_two title session w :
  sessionIs session w ->
  uniqueKeys (localStorage w) = true ->
  rawLastLocation (localStorage w) = false ->
  keysTellSessionsApart title (localStorage w) = true ->
  distinctSessions title (localStorage w) = true ->
  let remaining :=
    titleLastLocations title
      (localStorage (after (ebBookmarksCleanLastLocations title) w)) in
  let kept := retainedOf session (titleLastLocations title (localStorage w)) in
  (length remaining <= 2)%nat /\
  (forall b, In b remaining -> existsb (sameSession b) kept = true) /\
  (forall r, In r kept -> In r remaining).
Proof.
  intros Hs Hu Hraw Hd Hdist remaining kept.
  apply distinct_NoDup in Hu. apply distinct_NoDup in Hdist.
  assert (Hkept : forall r, In r kept -> In r (titleLastLocations title (localStorage w))).
  { intros r. apply retainedOf_incl. }
  assert (Hrem : remaining
                 = filter (fun b => existsb (sameSession b) kept)
                          (titleLastLocations title (localStorage w))).
  { unfold remaining, after.
    rewrite (ebBookmarksCleanLastLocations_eq title Hs Hu Hraw). simpl.
    now apply titleLastLocations_pruned. }
  rewrite Hrem. repeat split.
  - pose proof (filter_existsb_length kept _ Hdist) as Hle.
    pose proof (retainedOf_length session (titleLastLocations title (localStorage w))).
    fold kept in H. lia.
  - intros b Hb. now apply filter_In in Hb as [_ Hb].
  - intros r Hr. apply filter_In. split; [now apply Hkept|].
    apply existsb_exists. exists r. split; [assumption | apply sameSession_refl].
Qed.

(** C1, at a storage that lists the records of the sessions
    1700000000200, 1700000000300 (the current one) and 1700000000100 in
    this order: pruning keeps the records of 1700000000300 and
    1700000000100 and removes that of 1700000000200, the most recent
    record of an earlier session; the slice to the last two comes before
    the sort. *)
Theorem ebBookmarksCleanLastLocations_slices_before_sorting :
  let w := tabOf outOfOrderStorage "1700000000300" in
  ebBookmarksCleanLastLocations "Book" w
  = (Normal tt,
     tabOf [ lastLocationEntry "book" "Book" "1700000000300";
             lastLocationEntry "book" "Book" "1700000000100" ] "1700000000300") /\
  lookup "bookmark-book-lastLocation-1700000000200"
         (localStorage (after (ebBookmarksCleanLastLocations "Book") w)) = None /\
  parseFloat (VStr "1700000000100") = Some 1700000000100 /\
  parseFloat (VStr "1700000000200") = Some 1700000000200.
Proof. repeat split. Qed.

(** ** Marking bookmarks in the page *)

Lemma nth_error_updateNth_eq {A} n (f : A -> A) l e :
  nth_error l n = Some e -> nth_error (updateNth n f l) n = Some (f e).
Proof.
  revert n. induction l as [|x l IH]; intros [|n]; simpl; try discriminate.
  - now intros [= ->].
  - apply IH.
Qed.

Lemma nth_error_updateNth_neq {A} n m (f : A -> A) l :
  m <> n -> nth_error (updateNth n f l) m = nth_error l m.
Proof.
  revert n m. induction l as [|x l IH]; intros [|n] [|m] H; simpl; try reflexivity.
  - contradiction.
  - apply IH. congruence.
Qed.

Lemma map_updateNth {A B} (g : A -> B) n (f : A -> A) l :
  (forall x, g (f x) = g x) -> map g (updateNth n f l) = map g l.
Proof.
  intros H. revert n. induction l as [|x l IH]; intros [|n]; simpl;
    try reflexivity; f_equal; auto.
Qed.

Lemma map_updateNth_at {A B} (g : A -> B) n l e e' :
  nth_error l n = Some e -> g e' = g e ->
  map g (updateNth n (fun _ => e') l) = map g l.
Proof.
  intros He Hg. revert n He. induction l as [|x l IH]; intros [|n] He;
    simpl in *; try discriminate.
  - injection He as ->. now rewrite Hg.
  - f_equal. now apply IH.
Qed.

Lemma updateNth_updateNth {A} n (f g : A -> A) l :
  updateNth n g (updateNth n f l) = updateNth n (fun x => g (f x)) l.
Proof.
  revert n. induction l as [|x l IH]; intros [|n]; simpl; try reflexivity.
  f_equal. apply IH.
Qed.

Lemma updateNth_at {A} n (f g : A -> A) l e :
  nth_error l n = Some e -> f e = g e -> updateNth n f l = updateNth n g l.
Proof.
  intros He Hfg. revert n He. induction l as [|x l IH]; intros [|n] He;
    simpl in *; try discriminate.
  - injection He as ->. now rewrite Hfg.
  - f_equal. now apply IH.
Qed.

Lemma node_found w n e :
  nth_error (elements (document w)) n = Some e ->
  node (Some n) w = (Normal e, w).
Proof. intros H. unfold node, bind, getDocument. simpl. now rewrite H. Qed.

Lemma setAttribute_found w n e f :
  nth_error (elements (document w)) n = Some e ->
  setAttribute (Some n) f w
  = (Normal tt, setDocument (withElements (updateNth n f) (document w)) w).
Proof.
  intros H. unfold setAttribute.
  rewrite (bind_normal (node_found w n H)). reflexivity.
Qed.

Lemma setAttribute_null w f :
  setAttribute None f w = (Throw TypeError, w).
Proof. reflexivity. Qed.

Lemma ebBookmarksToggleButtonOnElement_found w n e :
  nth_error (elements (document w)) n = Some e ->
  exists icon,
    ebBookmarksToggleButtonOnElement (Some n) w
    = (Normal tt,
       setDocument (withElements (updateNth n (set_button icon)) (document w)) w).
Proof.
  intros H. unfold ebBookmarksToggleButtonOnElement.
  rewrite (bind_normal (node_found w n H)).
  destruct (el_button e) as [[|]|]; simpl;
    repeat match goal with
           | |- context [if ?c then _ else _] => destruct c
           end;
    eexists; apply (setAttribute_found w n _ H).
Qed.

(** What marking one bookmark does when its element is in the page: it
    rewrites that element, keeping its id, and gives it the type of the
    bookmark unless it is already marked as a user bookmark. *)
Lemma markBookmark_found w b n e :
  getElementById (b_id b) w = (Normal (Some n), w) ->
  nth_error (elements (document w)) n = Some e ->
  onCurrentPage (document w) (b_location b) = true ->
  exists e',
    markBookmark b w
    = (Normal tt,
       setDocument (withElements (updateNth n (fun _ => e')) (document w)) w) /\
    el_id e' = el_id e /\
    el_bookmarked e' = Some "true"%string /\
    el_bookmarkType e'
    = Some (if match el_bookmarkType e with
               | Some t => (t =? "userBookmark")%string
               | None => false
               end
            then "userBookmark"%string else b_type b).
Proof.
  intros Hget He Hpage. unfold markBookmark.
  rewrite (bind_normal Hget).
  unfold ebBookmarksCheckForCurrentPage at 1. unfold bind at 1, getDocument at 1.
  unfold bind at 1. cbn [ret]. fold (onCurrentPage (document w) (b_location b)).
  rewrite Hpage.
  rewrite (bind_normal (setAttribute_found w n _ He)).
  set (w1 := setDocument _ w).
  assert (He1 : nth_error (elements (document w1)) n
                = Some (set_bookmarked (Some "true"%string) e)).
  { simpl. now apply nth_error_updateNth_eq. }
  rewrite (bind_normal (setAttribute_found w1 n _ He1)).
  set (w2 := setDocument _ w1).
  assert (He2 : nth_error (elements (document w2)) n
                = Some (set_title (b_description b)
                          (set_bookmarked (Some "true"%string) e))).
  { simpl. now apply nth_error_updateNth_eq. }
  rewrite (bind_normal (node_found w2 n He2)).
  cbn [el_bookmarkType set_title set_bookmarked].
  set (t := if match el_bookmarkType e with
               | Some t => (t =? "userBookmark")%string
               | None => false
               end
            then "userBookmark"%string else b_type b).
  assert (Hset :
    (if match el_bookmarkType e with
        | Some t => (t =? "userBookmark")%string
        | None => false
        end
     then setAttribute (Some n) (set_bookmarkType "userBookmark")
     else setAttribute (Some n) (set_bookmarkType (b_type b))) w2
    = (Normal tt,
       setDocument (withElements (updateNth n (set_bookmarkType t)) (document w2)) w2)).
  { unfold t. destruct (match el_bookmarkType e with
                        | Some t0 => (t0 =? "userBookmark")%string
                        | None => false
                        end); apply (setAttribute_found w2 n _ He2). }
  rewrite (bind_normal Hset).
  set (w3 := setDocument _ w2).
  assert (He3 : nth_error (elements (document w3)) n
                = Some (set_bookmarkType t
                          (set_title (b_description b)
                             (set_bookmarked (Some "true"%string) e)))).
  { simpl. now apply nth_error_updateNth_eq. }
  destruct (ebBookmarksToggleButtonOnElement_found w3 n He3) as [icon Htoggle].
  rewrite Htoggle.
  exists (set_button icon
            (set_bookmarkType t
               (set_title (b_description b)
                  (set_bookmarked (Some "true"%string) e)))).
  repeat split.
  unfold w3, w2, w1, setDocument, withElements. simpl.
  rewrite !updateNth_updateNth.
  do 3 f_equal. now apply (updateNth_at n _ _ _ He).
Qed.

Lemma markBookmark_elsewhere w b :
  onCurrentPage (document w) (b_location b) = false ->
  markBookmark b w = (Normal tt, w).
Proof.
  intros Hpage. unfold markBookmark, getElementById, ebBookmarksCheckForCurrentPage,
    bind, getDocument, ret. simpl.
  fold (onCurrentPage (document w) (b_location b)). now rewrite Hpage.
Qed.

Lemma findIndex_map {A B} (g : A -> B) (p : B -> bool) l :
  findIndex (fun x => p (g x)) l = findIndex p (map g l).
Proof.
  induction l as [|x l IH]; simpl; [reflexivity|].
  destruct (p (g x)); [reflexivity | now rewrite IH].
Qed.

Lemma findById_ids d d' id :
  map el_id (elements d') = map el_id (elements d) ->
  findById d' id = findById d id.
Proof.
  intros H. unfold findById. destruct (truthy id); [|reflexivity].
  rewrite (findIndex_map el_id (fun i => (i =? id)%string) (elements d')).
  rewrite (findIndex_map el_id (fun i => (i =? id)%string) (elements d)).
  now rewrite H.
Qed.

Lemma findById_Some d id n :
  findById d id = Some n -> exists e, nth_error (elements d) n = Some e.
Proof.
  unfold findById. destruct (truthy id); [|discriminate].
  intros H. destruct (findIndex_Some _ _ H) as (e & He & _). now exists e.
Qed.

#[local] Instance marksOnly_PreOrder : PreOrder marksOnly.
Proof.
  split.
  - intros w. repeat split. intros n e He Ht. now exists e.
  - intros w1 w2 w3 (Hh12 & Hi12 & Hs12) (Hh23 & Hi23 & Hs23).
    split; [congruence|]. split; [congruence|].
    intros n e He Ht. destruct (Hs12 n e He Ht) as (e2 & He2 & Ht2).
    now apply (Hs23 n e2).
Qed.

Lemma getElementById_eq id w :
  getElementById id w = (Normal (findById (document w) id), w).
Proof. reflexivity. Qed.

(** Marking one bookmark, whether it completes or throws. *)
Lemma markBookmark_marksOnly b : preserves marksOnly (markBookmark b).
Proof.
  intros w. unfold after.
  destruct (onCurrentPage (document w) (b_location b)) eqn:Hpage.
  - destruct (findById (document w) (b_id b)) as [n|] eqn:Hfind.
    + destruct (findById_Some _ _ Hfind) as [e He].
      assert (Hget : getElementById (b_id b) w = (Normal (Some n), w)).
      { rewrite getElementById_eq. now rewrite Hfind. }
      destruct (@markBookmark_found w b n e Hget He Hpage) as (e' & -> & Hid & _ & Ht).
      simpl. split; [reflexivity|]. split.
      * eapply map_updateNth_at; [exact He | exact Hid].
      * intros m e0 He0 Ht0. destruct (Nat.eq_dec m n) as [->|Hne].
        -- exists e'. split; [simpl; now apply (nth_error_updateNth_eq n (fun _ => e') _ He)|].
           rewrite Ht. rewrite He in He0. injection He0 as ->.
           rewrite Ht0. reflexivity.
        -- exists e0. split; [|assumption].
           simpl. now rewrite nth_error_updateNth_neq.
    + assert (Hthrow : markBookmark b w = (Throw TypeError, w)).
      { unfold markBookmark. rewrite (bind_normal (getElementById_eq (b_id b) w)).
        rewrite Hfind.
        unfold ebBookmarksCheckForCurrentPage, bind, getDocument, ret. simpl.
        fold (onCurrentPage (document w) (b_location b)). now rewrite Hpage. }
      rewrite Hthrow. reflexivity.
  - rewrite (markBookmark_elsewhere w b Hpage). reflexivity.
Qed.

Lemma forEach_markBookmark_marksOnly bookmarks :
  preserves marksOnly (forEach markBookmark bookmarks).
Proof.
  apply preserves_forEach; [exact _ | intros b; apply markBookmark_marksOnly].
Qed.

(** The loop of the marking: when every bookmark of the page has its
    element, the loop completes, and the element of a user bookmark of
    the page ends as a user bookmark. *)
Lemma mark_loop bookmarks w :
  (forall b, In b bookmarks ->
             onCurrentPage (document w) (b_location b) = true ->
             findById (document w) (b_id b) <> None) ->
  result (forEach markBookmark bookmarks) w = Normal tt /\
  forall ub, In ub bookmarks ->
             b_type ub = "userBookmark"%string ->
             onCurrentPage (document w) (b_location ub) = true ->
             exists n e,
               findById (document w) (b_id ub) = Some n /\
               nth_error (elements (document (after (forEach markBookmark bookmarks) w))) n
               = Some e /\
               el_bookmarkType e = Some "userBookmark"%string.
Proof.
  revert w. induction bookmarks as [|b rest IH]; intros w Hall.
  - split; [reflexivity | intros ub []].
  - pose proof (markBookmark_marksOnly b w) as Hstep. unfold after in Hstep.
    assert (Hnormal : exists w1, markBookmark b w = (Normal tt, w1) /\
              (b_type b = "userBookmark"%string ->
               onCurrentPage (document w) (b_location b) = true ->
               exists n e, findById (document w) (b_id b) = Some n /\
                           nth_error (elements (document w1)) n = Some e /\
                           el_bookmarkType e = Some "userBookmark"%string)).
    { destruct (onCurrentPage (document w) (b_location b)) eqn:Hpage.
      - destruct (findById (document w) (b_id b)) as [n|] eqn:Hfind.
        + destruct (findById_Some _ _ Hfind) as [e He].
          assert (Hget : getElementById (b_id b) w = (Normal (Some n), w)).
          { rewrite getElementById_eq. now rewrite Hfind. }
          destruct (@markBookmark_found w b n e Hget He Hpage) as (e' & Hrun & _ & _ & Ht).
          eexists. split; [exact Hrun|]. intros Hub _. exists n, e'.
          split; [reflexivity|]. split.
          * simpl. now apply (nth_error_updateNth_eq n (fun _ => e') _ He).
          * rewrite Ht, Hub. now destruct (match el_bookmarkType e with
                                           | Some t => (t =? "userBookmark")%string
                                           | None => false
                                           end).
        + exfalso. apply (Hall b (or_introl eq_refl) Hpage). exact Hfind.
      - exists w. split; [now apply markBookmark_elsewhere | discriminate]. }
    destruct Hnormal as (w1 & Hrun & Hub).
    rewrite Hrun in Hstep. simpl in Hstep.
    destruct Hstep as (Hhref & Hids & Hsticky).
    assert (Hpage1 : forall url, onCurrentPage (document w1) url
                                 = onCurrentPage (document w) url).
    { intros url. unfold onCurrentPage. now rewrite Hhref. }
    assert (Hall1 : forall b0, In b0 rest ->
                               onCurrentPage (document w1) (b_location b0) = true ->
                               findById (document w1) (b_id b0) <> None).
    { intros b0 Hin Hp. rewrite (findById_ids _ _ _ Hids). rewrite Hpage1 in Hp.
      apply Hall; [now right | assumption]. }
    destruct (IH w1 Hall1) as (Hres & Hrest).
    unfold result, after in *. cbn [forEach].
    rewrite (bind_normal Hrun).
    split; [exact Hres|].
    intros ub [<-|Hin] Htype Hpage.
    + destruct (Hub Htype Hpage) as (n & e & Hfind & He & Ht).
      pose proof (forEach_markBookmark_marksOnly rest w1) as (_ & _ & Hsticky').
      destruct (Hsticky' n e He Ht) as (e' & He' & Ht').
      exists n, e'. auto.
    + rewrite <- Hpage1 in Hpage.
      destruct (Hrest ub Hin Htype Hpage) as (n & e & Hfind & He & Ht).
      exists n, e. rewrite <- (findById_ids _ _ _ Hids). auto.
Qed.

(** C9, with what it needs: whatever records are passed and in whatever
    order, when every record of the page has its element in the
    document, the marking completes and the element that a user bookmark
    and a last location of the page both target carries the bookmark
    type userBookmark afterwards. *)
Theorem ebBookmarksMarkBookmarks_userBookmark_wins w bookmarks ub ll :
  In ub bookmarks -> In ll bookmarks ->
  b_type ub = "userBookmark"%string -> b_type ll = "lastLocation"%string ->
  b_id ll = b_id ub ->
  onCurrentPage (document w) (b_location ub) = true ->
  onCurrentPage (document w) (b_location ll) = true ->
  (forall b, In b bookmarks ->
             onCurrentPage (document w) (b_location b) = true ->
             elementById (document w) (b_id b) <> None) ->
  result (ebBookmarksMarkBookmarks bookmarks) w = Normal tt /\
  exists e,
    elementById (document (after (ebBookmarksMarkBookmarks bookmarks) w)) (b_id ub) = Some e /\
    elementById (document (after (ebBookmarksMarkBookmarks bookmarks) w)) (b_id ll) = Some e /\
    el_bookmarkType e = Some "userBookmark"%string.
Proof.
  intros Hub Hll Htype _ Hsame Hpage _ Hall.
  unfold ebBookmarksMarkBookmarks, result, after.
  unfold getDocument at 1, bind at 1. unfold putDocument at 1, bind at 1.
  set (w0 := setDocument (withElements (map (set_bookmarked None)) (document w)) w).
  assert (Hids : map el_id (elements (document w0)) = map el_id (elements (document w))).
  { simpl. rewrite map_map. reflexivity. }
  assert (Hall0 : forall b, In b bookmarks ->
                            onCurrentPage (document w0) (b_location b) = true ->
                            findById (document w0) (b_id b) <> None).
  { intros b Hin Hp. rewrite (findById_ids _ _ _ Hids).
    specialize (Hall b Hin Hp). unfold elementById in Hall.
    destruct (findById (document w) (b_id b)); congruence. }
  destruct (mark_loop bookmarks w0 Hall0) as (Hres & Hwins).
  split; [exact Hres|].
  destruct (Hwins ub Hub Htype Hpage) as (n & e & Hfind & He & Ht).
  exists e.
  pose proof (forEach_markBookmark_marksOnly bookmarks w0) as (_ & Hids' & _).
  assert (Hby : elementById (document (after (forEach markBookmark bookmarks) w0)) (b_id ub)
                = Some e).
  { unfold elementById. rewrite (findById_ids _ _ _ Hids'). now rewrite Hfind. }
  unfold after in Hby. rewrite Hsame. auto.
Qed.

Lemma ebBookmarksMarkBookmarks_userBookmark_wins_witness :
  let bookmarks := [lastLocationOnSec3; userBookmarkOnSec3] in
  result (ebBookmarksMarkBookmarks bookmarks) twoParagraphs = Normal tt /\
  exists e,
    elementById (document (after (ebBookmarksMarkBookmarks bookmarks) twoParagraphs))
                (b_id userBookmarkOnSec3) = Some e /\
    elementById (document (after (ebBookmarksMarkBookmarks bookmarks) twoParagraphs))
                (b_id lastLocationOnSec3) = Some e /\
    el_bookmarkType e = Some "userBookmark"%string.
Proof.
  intros bookmarks.
  apply (@ebBookmarksMarkBookmarks_userBookmark_wins
           twoParagraphs bookmarks userBookmarkOnSec3 lastLocationOnSec3);
    try reflexivity.
  - right. now left.
  - now left.
  - intros b [<-|[<-|[]]] _; discriminate.
Defined.

(** C9 as stated fails on a list with a record of the page whose element
    is gone: the marking throws at that record, and the element marked
    as a last location before it is never marked as the user bookmark
    that comes after it. *)
Lemma ebBookmarksMarkBookmarks_stops_at_missing_element :
  let bookmarks := [lastLocationOnSec3; staleRecord; userBookmarkOnSec3] in
  let w' := after (ebBookmarksMarkBookmarks bookmarks) twoParagraphs in
  b_id userBookmarkOnSec3 = b_id lastLocationOnSec3 /\
  onCurrentPage (document twoParagraphs) (b_location userBookmarkOnSec3) = true /\
  onCurrentPage (document twoParagraphs) (b_location lastLocationOnSec3) = true /\
  result (ebBookmarksMarkBookmarks bookmarks) twoParagraphs = Throw TypeError /\
  exists e,
    elementById (document w') (b_id userBookmarkOnSec3) = Some e /\
    el_bookmarkType e = Some "lastLocation"%string.
Proof.
  repeat split. eexists. split; reflexivity.
Qed.

(** ** What reconciliation may touch *)

#[local] Instance prunedW_PreOrder : PreOrder prunedW.
Proof.
  split.
  - intros w k. now left.
  - intros w1 w2 w3 H12 H23 k.
    destruct (H23 k) as [E23|(Hk & Hn)]; [|now right].
    destruct (H12 k) as [E12|(Hk & Hn)]; [left; congruence|].
    right. split; [assumption | congruence].
Qed.

#[local] Instance shrunkW_PreOrder : PreOrder shrunkW.
Proof.
  split.
  - intros w. exists (fun _ => true). symmetry. apply filter_all. reflexivity.
  - intros w1 w2 w3 [f Hf] [g Hg]. exists (fun e => f e && g e).
    rewrite Hg, Hf. clear. induction (localStorage w1) as [|e l IH]; simpl; [reflexivity|].
    destruct (f e); simpl; [|assumption].
    destruct (g e); simpl; [now f_equal | assumption].
Qed.

Lemma sameLocal_prunedW w w' : sameLocal w w' -> prunedW w w'.
Proof. intros H k. left. unfold sameLocal in H. now rewrite H. Qed.

Lemma sameLocal_shrunkW w w' : sameLocal w w' -> shrunkW w w'.
Proof.
  intros H. exists (fun _ => true). unfold sameLocal in H. rewrite H.
  symmetry. apply filter_all. reflexivity.
Qed.

Lemma prunedOnlyW_prunedW title w w' : prunedOnlyW title w w' -> prunedW w w'.
Proof.
  intros H k. destruct (H k) as [E|(Hk & b & _ & _ & Hn)]; [now left | now right].
Qed.

Lemma ebBookmarksCleanLastLocations_prunedW title :
  preserves prunedW (ebBookmarksCleanLastLocations title).
Proof.
  eapply preserves_weaken; [apply prunedOnlyW_prunedW|].
  apply ebBookmarksCleanLastLocations_prunedOnly.
Qed.

Lemma removeItem_shrunkW key : preserves shrunkW (removeItem key).
Proof. intros w. eexists. reflexivity. Qed.

Lemma ebBookmarksCleanLastLocations_shrunkW title :
  preserves shrunkW (ebBookmarksCleanLastLocations title).
Proof.
  unfold ebBookmarksCleanLastLocations.
  apply preserves_bind; [exact _ | apply preserves_reader; exact _ |].
  intros keys.
  apply preserves_bind; [exact _ | |].
  { apply preserves_forEachPush; [exact _|]. intros acc key.
    unfold collectLastLocation. preserve. }
  intros lastLocations.
  apply preserves_bind; [exact _ | |].
  { apply preserves_filterM; [exact _|]. intros location. unfold notThisSession.
    apply preserves_bind; [exact _ | | intros current; apply preserves_ret; exact _].
    eapply preserves_weaken; [apply sameLocal_shrunkW|].
    apply ebBookmarksSessionDate_sameLocal. }
  intros previous.
  apply preserves_bind; [exact _ | apply preserves_reader; exact _ |].
  intros keys'.
  apply preserves_forEach; [exact _|]. intros key.
  unfold removeUnlessKept. preserve. apply removeItem_shrunkW.
Qed.

#[local] Instance sameStores_PreOrder : PreOrder sameStores.
Proof.
  split.
  - intros w; split; reflexivity.
  - intros w1 w2 w3 [H12 H12'] [H23 H23']. split; congruence.
Qed.

Lemma sameStores_sameLocal w w' : sameStores w w' -> sameLocal w w'.
Proof. now intros [H _]. Qed.

(** The operations on the page leave the two storage areas alone. *)
Lemma putDocument_sameStores d : preserves sameStores (putDocument d).
Proof. intros w. split; reflexivity. Qed.

Lemma node_sameStores element : preserves sameStores (node element).
Proof. unfold node. preserve. Qed.

Lemma setAttribute_sameStores element f : preserves sameStores (setAttribute element f).
Proof.
  unfold setAttribute.
  apply preserves_bind; [exact _ | apply node_sameStores |]. intros _.
  apply preserves_bind; [exact _ | apply preserves_reader; exact _ |]. intros d.
  apply putDocument_sameStores.
Qed.

Lemma ebBookmarksToggleButtonOnElement_sameStores element :
  preserves sameStores (ebBookmarksToggleButtonOnElement element).
Proof.
  unfold ebBookmarksToggleButtonOnElement.
  destruct element as [n|]; [|apply preserves_ret; exact _].
  apply preserves_bind; [exact _ | apply node_sameStores |]. intros e.
  destruct (el_button e) as [icon|];
    repeat match goal with
           | |- preserves _ (if ?c then _ else _) => destruct c
           end;
    apply setAttribute_sameStores.
Qed.

Lemma ebBookmarksMarkBookmarks_sameStores bookmarks :
  preserves sameStores (ebBookmarksMarkBookmarks bookmarks).
Proof.
  unfold ebBookmarksMarkBookmarks.
  apply preserves_bind; [exact _ | apply preserves_reader; exact _ |]. intros d.
  apply preserves_bind; [exact _ | apply putDocument_sameStores |]. intros _.
  apply preserves_forEach; [exact _|]. intros b. unfold markBookmark.
  apply preserves_bind; [exact _ | unfold getElementById; preserve |]. intros el.
  apply preserves_bind;
    [exact _ | unfold ebBookmarksCheckForCurrentPage; preserve |].
  intros [|]; [|apply preserves_ret; exact _].
  apply preserves_bind; [exact _ | apply setAttribute_sameStores |]. intros _.
  apply preserves_bind; [exact _ | apply setAttribute_sameStores |]. intros _.
  apply preserves_bind; [exact _ | apply node_sameStores |]. intros e.
  apply preserves_bind; [exact _ | | intros _; apply ebBookmarksToggleButtonOnElement_sameStores].
  destruct (match el_bookmarkType e with
            | Some t => (t =? "userBookmark")%string
            | None => false
            end); apply setAttribute_sameStores.
Qed.

Lemma appendToBookmarksList_sameStores item : preserves sameStores (appendToBookmarksList item).
Proof. unfold appendToBookmarksList. preserve. apply putDocument_sameStores. Qed.

Lemma appendToLastLocationsList_sameStores item :
  preserves sameStores (appendToLastLocationsList item).
Proof. unfold appendToLastLocationsList. preserve. apply putDocument_sameStores. Qed.

Lemma clearLists_sameStores : preserves sameStores clearLists.
Proof. unfold clearLists. preserve. apply putDocument_sameStores. Qed.

Section Reconciliation.

(** A preorder on worlds kept by the pruning, by the session identifier
    and by the operations on the page is kept by the reconciliation. *)
Context (R : World -> World -> Prop) `{!PreOrder R}.
Hypothesis R_clean : forall title, preserves R (ebBookmarksCleanLastLocations title).
Hypothesis R_session : preserves R ebBookmarksSessionDate.
Hypothesis R_mark : forall bookmarks, preserves R (ebBookmarksMarkBookmarks bookmarks).
Hypothesis R_clear : preserves R clearLists.
Hypothesis R_bookmarksList : forall item, preserves R (appendToBookmarksList item).
Hypothesis R_lastLocationsList : forall item, preserves R (appendToLastLocationsList item).

Lemma ebBookmarksListBookmarks_preserves bookmarks :
  preserves R (ebBookmarksListBookmarks bookmarks).
Proof.
  unfold ebBookmarksListBookmarks.
  apply preserves_bind; [exact _ | apply R_clear |].
  intros _.
  apply preserves_bind; [exact _ | |].
  { apply preserves_forEach; [exact _|]. intros b. unfold listBookmark.
    apply preserves_bind; [exact _ | apply R_clean |]. intros _.
    apply preserves_bind; [exact _ | |].
    { destruct (b_type b =? "lastLocation")%string; [|apply preserves_ret; exact _].
      apply preserves_bind; [exact _ | apply R_session |].
      intros current. apply preserves_ret; exact _. }
    intros [|]; [apply preserves_ret; exact _|].
    destruct (b_type b =? "lastLocation")%string;
      [apply R_lastLocationsList | apply R_bookmarksList]. }
  intros _.
  apply preserves_bind; [exact _ | apply R_bookmarksList |].
  intros _. apply R_lastLocationsList.
Qed.

Lemma cleanStoredTitles_preserves : preserves R cleanStoredTitles.
Proof.
  unfold cleanStoredTitles.
  apply preserves_bind; [exact _ | unfold objectKeys; apply preserves_reader; exact _ |].
  intros keys. apply preserves_forEach; [exact _|]. intros key. unfold cleanTitleOf.
  destruct (startsWith key "bookmark-"); [|apply preserves_ret; exact _].
  apply preserves_bind; [exact _ | unfold getItem; apply preserves_reader; exact _ |].
  intros item.
  apply preserves_bind; [exact _ | apply preserves_JSON_parse; exact _ |].
  intros [e|]; [apply R_clean | apply preserves_ret; exact _].
Qed.

Lemma storedBookmarks_preserves : preserves R storedBookmarks.
Proof.
  unfold storedBookmarks.
  apply preserves_bind; [exact _ | unfold objectKeys; apply preserves_reader; exact _ |].
  intros keys. apply preserves_forEachPush; [exact _|]. intros acc key.
  unfold pushVisible.
  destruct (startsWith key "bookmark-"); [|apply preserves_ret; exact _].
  apply preserves_bind; [exact _ | unfold getItem; apply preserves_reader; exact _ |].
  intros item.
  apply preserves_bind; [exact _ | apply preserves_JSON_parse; exact _ |].
  intros parsed.
  apply preserves_bind; [exact _ | apply preserves_deref; exact _ |].
  intros b.
  destruct (negb (b_type b =? "lastLocation")%string); [apply preserves_ret; exact _|].
  apply preserves_bind; [exact _ | apply R_session |].
  intros current.
  destruct (negb (strictEq (b_sessionDate b) current)); apply preserves_ret; exact _.
Qed.

Lemma ebBookmarksCheckForBookmarks_preserves : preserves R ebBookmarksCheckForBookmarks.
Proof.
  unfold ebBookmarksCheckForBookmarks.
  apply preserves_bind; [exact _ | apply cleanStoredTitles_preserves |]. intros _.
  apply preserves_bind; [exact _ | apply storedBookmarks_preserves |]. intros bs.
  apply preserves_bind; [exact _ | apply R_mark |].
  intros _. apply ebBookmarksListBookmarks_preserves.
Qed.

End Reconciliation.

Lemma ebBookmarksCheckForBookmarks_local (R : World -> World -> Prop) `{!PreOrder R} :
  (forall w w', sameLocal w w' -> R w w') ->
  (forall title, preserves R (ebBookmarksCleanLastLocations title)) ->
  preserves R ebBookmarksCheckForBookmarks.
Proof.
  intros Hlocal Hclean.
  assert (Hstores : forall w w', sameStores w w' -> R w w').
  { intros w w' H. apply Hlocal, sameStores_sameLocal, H. }
  apply ebBookmarksCheckForBookmarks_preserves; try exact _; try exact Hclean; intros.
  - eapply preserves_weaken; [exact Hlocal|]. apply ebBookmarksSessionDate_sameLocal.
  - eapply preserves_weaken; [exact Hstores|]. apply ebBookmarksMarkBookmarks_sameStores.
  - eapply preserves_weaken; [exact Hstores|]. apply clearLists_sameStores.
  - eapply preserves_weaken; [exact Hstores|]. apply appendToBookmarksList_sameStores.
  - eapply preserves_weaken; [exact Hstores|]. apply appendToLastLocationsList_sameStores.
Qed.

Lemma ebBookmarksCheckForBookmarks_prunedW : preserves prunedW ebBookmarksCheckForBookmarks.
Proof.
  apply ebBookmarksCheckForBookmarks_local;
    [exact _ | exact sameLocal_prunedW | exact ebBookmarksCleanLastLocations_prunedW].
Qed.

Lemma ebBookmarksCheckForBookmarks_shrunkW : preserves shrunkW ebBookmarksCheckForBookmarks.
Proof.
  apply ebBookmarksCheckForBookmarks_local;
    [exact _ | exact sameLocal_shrunkW | exact ebBookmarksCleanLastLocations_shrunkW].
Qed.

(** ** Deleting a bookmark *)

(** *** On a storage that is already pruned *)

#[local] Instance settledKept_PreOrder session ls : PreOrder (settledKept session ls).
Proof.
  split.
  - intros w [_ Hls]. now split.
  - intros w1 w2 w3 H12 H23 [Hs Hls].
    destruct (H12 (conj Hs Hls)) as [Hss2 Hls2].
    assert (Hs2 : sessionIs session w2) by (unfold sessionIs in *; now rewrite Hss2).
    destruct (H23 (conj Hs2 Hls2)) as [Hss3 Hls3].
    split; congruence.
Qed.

Lemma sameStores_settledKept session ls w w' :
  sameStores w w' -> settledKept session ls w w'.
Proof. intros [Hl Hs] [_ Hls]. split; congruence. Qed.

Lemma ebBookmarksSessionDate_settledKept session ls :
  preserves (settledKept session ls) ebBookmarksSessionDate.
Proof.
  intros w [[Hs Ht] Hls]. unfold after.
  rewrite (ebBookmarksSessionDate_established w Hs Ht). now split.
Qed.

(** Where the pruning of a title would remove nothing, it writes nothing. *)
Lemma ebBookmarksCleanLastLocations_settledKept session ls title :
  NoDup (map fst ls) ->
  nothingToPrune session title ls = true ->
  preserves (settledKept session ls) (ebBookmarksCleanLastLocations title).
Proof.
  intros Hnd Hnothing w [Hs Hls]. unfold after. subst ls.
  destruct (rawLastLocation (localStorage w)) eqn:Hraw.
  - rewrite (ebBookmarksCleanLastLocations_raw title w Hnd Hraw). now split.
  - rewrite (ebBookmarksCleanLastLocations_eq title Hs Hnd Hraw). simpl.
    split; [reflexivity|]. apply filter_all.
    unfold nothingToPrune in Hnothing. rewrite forallb_forall in Hnothing.
    exact Hnothing.
Qed.

Lemma ebBookmarksCheckForBookmarks_settledKept session ls :
  NoDup (map fst ls) ->
  (forall title, nothingToPrune session title ls = true) ->
  preserves (settledKept session ls) ebBookmarksCheckForBookmarks.
Proof.
  intros Hnd Hnothing.
  assert (Hstores : forall w w', sameStores w w' -> settledKept session ls w w').
  { intros w w'. apply sameStores_settledKept. }
  apply ebBookmarksCheckForBookmarks_preserves; try exact _; intros.
  - now apply ebBookmarksCleanLastLocations_settledKept.
  - apply ebBookmarksSessionDate_settledKept.
  - eapply preserves_weaken; [exact Hstores|]. apply ebBookmarksMarkBookmarks_sameStores.
  - eapply preserves_weaken; [exact Hstores|]. apply clearLists_sameStores.
  - eapply preserves_weaken; [exact Hstores|]. apply appendToBookmarksList_sameStores.
  - eapply preserves_weaken; [exact Hstores|]. apply appendToLastLocationsList_sameStores.
Qed.

Lemma titleEntries_remove title key ls :
  titleEntries title (remove key ls)
  = filter (fun e => negb (key =? fst e)%string) (titleEntries title ls).
Proof.
  unfold remove. induction ls as [|[k v] ls IH]; [reflexivity|].
  cbn [filter fst]. unfold titleEntries at 2. cbn [flat_map fst snd].
  fold (titleEntries title ls). rewrite filter_app, <- IH.
  destruct (key =? k)%string eqn:Hk; cbn [negb].
  - destruct v as [b|s]; [|reflexivity].
    destruct (isLastLocationKey k && (title =? b_bookTitle b)%string); [|reflexivity].
    cbn [filter fst]. now rewrite Hk.
  - unfold titleEntries at 1. cbn [flat_map fst snd]. fold (titleEntries title
      (filter (fun e => negb (key =? fst e)%string) ls)).
    destruct v as [b|s]; [|reflexivity].
    destruct (isLastLocationKey k && (title =? b_bookTitle b)%string); [|reflexivity].
    cbn [filter fst app]. now rewrite Hk.
Qed.

Lemma filter_all_or_shorter {A} (f : A -> bool) l :
  filter f l = l \/ (length (filter f l) < length l)%nat.
Proof.
  induction l as [|x l IH]; simpl; [now left|].
  destruct (f x); simpl.
  - destruct IH as [->|IH]; [now left | right; lia].
  - right. pose proof (filter_length_le f l). lia.
Qed.

Lemma retainedOf_short session l :
  (length l <= 1)%nat -> retainedOf session l = l.
Proof.
  destruct l as [|a [|b l]]; simpl; intros H; try lia.
  - reflexivity.
  - unfold retainedOf. simpl. destruct (isPrevious session a); reflexivity.
Qed.

Lemma NoDup_map_eq {A B} (f : A -> B) l x y :
  NoDup (map f l) -> In x l -> In y l -> f x = f y -> x = y.
Proof.
  induction l as [|z l IH]; simpl; intros Hnd Hx Hy Hf; [contradiction|].
  inversion Hnd as [|? ? Hnotin Hnd']; subst.
  destruct Hx as [->|Hx], Hy as [->|Hy]; auto.
  - exfalso. apply Hnotin. rewrite Hf. now apply in_map.
  - exfalso. apply Hnotin. rewrite <- Hf. now apply in_map.
Qed.

(** On a storage where the pruning of a title would remove nothing, at
    most two last locations of the title are stored. *)
Lemma nothingToPrune_length session title ls :
  keysTellSessionsApart title ls = true ->
  distinctSessions title ls = true ->
  nothingToPrune session title ls = true ->
  (length (titleLastLocations title ls) <= 2)%nat.
Proof.
  intros Hd Hu Hn. apply distinct_NoDup in Hu.
  set (collected := titleLastLocations title ls) in *.
  set (kept := retainedOf session collected).
  assert (Hincl : incl collected kept).
  { intros b Hb. unfold collected, titleLastLocations in Hb.
    apply in_map_iff in Hb as ([k b'] & Hb' & Hin). simpl in Hb'. subst b'.
    pose proof Hin as Hin'. apply titleEntries_In in Hin' as (Hls & Hk & Ht).
    unfold nothingToPrune in Hn. rewrite forallb_forall in Hn.
    specialize (Hn _ Hls). unfold keepEntry in Hn. simpl in Hn.
    rewrite Hk, Ht, String.eqb_refl in Hn. simpl in Hn.
    rewrite <- Ht in Hn. fold collected kept in Hn.
    rewrite (countMatches_sameSession title ls k b kept Hd Hin) in Hn.
    - apply existsb_exists in Hn as (r & Hr & Hsame).
      assert (Hrc : In r collected) by now apply (retainedOf_incl session).
      assert (Hbc : In b collected).
      { unfold collected, titleLastLocations. apply in_map_iff. now exists (k, b). }
      unfold sameSession in Hsame. apply String.eqb_eq in Hsame.
      now rewrite (NoDup_map_eq _ _ b r Hu Hbc Hrc Hsame).
    - intros r. apply retainedOf_incl. }
  pose proof (NoDup_map_inv _ _ Hu) as Hnd.
  pose proof (NoDup_incl_length Hnd Hincl) as Hlen.
  pose proof (retainedOf_length session collected). fold kept in H. lia.
Qed.

(** A settled storage is still settled after the removal of one entry. *)
Lemma nothingToPrune_remove session title key ls :
  settled session ls = true ->
  nothingToPrune session title (remove key ls) = true.
Proof.
  intros Hsettled. unfold settled in Hsettled.
  apply andb_true_iff in Hsettled as [Hu Hall]. rewrite forallb_forall in Hall.
  unfold nothingToPrune. apply forallb_forall. intros [k v] Hin.
  assert (Hin0 : In (k, v) ls).
  { unfold remove in Hin. now apply filter_In in Hin as [Hin _]. }
  unfold keepEntry. cbn [fst snd].
  destruct (isLastLocationKey k) eqn:Hk; [|reflexivity].
  destruct v as [b|s]; [|reflexivity].
  destruct (String.eqb_spec title (b_bookTitle b)) as [Ht|Ht]; [|reflexivity].
  cbn [andb].
  specialize (Hall _ Hin0). simpl in Hall. rewrite <- Ht in Hall.
  apply andb_true_iff in Hall as [Hall Hn].
  apply andb_true_iff in Hall as [Hd Hdist].
  pose proof (nothingToPrune_length session title ls Hd Hdist Hn) as Hlen.
  assert (HE : In (k, b) (titleEntries title ls)) by (apply titleEntries_In; auto).
  assert (HE0 : In (k, b) (titleEntries title (remove key ls)))
    by (apply titleEntries_In; auto).
  set (kept0 := retainedOf session (titleLastLocations title (remove key ls))).
  assert (Hsub : forall r, In r kept0 -> In r (titleLastLocations title ls)).
  { intros r Hr. apply retainedOf_incl in Hr. unfold titleLastLocations in *.
    rewrite titleEntries_remove in Hr. apply in_map_iff in Hr as (e & He & Hr).
    apply filter_In in Hr as [Hr _]. apply in_map_iff. now exists e. }
  rewrite (countMatches_sameSession title ls k b kept0 Hd HE Hsub).
  unfold kept0, titleLastLocations. rewrite titleEntries_remove.
  destruct (filter_all_or_shorter (fun e => negb (key =? fst e)%string)
                                  (titleEntries title ls)) as [Hsame|Hshort].
  - rewrite Hsame. fold (titleLastLocations title ls).
    unfold nothingToPrune in Hn. rewrite forallb_forall in Hn.
    specialize (Hn _ Hin0). unfold keepEntry in Hn. simpl in Hn.
    rewrite Hk, Ht, String.eqb_refl in Hn. simpl in Hn. rewrite <- Ht in Hn.
    rewrite <- (countMatches_sameSession title ls k b _ Hd HE); [exact Hn|].
    intros r. apply retainedOf_incl.
  - rewrite retainedOf_short.
    + apply existsb_exists. exists b. split; [|apply sameSession_refl].
      rewrite <- titleEntries_remove. apply in_map_iff. now exists (k, b).
    + rewrite length_map. unfold titleLastLocations in Hlen.
      rewrite length_map in Hlen. lia.
Qed.

Lemma nothingToPrune_all session ls key :
  settled session ls = true ->
  forall title, nothingToPrune session title (remove key ls) = true.
Proof. intros H title. now apply nothingToPrune_remove. Qed.

(** C5, as the code has it: [ebBookmarksDeleteBookmark] removes the entry
    at the key of the record; the reconciliation it triggers removes
    nothing but entries under last-location keys, so every entry under
    another key is as before, and no entry is added or changed.  On a
    storage whose ['bookmark-'] keys hold records and that the
    reconciliation of this session has already pruned, it removes the
    entry at the key of the record and no other. *)
Theorem ebBookmarksDeleteBookmark_frame bookmark w :
  let ls := localStorage w in
  let ls' := localStorage (after (ebBookmarksDeleteBookmark bookmark) w) in
  lookup (b_key bookmark) ls' = None /\
  (forall k, k <> b_key bookmark -> isLastLocationKey k = false ->
             lookup k ls' = lookup k ls) /\
  (forall k v, lookup k ls' = Some v -> lookup k ls = Some v) /\
  (forall session, sessionIs session w -> parseable ls = true ->
                   settled session ls = true ->
                   ls' = remove (b_key bookmark) ls).
Proof.
  intros ls ls'.
  assert (H : forall k,
             lookup k ls' = (if (k =? b_key bookmark)%string then None else lookup k ls) \/
             (isLastLocationKey k = true /\ lookup k ls' = None)).
  { intros k. unfold ls', after, ebBookmarksDeleteBookmark.
    unfold bind at 1, removeItem at 1.
    pose proof (ebBookmarksCheckForBookmarks_prunedW
                  (setLocal (remove (b_key bookmark) (localStorage w)) w) k) as Hk.
    unfold after in Hk. simpl in Hk. rewrite lookup_remove in Hk. exact Hk. }
  repeat split.
  - destruct (H (b_key bookmark)) as [E|[_ E]]; [|exact E].
    now rewrite String.eqb_refl in E.
  - intros k Hne Hk. destruct (H k) as [E|[Hk' _]]; [|congruence].
    destruct (String.eqb_spec k (b_key bookmark)); [contradiction | exact E].
  - intros k v Hv. destruct (H k) as [E|[_ E]]; [|congruence].
    destruct (k =? b_key bookmark)%string; congruence.
  - intros session Hs _ Hsettled.
    unfold ls', after, ebBookmarksDeleteBookmark.
    unfold bind at 1, removeItem at 1.
    set (w0 := setLocal (remove (b_key bookmark) (localStorage w)) w).
    assert (Hnd : NoDup (map fst (remove (b_key bookmark) ls))).
    { apply NoDup_keys_filter. apply distinct_NoDup.
      unfold settled in Hsettled. now apply andb_true_iff in Hsettled as [Hu _]. }
    pose proof (@ebBookmarksCheckForBookmarks_settledKept session
                  (remove (b_key bookmark) ls) Hnd
                  (@nothingToPrune_all session ls (b_key bookmark) Hsettled) w0) as Hkept.
    destruct Hkept as [_ Hls]; [split; [exact Hs | reflexivity]|].
    exact Hls.
Qed.

Lemma ebBookmarksDeleteBookmark_frame_witness :
  let w := tabOf mixedStorage "1700000000300" in
  let bookmark := sampleRecord "lastLocation" "Other" "1700000000100"
                               "bookmark-other-lastLocation-1700000000100" in
  let ls' := localStorage (after (ebBookmarksDeleteBookmark bookmark) w) in
  lookup "bookmark-other-lastLocation-1700000000100" ls' = None /\
  lookup "bookmark-book-userBookmark" ls' = lookup "bookmark-book-userBookmark" mixedStorage /\
  lookup "theme" ls' = Some (Raw "dark") /\
  localStorage
    (after (ebBookmarksDeleteBookmark
              (sampleRecord "userBookmark" "Book" "1700000000100"
                            "bookmark-book-userBookmark"))
           (tabOf (userBookmarkEntry "book" "Book" "1700000000100" :: chronologicalPair)
                  "1700000000300"))
  = chronologicalPair.
Proof.
  intros w bookmark ls'.
  destruct (ebBookmarksDeleteBookmark_frame bookmark w) as (H1 & H2 & H3 & _).
  split; [exact H1|]. split; [|split].
  - apply (H2 "bookmark-book-userBookmark"%string); [discriminate | reflexivity].
  - apply (H2 "theme"%string); [discriminate | reflexivity].
  - destruct (ebBookmarksDeleteBookmark_frame
                (sampleRecord "userBookmark" "Book" "1700000000100"
                              "bookmark-book-userBookmark")
                (tabOf (userBookmarkEntry "book" "Book" "1700000000100" :: chronologicalPair)
                       "1700000000300")) as (_ & _ & _ & H4).
    apply (H4 "1700000000300"%string); [split; reflexivity | reflexivity | reflexivity].
Defined.

(** C5 as stated fails where the stored last locations are not pruned
    yet: deleting the user bookmark of the book also removes the last
    location of its oldest session. *)
Lemma ebBookmarksDeleteBookmark_prunes_too :
  let w := tabOf unprunedStorage "1700000000300" in
  let bookmark := sampleRecord "userBookmark" "Book" "1700000000100"
                               "bookmark-book-userBookmark" in
  let other := "bookmark-book-lastLocation-1700000000100"%string in
  other <> b_key bookmark /\
  lookup other (localStorage w)
  = Some (Json (sampleRecord "lastLocation" "Book" "1700000000100" other)) /\
  lookup other (localStorage (after (ebBookmarksDeleteBookmark bookmark) w)) = None.
Proof. repeat split. discriminate. Qed.

(** ** Deleting all bookmarks *)

(** Declining the confirmation leaves everything as it is. *)
Lemma ebBookmarksDeleteAllBookmarks_declined type w :
  ebBookmarksDeleteAllBookmarks false type w = (Normal tt, w).
Proof. reflexivity. Qed.

(** ** Capturing a bookmark *)

Lemma ebBookmarksSessionDate_sameDocument : preserves sameDocument ebBookmarksSessionDate.
Proof.
  intros w. unfold sameDocument, after.
  destruct (match ss_sessionDate (sessionStorage w) with
            | Some s => truthy s
            | None => false
            end) eqn:E.
  - destruct (ss_sessionDate (sessionStorage w)) as [s|] eqn:Hs; [|discriminate].
    now rewrite (ebBookmarksSessionDate_established w Hs E).
  - now rewrite (ebBookmarksSessionDate_fresh w E).
Qed.

(** The two calls a capture makes: the second returns the text of what
    the first returned, and neither touches the storage or the page. *)
Lemma ebBookmarksSessionDate_twice w :
  exists v ws,
    ebBookmarksSessionDate w = (Normal v, ws) /\
    ebBookmarksSessionDate ws = (Normal (VStr (toStr v)), ws) /\
    localStorage ws = localStorage w /\ document ws = document w.
Proof.
  destruct (ebBookmarksSessionDate_repeat w) as (v & Hv & Hagain).
  exists v, (after ebBookmarksSessionDate w). repeat split.
  - unfold result, after in *. destruct (ebBookmarksSessionDate w) as [r ws].
    simpl in *. now subst r.
  - exact Hagain.
  - apply ebBookmarksSessionDate_sameLocal.
  - apply ebBookmarksSessionDate_sameDocument.
Qed.

Lemma ebBookmarksElementID_found w n e :
  nth_error (elements (document w)) n = Some e -> truthy (el_id e) = true ->
  ebBookmarksElementID (Some n) w = (Normal (el_id e), w).
Proof.
  intros He Hid. unfold ebBookmarksElementID.
  unfold bind at 1. unfold ret at 1.
  rewrite (bind_normal (node_found w n He)). now rewrite Hid.
Qed.

(** *** The page stays the same for a capture *)

#[local] Instance sameDocument_PreOrder : PreOrder sameDocument.
Proof.
  split.
  - intros w; reflexivity.
  - intros w1 w2 w3 H12 H23. unfold sameDocument in *. congruence.
Qed.

#[local] Instance samePage_PreOrder : PreOrder samePage.
Proof.
  split.
  - intros w. repeat split.
  - intros w1 w2 w3 (Ha & Hb & Hc & Hd) (Ha' & Hb' & Hc' & Hd').
    repeat split; congruence.
Qed.


Lemma removeItem_sameDocument key : preserves sameDocument (removeItem key).
Proof. intros w. reflexivity. Qed.

Lemma ebBookmarksCleanLastLocations_sameDocument title :
  preserves sameDocument (ebBookmarksCleanLastLocations title).
Proof.
  unfold ebBookmarksCleanLastLocations.
  apply preserves_bind; [exact _ | apply preserves_reader; exact _ |].
  intros keys.
  apply preserves_bind; [exact _ | |].
  { apply preserves_forEachPush; [exact _|]. intros acc key.
    unfold collectLastLocation. preserve. }
  intros lastLocations.
  apply preserves_bind; [exact _ | |].
  { apply preserves_filterM; [exact _|]. intros location. unfold notThisSession.
    apply preserves_bind; [exact _ | | intros current; apply preserves_ret; exact _].
    apply ebBookmarksSessionDate_sameDocument. }
  intros previous.
  apply preserves_bind; [exact _ | apply preserves_reader; exact _ |].
  intros keys'.
  apply preserves_forEach; [exact _|]. intros key.
  unfold removeUnlessKept. preserve. apply removeItem_sameDocument.
Qed.












Section CaptureFacts.

Variable ebSlugify : string -> string.

(** A capture of an element that has an id stores the record it builds
    and reconciles. *)
Lemma ebBookmarksSetBookmark_eq type n e description w :
  nth_error (elements (document w)) n = Some e -> truthy (el_id e) = true ->
  exists sessionDate ws,
    ebBookmarksSessionDate w = (Normal sessionDate, ws) /\
    localStorage ws = localStorage w /\ document ws = document w /\
    let bookmark := captured ebSlugify type e description sessionDate (document w) in
    ebBookmarksSetBookmark ebSlugify type (Some n) description w
    = ebBookmarksCheckForBookmarks
        (setLocal (assign (b_key bookmark) (Json bookmark) (localStorage w)) ws).
Proof.
  intros He Hid.
  destruct (ebBookmarksSessionDate_twice w) as (v & ws & Hv & Hagain & Hls & Hdoc).
  exists v, ws. repeat split; try assumption.
  assert (He' : nth_error (elements (document ws)) n = Some e) by now rewrite Hdoc.
  unfold ebBookmarksSetBookmark.
  assert (Hdesc :
    (if match description with Some s => truthy s | None => false end
     then ret (match description with Some s => s | None => ""%string end)
     else e0 <- node (Some n) ;; ret (fallbackDescription (el_innerText e0))) w
    = (Normal (capturedDescription e description), w)).
  { unfold capturedDescription. destruct description as [s|].
    - destruct (truthy s); [reflexivity|].
      now rewrite (bind_normal (node_found w n He)).
    - now rewrite (bind_normal (node_found w n He)). }
  rewrite (bind_normal Hdesc).
  rewrite (bind_normal Hv).
  unfold getDocument at 1. unfold bind at 1.
  rewrite (bind_normal (ebBookmarksElementID_found ws n He' Hid)).
  rewrite (bind_normal (node_found ws n He')).
  rewrite (bind_normal (ebBookmarksElementID_found ws n He' Hid)).
  rewrite Hdoc.
  unfold captured.
  destruct (type =? "lastLocation")%string eqn:Htype.
  - assert (Hsession :
      (current <- ebBookmarksSessionDate ;; ret (Some current)) ws
      = (Normal (Some (VStr (toStr v))), ws)) by now rewrite (bind_normal Hagain).
    rewrite (bind_normal Hsession).
    unfold bind at 1. unfold setItem at 1. cbn [b_key bookmarkKey toStr].
    rewrite Hls. reflexivity.
  - unfold bind at 1. unfold ret at 1.
    unfold bind at 1. unfold setItem at 1. cbn [b_key].
    rewrite Hls. reflexivity.
Qed.




Lemma In_assign {V} k (v : V) key v0 l :
  In (k, v) (assign key v0 l) -> (k = key /\ v = v0) \/ In (k, v) l.
Proof.
  induction l as [|[k' v'] l IH]; simpl.
  - intros [[= <- <-]|[]]. now left.
  - destruct (String.eqb_spec key k') as [->|Hne]; simpl.
    + intros [[= <- <-]|Hin]; [now left | right; now right].
    + intros [[= <- <-]|Hin]; [right; now left|].
      destruct (IH Hin) as [Heq|Hin']; [now left | right; now right].
Qed.

Lemma keys_assign {V} key (v0 : V) l k :
  In k (map fst (assign key v0 l)) -> k = key \/ In k (map fst l).
Proof.
  intros Hin. apply in_map_iff in Hin as ([k' v] & <- & Hin).
  destruct (In_assign _ _ _ _ _ Hin) as [[-> _]|Hin']; [now left|].
  right. apply in_map_iff. now exists (k', v).
Qed.

Lemma NoDup_keys_assign {V} key (v0 : V) l :
  NoDup (map fst l) -> NoDup (map fst (assign key v0 l)).
Proof.
  induction l as [|[k' v'] l IH]; simpl; intros H.
  - constructor; [intros [] | constructor].
  - inversion H as [|? ? Hnotin Hnd]; subst.
    destruct (String.eqb_spec key k') as [->|Hne]; simpl.
    + now constructor.
    + constructor; [|auto].
      intros Hin. destruct (keys_assign _ _ _ _ Hin) as [->|Hin']; auto.
Qed.

Lemma WellKeyed_assign ls key b :
  WellKeyed ebSlugify ls ->
  (b_type b = "userBookmark"%string ->
   key = bookmarkKey ebSlugify (b_bookTitle b) "userBookmark" None) ->
  WellKeyed ebSlugify (assign key (Json b) ls).
Proof.
  intros [Hnd Hall] Hkey. split; [now apply NoDup_keys_assign|].
  intros k b' Hin Ht. destruct (In_assign _ _ _ _ _ Hin) as [[-> [= ->]]|Hin'].
  - now apply Hkey.
  - now apply Hall.
Qed.

Lemma WellKeyed_filter ls f : WellKeyed ebSlugify ls -> WellKeyed ebSlugify (filter f ls).
Proof.
  intros [Hnd Hall]. split; [now apply NoDup_keys_filter|].
  intros k b Hin Ht. apply filter_In in Hin as [Hin _]. now apply Hall.
Qed.



(** Every capture, whatever its type and target, and every deletion
    keep the user bookmarks under their derived keys: [WellKeyed] holds
    of every storage that the script has filled. *)
#[local] Instance keysKept_PreOrder : PreOrder (keysKept ebSlugify).
Proof.
  split.
  - intros w H. exact H.
  - intros w1 w2 w3 H12 H23 H. auto.
Qed.

Lemma shrunkW_keysKept w w' : shrunkW w w' -> keysKept ebSlugify w w'.
Proof. intros [f Hf] H. rewrite Hf. now apply WellKeyed_filter. Qed.

Lemma ebBookmarksCheckForBookmarks_keysKept :
  preserves (keysKept ebSlugify) ebBookmarksCheckForBookmarks.
Proof.
  eapply preserves_weaken; [apply shrunkW_keysKept|].
  apply ebBookmarksCheckForBookmarks_shrunkW.
Qed.

Lemma ebBookmarksSessionDate_keysKept :
  preserves (keysKept ebSlugify) ebBookmarksSessionDate.
Proof.
  eapply preserves_weaken; [|apply ebBookmarksSessionDate_sameLocal].
  intros w w' H. apply shrunkW_keysKept. now apply sameLocal_shrunkW.
Qed.

Lemma ebBookmarksElementID_keysKept element :
  preserves (keysKept ebSlugify) (ebBookmarksElementID element).
Proof.
  unfold ebBookmarksElementID, queryOnscreen, queryWithId, node. preserve.
Qed.

Lemma ebBookmarksSetBookmark_keysKept type element description :
  preserves (keysKept ebSlugify)
            (ebBookmarksSetBookmark ebSlugify type element description).
Proof.
  unfold ebBookmarksSetBookmark.
  apply preserves_bind; [exact _ | unfold node; preserve |]. intros description'.
  apply preserves_bind; [exact _ | apply ebBookmarksSessionDate_keysKept |].
  intros sessionDate.
  apply preserves_bind; [exact _ | unfold getDocument; apply preserves_reader; exact _ |].
  intros d.
  apply preserves_bind; [exact _ | apply ebBookmarksElementID_keysKept |]. intros id.
  apply preserves_bind; [exact _ | unfold node; preserve |]. intros e.
  apply preserves_bind; [exact _ | apply ebBookmarksElementID_keysKept |]. intros id'.
  assert (Hstore : forall session,
            (type = "userBookmark"%string -> session = None) ->
            preserves (keysKept ebSlugify)
              (setItem (bookmarkKey ebSlugify (bodyTitle d) type session)
                 (Json (mkBookmark sessionDate type (bodyTitle d) (docTitle d)
                          description' id (el_fingerprint e)
                          (beforeHash (href d) ++ "#" ++ id')%string
                          (bookmarkKey ebSlugify (bodyTitle d) type session))) ;;
               ebBookmarksCheckForBookmarks)).
  { intros session Hsession.
    apply preserves_bind;
      [exact _ | | intros _; apply ebBookmarksCheckForBookmarks_keysKept].
    intros w Hwk. unfold after, setItem. simpl.
    apply WellKeyed_assign; [exact Hwk|]. simpl. intros Htype.
    now rewrite (Hsession Htype), Htype. }
  destruct (String.eqb_spec type "lastLocation") as [Ht|Ht].
  - apply preserves_bind; [exact _ | |].
    + apply preserves_bind; [exact _ | apply ebBookmarksSessionDate_keysKept |].
      intros current. apply preserves_ret; exact _.
    + intros session. apply Hstore. intros Htype. subst type. discriminate.
  - intros w. apply (Hstore None (fun _ => eq_refl) w).
Qed.

Lemma ebBookmarksDeleteBookmark_keysKept bookmark :
  preserves (keysKept ebSlugify) (ebBookmarksDeleteBookmark bookmark).
Proof.
  unfold ebBookmarksDeleteBookmark.
  apply preserves_bind;
    [exact _ | | intros _; apply ebBookmarksCheckForBookmarks_keysKept].
  eapply preserves_weaken; [apply shrunkW_keysKept|]. apply removeItem_shrunkW.
Qed.



End CaptureFacts.

(** ** The derived description *)

Lemma take_length n s : (String.length s <= n)%nat -> take n s = s.
Proof.
  revert n. induction s as [|c s IH]; intros [|n]; simpl; intros H;
    try reflexivity; try lia.
  f_equal. apply IH. lia.
Qed.

Lemma take_take_min n s : take (Nat.min n (String.length s)) s = take n s.
Proof.
  revert n. induction s as [|c s IH]; intros [|n]; simpl; try reflexivity.
  f_equal. apply IH.
Qed.

Lemma slice0_take s e : 0 <= e -> slice0 s e = take (Z.to_nat e) s.
Proof.
  intros He. unfold slice0.
  destruct (Z.ltb_spec e 0); [lia|].
  rewrite <- (take_take_min (Z.to_nat e) s). f_equal. lia.
Qed.

Lemma take_app_length pre rest : take (String.length pre) (pre ++ rest)%string = pre.
Proof. induction pre as [|c pre IH]; simpl; [now destruct rest | now f_equal]. Qed.

Lemma lastIndexOf_bound s c : -1 <= lastIndexOf s c < Z.of_nat (String.length s).
Proof.
  induction s as [|a s IH]; simpl; [lia|].
  destruct (Z.leb_spec 0 (lastIndexOf s c)); [lia|].
  destruct (Ascii.eqb a c); lia.
Qed.

Lemma lastIndexOf_absent s c :
  (forall a, Ascii.eqb a c = true -> isBoundary a = true) ->
  noBoundary s = true -> lastIndexOf s c = -1.
Proof.
  intros Hc. induction s as [|a s IH]; simpl; [reflexivity|].
  intros H. apply andb_true_iff in H as [Ha Hs]. rewrite (IH Hs). simpl.
  destruct (Ascii.eqb a c) eqn:E; [|reflexivity].
  apply Hc in E. now rewrite E in Ha.
Qed.

Lemma lastIndexOf_app pre a rest c :
  lastIndexOf rest c = -1 ->
  lastIndexOf (pre ++ String a rest)%string c
  = if Ascii.eqb a c then Z.of_nat (String.length pre) else lastIndexOf pre c.
Proof.
  intros Hrest. induction pre as [|b pre IH]; simpl.
  - rewrite Hrest. simpl. reflexivity.
  - rewrite IH. destruct (Ascii.eqb a c).
    + destruct (Z.leb_spec 0 (Z.of_nat (String.length pre))); lia.
    + reflexivity.
Qed.

(** When the first fifty characters hold a space or a full stop, the
    derived description is the text before the last of them, and the
    ellipsis. *)
Lemma fallbackDescription_boundary text pre c rest :
  take 50 text = (pre ++ String c rest)%string ->
  isBoundary c = true -> noBoundary rest = true ->
  fallbackDescription text = (pre ++ ellipsis)%string.
Proof.
  intros Htake Hc Hrest. unfold fallbackDescription.
  rewrite (@slice0_take text 50) by lia. change (Z.to_nat 50) with 50%nat.
  rewrite Htake.
  assert (Hspace : lastIndexOf rest " " = -1).
  { apply lastIndexOf_absent; [|assumption].
    intros a Ha. unfold isBoundary. now rewrite Ha. }
  assert (Hstop : lastIndexOf rest "." = -1).
  { apply lastIndexOf_absent; [|assumption].
    intros a Ha. unfold isBoundary. rewrite Ha. apply orb_true_r. }
  rewrite (@lastIndexOf_app pre c rest " " Hspace).
  rewrite (@lastIndexOf_app pre c rest "." Hstop).
  pose proof (lastIndexOf_bound pre " ") as Hb1.
  pose proof (lastIndexOf_bound pre ".") as Hb2.
  assert (Hfrom :
    (if (if Ascii.eqb c " " then Z.of_nat (String.length pre) else lastIndexOf pre " ")
        <? (if Ascii.eqb c "." then Z.of_nat (String.length pre) else lastIndexOf pre ".")
     then if Ascii.eqb c "." then Z.of_nat (String.length pre) else lastIndexOf pre "."
     else if Ascii.eqb c " " then Z.of_nat (String.length pre) else lastIndexOf pre " ")
    = Z.of_nat (String.length pre)).
  { unfold isBoundary in Hc. apply orb_true_iff in Hc as [Hc|Hc].
    - rewrite Hc. apply Ascii.eqb_eq in Hc. subst c. simpl.
      destruct (Z.ltb_spec (Z.of_nat (String.length pre)) (lastIndexOf pre ".")); [lia|].
      reflexivity.
    - rewrite Hc. apply Ascii.eqb_eq in Hc. subst c. simpl.
      destruct (Z.ltb_spec (lastIndexOf pre " ") (Z.of_nat (String.length pre))); [|lia].
      reflexivity. }
  rewrite Hfrom. rewrite slice0_take by lia. rewrite Nat2Z.id.
  now rewrite take_app_length.
Qed.

(** A supplied description is stored as it is; without one, or with an
    empty one, the derived description is stored. *)
Lemma capturedDescription_supplied e s :
  truthy s = true -> capturedDescription e (Some s) = s.
Proof. intros H. unfold capturedDescription. now rewrite H. Qed.

Lemma capturedDescription_derived e description :
  match description with Some s => truthy s | None => false end = false ->
  capturedDescription e description = fallbackDescription (el_innerText e).
Proof.
  unfold capturedDescription. destruct description as [s|]; [|reflexivity].
  now intros ->.
Qed.

(** C8, at a heading of one word: the description derived for
    "Introduction" is "Introductio …".  With no space and no full stop
    in the text both indices are -1, and slice(0, -1) drops the last
    character; the text is not cut at a space or at the end of a
    sentence, and the description does not end on a full word. *)
Theorem ebBookmarksSetBookmark_cuts_single_word :
  let w := headingPage in
  let w' := after (ebBookmarksSetBookmark sampleSlugify "userBookmark" (Some 0%nat) None) w in
  nth_error (elements (document w)) 0 = Some introHeading /\
  el_innerText introHeading = "Introduction"%string /\
  noBoundary "Introduction" = true /\
  result (ebBookmarksSetBookmark sampleSlugify "userBookmark" (Some 0%nat) None) w = Normal tt /\
  exists bookmark,
    lookup "bookmark-my-book-userBookmark" (localStorage w') = Some (Json bookmark) /\
    b_description bookmark = "Introductio …"%string.
Proof.
  repeat split. eexists. split; reflexivity.
Qed.

(** ** The visible bookmarks *)

#[local] Instance sessionKept_PreOrder session : PreOrder (sessionKept session).
Proof.
  split.
  - intros w _. reflexivity.
  - intros w1 w2 w3 H12 H23 Hs. specialize (H12 Hs).
    assert (Hs2 : sessionIs session w2).
    { unfold sessionIs in *. now rewrite H12. }
    specialize (H23 Hs2). congruence.
Qed.

Lemma sessionKept_sessionIs session w w' :
  sessionKept session w w' -> sessionIs session w -> sessionIs session w'.
Proof. intros H Hs. unfold sessionIs in *. now rewrite (H Hs). Qed.

Lemma ebBookmarksSessionDate_sessionKept session :
  preserves (sessionKept session) ebBookmarksSessionDate.
Proof.
  intros w [Hs Ht]. unfold after.
  now rewrite (ebBookmarksSessionDate_established w Hs Ht).
Qed.

Lemma removeItem_sessionKept session key : preserves (sessionKept session) (removeItem key).
Proof. intros w _. reflexivity. Qed.

Lemma ebBookmarksCleanLastLocations_sessionKept session title :
  preserves (sessionKept session) (ebBookmarksCleanLastLocations title).
Proof.
  unfold ebBookmarksCleanLastLocations.
  apply preserves_bind; [exact _ | apply preserves_reader; exact _ |].
  intros keys.
  apply preserves_bind; [exact _ | |].
  { apply preserves_forEachPush; [exact _|]. intros acc key.
    unfold collectLastLocation. preserve. }
  intros lastLocations.
  apply preserves_bind; [exact _ | |].
  { apply preserves_filterM; [exact _|]. intros location. unfold notThisSession.
    apply preserves_bind; [exact _ | | intros current; apply preserves_ret; exact _].
    apply ebBookmarksSessionDate_sessionKept. }
  intros previous.
  apply preserves_bind; [exact _ | apply preserves_reader; exact _ |].
  intros keys'.
  apply preserves_forEach; [exact _|]. intros key.
  unfold removeUnlessKept. preserve. apply removeItem_sessionKept.
Qed.

Lemma forEachPush_invariant {A B} (I : World -> Prop) (P : list B -> Prop)
    (f : list B -> A -> M (list B)) xs :
  (forall acc x w, I w -> P acc ->
     I (after (f acc x) w) /\
     forall acc', result (f acc x) w = Normal acc' -> P acc') ->
  forall acc w, I w -> P acc ->
    forall r, result (forEachPush f xs acc) w = Normal r -> P r.
Proof.
  intros Hstep. induction xs as [|x xs IH]; intros acc w Hw Hacc r; simpl.
  - unfold result, ret. simpl. now intros [= <-].
  - unfold result, bind. destruct (Hstep acc x w Hw Hacc) as [HI HP].
    unfold after, result in HI, HP.
    destruct (f acc x w) as [[acc'|e] w']; simpl in *; [|discriminate].
    apply IH; auto.
Qed.

Lemma forEach_invariant {A} (I : World -> Prop) (f : A -> M unit) xs :
  (forall x w, I w -> I (after (f x) w)) ->
  forall w, I w -> I (after (forEach f xs) w).
Proof.
  intros Hstep. induction xs as [|x xs IH]; intros w Hw; simpl.
  - exact Hw.
  - unfold after, bind. specialize (Hstep x w Hw). unfold after in Hstep.
    destruct (f x w) as [[[]|e] w']; simpl in *; [|assumption].
    now apply IH.
Qed.

Lemma pushVisible_eq session acc key w :
  sessionIs session w ->
  pushVisible acc key w =
  if startsWith key "bookmark-" then
    match lookup key (localStorage w) with
    | Some (Json b) =>
        (Normal (if negb (b_type b =? "lastLocation")%string then acc ++ [b]
                 else if negb (strictEq (b_sessionDate b) (VStr session))
                      then acc ++ [b] else acc), w)
    | Some (Raw _) => (Throw SyntaxError, w)
    | None => (Throw TypeError, w)
    end
  else (Normal acc, w).
Proof.
  intros [Hs Ht]. unfold pushVisible.
  destruct (startsWith key "bookmark-"); [|reflexivity].
  unfold bind, getItem.
  destruct (lookup key (localStorage w)) as [[b|s]|]; simpl; try reflexivity.
  destruct (negb (b_type b =? "lastLocation")%string); [reflexivity|].
  rewrite (ebBookmarksSessionDate_established w Hs Ht).
  destruct (negb (strictEq (b_sessionDate b) (VStr session))); reflexivity.
Qed.

Lemma pushVisible_established session acc key w :
  sessionIs session w -> noneOfSession session acc ->
  after (pushVisible acc key) w = w /\
  forall acc', result (pushVisible acc key) w = Normal acc' ->
               noneOfSession session acc'.
Proof.
  intros Hs Hacc. unfold after, result. rewrite (@pushVisible_eq session acc key w Hs).
  destruct (startsWith key "bookmark-"); [|split; [reflexivity | now intros ? [= <-]]].
  destruct (lookup key (localStorage w)) as [[b|s]|]; simpl;
    try (split; [reflexivity | discriminate]).
  split; [reflexivity|]. intros acc' [= <-].
  destruct (String.eqb_spec (b_type b) "lastLocation") as [Ht|Ht]; simpl.
  - destruct (strictEq (b_sessionDate b) (VStr session)) eqn:Heq; simpl; [exact Hacc|].
    intros b' Hin Ht'.
    apply in_app_or in Hin as [Hin|[<-|[]]]; [now apply Hacc | exact Heq].
  - intros b' Hin Ht'.
    apply in_app_or in Hin as [Hin|[<-|[]]]; [now apply Hacc | contradiction].
Qed.

(** The visible set: no last location of the current session is among
    the bookmarks that the reconciliation marks and lists. *)
Lemma storedBookmarks_excludes_current session w bookmarks :
  sessionIs session w ->
  result storedBookmarks w = Normal bookmarks ->
  noneOfSession session bookmarks.
Proof.
  intros Hs. unfold storedBookmarks, result, objectKeys. unfold bind at 1.
  apply (forEachPush_invariant (sessionIs session) (noneOfSession session)
           pushVisible (map fst (localStorage w))); [| exact Hs | intros b []].
  intros acc x w' Hs' Hacc.
  destruct (@pushVisible_established session acc x w' Hs' Hacc) as [Hw Hres].
  rewrite Hw. auto.
Qed.

(** The rendered list: no last location of the current session is shown
    in the list of last locations, whatever bookmarks are passed. *)
Lemma ebBookmarksListBookmarks_excludes_current session bookmarks w :
  sessionIs session w ->
  let w' := after (ebBookmarksListBookmarks bookmarks) w in
  sessionIs session w' /\
  noneOfSession session (shownIn (lastLocationsList (document w'))).
Proof.
  intros Hs w'.
  set (I := fun w0 => sessionIs session w0 /\
                      noneOfSession session (shownIn (lastLocationsList (document w0)))).
  change (I w').
  assert (Happend_b : forall item w0, I w0 -> I (after (appendToBookmarksList item) w0)).
  { intros item w0 [Hs0 Hq]. unfold after, appendToBookmarksList, bind, getDocument, deref.
    destruct (bookmarksList (document w0)); simpl; split; assumption. }
  assert (Happend_l : forall item w0, I w0 ->
            match item with
            | BookmarkItem b => b_type b = "lastLocation"%string ->
                                strictEq (b_sessionDate b) (VStr session) = false
            | DeleteAllItem => True
            end ->
            I (after (appendToLastLocationsList item) w0)).
  { intros item w0 [Hs0 Hq] Hitem.
    unfold after, appendToLastLocationsList, bind, getDocument, deref.
    destruct (lastLocationsList (document w0)) as [items|] eqn:Hl; simpl;
      [|split; [assumption | rewrite Hl; exact Hq]].
    split; [assumption|]. simpl in Hq |- *.
    intros b Hin Ht. rewrite flat_map_app in Hin.
    apply in_app_or in Hin as [Hin|Hin]; [now apply Hq|].
    simpl in Hin. destruct item as [b'|]; simpl in Hin; [|contradiction].
    destruct Hin as [<-|[]]. now apply Hitem. }
  unfold w', after, ebBookmarksListBookmarks.
  unfold bind at 1, clearLists at 1, bind at 1, getDocument at 1, putDocument at 1.
  set (w0 := setDocument _ w).
  assert (H0 : I w0).
  { split; [exact Hs|]. unfold w0. simpl.
    destruct (lastLocationsList (document w)); intros b []. }
  assert (Hloop : I (after (forEach listBookmark bookmarks) w0)).
  { apply forEach_invariant; [|exact H0].
    intros b w1 [Hs1 Hq1]. unfold after, listBookmark.
    pose proof (@ebBookmarksCleanLastLocations_sessionKept session (b_bookTitle b) w1)
      as Hkept.
    pose proof (ebBookmarksCleanLastLocations_sameDocument (b_bookTitle b) w1) as Hdoc.
    unfold after, sameDocument in Hkept, Hdoc. unfold bind at 1.
    destruct (ebBookmarksCleanLastLocations (b_bookTitle b) w1) as [[[]|e] w2];
      simpl in Hkept, Hdoc.
    - assert (I2 : I w2).
      { split; [now apply (sessionKept_sessionIs Hkept) | now rewrite Hdoc]. }
      destruct I2 as [Hs2 Hq2].
      destruct (String.eqb_spec (b_type b) "lastLocation") as [Ht|Ht].
      + destruct Hs2 as [Hss Htr].
        rewrite (bind_normal (bind_normal (m := ebBookmarksSessionDate)
                   (f := fun current => ret (strictEq (b_sessionDate b) current))
                   (ebBookmarksSessionDate_established w2 Hss Htr))).
        unfold ret at 1.
        destruct (strictEq (b_sessionDate b) (VStr session)) eqn:Heq.
        * simpl. split; [now split | assumption].
        * apply Happend_l; [split; [now split | assumption] | now intros _].
      + unfold bind at 1, ret at 1. apply Happend_b. now split.
    - simpl. split; [now apply (sessionKept_sessionIs Hkept) | now rewrite Hdoc]. }
  unfold after in Hloop. unfold bind at 1.
  destruct (forEach listBookmark bookmarks w0) as [[[]|e] w1]; simpl in Hloop |- *;
    [|exact Hloop].
  pose proof (Happend_b DeleteAllItem w1 Hloop) as Hb. unfold after in Hb.
  unfold bind at 1.
  destruct (appendToBookmarksList DeleteAllItem w1) as [[[]|e] w2]; simpl in Hb |- *;
    [|exact Hb].
  apply (Happend_l DeleteAllItem w2 Hb). exact Logic.I.
Qed.

(** C7, at a storage that lists the last location of the current
    session 1700000000300 before those of two earlier sessions: the
    reconciliation completes, and the record of the current session,
    which was in storage, is no longer there; the pruning took the
    last two keys for the previous and the current session. *)
Theorem ebBookmarksCheckForBookmarks_drops_current_session :
  let w := tabOf currentFirstStorage "1700000000300" in
  let key := "bookmark-book-lastLocation-1700000000300"%string in
  lookup key (localStorage w)
  = Some (Json (sampleRecord "lastLocation" "Book" "1700000000300" key)) /\
  result ebBookmarksSessionDate w = Normal (VStr "1700000000300") /\
  result ebBookmarksCheckForBookmarks w = Normal tt /\
  lookup key (localStorage (after ebBookmarksCheckForBookmarks w)) = None /\
  map fst (localStorage (after ebBookmarksCheckForBookmarks w))
  = ["bookmark-book-lastLocation-1700000000200"%string].
Proof. repeat split. Qed.

(** * Further properties *)

(** ** The fingerprint index *)

Lemma find_app_first {A} (p : A -> bool) l1 l2 :
  find p (l1 ++ l2) = match find p l1 with Some x => Some x | None => find p l2 end.
Proof.
  induction l1 as [|x l1 IH]; [reflexivity|]. cbn [app find].
  destruct (p x); [reflexivity | exact IH].
Qed.

Lemma lookup_index_fold fingerprint els index :
  lookup fingerprint
    (fold_left (fun index element =>
                  match el_fingerprint element with
                  | Some elementFingerprint =>
                      if (elementFingerprint =? "__proto__")%string then index
                      else assign elementFingerprint (el_id element) index
                  | None => index
                  end) els index)
  = if (fingerprint =? "__proto__")%string then lookup fingerprint index
    else match find (hasFingerprint fingerprint) (rev els) with
         | Some e => Some (el_id e)
         | None => lookup fingerprint index
         end.
Proof.
  revert index. induction els as [|e els IH]; intros index;
    [cbn [fold_left rev find]; now destruct (fingerprint =? "__proto__")%string|].
  cbn [fold_left rev]. rewrite IH.
  destruct (String.eqb_spec fingerprint "__proto__") as [Hp|Hp].
  - destruct (el_fingerprint e) as [f|]; [|reflexivity].
    destruct (String.eqb_spec f "__proto__") as [Hf|Hf]; [reflexivity|].
    rewrite lookup_assign.
    destruct (String.eqb_spec fingerprint f); [congruence | reflexivity].
  - rewrite find_app_first.
    destruct (find (hasFingerprint fingerprint) (rev els)) as [e'|]; [reflexivity|].
    cbn [find]. unfold hasFingerprint at 1.
    destruct (el_fingerprint e) as [f|]; [|reflexivity].
    destruct (String.eqb_spec f "__proto__") as [Hf|Hf].
    + destruct (String.eqb_spec f fingerprint); [congruence | reflexivity].
    + rewrite lookup_assign. rewrite String.eqb_sym.
      now destruct (f =? fingerprint)%string.
Qed.

(** X1: [ebBookmarksCreateFingerprintIndex] stores an index that maps a
    fingerprint to the id of the last element of the page that carries
    it, and that has no entry for a fingerprint no element carries, nor
    for the fingerprint ['__proto__'], which an object does not take as
    a property.  It replaces the index that was there and leaves the
    session identifier, [localStorage] and the document as they were. *)
Theorem ebBookmarksCreateFingerprintIndex_last_wins w :
  exists index,
    ebBookmarksCreateFingerprintIndex w
    = (Normal tt,
       mkWorld (localStorage w)
               (mkSession (ss_sessionDate (sessionStorage w)) (Some index))
               (document w) (alerts w) (clock w)) /\
    forall fingerprint,
      lookup fingerprint index
      = if (fingerprint =? "__proto__")%string then None
        else lastWithFingerprint fingerprint (elements (document w)).
Proof.
  exists (fold_left (fun index element =>
                       match el_fingerprint element with
                       | Some elementFingerprint =>
                           if (elementFingerprint =? "__proto__")%string then index
                           else assign elementFingerprint (el_id element) index
                       | None => index
                       end) (elements (document w)) []).
  split; [reflexivity|]. intros fingerprint.
  rewrite lookup_index_fold. unfold lastWithFingerprint.
  destruct (fingerprint =? "__proto__")%string; [reflexivity|].
  now destruct (find (hasFingerprint fingerprint) (rev (elements (document w)))).
Qed.

Lemma elementById_In d id e : elementById d id = Some e -> In e (elements d) /\ el_id e = id.
Proof.
  unfold elementById, findById. destruct (truthy id); [|discriminate].
  destruct (findIndex _ _) as [n|] eqn:Hf; [|discriminate].
  intros Hn. apply findIndex_Some in Hf as (x & Hx & Hp).
  rewrite Hx in Hn. injection Hn as <-. split.
  - eapply nth_error_In; eassumption.
  - now apply String.eqb_eq in Hp.
Qed.

Lemma lastWithFingerprint_carried fingerprint els e :
  In e els -> el_fingerprint e = Some fingerprint ->
  exists e', In e' els /\ el_fingerprint e' = Some fingerprint /\
             lastWithFingerprint fingerprint els = Some (el_id e').
Proof.
  intros Hin Hf. unfold lastWithFingerprint.
  destruct (find (hasFingerprint fingerprint) (rev els)) as [e'|] eqn:Hfind.
  - apply find_some in Hfind as [Hin' Hp]. exists e'. split; [now apply in_rev|].
    split; [|reflexivity]. unfold hasFingerprint in Hp.
    destruct (el_fingerprint e') as [f|]; [|discriminate].
    now apply String.eqb_eq in Hp as ->.
  - apply in_rev in Hin. pose proof (find_none _ _ Hfind e Hin) as Hp.
    unfold hasFingerprint in Hp. rewrite Hf, String.eqb_refl in Hp. discriminate.
Qed.

(** X2: after [ebBookmarksCreateFingerprintIndex], an element that is
    found by its id and carries a fingerprint other than ['__proto__']
    is verified by [ebBookmarksFingerprintID], with no warning, when
    every element that carries its fingerprint has its id; when the
    last element that carries the fingerprint has another id, it is not
    verified and the warning is shown.  An element whose fingerprint is
    ['__proto__'] is never verified: the index has no entry for it. *)
Theorem ebBookmarksFingerprintID_after_index w elementID element fingerprint :
  let w' := after ebBookmarksCreateFingerprintIndex w in
  elementById (document w) elementID = Some element ->
  el_fingerprint element = Some fingerprint -> truthy fingerprint = true ->
  (fingerprint <> "__proto__"%string ->
   (forall e, In e (elements (document w)) -> el_fingerprint e = Some fingerprint ->
              el_id e = elementID) ->
   ebBookmarksFingerprintID elementID w' = (Normal (Verified elementID), w')) /\
  (fingerprint <> "__proto__"%string ->
   forall other, lastWithFingerprint fingerprint (elements (document w)) = Some other ->
                 other <> elementID ->
   ebBookmarksFingerprintID elementID w'
   = (Normal Unverified, alerted bookmarks_shifted_warning w')) /\
  (fingerprint = "__proto__"%string ->
   ebBookmarksFingerprintID elementID w'
   = (Normal Unverified, alerted bookmarks_shifted_warning w')).
Proof.
  intros w' He Hf Ht.
  set (index := fold_left (fun index element =>
                             match el_fingerprint element with
                             | Some elementFingerprint =>
                                 if (elementFingerprint =? "__proto__")%string then index
                                 else assign elementFingerprint (el_id element) index
                             | None => index
                             end) (elements (document w)) []).
  assert (Hindex : forall f, lookup f index
                             = if (f =? "__proto__")%string then None
                               else lastWithFingerprint f (elements (document w))).
  { intros f. unfold index, lastWithFingerprint. rewrite lookup_index_fold.
    destruct (f =? "__proto__")%string; [reflexivity|].
    now destruct (find (hasFingerprint f) (rev (elements (document w)))). }
  assert (Hw' : w' = indexed index w) by reflexivity.
  assert (He' : elementById (document w') elementID = Some element) by (now rewrite Hw').
  assert (Hi : ss_index (sessionStorage w') = Some index) by (now rewrite Hw').
  rewrite ebBookmarksFingerprintID_unfold, He', Hf, Hi, Ht, Hindex.
  split; [|split].
  - intros Hp Hall. apply String.eqb_neq in Hp. rewrite Hp.
    apply elementById_In in He as [Hin Hid].
    destruct (lastWithFingerprint_carried _ _ Hin Hf) as (e' & Hin' & Hf' & ->).
    rewrite (Hall e' Hin' Hf'). now rewrite String.eqb_refl.
  - intros Hp other Hlast Hne. apply String.eqb_neq in Hp. rewrite Hp, Hlast.
    destruct (String.eqb_spec elementID other); [congruence | reflexivity].
  - intros ->. reflexivity.
Qed.

Lemma ebBookmarksFingerprintID_after_index_witness :
  let w' := after ebBookmarksCreateFingerprintIndex copiedParagraph in
  ebBookmarksFingerprintID "sec-3" w' = (Normal (Verified "sec-3"), w') /\
  ebBookmarksFingerprintID "sec-1" w'
  = (Normal Unverified, alerted bookmarks_shifted_warning w').
Proof.
  intros w'. split.
  - destruct (@ebBookmarksFingerprintID_after_index copiedParagraph "sec-3"
                (mkElement "sec-3" "Third paragraph." (Some "xyz") None None None None None)
                "xyz" eq_refl eq_refl eq_refl) as [Hsame _].
    apply Hsame; [discriminate|].
    intros e [<-|[<-|[<-|[]]]]; simpl; congruence.
  - destruct (@ebBookmarksFingerprintID_after_index copiedParagraph "sec-1"
                (mkElement "sec-1" "First paragraph." (Some "abc") None None None None None)
                "abc" eq_refl eq_refl eq_refl) as (_ & Hshifted & _).
    apply (Hshifted ltac:(discriminate) "sec-2"%string); [reflexivity | discriminate].
Defined.

(** ** The session identifier *)

(** X3: in every state of the tab, a call of [ebBookmarksSessionDate]
    returns and leaves a non-empty identifier in [sessionStorage], the
    text of the value it returned; a further call returns that text and
    changes nothing, so every later call does; an identifier that is
    stored is returned and not replaced; [localStorage], the index of
    fingerprints and the document are not touched. *)
Theorem ebBookmarksSessionDate_settles w :
  let w1 := after ebBookmarksSessionDate w in
  exists v,
    result ebBookmarksSessionDate w = Normal v /\
    sessionIs (toStr v) w1 /\
    ebBookmarksSessionDate w1 = (Normal (VStr (toStr v)), w1) /\
    (forall s, sessionIs s w -> v = VStr s /\ w1 = w) /\
    localStorage w1 = localStorage w /\ document w1 = document w /\
    ss_index (sessionStorage w1) = ss_index (sessionStorage w).
Proof.
  intros w1. unfold w1, result, after.
  destruct (match ss_sessionDate (sessionStorage w) with
            | Some s => truthy s
            | None => false
            end) eqn:E.
  - destruct (ss_sessionDate (sessionStorage w)) as [s|] eqn:Hs; [|discriminate].
    rewrite (ebBookmarksSessionDate_established w Hs E). cbn [fst snd].
    exists (VStr s). split; [reflexivity|]. split; [now split|].
    split; [now apply ebBookmarksSessionDate_established|].
    split; [|now repeat split].
    intros s' [Hs' _]. rewrite Hs in Hs'. injection Hs' as <-. now split.
  - rewrite (ebBookmarksSessionDate_fresh w E). cbn [fst snd].
    exists (VNum (clock w)). split; [reflexivity|].
    assert (Hst : sessionIs (toStr (VNum (clock w)))
                    (setSession (mkSession (Some (string_of_Z (clock w)))
                                           (ss_index (sessionStorage w))) w)).
    { split; [reflexivity | apply string_of_Z_truthy]. }
    split; [exact Hst|].
    split; [apply ebBookmarksSessionDate_established; apply Hst|].
    split; [|now repeat split].
    intros s [Hs Ht]. rewrite Hs, Ht in E. discriminate.
Qed.

(** ** The id of the element to bookmark *)

Lemma findIndex_first {A} (p : A -> bool) pre x suf :
  (forall y, In y pre -> p y = false) -> p x = true ->
  findIndex p (pre ++ x :: suf) = Some (length pre).
Proof.
  intros Hpre Hx. induction pre as [|y pre IH]; cbn [app findIndex length].
  - now rewrite Hx.
  - rewrite (Hpre y (or_introl eq_refl)), IH; [reflexivity|].
    intros z Hz. apply Hpre. now right.
Qed.

Lemma nth_error_middle {A} (pre : list A) x suf :
  nth_error (pre ++ x :: suf) (length pre) = Some x.
Proof. induction pre; [reflexivity | assumption]. Qed.

(** X4: [ebBookmarksElementID] changes nothing.  For an element that
    has an id it returns that id; for an element whose id is empty, on
    an address that has a fragment, it returns the fragment.  Without
    an argument it takes the first element in document order that is
    marked as on screen, and throws a [TypeError] when no element
    is. *)
Theorem ebBookmarksElementID_origin element w :
  let d := document w in
  after (ebBookmarksElementID element) w = w /\
  (forall n e, element = Some n -> nth_error (elements d) n = Some e ->
     truthy (el_id e) = true ->
     result (ebBookmarksElementID element) w = Normal (el_id e)) /\
  (forall n e, element = Some n -> nth_error (elements d) n = Some e ->
     truthy (el_id e) = false -> truthy (fragmentOf (href d)) = true ->
     result (ebBookmarksElementID element) w = Normal (fragmentOf (href d))) /\
  (forall pre e suf, element = None -> elements d = pre ++ e :: suf ->
     (forall e', In e' pre -> onscreen e' = false) -> onscreen e = true ->
     truthy (el_id e) = true ->
     result (ebBookmarksElementID element) w = Normal (el_id e)) /\
  (element = None -> (forall e, In e (elements d) -> onscreen e = false) ->
     result (ebBookmarksElementID element) w = Throw TypeError).
Proof.
  intros d. subst d.
  assert (Hgen : forall chosen,
            (match element with Some _ => ret element | None => queryOnscreen end) w
            = (Normal chosen, w) ->
            after (ebBookmarksElementID element) w = w /\
            (forall e, match chosen with
                       | Some n => nth_error (elements (document w)) n
                       | None => None
                       end = Some e ->
               (truthy (el_id e) = true ->
                result (ebBookmarksElementID element) w = Normal (el_id e)) /\
               (truthy (el_id e) = false ->
                truthy (fragmentOf (href (document w))) = true ->
                result (ebBookmarksElementID element) w
                = Normal (fragmentOf (href (document w))))) /\
            (chosen = None ->
               result (ebBookmarksElementID element) w = Throw TypeError)).
  { intros chosen Hc. unfold ebBookmarksElementID, after, result.
    rewrite (bind_normal Hc).
    unfold node, getDocument, bind, deref, ret, throw, queryWithId. cbn [fst snd].
    destruct (match chosen with Some n => nth_error (elements (document w)) n | None => None end)
      as [e|] eqn:He.
    - cbn [fst snd]. destruct (truthy (el_id e)) eqn:Hid.
      + split; [reflexivity|]. split.
        * intros e' [= <-]. rewrite Hid. split; [reflexivity | discriminate].
        * intros ->. discriminate.
      + destruct (truthy (fragmentOf (href (document w)))) eqn:Hfrag.
        * split; [reflexivity|]. split.
          -- intros e' [= <-]. rewrite Hid. split; [discriminate | reflexivity].
          -- intros ->. discriminate.
        * unfold bind, getDocument, ret. cbn beta iota.
          destruct (findIndex (fun e0 => truthy (el_id e0)) (elements (document w)))
            as [m|] eqn:Hm.
          -- apply findIndex_Some in Hm as (x & Hx & Hp). rewrite Hx. cbn [fst snd].
             split; [reflexivity|]. split.
             ++ intros e' [= <-]. rewrite Hid. split; discriminate.
             ++ intros ->. discriminate.
          -- cbn [fst snd]. split; [reflexivity|]. split.
             ++ intros e' [= <-]. rewrite Hid. split; discriminate.
             ++ intros ->. discriminate.
    - cbn [fst snd]. split; [reflexivity|]. split; [discriminate | reflexivity]. }
  destruct element as [n|].
  - destruct (Hgen (Some n) eq_refl) as (Ha & Hc & _).
    split; [exact Ha|].
    split; [intros n' e [= <-] He; now apply (Hc e He)|].
    split; [intros n' e [= <-] He; now apply (Hc e He)|].
    split; discriminate.
  - assert (Hq : queryOnscreen w = (Normal (findIndex onscreen (elements (document w))), w))
      by reflexivity.
    destruct (Hgen _ Hq) as (Ha & Hc & Hd).
    split; [exact Ha|]. split; [discriminate|]. split; [discriminate|]. split.
    + intros pre e suf _ Hels Hpre He Hid. apply (Hc e); [|exact Hid].
      rewrite Hels, (findIndex_first onscreen pre e suf Hpre He).
      apply nth_error_middle.
    + intros _ Hnone. apply Hd.
      destruct (findIndex onscreen (elements (document w))) as [n|] eqn:Hf; [|reflexivity].
      apply findIndex_Some in Hf as (x & Hx & Hp).
      rewrite (Hnone x) in Hp; [discriminate|]. eapply nth_error_In; eassumption.
Qed.

(** ** The button of an element *)

Lemma nth_error_updateNth_same {A} n m (f : A -> A) l :
  nth_error (updateNth n f l) m
  = if (m =? n)%nat then option_map f (nth_error l m) else nth_error l m.
Proof.
  destruct (Nat.eqb_spec m n) as [->|Hne].
  - destruct (nth_error l n) as [e|] eqn:He.
    + now apply nth_error_updateNth_eq.
    + revert n He. induction l as [|x l IH]; intros [|n] He; try reflexivity;
        try discriminate. cbn [updateNth nth_error] in *. now apply IH.
  - now apply nth_error_updateNth_neq.
Qed.

(** X5: for an element whose [data-bookmark-type] is [lastLocation],
    [userBookmark] or absent, [ebBookmarksToggleButtonOnElement]
    completes, and the button that [element.querySelector] then finds
    in the element shows the history icon for a last location and the
    bookmark icon otherwise, whether the element had a button or not
    and whatever that showed.  No element changes in anything but a
    button, nothing but the elements changes, and a second call changes
    nothing at all.  (Of the buttons of the other elements nothing is
    said: the button found may be that of an element inside.) *)
Theorem ebBookmarksToggleButtonOnElement_icon w n e :
  nth_error (elements (document w)) n = Some e ->
  bookmarkTypeOf e = "lastLocation"%string \/
  bookmarkTypeOf e = "userBookmark"%string \/
  bookmarkTypeOf e = ""%string ->
  let w' := after (ebBookmarksToggleButtonOnElement (Some n)) w in
  result (ebBookmarksToggleButtonOnElement (Some n)) w = Normal tt /\
  (exists e', nth_error (elements (document w')) n = Some e' /\
              el_button e' = Some (iconOf (bookmarkTypeOf e))) /\
  map attributesOf (elements (document w')) = map attributesOf (elements (document w)) /\
  w' = withPage (fun _ => elements (document w')) w /\
  ebBookmarksToggleButtonOnElement (Some n) w' = (Normal tt, w').
Proof.
  intros He Htype w'.
  assert (Hstep : forall w0 e0,
            nth_error (elements (document w0)) n = Some e0 ->
            bookmarkTypeOf e0 = bookmarkTypeOf e ->
            ebBookmarksToggleButtonOnElement (Some n) w0
            = (Normal tt,
               withPage (updateNth n (set_button (iconOf (bookmarkTypeOf e)))) w0)).
  { intros w0 e0 He0 Ht0. unfold ebBookmarksToggleButtonOnElement.
    rewrite (bind_normal (node_found w0 n He0)).
    fold (bookmarkTypeOf e0). rewrite Ht0.
    destruct (el_button e0) as [[|]|];
      destruct Htype as [-> | [-> | ->]]; cbn [andb String.eqb Ascii.eqb Bool.eqb];
      apply (setAttribute_found w0 n _ He0). }
  pose proof (Hstep w e He eq_refl) as Hrun.
  set (w1 := withPage (updateNth n (set_button (iconOf (bookmarkTypeOf e)))) w) in *.
  assert (He1 : nth_error (elements (document w1)) n
                = Some (set_button (iconOf (bookmarkTypeOf e)) e)).
  { unfold w1, withPage. cbn [setDocument document withElements elements].
    now apply nth_error_updateNth_eq. }
  unfold w', result, after. rewrite Hrun. cbn [fst snd].
  split; [reflexivity|].
  split; [eexists; split; [exact He1 | reflexivity]|].
  split.
  { unfold w1, withPage. cbn [setDocument document withElements elements].
    now apply map_updateNth. }
  split; [reflexivity|].
  rewrite (Hstep w1 _ He1 eq_refl).
  unfold w1, withPage, setDocument, withElements. cbn.
  rewrite updateNth_updateNth.
  now rewrite (@updateNth_at _ n (fun x => set_button (iconOf (bookmarkTypeOf e))
                                             (set_button (iconOf (bookmarkTypeOf e)) x))
                 (set_button (iconOf (bookmarkTypeOf e))) _ e He eq_refl).
Qed.

Lemma ebBookmarksToggleButtonOnElement_icon_witness :
  let w := twoParagraphs in
  let w' := after (ebBookmarksToggleButtonOnElement (Some 0%nat)) w in
  result (ebBookmarksToggleButtonOnElement (Some 0%nat)) w = Normal tt /\
  (exists e', nth_error (elements (document w')) 0 = Some e' /\
              el_button e' = Some BookmarkIcon) /\
  map attributesOf (elements (document w')) = map attributesOf (elements (document w)) /\
  w' = withPage (fun _ => elements (document w')) w /\
  ebBookmarksToggleButtonOnElement (Some 0%nat) w' = (Normal tt, w').
Proof.
  intros w w'.
  apply (@ebBookmarksToggleButtonOnElement_icon twoParagraphs 0%nat
           (mkElement "sec-3" "Call me Ishmael. Some years ago" (Some "abc")
                      None None None None None) eq_refl).
  right. right. reflexivity.
Defined.

Lemma ebBookmarksToggleButtonOnElement_exact w n e :
  nth_error (elements (document w)) n = Some e ->
  ebBookmarksToggleButtonOnElement (Some n) w
  = (Normal tt, withPage (updateNth n (set_button (toggledIcon e))) w).
Proof.
  intros He. unfold ebBookmarksToggleButtonOnElement.
  rewrite (bind_normal (node_found w n He)). unfold toggledIcon, iconOf.
  fold (bookmarkTypeOf e).
  destruct (el_button e) as [[|]|]; cbn [andb];
    destruct (bookmarkTypeOf e =? "userBookmark")%string;
    destruct (bookmarkTypeOf e =? "")%string;
    destruct (bookmarkTypeOf e =? "lastLocation")%string;
    cbn [orb]; apply (setAttribute_found w n _ He).
Qed.

(** ** Marking, element by element *)

Lemma withPage_withPage f g w : withPage g (withPage f w) = withPage (fun els => g (f els)) w.
Proof. reflexivity. Qed.

Lemma markBookmark_exact w b n e :
  findById (document w) (b_id b) = Some n ->
  nth_error (elements (document w)) n = Some e ->
  onCurrentPage (document w) (b_location b) = true ->
  markBookmark b w = (Normal tt, withPage (updateNth n (fun e => markedBy e b)) w).
Proof.
  intros Hfind He Hpage. unfold markBookmark.
  assert (Hget : getElementById (b_id b) w = (Normal (Some n), w)).
  { rewrite getElementById_eq. now rewrite Hfind. }
  rewrite (bind_normal Hget).
  unfold ebBookmarksCheckForCurrentPage at 1. unfold bind at 1, getDocument at 1.
  unfold bind at 1. cbn [ret]. fold (onCurrentPage (document w) (b_location b)).
  rewrite Hpage.
  rewrite (bind_normal (setAttribute_found w n _ He)).
  set (w1 := setDocument _ w).
  assert (He1 : nth_error (elements (document w1)) n
                = Some (set_bookmarked (Some "true"%string) e)).
  { simpl. now apply nth_error_updateNth_eq. }
  rewrite (bind_normal (setAttribute_found w1 n _ He1)).
  set (w2 := setDocument _ w1).
  assert (He2 : nth_error (elements (document w2)) n
                = Some (set_title (b_description b)
                          (set_bookmarked (Some "true"%string) e))).
  { simpl. now apply nth_error_updateNth_eq. }
  rewrite (bind_normal (node_found w2 n He2)).
  cbn [el_bookmarkType set_title set_bookmarked].
  set (t := if (bookmarkTypeOf e =? "userBookmark")%string
            then "userBookmark"%string else b_type b).
  assert (Hset :
    (if match el_bookmarkType e with
        | Some t => (t =? "userBookmark")%string
        | None => false
        end
     then setAttribute (Some n) (set_bookmarkType "userBookmark")
     else setAttribute (Some n) (set_bookmarkType (b_type b))) w2
    = (Normal tt,
       setDocument (withElements (updateNth n (set_bookmarkType t)) (document w2)) w2)).
  { unfold t, bookmarkTypeOf.
    destruct (el_bookmarkType e) as [t0|]; [destruct (t0 =? "userBookmark")%string|];
      apply (setAttribute_found w2 n _ He2). }
  rewrite (bind_normal Hset).
  set (w3 := setDocument _ w2).
  assert (He3 : nth_error (elements (document w3)) n
                = Some (set_bookmarkType t
                          (set_title (b_description b)
                             (set_bookmarked (Some "true"%string) e)))).
  { simpl. now apply nth_error_updateNth_eq. }
  rewrite (ebBookmarksToggleButtonOnElement_exact w3 n He3).
  unfold w3, w2, w1, withPage, setDocument, withElements. simpl.
  rewrite !updateNth_updateNth.
  do 3 f_equal. now apply (updateNth_at n _ _ _ He).
Qed.

Lemma withPage_same w : withPage (fun _ => elements (document w)) w = w.
Proof. now destruct w as [ls ss [els h t bt bl ll] a c]. Qed.

Lemma findById_updateNth d n f id :
  (forall e, el_id (f e) = el_id e) ->
  findById (withElements (updateNth n f) d) id = findById d id.
Proof.
  intros Hf. apply findById_ids. cbn [withElements elements].
  now apply map_updateNth.
Qed.

Lemma mark_loop_exact bookmarks w :
  (forall b, In b bookmarks ->
             onCurrentPage (document w) (b_location b) = true ->
             findById (document w) (b_id b) <> None) ->
  exists els',
    forEach markBookmark bookmarks w = (Normal tt, withPage (fun _ => els') w) /\
    forall n, nth_error els' n
              = option_map (markedElement (document w) bookmarks n)
                           (nth_error (elements (document w)) n).
Proof.
  revert w. induction bookmarks as [|b rest IH]; intros w Hall.
  - exists (elements (document w)). split.
    + cbn [forEach]. unfold ret. now rewrite withPage_same.
    + intros n. unfold markedElement. cbn [filter fold_left].
      now destruct (nth_error (elements (document w)) n).
  - destruct (onCurrentPage (document w) (b_location b)) eqn:Hpage.
    + destruct (findById (document w) (b_id b)) as [n0|] eqn:Hfind;
        [|exfalso; now apply (Hall b (or_introl eq_refl) Hpage)].
      destruct (findById_Some _ _ Hfind) as [e0 He0].
      pose proof (markBookmark_exact w b Hfind He0 Hpage) as Hrun.
      set (w1 := withPage (updateNth n0 (fun e => markedBy e b)) w) in *.
      assert (Hfind1 : forall id, findById (document w1) id = findById (document w) id).
      { intros id. apply findById_updateNth. reflexivity. }
      assert (Hpage1 : forall url, onCurrentPage (document w1) url
                                   = onCurrentPage (document w) url) by reflexivity.
      destruct (IH w1) as (els' & Hloop & Hnth).
      { intros b0 Hin Hp. rewrite Hfind1. apply Hall; [now right | exact Hp]. }
      exists els'. split.
      * cbn [forEach]. rewrite (bind_normal Hrun). rewrite Hloop. reflexivity.
      * intros n. rewrite Hnth. unfold w1 at 2. cbn [withPage setDocument document
          withElements elements]. rewrite nth_error_updateNth_same.
        unfold markedElement. cbn [filter].
        assert (Ht : forall b0, targets (document w1) n b0 = targets (document w) n b0).
        { intros b0. unfold targets. now rewrite Hpage1, Hfind1. }
        rewrite (filter_ext _ _ Ht).
        unfold targets at 2. rewrite Hpage, Hfind. cbn [andb].
        rewrite (Nat.eqb_sym n n0).
        destruct (n0 =? n)%nat; [|reflexivity].
        now destruct (nth_error (elements (document w)) n).
    + destruct (IH w) as (els' & Hloop & Hnth).
      { intros b0 Hin. apply Hall. now right. }
      exists els'. split.
      * cbn [forEach]. rewrite (bind_normal (markBookmark_elsewhere w b Hpage)).
        exact Hloop.
      * intros n. rewrite Hnth. unfold markedElement. cbn [filter].
        unfold targets at 2. rewrite Hpage. reflexivity.
Qed.

Lemma pageReads_markedBy e b : pageReads (markedBy e b) = pageReads e.
Proof. reflexivity. Qed.

Lemma pageReads_marked hits e : pageReads (fold_left markedBy hits e) = pageReads e.
Proof.
  revert e. induction hits as [|b hits IH]; intros e; [reflexivity|].
  cbn [fold_left]. now rewrite IH.
Qed.

Lemma bookmarkTypeOf_markedBy e b :
  bookmarkTypeOf (markedBy e b)
  = if (bookmarkTypeOf e =? "userBookmark")%string then "userBookmark"%string else b_type b.
Proof. reflexivity. Qed.

Lemma userBookmark_sticky hits e :
  (bookmarkTypeOf (fold_left markedBy hits e) =? "userBookmark")%string
  = (bookmarkTypeOf e =? "userBookmark")%string
    || existsb (fun b => (b_type b =? "userBookmark")%string) hits.
Proof.
  revert e. induction hits as [|b hits IH]; intros e; cbn [fold_left existsb].
  - now rewrite orb_false_r.
  - rewrite IH, bookmarkTypeOf_markedBy.
    destruct (bookmarkTypeOf e =? "userBookmark")%string; [reflexivity|].
    reflexivity.
Qed.

Lemma ebBookmarksMarkBookmarks_eq w bookmarks :
  (forall b, In b bookmarks ->
             onCurrentPage (document w) (b_location b) = true ->
             elementById (document w) (b_id b) <> None) ->
  exists els',
    ebBookmarksMarkBookmarks bookmarks w = (Normal tt, withPage (fun _ => els') w) /\
    forall n, nth_error els' n
              = option_map (fun e => markedElement (document w) bookmarks n (unmarked e))
                           (nth_error (elements (document w)) n).
Proof.
  intros Hall.
  set (w0 := withPage (map unmarked) w).
  assert (Hids : map el_id (elements (document w0)) = map el_id (elements (document w))).
  { unfold w0. cbn. rewrite map_map. reflexivity. }
  assert (Hfind0 : forall id, findById (document w0) id = findById (document w) id).
  { intros id. now apply findById_ids. }
  assert (Htargets : forall n b, targets (document w0) n b = targets (document w) n b).
  { intros n b. unfold targets. now rewrite Hfind0. }
  destruct (mark_loop_exact bookmarks w0) as (els' & Hloop & Hnth).
  { intros b Hin Hp. rewrite Hfind0. specialize (Hall b Hin Hp).
    unfold elementById in Hall. now destruct (findById (document w) (b_id b)). }
  exists els'. split.
  - unfold ebBookmarksMarkBookmarks, bind, getDocument, putDocument.
    change (setDocument (withElements (map (set_bookmarked None)) (document w)) w)
      with w0. now rewrite Hloop.
  - intros n. rewrite Hnth. unfold w0 at 2.
    cbn [withPage setDocument document withElements elements].
    rewrite nth_error_map. unfold markedElement.
    rewrite (filter_ext _ _ (Htargets n)).
    now destruct (nth_error (elements (document w)) n).
Qed.

(** X6: when every bookmark of the page that is passed has its element
    in the document, [ebBookmarksMarkBookmarks] completes and touches
    nothing but attributes and buttons of elements.  An element that no
    bookmark of the page targets keeps its attributes, without
    [data-bookmarked].  An element that some do is marked
    [data-bookmarked="true"], gets the description of the last of them
    as title, has a button, and its bookmark type is [userBookmark] if
    it was so before or one of them is a user bookmark, and the type of
    the last of them otherwise.  (Of the icons of the buttons nothing is
    said: the button found in an element may be that of an element
    inside.) *)
Theorem ebBookmarksMarkBookmarks_marks w bookmarks :
  (forall b, In b bookmarks ->
             onCurrentPage (document w) (b_location b) = true ->
             elementById (document w) (b_id b) <> None) ->
  let w' := after (ebBookmarksMarkBookmarks bookmarks) w in
  result (ebBookmarksMarkBookmarks bookmarks) w = Normal tt /\
  w' = withPage (fun _ => elements (document w')) w /\
  forall n e,
    nth_error (elements (document w)) n = Some e ->
    exists e',
      nth_error (elements (document w')) n = Some e' /\
      pageReads e' = pageReads e /\
      (filter (targets (document w) n) bookmarks = [] ->
       attributesOf e' = attributesOf (unmarked e)) /\
      (forall earlier b,
         filter (targets (document w) n) bookmarks = earlier ++ [b] ->
         el_bookmarked e' = Some "true"%string /\
         el_title e' = Some (b_description b) /\
         el_bookmarkType e'
         = Some (if (bookmarkTypeOf e =? "userBookmark")%string
                    || existsb (fun b => (b_type b =? "userBookmark")%string) earlier
                 then "userBookmark"%string else b_type b) /\
         el_button e' <> None).
Proof.
  intros Hall w'.
  destruct (ebBookmarksMarkBookmarks_eq w bookmarks Hall) as (els' & Hrun & Hnth).
  unfold w', result, after. rewrite Hrun. cbn [fst snd].
  split; [reflexivity|]. split; [reflexivity|].
  intros n e He. cbn [withPage setDocument document withElements elements].
  rewrite Hnth, He. cbn [option_map].
  eexists. split; [reflexivity|]. unfold markedElement.
  split; [now rewrite pageReads_marked|].
  split; [now intros ->|].
  intros earlier b ->. rewrite fold_left_app. cbn [fold_left].
  set (x := fold_left markedBy earlier (unmarked e)).
  assert (Hx : (bookmarkTypeOf x =? "userBookmark")%string
               = (bookmarkTypeOf e =? "userBookmark")%string
                 || existsb (fun b => (b_type b =? "userBookmark")%string) earlier).
  { unfold x. now rewrite userBookmark_sticky. }
  split; [reflexivity|]. split; [reflexivity|].
  assert (Htype : el_bookmarkType (markedBy x b)
                  = Some (if (bookmarkTypeOf x =? "userBookmark")%string
                          then "userBookmark"%string else b_type b)) by reflexivity.
  rewrite Htype, Hx. split; [reflexivity|].
  unfold markedBy. cbn [el_button set_button]. discriminate.
Qed.

Lemma ebBookmarksMarkBookmarks_marks_witness :
  let bookmarks := [lastLocationOnSec3; userBookmarkOnSec3] in
  let w := twoParagraphs in
  let w' := after (ebBookmarksMarkBookmarks bookmarks) w in
  result (ebBookmarksMarkBookmarks bookmarks) w = Normal tt /\
  w' = withPage (fun _ => elements (document w')) w /\
  forall n e,
    nth_error (elements (document w)) n = Some e ->
    exists e',
      nth_error (elements (document w')) n = Some e' /\
      pageReads e' = pageReads e /\
      (filter (targets (document w) n) bookmarks = [] ->
       attributesOf e' = attributesOf (unmarked e)) /\
      (forall earlier b,
         filter (targets (document w) n) bookmarks = earlier ++ [b] ->
         el_bookmarked e' = Some "true"%string /\
         el_title e' = Some (b_description b) /\
         el_bookmarkType e'
         = Some (if (bookmarkTypeOf e =? "userBookmark")%string
                    || existsb (fun b => (b_type b =? "userBookmark")%string) earlier
                 then "userBookmark"%string else b_type b) /\
         el_button e' <> None).
Proof.
  intros bookmarks w w'.
  apply (@ebBookmarksMarkBookmarks_marks twoParagraphs bookmarks).
  intros b [<-|[<-|[]]] _; discriminate.
Defined.

(** ** The element a bookmark was placed on *)

Lemma ebBookmarkMarkBookmarkedElement_eq w n e :
  nth_error (elements (document w)) n = Some e ->
  ebBookmarkMarkBookmarkedElement (Some n) w
  = (Normal tt,
     withPage (fun els => updateNth n (set_bookmarked (Some "true"%string))
                            (map unmarked els)) w).
Proof.
  intros He.
  set (w0 := withPage (map unmarked) w).
  assert (He0 : nth_error (elements (document w0)) n = Some (unmarked e)).
  { unfold w0. cbn. now rewrite nth_error_map, He. }
  unfold ebBookmarkMarkBookmarkedElement, ebBookmarkUnmarkBookmarkedElements.
  unfold bind at 2. cbn [ret]. unfold bind at 2, getDocument, putDocument.
  change (setDocument (withElements (map (set_bookmarked None)) (document w)) w)
    with w0.
  unfold bind. now rewrite (setAttribute_found w0 n _ He0).
Qed.

(** X7: for an element of the page, [ebBookmarkMarkBookmarkedElement]
    completes and leaves that element, and no other, with a
    [data-bookmarked], whatever elements carried one before; no other
    attribute of any element changes, and nothing outside the document. *)
Theorem ebBookmarkMarkBookmarkedElement_only w n e :
  nth_error (elements (document w)) n = Some e ->
  let w' := after (ebBookmarkMarkBookmarkedElement (Some n)) w in
  result (ebBookmarkMarkBookmarkedElement (Some n)) w = Normal tt /\
  w' = withPage (fun _ => elements (document w')) w /\
  map unmarked (elements (document w')) = map unmarked (elements (document w)) /\
  forall m e',
    nth_error (elements (document w')) m = Some e' ->
    el_bookmarked e' = if (m =? n)%nat then Some "true"%string else None.
Proof.
  intros He w'.
  pose proof (ebBookmarkMarkBookmarkedElement_eq w n He) as Hrun.
  unfold w', result, after. rewrite Hrun. cbn [fst snd].
  split; [reflexivity|]. split; [reflexivity|].
  cbn [withPage setDocument document withElements elements]. split.
  - rewrite map_updateNth by reflexivity. rewrite map_map. reflexivity.
  - intros m e'. rewrite nth_error_updateNth_same, nth_error_map.
    destruct (m =? n)%nat; destruct (nth_error (elements (document w)) m);
      cbn [option_map]; intros [= <-]; reflexivity.
Qed.

Lemma ebBookmarkMarkBookmarkedElement_only_witness :
  let w := after (ebBookmarksMarkBookmarks [lastLocationOnSec3]) twoParagraphs in
  let w' := after (ebBookmarkMarkBookmarkedElement (Some 1%nat)) w in
  result (ebBookmarkMarkBookmarkedElement (Some 1%nat)) w = Normal tt /\
  w' = withPage (fun _ => elements (document w')) w /\
  map unmarked (elements (document w')) = map unmarked (elements (document w)) /\
  forall m e',
    nth_error (elements (document w')) m = Some e' ->
    el_bookmarked e' = if (m =? 1)%nat then Some "true"%string else None.
Proof.
  intros w w'.
  apply (@ebBookmarkMarkBookmarkedElement_only w 1%nat
           (mkElement "sec-4" "There now is your insular city." (Some "def")
                      None None None None None)).
  reflexivity.
Defined.

(** ** The page of a bookmark *)

Lemma beforeHash_rebuilt base rest :
  beforeHash (beforeHash base ++ String "#" rest)%string = beforeHash base.
Proof.
  induction base as [|a base IH]; cbn [beforeHash append].
  - reflexivity.
  - destruct (Ascii.eqb a "#") eqn:Ha; cbn [beforeHash append].
    + reflexivity.
    + now rewrite Ha, IH.
Qed.

(** X8: the location [ebBookmarksSetBookmark] gives a record it builds
    on a page is taken by [ebBookmarksCheckForCurrentPage] to be on the
    current page exactly when the address of the current page and that
    of the page of the capture agree up to their fragments; the check
    changes nothing. *)
Theorem ebBookmarksCheckForCurrentPage_captured
    (ebSlugify : string -> string) type e description sessionDate w w' :
  let bookmark := captured ebSlugify type e description sessionDate (document w) in
  ebBookmarksCheckForCurrentPage (b_location bookmark) w'
  = (Normal (beforeHash (href (document w')) =? beforeHash (href (document w)))%string, w').
Proof.
  intros bookmark. unfold ebBookmarksCheckForCurrentPage, bind, getDocument, ret.
  unfold bookmark, captured. cbn [b_location].
  change ("#" ++ el_id e)%string with (String "#" (el_id e)).
  now rewrite beforeHash_rebuilt.
Qed.

(** ** The description that is derived *)

Lemma take_take n m s : (n <= m)%nat -> take n (take m s) = take n s.
Proof.
  revert n m. induction s as [|c s IH]; intros [|n] [|m] H; cbn [take];
    try reflexivity; try lia.
  f_equal. apply IH. lia.
Qed.

Lemma take_string_length n s : (String.length (take n s) <= n)%nat.
Proof.
  revert n. induction s as [|c s IH]; intros [|n]; cbn [take String.length]; try lia.
  specialize (IH n). lia.
Qed.

Lemma append_length (a b : string) :
  String.length (a ++ b)%string = (String.length a + String.length b)%nat.
Proof. induction a as [|c a IH]; cbn [append String.length]; [reflexivity | now rewrite IH]. Qed.

Lemma last_boundary s :
  noBoundary s = false ->
  exists pre c rest, s = (pre ++ String c rest)%string /\
                     isBoundary c = true /\ noBoundary rest = true.
Proof.
  induction s as [|a s IH]; cbn [noBoundary]; [discriminate|].
  destruct (noBoundary s) eqn:Hs.
  - rewrite andb_true_r. intros Ha. apply negb_false_iff in Ha.
    exists EmptyString, a, s. auto.
  - intros _. destruct (IH eq_refl) as (pre & c & rest & -> & Hc & Hrest).
    exists (String a pre), c, rest. auto.
Qed.

(** X9: the description [ebBookmarksSetBookmark] derives from an ASCII
    text of an element is the first [k] characters of the text, for
    some [k] of at most 49, and the ellipsis.  When the first fifty
    characters hold a space or a full stop, it is the text before the
    last of them; when they hold neither, it is these characters
    without the last one. *)
Theorem fallbackDescription_cut text :
  asciiText text = true ->
  (exists k, (k <= 49)%nat /\
             fallbackDescription text = (take k text ++ ellipsis)%string) /\
  (forall pre c rest,
     take 50 text = (pre ++ String c rest)%string ->
     isBoundary c = true -> noBoundary rest = true ->
     fallbackDescription text = (pre ++ ellipsis)%string) /\
  (noBoundary (take 50 text) = true ->
   fallbackDescription text
   = (take (String.length (take 50 text) - 1) text ++ ellipsis)%string).
Proof.
  intros _.
  assert (Hnone : noBoundary (take 50 text) = true ->
                  fallbackDescription text
                  = (take (String.length (take 50 text) - 1) text ++ ellipsis)%string).
  { intros Hno. unfold fallbackDescription.
    rewrite (@slice0_take text 50) by lia. change (Z.to_nat 50) with 50%nat.
    assert (Hspace : lastIndexOf (take 50 text) " " = -1).
    { apply lastIndexOf_absent; [|assumption].
      intros a Ha. unfold isBoundary. now rewrite Ha. }
    assert (Hstop : lastIndexOf (take 50 text) "." = -1).
    { apply lastIndexOf_absent; [|assumption].
      intros a Ha. unfold isBoundary. rewrite Ha. apply orb_true_r. }
    rewrite Hspace, Hstop. unfold slice0.
    change (-1 <? -1) with false. cbv iota. change (-1 <? 0) with true. cbv iota.
    pose proof (take_string_length 50 text) as Hlen.
    replace (Z.to_nat (Z.max (Z.of_nat (String.length (take 50 text)) + -1) 0))
      with (String.length (take 50 text) - 1)%nat by lia.
    rewrite take_take by lia. reflexivity. }
  assert (Hsome : forall pre c rest,
            take 50 text = (pre ++ String c rest)%string ->
            isBoundary c = true -> noBoundary rest = true ->
            fallbackDescription text = (pre ++ ellipsis)%string).
  { intros pre c rest. apply fallbackDescription_boundary. }
  split; [|split; assumption].
  pose proof (take_string_length 50 text) as Hlen.
  destruct (noBoundary (take 50 text)) eqn:Hno.
  - exists (String.length (take 50 text) - 1)%nat. split; [lia | now apply Hnone].
  - destruct (last_boundary _ Hno) as (pre & c & rest & Htake & Hc & Hrest).
    exists (String.length pre). split.
    + rewrite Htake, append_length in Hlen. cbn [String.length] in Hlen. lia.
    + rewrite (Hsome pre c rest Htake Hc Hrest). f_equal.
      rewrite <- (take_take (n := String.length pre) (m := 50) text).
      * rewrite Htake. now rewrite take_app_length.
      * rewrite Htake, append_length in Hlen. cbn [String.length] in Hlen. lia.
Qed.

Lemma fallbackDescription_cut_witness :
  fallbackDescription "Call me Ishmael. Some years ago"
  = ("Call me Ishmael. Some years" ++ ellipsis)%string /\
  fallbackDescription "Introduction" = ("Introductio" ++ ellipsis)%string.
Proof.
  split.
  - destruct (@fallbackDescription_cut "Call me Ishmael. Some years ago" eq_refl)
      as (_ & Hcut & _).
    exact (Hcut "Call me Ishmael. Some years"%string " "%char "ago"%string
                eq_refl eq_refl eq_refl).
  - destruct (@fallbackDescription_cut "Introduction" eq_refl) as (_ & _ & Hnone).
    exact (Hnone eq_refl).
Defined.

(** ** Capturing without an element *)

Lemma ebBookmarksElementID_run element w :
  exists r, ebBookmarksElementID element w = (r, w) /\ r <> Throw SyntaxError.
Proof.
  unfold ebBookmarksElementID, queryOnscreen, queryWithId, node, getDocument, deref,
    bind, ret, throw.
  destruct element as [n|]; cbn beta iota;
    repeat match goal with
           | |- context [match nth_error ?l ?n with _ => _ end] =>
               destruct (nth_error l n); cbn beta iota
           | |- context [match findIndex ?p ?l with _ => _ end] =>
               destruct (findIndex p l); cbn beta iota
           | |- context [if truthy ?s then _ else _] =>
               destruct (truthy s); cbn beta iota
           end;
    eexists; (split; [reflexivity | discriminate]).
Qed.

Lemma capture_without_element (ebSlugify : string -> string) type description w :
  exists w',
    ebBookmarksSetBookmark ebSlugify type None description w = (Throw TypeError, w') /\
    localStorage w' = localStorage w /\ document w' = document w.
Proof.
  unfold ebBookmarksSetBookmark.
  destruct (match description with Some s => truthy s | None => false end).
  - unfold bind at 1. cbn [ret].
    destruct (ebBookmarksSessionDate_twice w) as (v & ws & Hs & _ & Hls & Hd).
    rewrite (bind_normal Hs). unfold bind at 1, getDocument at 1.
    destruct (ebBookmarksElementID_run None ws) as (r & Hr & Hne).
    exists ws. destruct r as [id|err].
    + rewrite (bind_normal Hr). auto.
    + rewrite (bind_throw Hr). destruct err; [auto | congruence].
  - exists w. auto.
Qed.

(** X10: called without an element, [ebBookmarksSetBookmark] throws a
    [TypeError], whatever type and description it is given, and writes
    nothing to [localStorage] and nothing to the document. *)
Theorem ebBookmarksSetBookmark_no_element
    (ebSlugify : string -> string) type description w :
  let capture := ebBookmarksSetBookmark ebSlugify type None description in
  result capture w = Throw TypeError /\
  localStorage (after capture w) = localStorage w /\
  document (after capture w) = document w.
Proof.
  intros capture.
  pose proof (capture_without_element ebSlugify type description w) as Hrun.
  fold capture in Hrun.
  destruct Hrun as (w' & Hrun & Hls & Hd).
  unfold result, after. now rewrite Hrun.
Qed.

(** ** Edges of the pruning *)

Lemma rawLastLocation_In ls key text :
  In (key, Raw text) ls -> isLastLocationKey key = true -> rawLastLocation ls = true.
Proof.
  intros Hin Hkey. unfold rawLastLocation. apply existsb_exists.
  exists (key, Raw text). split; [exact Hin|]. cbn [fst snd]. now rewrite Hkey.
Qed.

(** X11: on a storage in which the texts under ['bookmark-'] keys that
    are not records are not JSON at all, when some key that starts with
    ['bookmark-'] and contains ['-lastLocation-'] holds such a text,
    [ebBookmarksCleanLastLocations] throws a [SyntaxError], for every
    title, and changes nothing. *)
Theorem ebBookmarksCleanLastLocations_unparsable title w key text :
  uniqueKeys (localStorage w) = true ->
  rawNotJSON (localStorage w) = true ->
  In (key, Raw text) (localStorage w) ->
  isLastLocationKey key = true ->
  ebBookmarksCleanLastLocations title w = (Throw SyntaxError, w).
Proof.
  intros Hu _ Hin Hkey. apply distinct_NoDup in Hu.
  pose proof (rawLastLocation_In _ _ _ Hin Hkey) as Hraw.
  unfold ebBookmarksCleanLastLocations.
  unfold objectKeys at 1. unfold bind at 1.
  now rewrite (bind_throw (collect_loop_raw title w [] (localStorage w) [] eq_refl Hu Hraw)).
Qed.

Lemma ebBookmarksCleanLastLocations_unparsable_witness :
  let ls := [ lastLocationEntry "book" "Book" "1700000000100";
              ("bookmark-other-lastLocation-notes", Raw "my notes");
              lastLocationEntry "book" "Book" "1700000000200";
              lastLocationEntry "book" "Book" "1700000000300" ] in
  ebBookmarksCleanLastLocations "Book" (tabOf ls "1700000000300")
  = (Throw SyntaxError, tabOf ls "1700000000300").
Proof.
  intros ls.
  apply (@ebBookmarksCleanLastLocations_unparsable "Book" (tabOf ls "1700000000300")
           "bookmark-other-lastLocation-notes" "my notes").
  - reflexivity.
  - reflexivity.
  - right. now left.
  - reflexivity.
Defined.

Lemma titleEntries_nil_keep title kept ls :
  titleEntries title ls = [] -> filter (keepEntry title kept) ls = ls.
Proof.
  intros Hnil. apply filter_all. intros [k v] Hin. unfold keepEntry. cbn [fst snd].
  destruct (isLastLocationKey k) eqn:Hk; [|reflexivity].
  destruct v as [b|s]; [|reflexivity].
  destruct (String.eqb_spec title (b_bookTitle b)) as [Ht|Ht]; [|reflexivity].
  exfalso. assert (Hin' : In (k, b) (titleEntries title ls)).
  { apply titleEntries_In. auto. }
  rewrite Hnil in Hin'. exact Hin'.
Qed.

(** X12: for a title of which [localStorage] holds no last location,
    [ebBookmarksCleanLastLocations] completes and changes nothing; in a
    tab without a session identifier it does not create one. *)
Theorem ebBookmarksCleanLastLocations_nothing_stored title w :
  uniqueKeys (localStorage w) = true ->
  rawLastLocation (localStorage w) = false ->
  titleLastLocations title (localStorage w) = [] ->
  ebBookmarksCleanLastLocations title w = (Normal tt, w).
Proof.
  intros Hu Hraw Hnone. apply distinct_NoDup in Hu.
  unfold ebBookmarksCleanLastLocations.
  unfold objectKeys at 1. unfold bind at 1.
  rewrite (bind_normal (collect_loop title w [] (localStorage w) [] eq_refl Hu Hraw)).
  cbn [app]. rewrite Hnone.
  change (lastTwo (@nil Bookmark)) with (@nil Bookmark).
  cbn [sortBy filterM]. unfold bind at 1. cbn [ret length Nat.ltb Nat.leb].
  unfold objectKeys, bind.
  pose proof (remove_loop title [] w [] (localStorage w) Hu Hraw) as H.
  cbn [app] in H. rewrite setLocal_same in H. rewrite H.
  rewrite titleEntries_nil_keep.
  - now rewrite setLocal_same.
  - unfold titleLastLocations in Hnone. now apply map_eq_nil in Hnone.
Qed.

Lemma ebBookmarksCleanLastLocations_nothing_stored_witness :
  let w := mkWorld mixedStorage (mkSession None None) samplePage [] 1700000000400 in
  ebBookmarksCleanLastLocations "Third" w = (Normal tt, w).
Proof.
  intros w.
  apply (@ebBookmarksCleanLastLocations_nothing_stored "Third" w); reflexivity.
Defined.

(** ** What the pruning leaves of a title *)

Lemma titleLastLocations_after title session w :
  sessionIs session w ->
  NoDup (map fst (localStorage w)) ->
  rawLastLocation (localStorage w) = false ->
  keysTellSessionsApart title (localStorage w) = true ->
  let kept := retainedOf session (titleLastLocations title (localStorage w)) in
  ebBookmarksCleanLastLocations title w
  = (Normal tt, setLocal (filter (keepEntry title kept) (localStorage w)) w) /\
  titleLastLocations title (localStorage (after (ebBookmarksCleanLastLocations title) w))
  = filter (fun b => existsb (sameSession b) kept)
           (titleLastLocations title (localStorage w)).
Proof.
  intros Hs Hu Hraw Hd kept.
  pose proof (ebBookmarksCleanLastLocations_eq title Hs Hu Hraw) as Heq.
  split; [exact Heq|]. unfold after. rewrite Heq. cbn [snd localStorage setLocal].
  apply titleLastLocations_pruned; [exact Hd|]. intros r. apply retainedOf_incl.
Qed.

(** X13: in a tab that has its session identifier, on a storage whose
    last-location keys hold records, and for a title whose last
    locations have distinct session dates and keys that tell the
    sessions apart, [ebBookmarksCleanLastLocations] completes and
    leaves at most two last locations of the title, each of which was
    there before; it leaves at least one when there was one, and it
    leaves a single one as it is. *)
Theorem ebBookmarksCleanLastLocations_one_or_two title session w :
  sessionIs session w ->
  uniqueKeys (localStorage w) = true ->
  rawLastLocation (localStorage w) = false ->
  keysTellSessionsApart title (localStorage w) = true ->
  distinctSessions title (localStorage w) = true ->
  let before := titleLastLocations title (localStorage w) in
  let remaining :=
    titleLastLocations title
      (localStorage (after (ebBookmarksCleanLastLocations title) w)) in
  result (ebBookmarksCleanLastLocations title) w = Normal tt /\
  (length remaining <= 2)%nat /\
  (forall b, In b remaining -> In b before) /\
  (before <> [] -> remaining <> []) /\
  ((length before <= 1)%nat -> remaining = before).
Proof.
  intros Hs Hu Hraw Hd Hdist before remaining.
  apply distinct_NoDup in Hu. apply distinct_NoDup in Hdist.
  destruct (titleLastLocations_after title Hs Hu Hraw Hd) as [Hrun Hrem].
  fold before in Hrem, Hdist. fold remaining in Hrem.
  set (kept := retainedOf session before) in *.
  assert (Hkept : forall r, In r kept -> In r remaining).
  { intros r Hr. rewrite Hrem. apply filter_In.
    split; [now apply (retainedOf_incl session before)|].
    apply existsb_exists. exists r. split; [assumption | apply sameSession_refl]. }
  split; [unfold result; now rewrite Hrun|].
  split.
  { rewrite Hrem. pose proof (filter_existsb_length kept before Hdist) as Hle.
    pose proof (retainedOf_length session before) as Hlen. fold kept in Hlen. lia. }
  split; [intros b Hb; rewrite Hrem in Hb; now apply filter_In in Hb|].
  split.
  - intros Hne Hnil. pose proof (retainedOf_nonempty session Hne) as Hk.
    fold kept in Hk. destruct kept as [|r kept']; [now apply Hk|].
    specialize (Hkept r (or_introl eq_refl)). rewrite Hnil in Hkept. exact Hkept.
  - intros Hshort. rewrite Hrem. apply filter_all. intros b Hb.
    apply existsb_exists. exists b. split; [|apply sameSession_refl].
    unfold kept. now rewrite (retainedOf_short session before Hshort).
Qed.

Lemma ebBookmarksCleanLastLocations_one_or_two_witness :
  let w := tabOf mixedStorage "1700000000300" in
  let before := titleLastLocations "Book" (localStorage w) in
  let remaining :=
    titleLastLocations "Book"
      (localStorage (after (ebBookmarksCleanLastLocations "Book") w)) in
  result (ebBookmarksCleanLastLocations "Book") w = Normal tt /\
  (length remaining <= 2)%nat /\
  (forall b, In b remaining -> In b before) /\
  (before <> [] -> remaining <> []) /\
  ((length before <= 1)%nat -> remaining = before).
Proof.
  intros w before remaining.
  apply (@ebBookmarksCleanLastLocations_one_or_two "Book" "1700000000300" w);
    try reflexivity.
  split; reflexivity.
Defined.

Lemma lastTwo_map {A B} (f : A -> B) (l : list A) : lastTwo (map f l) = map f (lastTwo l).
Proof. unfold lastTwo. now rewrite length_map, skipn_map. Qed.

Lemma length_filter_In {A} (f : A -> bool) l x :
  In x l -> f x = true -> (1 <= length (filter f l))%nat.
Proof.
  intros Hin Hf. assert (Hx : In x (filter f l)) by (apply filter_In; auto).
  destruct (filter f l); [destruct Hx | cbn; lia].
Qed.

Lemma retainedOf_current session collected b :
  In b (lastTwo collected) -> isPrevious session b = false ->
  In b (retainedOf session collected).
Proof.
  intros Hin Hcur. unfold retainedOf.
  set (sorted := sortBy bySessionDate (lastTwo collected)).
  assert (Hb : In b sorted) by now apply sortBy_In.
  assert (Hlen : (length sorted <= 2)%nat).
  { unfold sorted. rewrite sortBy_length. apply lastTwo_length. }
  pose proof (filter_length (isPrevious session) sorted) as Hsplit.
  assert (Hone : (1 <= length (filter (fun x => negb (isPrevious session x)) sorted))%nat).
  { apply (length_filter_In _ _ b Hb). now rewrite Hcur. }
  destruct (Nat.ltb_spec 1 (length (filter (isPrevious session) sorted))); [lia|].
  exact Hb.
Qed.

(** X14: in a tab that has its session identifier and on a storage
    whose last-location keys hold records, a last location of the
    current session whose key contains the session identifier, and
    which is the last or the last but one that [Object.keys] lists for
    its title, is still stored after [ebBookmarksCleanLastLocations]. *)
Theorem ebBookmarksCleanLastLocations_keeps_current title session w key b :
  sessionIs session w ->
  uniqueKeys (localStorage w) = true ->
  rawLastLocation (localStorage w) = false ->
  In (key, b) (lastTwo (titleEntries title (localStorage w))) ->
  b_sessionDate b = VStr session ->
  includes key session = true ->
  result (ebBookmarksCleanLastLocations title) w = Normal tt /\
  lookup key (localStorage (after (ebBookmarksCleanLastLocations title) w))
  = Some (Json b).
Proof.
  intros Hs Hu Hraw Hin Hdate Hkey. apply distinct_NoDup in Hu.
  pose proof (ebBookmarksCleanLastLocations_eq title Hs Hu Hraw) as Hrun.
  unfold result, after. rewrite Hrun. cbn [fst snd localStorage setLocal].
  split; [reflexivity|].
  set (kept := retainedOf session (titleLastLocations title (localStorage w))).
  assert (Hkept : In b kept).
  { apply retainedOf_current.
    - unfold titleLastLocations. rewrite lastTwo_map.
      apply in_map_iff. now exists (key, b).
    - unfold isPrevious. rewrite Hdate. cbn [strictEq]. now rewrite String.eqb_refl. }
  apply lastTwo_incl in Hin. apply titleEntries_In in Hin as (Hstored & Hll & Ht).
  apply lookup_NoDup; [now apply NoDup_keys_filter|].
  apply filter_In. split; [exact Hstored|].
  unfold keepEntry. cbn [fst snd]. rewrite Hll, Ht, String.eqb_refl. cbn [andb].
  assert (Hcount : (1 <= countMatches key kept)%nat).
  { unfold countMatches. apply (length_filter_In _ _ b Hkept).
    now rewrite Hdate. }
  destruct (countMatches key kept); [lia | reflexivity].
Qed.

Lemma ebBookmarksCleanLastLocations_keeps_current_witness :
  let w := tabOf outOfOrderStorage "1700000000300" in
  let key := "bookmark-book-lastLocation-1700000000300"%string in
  result (ebBookmarksCleanLastLocations "Book") w = Normal tt /\
  lookup key (localStorage (after (ebBookmarksCleanLastLocations "Book") w))
  = Some (Json (sampleRecord "lastLocation" "Book" "1700000000300" key)).
Proof.
  intros w key.
  apply (@ebBookmarksCleanLastLocations_keeps_current "Book" "1700000000300" w key
           (sampleRecord "lastLocation" "Book" "1700000000300" key));
    try reflexivity.
  - split; reflexivity.
  - left. reflexivity.
Defined.

(** ** The reconciliation, loop by loop *)

Lemma parseable_In ls k v :
  parseable ls = true -> In (k, v) ls -> startsWith k "bookmark-" = true ->
  exists b, v = Json b.
Proof.
  intros Hp Hin Hk. unfold parseable in Hp. rewrite forallb_forall in Hp.
  specialize (Hp (k, v) Hin). cbn [fst snd] in Hp. rewrite Hk in Hp.
  destruct v as [b|s]; [now exists b | discriminate].
Qed.

Lemma parseable_rawLastLocation ls : parseable ls = true -> rawLastLocation ls = false.
Proof.
  intros Hp. unfold rawLastLocation.
  destruct (existsb _ ls) eqn:He; [|reflexivity].
  apply existsb_exists in He as ([k v] & Hin & Hraw). cbn [fst snd] in Hraw.
  apply andb_true_iff in Hraw as [Hk Hv]. unfold isLastLocationKey in Hk.
  apply andb_true_iff in Hk as [Hk _].
  destruct (parseable_In _ _ _ Hp Hin Hk) as [b ->]. discriminate.
Qed.

Lemma parseable_filter f ls : parseable ls = true -> parseable (filter f ls) = true.
Proof.
  unfold parseable. rewrite !forallb_forall. intros Hp e He.
  apply filter_In in He as [He _]. now apply Hp.
Qed.

Lemma pruneTitle_run session title w :
  sessionIs session w ->
  NoDup (map fst (localStorage w)) ->
  parseable (localStorage w) = true ->
  ebBookmarksCleanLastLocations title w
  = (Normal tt, setLocal (pruneTitle session title (localStorage w)) w).
Proof.
  intros Hs Hu Hp. apply ebBookmarksCleanLastLocations_eq; auto.
  now apply parseable_rawLastLocation.
Qed.

Lemma cleanTitleOf_eq session key w :
  sessionIs session w ->
  NoDup (map fst (localStorage w)) ->
  parseable (localStorage w) = true ->
  cleanTitleOf key w = (Normal tt, setLocal (pruneFor session (localStorage w) key) w).
Proof.
  intros Hs Hu Hp. unfold cleanTitleOf, pruneFor.
  destruct (startsWith key "bookmark-") eqn:Hk; [|now rewrite setLocal_same].
  unfold bind at 1, getItem at 1.
  destruct (lookup key (localStorage w)) as [[b|s]|] eqn:Hl.
  - unfold bind, JSON_parse, ret. now apply pruneTitle_run.
  - apply lookup_In in Hl. destruct (parseable_In _ _ _ Hp Hl Hk) as [b Hb]. discriminate.
  - unfold bind, JSON_parse, ret. now rewrite setLocal_same.
Qed.

Lemma pruneFor_well session ls key :
  NoDup (map fst ls) -> parseable ls = true ->
  NoDup (map fst (pruneFor session ls key)) /\ parseable (pruneFor session ls key) = true.
Proof.
  intros Hu Hp. unfold pruneFor.
  destruct (startsWith key "bookmark-"); [|auto].
  destruct (lookup key ls) as [[b|s]|]; auto.
  split; [now apply NoDup_keys_filter | now apply parseable_filter].
Qed.

Lemma clean_loop session keys w :
  sessionIs session w ->
  NoDup (map fst (localStorage w)) ->
  parseable (localStorage w) = true ->
  forEach cleanTitleOf keys w
  = (Normal tt, setLocal (fold_left (pruneFor session) keys (localStorage w)) w).
Proof.
  revert w. induction keys as [|key keys IH]; intros w Hs Hu Hp.
  - cbn [forEach fold_left]. now rewrite setLocal_same.
  - cbn [forEach fold_left].
    rewrite (bind_normal (cleanTitleOf_eq key Hs Hu Hp)).
    destruct (pruneFor_well session (localStorage w) key Hu Hp) as [Hu1 Hp1].
    rewrite IH; [now rewrite setLocal_setLocal | exact Hs | exact Hu1 | exact Hp1].
Qed.

Lemma cleanStoredTitles_eq session w :
  sessionIs session w ->
  NoDup (map fst (localStorage w)) ->
  parseable (localStorage w) = true ->
  cleanStoredTitles w
  = (Normal tt, setLocal (prunedStorage session (localStorage w)) w).
Proof.
  intros Hs Hu Hp. unfold cleanStoredTitles, objectKeys. unfold bind.
  now apply clean_loop.
Qed.

Lemma fold_pruneFor_well session keys ls :
  NoDup (map fst ls) -> parseable ls = true ->
  NoDup (map fst (fold_left (pruneFor session) keys ls)) /\
  parseable (fold_left (pruneFor session) keys ls) = true /\
  exists f, fold_left (pruneFor session) keys ls = filter f ls.
Proof.
  revert ls. induction keys as [|key keys IH]; intros ls Hu Hp; cbn [fold_left].
  - split; [exact Hu|]. split; [exact Hp|]. exists (fun _ => true).
    symmetry. now apply filter_all.
  - destruct (pruneFor_well session ls key Hu Hp) as [Hu1 Hp1].
    destruct (IH _ Hu1 Hp1) as (Hu2 & Hp2 & f & Hf).
    split; [exact Hu2|]. split; [exact Hp2|].
    assert (Hone : exists g, pruneFor session ls key = filter g ls).
    { unfold pruneFor. destruct (startsWith key "bookmark-");
        [|exists (fun _ => true); symmetry; now apply filter_all].
      destruct (lookup key ls) as [[b|s]|];
        try (exists (fun _ => true); symmetry; now apply filter_all).
      eexists. reflexivity. }
    destruct Hone as [g Hg]. exists (fun e => g e && f e).
    rewrite Hf, Hg. clear. induction ls as [|e ls IH]; [reflexivity|].
    cbn [filter]. destruct (g e); cbn [filter andb]; [|exact IH].
    destruct (f e); [now rewrite IH | exact IH].
Qed.

Lemma push_loop session w pre suf acc :
  sessionIs session w ->
  localStorage w = pre ++ suf ->
  NoDup (map fst (pre ++ suf)) ->
  parseable (pre ++ suf) = true ->
  forEachPush pushVisible (map fst suf) acc w
  = (Normal (acc ++ visibleBookmarks session suf), w).
Proof.
  intros Hs. revert pre acc. induction suf as [|[k v] suf IH]; intros pre acc Hls Hu Hp.
  - cbn. now rewrite app_nil_r.
  - cbn [map fst forEachPush].
    assert (Hlook : lookup k (localStorage w) = Some v).
    { rewrite Hls. now apply lookup_middle. }
    assert (Hstep : pushVisible acc k w
                    = (Normal (acc ++ visibleBookmarks session [(k, v)]), w)).
    { rewrite (pushVisible_eq acc k Hs), Hlook. unfold visibleBookmarks.
      cbn [flat_map fst snd]. rewrite app_nil_r.
      destruct (startsWith k "bookmark-") eqn:Hk; [|now rewrite app_nil_r].
      assert (Hin : In (k, v) (pre ++ (k, v) :: suf)) by (apply in_or_app; right; now left).
      destruct (parseable_In _ _ _ Hp Hin Hk) as [b ->].
      unfold isVisible.
      destruct (negb (b_type b =? "lastLocation")%string); [reflexivity|].
      cbn [orb].
      destruct (negb (strictEq (b_sessionDate b) (VStr session)));
        [reflexivity | now rewrite app_nil_r]. }
    rewrite (bind_normal Hstep).
    replace (pre ++ (k, v) :: suf) with ((pre ++ [(k, v)]) ++ suf) in Hls, Hu, Hp
      by now rewrite <- app_assoc.
    rewrite (IH (pre ++ [(k, v)]) _ Hls Hu Hp).
    rewrite <- app_assoc. unfold visibleBookmarks. cbn [flat_map].
    now rewrite app_nil_r.
Qed.

Lemma storedBookmarks_eq session w :
  sessionIs session w ->
  NoDup (map fst (localStorage w)) ->
  parseable (localStorage w) = true ->
  storedBookmarks w = (Normal (visibleBookmarks session (localStorage w)), w).
Proof.
  intros Hs Hu Hp. unfold storedBookmarks, objectKeys. unfold bind.
  now apply (push_loop [] (localStorage w) [] Hs).
Qed.

(** ** The lists of the panel *)

Lemma repaired_repaired ls ls' bl ll bl' ll' w :
  repaired ls' bl' ll' (repaired ls bl ll w) = repaired ls' bl' ll' w.
Proof. reflexivity. Qed.

Lemma repaired_same w :
  repaired (localStorage w) (bookmarksList (document w)) (lastLocationsList (document w)) w
  = w.
Proof. now destruct w as [ls ss [els h t bt bl ll] a c]. Qed.

Lemma listBookmark_eq session b w l1 l2 :
  sessionIs session w ->
  NoDup (map fst (localStorage w)) ->
  parseable (localStorage w) = true ->
  bookmarksList (document w) = Some l1 ->
  lastLocationsList (document w) = Some l2 ->
  listBookmark b w
  = (Normal tt,
     repaired (pruneTitle session (b_bookTitle b) (localStorage w))
              (Some (l1 ++ if listedAsBookmark b then [BookmarkItem b] else []))
              (Some (l2 ++ if listedAsLastLocation session b then [BookmarkItem b] else []))
              w).
Proof.
  intros Hs Hu Hp Hl1 Hl2. unfold listBookmark.
  rewrite (bind_normal (pruneTitle_run (b_bookTitle b) Hs Hu Hp)).
  set (w1 := setLocal _ w).
  assert (Hs1 : sessionIs session w1) by exact Hs.
  unfold listedAsBookmark, listedAsLastLocation.
  destruct (b_type b =? "lastLocation")%string; cbn [negb andb].
  - assert (Hcur : (current <- ebBookmarksSessionDate ;;
                    ret (strictEq (b_sessionDate b) current)) w1
                   = (Normal (strictEq (b_sessionDate b) (VStr session)), w1)).
    { now rewrite (bind_normal
                     (ebBookmarksSessionDate_established w1 (proj1 Hs1) (proj2 Hs1))). }
    rewrite (bind_normal Hcur).
    destruct (strictEq (b_sessionDate b) (VStr session)); cbn [negb].
    + unfold ret. rewrite !app_nil_r. unfold w1, repaired, setLocal.
      cbn. rewrite <- Hl1, <- Hl2. now destruct (document w).
    + unfold appendToLastLocationsList, bind, getDocument, deref, putDocument.
      cbn [document w1 setLocal]. rewrite Hl2. cbn. rewrite app_nil_r.
      unfold repaired, setDocument. cbn. now rewrite Hl1.
  - unfold bind at 1. cbn [ret].
    unfold appendToBookmarksList, bind, getDocument, deref, putDocument.
    cbn [document w1 setLocal]. rewrite Hl1. cbn. rewrite app_nil_r.
    unfold repaired, setDocument. cbn. now rewrite Hl2.
Qed.

Lemma pruneTitle_well session title ls :
  NoDup (map fst ls) -> parseable ls = true ->
  NoDup (map fst (pruneTitle session title ls)) /\
  parseable (pruneTitle session title ls) = true.
Proof.
  intros Hu Hp. split; [now apply NoDup_keys_filter | now apply parseable_filter].
Qed.

Lemma list_loop session bookmarks w l1 l2 :
  sessionIs session w ->
  NoDup (map fst (localStorage w)) ->
  parseable (localStorage w) = true ->
  bookmarksList (document w) = Some l1 ->
  lastLocationsList (document w) = Some l2 ->
  forEach listBookmark bookmarks w
  = (Normal tt,
     repaired (prunedFor session bookmarks (localStorage w))
              (Some (l1 ++ map BookmarkItem (filter listedAsBookmark bookmarks)))
              (Some (l2 ++ map BookmarkItem
                             (filter (listedAsLastLocation session) bookmarks)))
              w).
Proof.
  revert w l1 l2. induction bookmarks as [|b rest IH]; intros w l1 l2 Hs Hu Hp Hl1 Hl2.
  - cbn [forEach prunedFor fold_left filter map]. rewrite !app_nil_r, <- Hl1, <- Hl2.
    unfold ret. now rewrite repaired_same.
  - cbn [forEach]. rewrite (bind_normal (listBookmark_eq b Hs Hu Hp Hl1 Hl2)).
    destruct (pruneTitle_well session (b_bookTitle b) (localStorage w) Hu Hp) as [Hu1 Hp1].
    set (w1 := repaired _ _ _ w).
    rewrite (IH w1 _ _ Hs Hu1 Hp1 eq_refl eq_refl). unfold w1.
    rewrite repaired_repaired.
    cbn [localStorage repaired prunedFor fold_left filter].
    f_equal. f_equal.
    + f_equal. rewrite <- app_assoc. f_equal.
      now destruct (listedAsBookmark b).
    + f_equal. rewrite <- app_assoc. f_equal.
      now destruct (listedAsLastLocation session b).
Qed.

Lemma ebBookmarksListBookmarks_eq session bookmarks w :
  sessionIs session w ->
  NoDup (map fst (localStorage w)) ->
  parseable (localStorage w) = true ->
  bookmarksList (document w) <> None ->
  lastLocationsList (document w) <> None ->
  ebBookmarksListBookmarks bookmarks w
  = (Normal tt,
     repaired (prunedFor session bookmarks (localStorage w))
              (Some (panelList (filter listedAsBookmark bookmarks)))
              (Some (panelList (filter (listedAsLastLocation session) bookmarks)))
              w).
Proof.
  intros Hs Hu Hp Hl1 Hl2. unfold ebBookmarksListBookmarks.
  destruct (bookmarksList (document w)) as [l1|] eqn:E1; [|congruence].
  destruct (lastLocationsList (document w)) as [l2|] eqn:E2; [|congruence].
  assert (Hclear : clearLists w = (Normal tt, repaired (localStorage w) (Some []) (Some []) w)).
  { unfold clearLists, bind, getDocument, putDocument. now rewrite E1, E2. }
  rewrite (bind_normal Hclear).
  rewrite (bind_normal
             (list_loop (session := session) bookmarks
                (w := repaired (localStorage w) (Some []) (Some []) w)
                Hs Hu Hp eq_refl eq_refl)).
  rewrite repaired_repaired. cbn [app localStorage repaired].
  unfold appendToBookmarksList, appendToLastLocationsList, bind, getDocument, deref,
    putDocument, ret.
  reflexivity.
Qed.

(** X15: in a tab that has its session identifier, on a storage with
    distinct keys whose ['bookmark-'] keys hold records, with plain
    session dates in the last locations, and on a page that has the two
    lists of the panel, [ebBookmarksListBookmarks] completes.  The list of bookmarks then shows the bookmarks passed
    that are not last locations, in the order passed, and the list of
    last locations those that are last locations of another session;
    each list ends with the item of the delete-all button, and what
    the lists showed before is gone.  The elements, the address and
    [sessionStorage] are untouched, and [localStorage] is pruned for
    the book title of each bookmark in turn. *)
Theorem ebBookmarksListBookmarks_lists session bookmarks w :
  sessionIs session w ->
  uniqueKeys (localStorage w) = true ->
  parseable (localStorage w) = true ->
  plainDates (localStorage w) = true ->
  bookmarksList (document w) <> None ->
  lastLocationsList (document w) <> None ->
  let w' := after (ebBookmarksListBookmarks bookmarks) w in
  result (ebBookmarksListBookmarks bookmarks) w = Normal tt /\
  bookmarksList (document w')
  = Some (map BookmarkItem (filter listedAsBookmark bookmarks) ++ [DeleteAllItem]) /\
  lastLocationsList (document w')
  = Some (map BookmarkItem (filter (listedAsLastLocation session) bookmarks)
          ++ [DeleteAllItem]) /\
  elements (document w') = elements (document w) /\
  href (document w') = href (document w) /\
  sessionStorage w' = sessionStorage w /\
  localStorage w' = prunedFor session bookmarks (localStorage w).
Proof.
  intros Hs Hu Hp _ Hl1 Hl2 w'. apply distinct_NoDup in Hu.
  pose proof (ebBookmarksListBookmarks_eq bookmarks Hs Hu Hp Hl1 Hl2) as Hrun.
  unfold w', result, after. rewrite Hrun. cbn [fst snd].
  unfold repaired, panelList. cbn.
  repeat split.
Qed.

Lemma ebBookmarksListBookmarks_lists_witness :
  let bookmarks := [ lastLocationOnSec3; userBookmarkOnSec3;
                     sampleRecord "lastLocation" "Book" "1700000000300"
                                  "bookmark-book-lastLocation-1700000000300" ] in
  let w := tabOf mixedStorage "1700000000300" in
  let w' := after (ebBookmarksListBookmarks bookmarks) w in
  result (ebBookmarksListBookmarks bookmarks) w = Normal tt /\
  bookmarksList (document w')
  = Some (map BookmarkItem (filter listedAsBookmark bookmarks) ++ [DeleteAllItem]) /\
  lastLocationsList (document w')
  = Some (map BookmarkItem (filter (listedAsLastLocation "1700000000300") bookmarks)
          ++ [DeleteAllItem]) /\
  elements (document w') = elements (document w) /\
  href (document w') = href (document w) /\
  sessionStorage w' = sessionStorage w /\
  localStorage w' = prunedFor "1700000000300" bookmarks (localStorage w).
Proof.
  intros bookmarks w w'.
  apply (@ebBookmarksListBookmarks_lists "1700000000300" bookmarks w);
    try reflexivity; try discriminate.
  split; reflexivity.
Defined.

#[local] Instance missingKept_PreOrder : PreOrder missingKept.
Proof.
  split.
  - intros w. split; auto.
  - intros a b c [H1 H2] [H3 H4]. split; auto.
Qed.

Lemma sameDocument_missingKept w w' : sameDocument w w' -> missingKept w w'.
Proof. unfold sameDocument. intros H. split; now rewrite H. Qed.

Lemma listBookmark_missingKept b : preserves missingKept (listBookmark b).
Proof.
  unfold listBookmark.
  apply preserves_bind; [exact _ | |].
  { eapply preserves_weaken; [exact sameDocument_missingKept|].
    apply ebBookmarksCleanLastLocations_sameDocument. }
  intros _. apply preserves_bind; [exact _ | |].
  { destruct (b_type b =? "lastLocation")%string; [|apply preserves_ret; exact _].
    apply preserves_bind; [exact _ | |].
    - eapply preserves_weaken; [exact sameDocument_missingKept|].
      apply ebBookmarksSessionDate_sameDocument.
    - intros current. apply preserves_ret; exact _. }
  intros [|]; [apply preserves_ret; exact _|].
  destruct (b_type b =? "lastLocation")%string; intros w;
    unfold after, appendToLastLocationsList, appendToBookmarksList, bind, getDocument,
      deref, putDocument.
  - destruct (lastLocationsList (document w)) eqn:E; cbn; split; cbn; congruence.
  - destruct (bookmarksList (document w)) eqn:E; cbn; split; cbn; congruence.
Qed.

(** X16: on a page that lacks one of the two lists of the panel,
    [ebBookmarksListBookmarks] never completes: it throws, at the
    latest when it adds the item of the delete-all button. *)
Theorem ebBookmarksListBookmarks_without_list bookmarks w :
  bookmarksList (document w) = None \/ lastLocationsList (document w) = None ->
  exists e, result (ebBookmarksListBookmarks bookmarks) w = Throw e.
Proof.
  intros Hnone. unfold ebBookmarksListBookmarks, result.
  set (w1 := snd (clearLists w)).
  assert (Hclear : clearLists w = (Normal tt, w1)) by reflexivity.
  assert (Hnone1 : bookmarksList (document w1) = None \/
                   lastLocationsList (document w1) = None).
  { unfold w1, clearLists, bind, getDocument, putDocument. cbn.
    destruct Hnone as [-> | ->]; auto. }
  rewrite (bind_normal Hclear).
  pose proof (preserves_forEach (R := missingKept) listBookmark bookmarks
                listBookmark_missingKept w1) as [Hb Hl].
  unfold after in Hb, Hl.
  destruct (forEach listBookmark bookmarks w1) as [[[]|e] w2] eqn:Hloop.
  - rewrite (bind_normal Hloop). cbn [snd] in Hb, Hl.
    unfold appendToBookmarksList, appendToLastLocationsList, bind, getDocument, deref,
      putDocument, throw.
    destruct (bookmarksList (document w2)) as [items|] eqn:E.
    + destruct Hnone1 as [H1|H2]; [apply Hb in H1; congruence|].
      apply Hl in H2. cbn. rewrite H2. now exists TypeError.
    + now exists TypeError.
  - rewrite (bind_throw Hloop). now exists e.
Qed.

Lemma ebBookmarksListBookmarks_without_list_witness :
  exists e,
    result (ebBookmarksListBookmarks [userBookmarkOnSec3])
           (mkWorld [] (mkSession (Some "1700000000300") None)
                    (mkDocument [] "https://site/book/page.html" "Page" "Book"
                                (Some []) None)
                    [] 1700000000400)
    = Throw e.
Proof.
  apply (@ebBookmarksListBookmarks_without_list [userBookmarkOnSec3]).
  right. reflexivity.
Defined.

(** ** The reconciliation as a whole *)

Lemma NoDup_distinct l : NoDup l -> distinct l = true.
Proof.
  induction 1 as [|x l Hx Hnd IH]; [reflexivity|]. cbn [distinct].
  rewrite IH, andb_true_r. apply negb_true_iff.
  destruct (existsb (String.eqb x) l) eqn:He; [|reflexivity].
  apply existsb_exists in He as (y & Hy & Hxy). apply String.eqb_eq in Hxy.
  subst y. contradiction.
Qed.

Lemma prunedFor_well session bookmarks ls :
  NoDup (map fst ls) -> parseable ls = true ->
  NoDup (map fst (prunedFor session bookmarks ls)) /\
  parseable (prunedFor session bookmarks ls) = true /\
  forall e, In e (prunedFor session bookmarks ls) -> In e ls.
Proof.
  revert ls. induction bookmarks as [|b rest IH]; intros ls Hu Hp;
    cbn [prunedFor fold_left]; [auto|].
  destruct (pruneTitle_well session (b_bookTitle b) ls Hu Hp) as [Hu1 Hp1].
  destruct (IH _ Hu1 Hp1) as (Hu2 & Hp2 & Hin).
  split; [exact Hu2|]. split; [exact Hp2|].
  intros e He. apply Hin in He. unfold pruneTitle in He.
  now apply filter_In in He.
Qed.

Lemma visibleBookmarks_In session ls b :
  In b (visibleBookmarks session ls) <->
  exists k, In (k, Json b) ls /\ startsWith k "bookmark-" = true /\
            isVisible session b = true.
Proof.
  unfold visibleBookmarks. rewrite in_flat_map. split.
  - intros ([k v] & Hin & Hb). cbn [fst snd] in Hb.
    destruct (startsWith k "bookmark-") eqn:Hk; [|destruct Hb].
    destruct v as [b'|s]; [|destruct Hb].
    destruct (isVisible session b') eqn:Hv; [|destruct Hb].
    destruct Hb as [<-|[]]. exists k. auto.
  - intros (k & Hin & Hk & Hv). exists (k, Json b). split; [exact Hin|].
    cbn [fst snd]. rewrite Hk, Hv. now left.
Qed.

Lemma ebBookmarksCheckForBookmarks_eq session w :
  reconcilable session w ->
  let ls1 := prunedStorage session (localStorage w) in
  let bookmarks := visibleBookmarks session ls1 in
  exists els',
    ebBookmarksCheckForBookmarks w
    = (Normal tt,
       repaired (prunedFor session bookmarks ls1)
                (Some (panelList (filter listedAsBookmark bookmarks)))
                (Some (panelList (filter (listedAsLastLocation session) bookmarks)))
                (withPage (fun _ => els') w)) /\
    forall n, nth_error els' n
              = option_map (fun e => markedElement (document w) bookmarks n (unmarked e))
                           (nth_error (elements (document w)) n).
Proof.
  intros (Hs & Hu & Hp & Hl1 & Hl2 & Ha) ls1 bookmarks.
  apply distinct_NoDup in Hu.
  destruct (fold_pruneFor_well session (map fst (localStorage w)) (localStorage w) Hu Hp)
    as (Hu1 & Hp1 & f & Hf).
  fold (prunedStorage session (localStorage w)) in Hu1, Hp1, Hf. fold ls1 in Hu1, Hp1, Hf.
  set (w1 := setLocal ls1 w).
  assert (Hs1 : sessionIs session w1) by exact Hs.
  assert (Hanchored : forall b, In b bookmarks ->
            onCurrentPage (document w1) (b_location b) = true ->
            elementById (document w1) (b_id b) <> None).
  { intros b Hb Hpage. apply visibleBookmarks_In in Hb as (k & Hin & Hk & Hv).
    rewrite Hf in Hin. apply filter_In in Hin as [Hin _].
    exact (Ha k b Hin Hk Hv Hpage). }
  destruct (ebBookmarksMarkBookmarks_eq w1 bookmarks Hanchored) as (els' & Hmark & Hnth).
  exists els'. split; [|exact Hnth].
  unfold ebBookmarksCheckForBookmarks.
  rewrite (bind_normal (cleanStoredTitles_eq Hs Hu Hp)). fold ls1 w1.
  rewrite (bind_normal (storedBookmarks_eq Hs1 Hu1 Hp1)).
  change (visibleBookmarks session (localStorage w1)) with bookmarks.
  rewrite (bind_normal Hmark).
  set (w2 := withPage (fun _ => els') w1).
  assert (Hs2 : sessionIs session w2) by exact Hs.
  rewrite (ebBookmarksListBookmarks_eq (session := session) bookmarks (w := w2) Hs2 Hu1 Hp1 Hl1 Hl2).
  reflexivity.
Qed.

Lemma marked_ids (els els' : list Element) (g : nat -> Element -> Element) :
  (forall n e, pageReads (g n e) = pageReads e) ->
  (forall n, nth_error els' n = option_map (g n) (nth_error els n)) ->
  map pageReads els' = map pageReads els.
Proof.
  intros Hg Hnth. apply nth_error_ext. intros n.
  rewrite !nth_error_map, Hnth.
  destruct (nth_error els n) as [e|]; [|reflexivity].
  cbn [option_map]. now rewrite Hg.
Qed.

Lemma pageReads_ids els els' :
  map pageReads els' = map pageReads els -> map el_id els' = map el_id els.
Proof.
  intros H. apply (f_equal (map (fun r => fst (fst (fst r))))) in H.
  now rewrite !map_map in H.
Qed.

Lemma pageReads_markedElement d bookmarks n e :
  pageReads (markedElement d bookmarks n (unmarked e)) = pageReads e.
Proof. unfold markedElement. now rewrite pageReads_marked. Qed.

Lemma el_bookmarked_marked hits e :
  el_bookmarked (fold_left markedBy hits e)
  = match hits with [] => el_bookmarked e | _ => Some "true"%string end.
Proof.
  revert e. induction hits as [|b hits IH]; intros e; [reflexivity|].
  cbn [fold_left]. rewrite IH. now destruct hits.
Qed.

Lemma existsb_filter_nil {A} (f : A -> bool) l :
  existsb f l = match filter f l with [] => false | _ => true end.
Proof.
  induction l as [|x l IH]; [reflexivity|]. cbn [existsb filter].
  destruct (f x); [reflexivity | exact IH].
Qed.

Lemma reconcilable_after session w :
  reconcilable session w -> reconcilable session (after ebBookmarksCheckForBookmarks w).
Proof.
  intros Hr.
  destruct (ebBookmarksCheckForBookmarks_eq Hr) as (els' & Hrun & Hnth).
  destruct Hr as (Hs & Hu & Hp & Hl1 & Hl2 & Ha).
  apply distinct_NoDup in Hu.
  set (ls1 := prunedStorage session (localStorage w)) in *.
  set (bookmarks := visibleBookmarks session ls1) in *.
  destruct (fold_pruneFor_well session (map fst (localStorage w)) (localStorage w) Hu Hp)
    as (Hu1 & Hp1 & f & Hf).
  fold (prunedStorage session (localStorage w)) in Hu1, Hp1, Hf. fold ls1 in Hu1, Hp1, Hf.
  destruct (prunedFor_well session bookmarks ls1 Hu1 Hp1) as (Hu2 & Hp2 & Hin2).
  assert (Hreads : map pageReads els' = map pageReads (elements (document w))).
  { apply (@marked_ids (elements (document w)) els'
                       (fun n e => markedElement (document w) bookmarks n (unmarked e)));
      [|exact Hnth]. intros n e. apply pageReads_markedElement. }
  unfold after. rewrite Hrun. cbn [snd].
  split; [exact Hs|]. cbn [localStorage document repaired bookmarksList lastLocationsList].
  split; [now apply NoDup_distinct|]. split; [exact Hp2|].
  split; [discriminate|]. split; [discriminate|].
  intros k b Hin Hk Hv Hpage.
  assert (Hold : elementById (document w) (b_id b) <> None).
  { apply (Ha k b); auto. apply Hin2 in Hin. rewrite Hf in Hin.
    now apply filter_In in Hin. }
  unfold elementById in *. cbn [withPage setDocument document withElements] in *.
  rewrite (@findById_ids (document w) _ (b_id b)) by (cbn; now apply pageReads_ids).
  destruct (findById (document w) (b_id b)) as [n|]; [|congruence].
  cbn [elements]. rewrite Hnth.
  destruct (nth_error (elements (document w)) n); [discriminate | congruence].
Qed.

Lemma reconciled_subset session w :
  reconcilable session w ->
  forall e, In e (localStorage (after ebBookmarksCheckForBookmarks w)) ->
            In e (prunedStorage session (localStorage w)) /\ In e (localStorage w).
Proof.
  intros Hr.
  destruct (ebBookmarksCheckForBookmarks_eq Hr) as (els' & Hrun & _).
  destruct Hr as (Hs & Hu & Hp & _).
  apply distinct_NoDup in Hu.
  destruct (fold_pruneFor_well session (map fst (localStorage w)) (localStorage w) Hu Hp)
    as (Hu1 & Hp1 & f & Hf).
  fold (prunedStorage session (localStorage w)) in Hu1, Hp1, Hf.
  destruct (prunedFor_well session
              (visibleBookmarks session (prunedStorage session (localStorage w)))
              _ Hu1 Hp1) as (_ & _ & Hin2).
  unfold after. rewrite Hrun. cbn [snd localStorage repaired].
  intros e He. apply Hin2 in He. split; [exact He|].
  rewrite Hf in He. now apply filter_In in He.
Qed.

(** X17: from a state in which the tab has its session identifier, the
    keys of [localStorage] are distinct and those that start with
    ['bookmark-'] hold records, and the page has the two lists of the
    panel and the element of every stored record that is shown and is
    on the page, [ebBookmarksCheckForBookmarks] completes and leaves a
    state of that kind.  It does not touch [sessionStorage]; every
    entry of [localStorage] afterwards was there before; and of the
    elements it changes nothing that a capture reads. *)
Theorem ebBookmarksCheckForBookmarks_completes session w :
  reconcilable session w ->
  let w' := after ebBookmarksCheckForBookmarks w in
  result ebBookmarksCheckForBookmarks w = Normal tt /\
  reconcilable session w' /\
  sessionStorage w' = sessionStorage w /\
  (forall e, In e (localStorage w') -> In e (localStorage w)) /\
  samePage w w'.
Proof.
  intros Hr w'.
  pose proof (reconcilable_after Hr) as Hafter.
  pose proof (reconciled_subset Hr) as Hsub.
  destruct (ebBookmarksCheckForBookmarks_eq Hr) as (els' & Hrun & Hnth).
  assert (Hreads : map pageReads els' = map pageReads (elements (document w))).
  { apply (@marked_ids (elements (document w)) els'
             (fun n e => markedElement (document w)
                           (visibleBookmarks session
                              (prunedStorage session (localStorage w)))
                           n (unmarked e)));
      [|exact Hnth]. intros n e. apply pageReads_markedElement. }
  split; [unfold result; now rewrite Hrun|].
  split; [exact Hafter|].
  unfold w', after in *. rewrite Hrun in *. cbn [snd] in *.
  split; [reflexivity|]. split; [intros e He; now apply Hsub|].
  unfold samePage. cbn. auto.
Qed.

Lemma ebBookmarksCheckForBookmarks_completes_witness :
  let w := tabOf mixedStorage "1700000000300" in
  let w' := after ebBookmarksCheckForBookmarks w in
  result ebBookmarksCheckForBookmarks w = Normal tt /\
  reconcilable "1700000000300" w' /\
  sessionStorage w' = sessionStorage w /\
  (forall e, In e (localStorage w') -> In e (localStorage w)) /\
  samePage w w'.
Proof.
  intros w w'.
  apply (@ebBookmarksCheckForBookmarks_completes "1700000000300" w).
  split; [split; reflexivity|]. split; [reflexivity|]. split; [reflexivity|].
  split; [discriminate|]. split; [discriminate|].
  intros k b Hin _ _ _.
  repeat (destruct Hin as [Hin|Hin];
          [first [discriminate Hin | injection Hin as <- <-; discriminate]|]);
    destruct Hin.
Defined.

Lemma pruneTitle_nothing session title ls :
  nothingToPrune session title ls = true -> pruneTitle session title ls = ls.
Proof.
  intros H. unfold pruneTitle. apply filter_all.
  unfold nothingToPrune in H. rewrite forallb_forall in H. exact H.
Qed.

Lemma prunedStorage_nothing session ls :
  (forall title, nothingToPrune session title ls = true) ->
  prunedStorage session ls = ls.
Proof.
  intros H. unfold prunedStorage.
  assert (Hfold : forall keys, fold_left (pruneFor session) keys ls = ls).
  { induction keys as [|k keys IH]; [reflexivity|]. cbn [fold_left].
    assert (Hk : pruneFor session ls k = ls).
    { unfold pruneFor. destruct (startsWith k "bookmark-"); [|reflexivity].
      destruct (lookup k ls) as [[b|s]|]; try reflexivity.
      now apply pruneTitle_nothing. }
    now rewrite Hk. }
  apply Hfold.
Qed.

(** X18: from such a state, with plain session dates in the last
    locations, after [ebBookmarksCheckForBookmarks] the panel shows the
    records that the storage holds under ['bookmark-'] keys once the
    first loop has pruned the titles, but for the last locations of the
    current session: those that are not last locations in the list of
    bookmarks, the last locations in the other list, in the order of
    their keys, each list ending with the item of the delete-all
    button.  Each record shown was stored when the call began (the
    listing prunes again and may remove a record it shows), and on a
    storage that the pruning leaves as it is the records shown are
    those stored.  An element carries [data-bookmarked] exactly when a
    record shown is on the page and has its id. *)
Theorem ebBookmarksCheckForBookmarks_shows session w :
  reconcilable session w ->
  plainDates (localStorage w) = true ->
  let w' := after ebBookmarksCheckForBookmarks w in
  let bookmarks := visibleBookmarks session (prunedStorage session (localStorage w)) in
  bookmarksList (document w')
  = Some (map BookmarkItem (filter listedAsBookmark bookmarks) ++ [DeleteAllItem]) /\
  lastLocationsList (document w')
  = Some (map BookmarkItem
            (filter (fun b => (b_type b =? "lastLocation")%string) bookmarks)
          ++ [DeleteAllItem]) /\
  (forall b, In b bookmarks ->
     exists k, In (k, Json b) (localStorage w) /\ startsWith k "bookmark-" = true /\
               isVisible session b = true) /\
  ((forall title, nothingToPrune session title (localStorage w) = true) ->
   bookmarks = visibleBookmarks session (localStorage w)) /\
  forall n e,
    nth_error (elements (document w)) n = Some e ->
    exists e',
      nth_error (elements (document w')) n = Some e' /\
      el_bookmarked e'
      = if existsb (targets (document w) n) bookmarks then Some "true"%string else None.
Proof.
  intros Hr _ w' bookmarks.
  destruct (ebBookmarksCheckForBookmarks_eq Hr) as (els' & Hrun & Hnth).
  destruct Hr as (Hs & Hu & Hp & Hl1 & Hl2 & Ha).
  apply distinct_NoDup in Hu.
  destruct (fold_pruneFor_well session (map fst (localStorage w)) (localStorage w) Hu Hp)
    as (Hu1 & Hp1 & f & Hf).
  fold (prunedStorage session (localStorage w)) in Hf.
  fold bookmarks in Hrun, Hnth.
  unfold w', after. rewrite Hrun. cbn [snd repaired document bookmarksList
    lastLocationsList elements withPage setDocument withElements].
  split; [reflexivity|]. split.
  { unfold panelList. do 3 f_equal. apply filter_ext_in. intros b Hb.
    apply visibleBookmarks_In in Hb as (k & _ & _ & Hv).
    unfold listedAsLastLocation. unfold isVisible in Hv.
    destruct (b_type b =? "lastLocation")%string; [|reflexivity].
    cbn [negb orb andb] in *. exact Hv. }
  split.
  { intros b Hb. apply visibleBookmarks_In in Hb as (k & Hin & Hk & Hv).
    rewrite Hf in Hin. apply filter_In in Hin as [Hin _]. exists k. auto. }
  split.
  { intros Hnothing. unfold bookmarks. now rewrite prunedStorage_nothing. }
  intros n e He. rewrite Hnth, He. cbn [option_map].
  eexists. split; [reflexivity|]. unfold markedElement.
  rewrite el_bookmarked_marked, existsb_filter_nil.
  now destruct (filter (targets (document w) n) bookmarks).
Qed.

Lemma ebBookmarksCheckForBookmarks_shows_witness :
  let session := "1700000000300"%string in
  let w := tabOf mixedStorage session in
  let w' := after ebBookmarksCheckForBookmarks w in
  let bookmarks := visibleBookmarks session (prunedStorage session (localStorage w)) in
  bookmarksList (document w')
  = Some (map BookmarkItem (filter listedAsBookmark bookmarks) ++ [DeleteAllItem]) /\
  lastLocationsList (document w')
  = Some (map BookmarkItem
            (filter (fun b => (b_type b =? "lastLocation")%string) bookmarks)
          ++ [DeleteAllItem]) /\
  (forall b, In b bookmarks ->
     exists k, In (k, Json b) (localStorage w) /\ startsWith k "bookmark-" = true /\
               isVisible session b = true) /\
  ((forall title, nothingToPrune session title (localStorage w) = true) ->
   bookmarks = visibleBookmarks session (localStorage w)) /\
  forall n e,
    nth_error (elements (document w)) n = Some e ->
    exists e',
      nth_error (elements (document w')) n = Some e' /\
      el_bookmarked e'
      = if existsb (targets (document w) n) bookmarks then Some "true"%string else None.
Proof.
  intros session w w' bookmarks.
  apply (@ebBookmarksCheckForBookmarks_shows session w); [|reflexivity].
  split; [split; reflexivity|]. split; [reflexivity|]. split; [reflexivity|].
  split; [discriminate|]. split; [discriminate|].
  intros k b Hin _ _ _.
  repeat (destruct Hin as [Hin|Hin];
          [first [discriminate Hin | injection Hin as <- <-; discriminate]|]);
    destruct Hin.
Defined.

(** ** A text that is not a record under a bookmark key *)

Lemma filter_filter {A} (f g : A -> bool) l :
  filter g (filter f l) = filter (fun x => f x && g x) l.
Proof.
  induction l as [|x l IH]; [reflexivity|]. cbn [filter].
  destruct (f x); cbn [filter andb]; [|exact IH].
  destruct (g x); [now rewrite IH | exact IH].
Qed.

Lemma filter_true {A} (l : list A) : filter (fun _ => true) l = l.
Proof. now apply filter_all. Qed.

Lemma clean_outcome session title w :
  sessionIs session w ->
  NoDup (map fst (localStorage w)) ->
  exists f r,
    ebBookmarksCleanLastLocations title w = (r, setLocal (filter f (localStorage w)) w) /\
    (r = Normal tt \/ r = Throw SyntaxError) /\
    (forall k s, f (k, Raw s) = true).
Proof.
  intros Hs Hu. destruct (rawLastLocation (localStorage w)) eqn:Hraw.
  - exists (fun _ => true), (Throw SyntaxError).
    rewrite (ebBookmarksCleanLastLocations_raw title w Hu Hraw), filter_true, setLocal_same.
    auto.
  - eexists. exists (Normal tt).
    rewrite (ebBookmarksCleanLastLocations_eq title Hs Hu Hraw).
    split; [reflexivity|]. split; [now left|].
    intros k s. unfold keepEntry. cbn [fst snd]. now rewrite andb_false_r.
Qed.

Lemma cleanTitleOf_outcome session key w :
  sessionIs session w ->
  NoDup (map fst (localStorage w)) ->
  exists f r,
    cleanTitleOf key w = (r, setLocal (filter f (localStorage w)) w) /\
    (r = Normal tt \/ r = Throw SyntaxError) /\
    (forall k s, f (k, Raw s) = true) /\
    (forall s, startsWith key "bookmark-" = true ->
               In (key, Raw s) (localStorage w) -> r = Throw SyntaxError).
Proof.
  intros Hs Hu. unfold cleanTitleOf.
  destruct (startsWith key "bookmark-") eqn:Hk.
  - unfold bind at 1, getItem at 1.
    destruct (lookup key (localStorage w)) as [[b|s]|] eqn:Hl.
    + destruct (clean_outcome (b_bookTitle b) Hs Hu) as (f & r & Hrun & Hr & Hraw).
      exists f, r. unfold bind, JSON_parse, ret. rewrite Hrun.
      split; [reflexivity|]. split; [exact Hr|]. split; [exact Hraw|].
      intros s _ Hin. apply (lookup_NoDup _ _ _ Hu) in Hin. congruence.
    + exists (fun _ => true), (Throw SyntaxError).
      unfold bind, JSON_parse, throw. rewrite filter_true, setLocal_same. auto.
    + exists (fun _ => true), (Normal tt).
      unfold bind, JSON_parse, ret. rewrite filter_true, setLocal_same.
      split; [reflexivity|]. split; [now left|]. split; [reflexivity|].
      intros s _ Hin. apply (lookup_NoDup _ _ _ Hu) in Hin. congruence.
  - exists (fun _ => true), (Normal tt). unfold ret. rewrite filter_true, setLocal_same.
    split; [reflexivity|]. split; [now left|]. split; [reflexivity|]. discriminate.
Qed.

Lemma clean_loop_outcome session keys w :
  sessionIs session w ->
  NoDup (map fst (localStorage w)) ->
  exists f r,
    forEach cleanTitleOf keys w = (r, setLocal (filter f (localStorage w)) w) /\
    (r = Normal tt \/ r = Throw SyntaxError) /\
    (forall k s, f (k, Raw s) = true) /\
    (forall k s, In k keys -> startsWith k "bookmark-" = true ->
                 In (k, Raw s) (localStorage w) -> r = Throw SyntaxError).
Proof.
  revert w. induction keys as [|key keys IH]; intros w Hs Hu.
  - exists (fun _ => true), (Normal tt). cbn [forEach]. unfold ret.
    rewrite filter_true, setLocal_same.
    split; [reflexivity|]. split; [now left|]. split; [reflexivity|]. intros k s [].
  - destruct (cleanTitleOf_outcome key Hs Hu) as (f1 & r1 & Hrun1 & Hr1 & Hraw1 & Hthis).
    cbn [forEach]. destruct Hr1 as [-> | ->].
    + rewrite (bind_normal Hrun1).
      set (w1 := setLocal (filter f1 (localStorage w)) w).
      assert (Hu1 : NoDup (map fst (localStorage w1))) by (now apply NoDup_keys_filter).
      destruct (IH w1 Hs Hu1) as (f2 & r2 & Hrun2 & Hr2 & Hraw2 & Hrest).
      exists (fun e => f1 e && f2 e), r2. rewrite Hrun2.
      unfold w1. cbn [localStorage setLocal]. rewrite setLocal_setLocal, filter_filter.
      split; [reflexivity|]. split; [exact Hr2|].
      split; [intros k s; now rewrite Hraw1, Hraw2|].
      intros k s [<-|Hin] Hk Hstored.
      * specialize (Hthis s Hk Hstored). destruct Hr2; congruence.
      * apply (Hrest k s Hin Hk). cbn [localStorage setLocal].
        apply filter_In. split; [exact Hstored | apply Hraw1].
    + rewrite (bind_throw Hrun1). exists f1, (Throw SyntaxError).
      split; [reflexivity|]. split; [now right|]. split; [exact Hraw1|]. reflexivity.
Qed.

(** X19: in a tab that has its session identifier and on a storage
    with distinct keys, in which the texts under ['bookmark-'] keys
    that are not records are not JSON at all, a key that starts with
    ['bookmark-'] and holds such a text makes
    [ebBookmarksCheckForBookmarks] throw a [SyntaxError] in its first
    loop: nothing is marked and nothing is listed, the document and
    [sessionStorage] stay as they were, and the text stays stored. *)
Theorem ebBookmarksCheckForBookmarks_unparsable session w key text :
  sessionIs session w ->
  uniqueKeys (localStorage w) = true ->
  rawNotJSON (localStorage w) = true ->
  In (key, Raw text) (localStorage w) ->
  startsWith key "bookmark-" = true ->
  let w' := after ebBookmarksCheckForBookmarks w in
  result ebBookmarksCheckForBookmarks w = Throw SyntaxError /\
  document w' = document w /\
  sessionStorage w' = sessionStorage w /\
  In (key, Raw text) (localStorage w').
Proof.
  intros Hs Hu _ Hin Hk w'. apply distinct_NoDup in Hu.
  destruct (clean_loop_outcome (map fst (localStorage w)) Hs Hu)
    as (f & r & Hrun & _ & Hraw & Hthrows).
  assert (Hr : r = Throw SyntaxError).
  { apply (Hthrows key text); [|exact Hk | exact Hin].
    apply in_map_iff. now exists (key, Raw text). }
  subst r.
  assert (Hclean : cleanStoredTitles w
                   = (Throw SyntaxError, setLocal (filter f (localStorage w)) w)).
  { unfold cleanStoredTitles, objectKeys. unfold bind. exact Hrun. }
  unfold w', result, after, ebBookmarksCheckForBookmarks.
  rewrite (bind_throw Hclean). cbn [fst snd].
  split; [reflexivity|]. split; [reflexivity|]. split; [reflexivity|].
  cbn [localStorage setLocal]. apply filter_In. split; [exact Hin | apply Hraw].
Qed.

Lemma ebBookmarksCheckForBookmarks_unparsable_witness :
  let ls := [ userBookmarkEntry "book" "Book" "1700000000100";
              ("bookmark-settings", Raw "compact") ] in
  let w := tabOf ls "1700000000300" in
  let w' := after ebBookmarksCheckForBookmarks w in
  result ebBookmarksCheckForBookmarks w = Throw SyntaxError /\
  document w' = document w /\
  sessionStorage w' = sessionStorage w /\
  In ("bookmark-settings"%string, Raw "compact") (localStorage w').
Proof.
  intros ls w w'.
  apply (@ebBookmarksCheckForBookmarks_unparsable "1700000000300" w
           "bookmark-settings" "compact").
  - split; reflexivity.
  - reflexivity.
  - reflexivity.
  - right. now left.
  - reflexivity.
Defined.

(** ** Deleting, and the panel *)

Lemma reconcilable_filter session f w :
  reconcilable session w ->
  reconcilable session (setLocal (filter f (localStorage w)) w).
Proof.
  intros (Hs & Hu & Hp & Hl1 & Hl2 & Ha).
  split; [exact Hs|]. cbn [localStorage setLocal document].
  split; [apply NoDup_distinct, NoDup_keys_filter; now apply distinct_NoDup|].
  split; [now apply parseable_filter|]. split; [exact Hl1|]. split; [exact Hl2|].
  intros k b Hin. apply filter_In in Hin as [Hin _]. now apply Ha.
Qed.

Lemma shownIn_panelList bookmarks : shownIn (Some (panelList bookmarks)) = bookmarks.
Proof.
  unfold shownIn, panelList. rewrite flat_map_app. cbn [flat_map app].
  rewrite app_nil_r. induction bookmarks as [|b l IH]; [reflexivity|].
  cbn [map flat_map app]. now rewrite IH.
Qed.

Lemma reconciled_shown session w b :
  reconcilable session w ->
  let w' := after ebBookmarksCheckForBookmarks w in
  In b (shownIn (bookmarksList (document w'))) \/
  In b (shownIn (lastLocationsList (document w'))) ->
  exists k, In (k, Json b) (localStorage w) /\ startsWith k "bookmark-" = true /\
            isVisible session b = true.
Proof.
  intros Hr w' Hshown.
  destruct (ebBookmarksCheckForBookmarks_eq Hr) as (els' & Hrun & _).
  destruct Hr as (Hs & Hu & Hp & _). apply distinct_NoDup in Hu.
  destruct (fold_pruneFor_well session (map fst (localStorage w)) (localStorage w) Hu Hp)
    as (_ & _ & f & Hf).
  fold (prunedStorage session (localStorage w)) in Hf.
  unfold w', after in Hshown. rewrite Hrun in Hshown.
  cbn [snd document repaired bookmarksList lastLocationsList] in Hshown.
  rewrite !shownIn_panelList in Hshown.
  assert (Hb : In b (visibleBookmarks session (prunedStorage session (localStorage w)))).
  { destruct Hshown as [H|H]; now apply filter_In in H. }
  apply visibleBookmarks_In in Hb as (k & Hin & Hk & Hv).
  rewrite Hf in Hin. apply filter_In in Hin as [Hin _]. exists k. auto.
Qed.

(** X20: from a state from which the reconciliation completes, and on a
    storage in which every record is stored under the key it carries,
    [ebBookmarksDeleteBookmark] completes and leaves a state of that
    kind; the key of the record is no longer stored, and the record is
    shown in neither list of the panel. *)
Theorem ebBookmarksDeleteBookmark_unlists session bookmark w :
  reconcilable session w ->
  (forall k b, In (k, Json b) (localStorage w) -> b_key b = k) ->
  let w' := after (ebBookmarksDeleteBookmark bookmark) w in
  result (ebBookmarksDeleteBookmark bookmark) w = Normal tt /\
  reconcilable session w' /\
  lookup (b_key bookmark) (localStorage w') = None /\
  ~ In bookmark (shownIn (bookmarksList (document w'))) /\
  ~ In bookmark (shownIn (lastLocationsList (document w'))).
Proof.
  intros Hr Hkeys w'.
  set (w0 := setLocal (remove (b_key bookmark) (localStorage w)) w).
  assert (Hr0 : reconcilable session w0) by (apply reconcilable_filter; exact Hr).
  assert (Hrun : ebBookmarksDeleteBookmark bookmark w = ebBookmarksCheckForBookmarks w0)
    by reflexivity.
  assert (Hgone : forall v, ~ In (b_key bookmark, v) (localStorage w0)).
  { intros v Hin. unfold w0, remove in Hin. cbn [localStorage setLocal] in Hin.
    apply filter_In in Hin as [_ Hne]. cbn [fst] in Hne.
    now rewrite String.eqb_refl in Hne. }
  destruct (ebBookmarksCheckForBookmarks_eq Hr0) as (els' & Heq & _).
  unfold w', result, after. rewrite Hrun.
  split; [now rewrite Heq|]. split; [now apply reconcilable_after|].
  split.
  - destruct (lookup (b_key bookmark) (localStorage (snd (ebBookmarksCheckForBookmarks w0))))
      as [v|] eqn:Hl; [|reflexivity].
    apply lookup_In in Hl. apply (reconciled_subset Hr0) in Hl as [_ Hl].
    now apply Hgone in Hl.
  - assert (Hnot : ~ (In bookmark (shownIn (bookmarksList
                        (document (after ebBookmarksCheckForBookmarks w0)))) \/
                      In bookmark (shownIn (lastLocationsList
                        (document (after ebBookmarksCheckForBookmarks w0)))))).
    { intros Hshown. apply (@reconciled_shown session w0 bookmark Hr0) in Hshown as (k & Hin & _).
      assert (Hk : b_key bookmark = k).
      { apply Hkeys. unfold w0, remove in Hin. cbn [localStorage setLocal] in Hin.
        now apply filter_In in Hin. }
      subst k. now apply Hgone in Hin. }
    unfold after in Hnot. split; intros H; apply Hnot; auto.
Qed.

Lemma ebBookmarksDeleteBookmark_unlists_witness :
  let session := "1700000000300"%string in
  let w := tabOf mixedStorage session in
  let bookmark := sampleRecord "userBookmark" "Book" "1700000000100"
                               "bookmark-book-userBookmark" in
  let w' := after (ebBookmarksDeleteBookmark bookmark) w in
  result (ebBookmarksDeleteBookmark bookmark) w = Normal tt /\
  reconcilable session w' /\
  lookup (b_key bookmark) (localStorage w') = None /\
  ~ In bookmark (shownIn (bookmarksList (document w'))) /\
  ~ In bookmark (shownIn (lastLocationsList (document w'))).
Proof.
  intros session w bookmark w'.
  apply (@ebBookmarksDeleteBookmark_unlists session bookmark w).
  - split; [split; reflexivity|]. split; [reflexivity|]. split; [reflexivity|].
    split; [discriminate|]. split; [discriminate|].
    intros k b Hin _ _ _.
    repeat (destruct Hin as [Hin|Hin];
            [first [discriminate Hin | injection Hin as <- <-; discriminate]|]);
      destruct Hin.
  - intros k b Hin.
    repeat (destruct Hin as [Hin|Hin];
            [first [discriminate Hin | injection Hin as <- <-; reflexivity]|]);
      destruct Hin.
Defined.

(** ** Deleting all bookmarks of a type *)

Lemma ebBookmarksDeleteAllBookmarks_unfold type :
  ebBookmarksDeleteAllBookmarks true type
  = (keys <- objectKeys ;;
     forEach (deleteOfType type) keys ;;
     ebBookmarksCheckForBookmarks)%js.
Proof. reflexivity. Qed.

Lemma deleteOfType_eq type k v w :
  lookup k (localStorage w) = Some v ->
  (startsWith k "bookmark-" = true -> exists b, v = Json b) ->
  deleteOfType type k w
  = (Normal tt,
     if survives type (k, v) then w else setLocal (remove k (localStorage w)) w).
Proof.
  intros Hlook Hjson. unfold deleteOfType, survives. cbn [fst snd].
  destruct (startsWith k "bookmark-"); [|reflexivity].
  destruct Hjson as [b ->]; [reflexivity|].
  unfold bind, getItem. rewrite Hlook. cbn. unfold deletedFor.
  destruct type as [t|]; [|reflexivity].
  destruct (truthy t); [|reflexivity].
  destruct (t =? b_type b)%string; reflexivity.
Qed.

Lemma delete_loop type w pre mid rest :
  NoDup (map fst (pre ++ mid ++ rest)) ->
  parseable mid = true ->
  forEach (deleteOfType type) (map fst mid) (setLocal (pre ++ mid ++ rest) w)
  = (Normal tt, setLocal (pre ++ filter (survives type) mid ++ rest) w).
Proof.
  revert pre. induction mid as [|[k v] mid IH]; intros pre Hnd Hp.
  - reflexivity.
  - cbn [parseable forallb fst snd] in Hp. apply andb_true_iff in Hp as [Hkv Hp].
    cbn [map fst forEach].
    assert (Hlook : lookup k (localStorage (setLocal (pre ++ ((k, v) :: mid) ++ rest) w))
                    = Some v).
    { cbn [localStorage setLocal]. rewrite <- app_comm_cons. now apply lookup_middle. }
    assert (Hjson : startsWith k "bookmark-" = true -> exists b, v = Json b).
    { intros Hk. rewrite Hk in Hkv. destruct v as [b|s]; [now exists b | discriminate]. }
    rewrite (bind_normal (deleteOfType_eq type k _ Hlook Hjson)).
    cbn [filter].
    assert (Hshift : pre ++ ((k, v) :: mid) ++ rest = (pre ++ [(k, v)]) ++ mid ++ rest).
    { now rewrite <- app_assoc. }
    destruct (survives type (k, v)).
    + rewrite Hshift. rewrite IH; [| now rewrite <- Hshift | exact Hp].
      now rewrite <- app_assoc.
    + cbn [localStorage setLocal].
      assert (Hrm : remove k (pre ++ ((k, v) :: mid) ++ rest) = pre ++ mid ++ rest).
      { rewrite <- app_comm_cons in *. rewrite map_app in Hnd. cbn [map fst] in Hnd.
        pose proof (NoDup_remove_2 _ _ _ Hnd) as Hnotin.
        rewrite remove_app. unfold remove at 2. cbn [filter fst].
        rewrite String.eqb_refl. cbn [negb].
        fold (remove k (mid ++ rest)).
        rewrite !remove_notin; [reflexivity| |].
        - intros Hin. apply Hnotin. apply in_or_app. right.
          now rewrite map_app in Hin |- *.
        - intros Hin. apply Hnotin. apply in_or_app. now left. }
      rewrite Hrm, setLocal_setLocal. apply IH; [|exact Hp].
      rewrite <- app_comm_cons in Hnd. rewrite map_app in Hnd |- *.
      cbn [map fst] in Hnd. now apply NoDup_remove_1 in Hnd.
Qed.

Lemma lookup_filter_key {V} (f : string * V -> bool) k (l : list (string * V)) :
  (forall v, f (k, v) = true) -> lookup k (filter f l) = lookup k l.
Proof.
  intros Hk. induction l as [|[k' v] l IH]; [reflexivity|]. cbn [filter lookup].
  destruct (String.eqb_spec k k') as [<-|Hne].
  - rewrite Hk. cbn [lookup]. now rewrite String.eqb_refl.
  - destruct (f (k', v)); [|exact IH]. cbn [lookup].
    destruct (String.eqb_spec k k'); [contradiction | exact IH].
Qed.

Lemma deleted_run type w :
  NoDup (map fst (localStorage w)) ->
  parseable (localStorage w) = true ->
  ebBookmarksDeleteAllBookmarks true type w
  = ebBookmarksCheckForBookmarks (setLocal (filter (survives type) (localStorage w)) w).
Proof.
  intros Hu Hp. rewrite ebBookmarksDeleteAllBookmarks_unfold.
  unfold objectKeys at 1. unfold bind at 1.
  pose proof (delete_loop type w [] (localStorage w) []) as Hloop.
  rewrite !app_nil_r in Hloop. cbn [app] in Hloop. rewrite setLocal_same in Hloop.
  now rewrite (bind_normal (Hloop Hu Hp)).
Qed.

(** X21: when the reader declines, [ebBookmarksDeleteAllBookmarks]
    does nothing.  When the reader confirms, from a state from which
    the reconciliation completes, it completes and leaves a state of
    that kind in which no key that starts with ['bookmark-'] holds a
    record of the type given, or any record when no type is given;
    the records of that type of every book are gone, and none is shown
    in the panel; what is stored under other keys is as it was. *)
Theorem ebBookmarksDeleteAllBookmarks_of_type session type w :
  reconcilable session w ->
  let w' := after (ebBookmarksDeleteAllBookmarks true type) w in
  ebBookmarksDeleteAllBookmarks false type w = (Normal tt, w) /\
  result (ebBookmarksDeleteAllBookmarks true type) w = Normal tt /\
  reconcilable session w' /\
  (forall k b, In (k, Json b) (localStorage w') -> startsWith k "bookmark-" = true ->
               deletedFor type b = false) /\
  (forall b, In b (shownIn (bookmarksList (document w'))) \/
             In b (shownIn (lastLocationsList (document w'))) ->
             deletedFor type b = false) /\
  (forall k, startsWith k "bookmark-" = false ->
             lookup k (localStorage w') = lookup k (localStorage w)).
Proof.
  intros Hr w'. split; [reflexivity|].
  set (w0 := setLocal (filter (survives type) (localStorage w)) w).
  assert (Hr0 : reconcilable session w0) by (apply reconcilable_filter; exact Hr).
  destruct Hr as (Hs & Hu & Hp & _). apply distinct_NoDup in Hu.
  pose proof (deleted_run type w Hu Hp) as Hrun. fold w0 in Hrun.
  assert (Hleft : forall k b, In (k, Json b) (localStorage w0) ->
                              startsWith k "bookmark-" = true ->
                              deletedFor type b = false).
  { intros k b Hin Hk. unfold w0 in Hin. cbn [localStorage setLocal] in Hin.
    apply filter_In in Hin as [_ Hsurv]. unfold survives in Hsurv.
    cbn [fst snd] in Hsurv. rewrite Hk in Hsurv.
    now destruct (deletedFor type b). }
  destruct (ebBookmarksCheckForBookmarks_eq Hr0) as (els' & Heq & _).
  unfold w', result, after. rewrite Hrun.
  split; [now rewrite Heq|]. split; [now apply reconcilable_after|].
  split; [|split].
  - intros k b Hin Hk. apply (reconciled_subset Hr0) in Hin as [_ Hin].
    now apply (Hleft k b).
  - intros b Hshown. apply (@reconciled_shown session w0 b Hr0) in Hshown
      as (k & Hin & Hk & _).
    now apply (Hleft k b).
  - intros k Hk.
    destruct (ebBookmarksCheckForBookmarks_prunedW w0 k) as [Hsame | [Hll _]].
    + unfold after in Hsame. rewrite Hsame. unfold w0. cbn [localStorage setLocal].
      apply lookup_filter_key. intros v. unfold survives. cbn [fst]. now rewrite Hk.
    + unfold isLastLocationKey in Hll. rewrite Hk in Hll. discriminate.
Qed.

Lemma ebBookmarksDeleteAllBookmarks_of_type_witness :
  let session := "1700000000300"%string in
  let type := Some "lastLocation"%string in
  let w := tabOf mixedStorage session in
  let w' := after (ebBookmarksDeleteAllBookmarks true type) w in
  ebBookmarksDeleteAllBookmarks false type w = (Normal tt, w) /\
  result (ebBookmarksDeleteAllBookmarks true type) w = Normal tt /\
  reconcilable session w' /\
  (forall k b, In (k, Json b) (localStorage w') -> startsWith k "bookmark-" = true ->
               deletedFor type b = false) /\
  (forall b, In b (shownIn (bookmarksList (document w'))) \/
             In b (shownIn (lastLocationsList (document w'))) ->
             deletedFor type b = false) /\
  (forall k, startsWith k "bookmark-" = false ->
             lookup k (localStorage w') = lookup k (localStorage w)).
Proof.
  intros session type w w'.
  apply (@ebBookmarksDeleteAllBookmarks_of_type session type w).
  split; [split; reflexivity|]. split; [reflexivity|]. split; [reflexivity|].
  split; [discriminate|]. split; [discriminate|].
  intros k b Hin _ _ _.
  repeat (destruct Hin as [Hin|Hin];
          [first [discriminate Hin | injection Hin as <- <-; discriminate]|]);
    destruct Hin.
Defined.

Lemma forEach_app {A} (f : A -> M unit) xs ys w :
  forEach f (xs ++ ys) w = (forEach f xs ;; forEach f ys)%js w.
Proof.
  revert w. induction xs as [|x xs IH]; intros w; cbn [app forEach].
  - reflexivity.
  - unfold bind. destruct (f x w) as [[[]|e] w1]; [|reflexivity].
    rewrite IH. reflexivity.
Qed.

(** X22: when the reader confirms and, on a storage with distinct keys,
    a key that starts with ['bookmark-'] holds a text that is not JSON
    while the ['bookmark-'] keys listed before it hold records,
    [ebBookmarksDeleteAllBookmarks] throws a [SyntaxError] at that key:
    the records to delete that are listed before it are deleted, the
    entries listed after it are all still stored, and the
    reconciliation does not run, so the document is as it was. *)
Theorem ebBookmarksDeleteAllBookmarks_stops type w before key text behind :
  localStorage w = before ++ (key, Raw text) :: behind ->
  uniqueKeys (localStorage w) = true ->
  parseable before = true ->
  startsWith key "bookmark-" = true ->
  notJSON text = true ->
  ebBookmarksDeleteAllBookmarks true type w
  = (Throw SyntaxError,
     setLocal (filter (survives type) before ++ (key, Raw text) :: behind) w).
Proof.
  intros Hls Hu Hp Hk _. apply distinct_NoDup in Hu.
  rewrite ebBookmarksDeleteAllBookmarks_unfold.
  unfold objectKeys at 1. unfold bind at 1. rewrite Hls in *.
  rewrite map_app. cbn [map fst].
  assert (Hloop : forEach (deleteOfType type) (map fst before) w
                  = (Normal tt,
                     setLocal (filter (survives type) before
                               ++ (key, Raw text) :: behind) w)).
  { pose proof (delete_loop type w [] before ((key, Raw text) :: behind) Hu Hp) as H.
    cbn [app] in H. rewrite <- Hls in H at 1. now rewrite setLocal_same in H. }
  assert (Hthrow : forEach (deleteOfType type) (map fst before ++ key :: map fst behind) w
                   = (Throw SyntaxError,
                      setLocal (filter (survives type) before
                                ++ (key, Raw text) :: behind) w)).
  { rewrite forEach_app. rewrite (bind_normal Hloop). cbn [forEach].
    set (w1 := setLocal _ w).
    assert (Hlook : lookup key (localStorage w1) = Some (Raw text)).
    { unfold w1. cbn [localStorage setLocal]. rewrite lookup_app_notin.
      - cbn [lookup]. now rewrite String.eqb_refl.
      - rewrite map_app in Hu. cbn [map fst] in Hu.
        apply NoDup_remove_2 in Hu. intros Hin. apply Hu. apply in_or_app. left.
        apply in_map_iff in Hin as (e & <- & He).
        apply filter_In in He as [He _]. now apply in_map. }
    unfold deleteOfType. rewrite Hk. unfold bind, getItem. now rewrite Hlook. }
  now rewrite (bind_throw Hthrow).
Qed.

Lemma ebBookmarksDeleteAllBookmarks_stops_witness :
  let before := [ userBookmarkEntry "book" "Book" "1700000000100";
                  lastLocationEntry "book" "Book" "1700000000100" ] in
  let behind := [ lastLocationEntry "other" "Other" "1700000000100" ] in
  let w := tabOf (before ++ ("bookmark-notes", Raw "margin") :: behind) "1700000000300" in
  ebBookmarksDeleteAllBookmarks true (Some "lastLocation"%string) w
  = (Throw SyntaxError,
     setLocal (filter (survives (Some "lastLocation"%string)) before
               ++ ("bookmark-notes", Raw "margin") :: behind) w).
Proof.
  intros before behind w.
  apply (@ebBookmarksDeleteAllBookmarks_stops (Some "lastLocation"%string) w before
           "bookmark-notes" "margin" behind); reflexivity.
Defined.

(** ** Capturing from a state that reconciles *)

Lemma elementById_has d n e :
  nth_error (elements d) n = Some e -> truthy (el_id e) = true ->
  elementById d (el_id e) <> None.
Proof.
  intros He Hid. unfold elementById, findById. rewrite Hid.
  destruct (findIndex (fun e0 => (el_id e0 =? el_id e)%string) (elements d)) as [m|] eqn:Hf.
  - apply findIndex_Some in Hf as (x & Hx & _). now rewrite Hx.
  - apply nth_error_In in He. pose proof (findIndex_None _ _ Hf e He) as Hp.
    cbn in Hp. now rewrite String.eqb_refl in Hp.
Qed.

Lemma parseable_assign key b ls :
  parseable ls = true -> parseable (assign key (Json b) ls) = true.
Proof.
  unfold parseable. rewrite !forallb_forall. intros Hp [k v] Hin.
  apply In_assign in Hin as [[-> ->]|Hin]; [apply orb_true_r | now apply Hp].
Qed.

Lemma startsWith_append p s : startsWith (p ++ s) p = true.
Proof.
  unfold startsWith. induction p as [|a p IH]; cbn [append String.prefix].
  - now destruct s.
  - destruct (ascii_dec a a); [exact IH | contradiction].
Qed.

Section Listening.

Variable ebSlugify : string -> string.

Lemma bookmarkKey_starts title type session :
  startsWith (bookmarkKey ebSlugify title type session) "bookmark-" = true.
Proof. destruct session; apply startsWith_append. Qed.

Lemma capture_run type n e description session w :
  reconcilable session w ->
  nth_error (elements (document w)) n = Some e -> truthy (el_id e) = true ->
  let record := captured ebSlugify type e description (VStr session) (document w) in
  let w0 := setLocal (assign (b_key record) (Json record) (localStorage w)) w in
  ebBookmarksSetBookmark ebSlugify type (Some n) description w
  = ebBookmarksCheckForBookmarks w0 /\
  reconcilable session w0.
Proof.
  intros (Hs & Hu & Hp & Hl1 & Hl2 & Ha) He Hid record w0.
  destruct (ebBookmarksSetBookmark_eq ebSlugify type n description w He Hid)
    as (v & ws & Hv & _ & _ & Hrun).
  rewrite (ebBookmarksSessionDate_established w (proj1 Hs) (proj2 Hs)) in Hv.
  injection Hv as <- <-. split; [exact Hrun|].
  split; [exact Hs|]. cbn [localStorage setLocal document w0].
  split; [apply NoDup_distinct, NoDup_keys_assign; now apply distinct_NoDup|].
  split; [now apply parseable_assign|]. split; [exact Hl1|]. split; [exact Hl2|].
  intros k b Hin Hk Hv Hpage.
  apply In_assign in Hin as [[-> [= ->]]|Hin]; [|now apply (Ha k b)].
  exact (elementById_has _ _ He Hid).
Qed.

Lemma lookup_pruneTitle session title ls k :
  isLastLocationKey k = false ->
  lookup k (pruneTitle session title ls) = lookup k ls.
Proof.
  intros Hk. apply lookup_filter_key. intros v. unfold keepEntry. cbn [fst].
  now rewrite Hk.
Qed.

Lemma lookup_prunedStorage session ls k :
  isLastLocationKey k = false ->
  lookup k (prunedStorage session ls) = lookup k ls.
Proof.
  intros Hk. unfold prunedStorage. generalize (map fst ls) as keys.
  intros keys. revert ls. induction keys as [|key keys IH]; intros ls; [reflexivity|].
  cbn [fold_left]. rewrite IH. unfold pruneFor.
  destruct (startsWith key "bookmark-"); [|reflexivity].
  destruct (lookup key ls) as [[b|s]|]; try reflexivity.
  now apply lookup_pruneTitle.
Qed.

Lemma reconcilable_withPage session f w :
  (forall els, map el_id (f els) = map el_id els) ->
  (forall els, length (f els) = length els) ->
  reconcilable session w -> reconcilable session (withPage f w).
Proof.
  intros Hids Hlen (Hs & Hu & Hp & Hl1 & Hl2 & Ha).
  split; [exact Hs|]. split; [exact Hu|]. split; [exact Hp|].
  split; [exact Hl1|]. split; [exact Hl2|].
  intros k b Hin Hk Hv Hpage. cbn [localStorage withPage setDocument document] in *.
  specialize (Ha k b Hin Hk Hv Hpage). unfold elementById in *.
  rewrite (@findById_ids (document w) _ (b_id b)) by (cbn; apply Hids).
  destruct (findById (document w) (b_id b)) as [m|]; [|congruence].
  cbn [withElements elements].
  destruct (nth_error (elements (document w)) m) as [x|] eqn:Hx; [|congruence].
  assert (Hm : (m < length (f (elements (document w))))%nat).
  { rewrite Hlen. apply nth_error_Some. congruence. }
  apply nth_error_Some in Hm. exact Hm.
Qed.

(** X23: a click on the bookmark button of an element that has an id,
    in a state from which the reconciliation completes and for a book
    whose user-bookmark key is not a last-location key: the listener of
    [ebBookmarksListenForClicks] completes and leaves a state of that
    kind; the user bookmark of the book is stored under its key, with
    the selected text as description, or, when nothing is selected, the
    one derived from the text of the element, which is taken to be
    ASCII then; it is shown in the list of bookmarks; and the element
    clicked, and no other, carries [data-bookmarked]. *)
Theorem ebBookmarksListenForClicks_bookmarks session n e selection w :
  reconcilable session w ->
  nth_error (elements (document w)) n = Some e -> truthy (el_id e) = true ->
  plainDescription e selection = true ->
  let record := captured ebSlugify "userBookmark" e selection (VStr session) (document w) in
  isLastLocationKey (b_key record) = false ->
  let w' := after (ebBookmarksListenForClicks ebSlugify (Some n) selection) w in
  result (ebBookmarksListenForClicks ebSlugify (Some n) selection) w = Normal tt /\
  reconcilable session w' /\
  lookup (b_key record) (localStorage w') = Some (Json record) /\
  b_description record
  = match selection with
    | Some text => if truthy text then text else fallbackDescription (el_innerText e)
    | None => fallbackDescription (el_innerText e)
    end /\
  In record (shownIn (bookmarksList (document w'))) /\
  forall m e',
    nth_error (elements (document w')) m = Some e' ->
    el_bookmarked e' = if (m =? n)%nat then Some "true"%string else None.
Proof.
  intros Hr He Hid _ record Hkey w'.
  destruct (capture_run "userBookmark" n selection Hr He Hid) as [Hcapture Hr0].
  fold record in Hcapture, Hr0.
  set (w0 := setLocal (assign (b_key record) (Json record) (localStorage w)) w) in *.
  destruct (ebBookmarksCheckForBookmarks_eq Hr0) as (els' & Heq & Hnth).
  pose proof (reconcilable_after Hr0) as Hr1.
  set (w1 := after ebBookmarksCheckForBookmarks w0) in *.
  assert (Hrun1 : ebBookmarksSetBookmark ebSlugify "userBookmark" (Some n) selection w
                  = (Normal tt, w1)).
  { rewrite Hcapture. unfold w1, after. now rewrite Heq. }
  assert (Hstored0 : lookup (b_key record) (localStorage w0) = Some (Json record)).
  { unfold w0. cbn [localStorage setLocal]. now rewrite lookup_assign, String.eqb_refl. }
  assert (Hstored1 : lookup (b_key record) (localStorage w1) = Some (Json record)).
  { destruct (ebBookmarksCheckForBookmarks_prunedW w0 (b_key record)) as [Hsame|[Hll _]];
      [|congruence]. fold w1 in Hsame. now rewrite Hsame. }
  assert (Hshown1 : In record (shownIn (bookmarksList (document w1)))).
  { unfold w1, after. rewrite Heq. cbn [snd document repaired bookmarksList].
    rewrite shownIn_panelList. apply filter_In. split; [|reflexivity].
    apply visibleBookmarks_In. exists (b_key record).
    split; [|split; [apply bookmarkKey_starts | reflexivity]].
    apply lookup_In. now rewrite lookup_prunedStorage. }
  assert (He1 : exists e1, nth_error (elements (document w1)) n = Some e1).
  { unfold w1, after. rewrite Heq.
    cbn [snd document repaired elements withPage setDocument withElements].
    rewrite Hnth. cbn [document w0 setLocal]. rewrite He. now eexists. }
  destruct He1 as [e1 He1].
  pose proof (ebBookmarkMarkBookmarkedElement_eq w1 n He1) as Hmark.
  assert (Hrun : ebBookmarksListenForClicks ebSlugify (Some n) selection w
                 = (Normal tt,
                    withPage (fun els => updateNth n (set_bookmarked (Some "true"%string))
                                           (map unmarked els)) w1)).
  { unfold ebBookmarksListenForClicks. rewrite (bind_normal Hrun1). exact Hmark. }
  unfold w', result, after. rewrite Hrun. cbn [fst snd].
  split; [reflexivity|]. split.
  { apply reconcilable_withPage; [| |exact Hr1].
    - intros els. rewrite map_updateNth by reflexivity. now rewrite map_map.
    - intros els. rewrite <- (length_map el_id), map_updateNth by reflexivity.
      now rewrite !length_map. }
  split; [exact Hstored1|]. split; [reflexivity|]. split; [exact Hshown1|].
  intros m e'. cbn [withPage setDocument document withElements elements].
  rewrite nth_error_updateNth_same, nth_error_map.
  destruct (m =? n)%nat; destruct (nth_error (elements (document w1)) m);
    cbn [option_map]; intros [= <-]; reflexivity.
Qed.

End Listening.

Lemma ebBookmarksListenForClicks_bookmarks_witness :
  let session := "1700000000300"%string in
  let w := headingPage in
  let record := captured sampleSlugify "userBookmark" cityParagraph
                         (Some "insular city"%string) (VStr session) (document w) in
  let w' := after (ebBookmarksListenForClicks sampleSlugify (Some 1%nat)
                     (Some "insular city"%string)) w in
  result (ebBookmarksListenForClicks sampleSlugify (Some 1%nat)
            (Some "insular city"%string)) w = Normal tt /\
  reconcilable session w' /\
  lookup (b_key record) (localStorage w') = Some (Json record) /\
  b_description record = "insular city"%string /\
  In record (shownIn (bookmarksList (document w'))) /\
  forall m e',
    nth_error (elements (document w')) m = Some e' ->
    el_bookmarked e' = if (m =? 1)%nat then Some "true"%string else None.
Proof.
  intros session w record w'.
  apply (@ebBookmarksListenForClicks_bookmarks sampleSlugify session 1%nat cityParagraph
           (Some "insular city"%string) w); try reflexivity.
  split; [split; reflexivity|]. split; [reflexivity|]. split; [reflexivity|].
  split; [discriminate|]. split; [discriminate|].
  intros k b [].
Defined.

(** ** The last location of the session *)

Lemma amongLastTwo_lastTwo {A} (x : A) l : amongLastTwo x l -> In x (lastTwo l).
Proof.
  intros (pre & post & -> & Hlen). unfold lastTwo.
  rewrite skipn_app. apply in_or_app. right.
  rewrite length_app. cbn [length].
  replace (Z.to_nat (Z.max (Z.of_nat (length pre + S (length post)) - 2) 0) - length pre)%nat
    with 0%nat by lia.
  now left.
Qed.

Lemma amongLastTwo_filter {A} (f : A -> bool) (x : A) l :
  f x = true -> amongLastTwo x l -> amongLastTwo x (filter f l).
Proof.
  intros Hx (pre & post & -> & Hlen).
  exists (filter f pre), (filter f post). rewrite filter_app. cbn [filter].
  rewrite Hx. split; [reflexivity|].
  pose proof (filter_length_le f post). lia.
Qed.

Lemma titleEntries_filter_any title f ls :
  titleEntries title (filter f ls)
  = filter (fun e => f (fst e, Json (snd e))) (titleEntries title ls).
Proof.
  unfold titleEntries. induction ls as [|[k v] ls IH]; [reflexivity|].
  cbn [filter flat_map fst snd].
  destruct v as [b|s]; cbn [flat_map fst snd].
  - destruct (f (k, Json b)) eqn:Hf; cbn [flat_map fst snd].
    + destruct (isLastLocationKey k && (title =? b_bookTitle b)%string);
        cbn [app filter fst snd]; [rewrite Hf|]; now rewrite IH.
    + destruct (isLastLocationKey k && (title =? b_bookTitle b)%string);
        cbn [app filter fst snd]; [rewrite Hf|]; now rewrite IH.
  - destruct (f (k, Raw s)); cbn [flat_map fst snd app]; exact IH.
Qed.

Lemma includes_refl s : includes s s = true.
Proof.
  destruct s as [|a s]; [reflexivity|]. cbn [includes].
  assert (H : String.prefix (String a s) (String a s) = true).
  { clear. generalize (String a s) as t. induction t as [|c t IH]; [reflexivity|].
    cbn [String.prefix]. destruct (ascii_dec c c); [exact IH | contradiction]. }
  now rewrite H.
Qed.

Lemma includes_behind p x s : includes x s = true -> includes (p ++ x) s = true.
Proof.
  intros Hx. induction p as [|a p IH]; cbn [append]; [exact Hx|].
  cbn [includes]. rewrite IH. apply orb_true_r.
Qed.

Lemma pruneTitle_keeps_current session title pruned ls key record :
  amongLastTwo (key, record) (titleEntries title ls) ->
  b_sessionDate record = VStr session ->
  includes key session = true ->
  amongLastTwo (key, record) (titleEntries title (pruneTitle session pruned ls)).
Proof.
  intros Hlast Hdate Hkey. unfold pruneTitle. rewrite titleEntries_filter_any.
  apply amongLastTwo_filter; [|exact Hlast]. cbn [fst snd].
  pose proof (amongLastTwo_lastTwo Hlast) as Hin.
  assert (Hentry : In (key, record) (titleEntries title ls)) by now apply lastTwo_incl.
  apply titleEntries_In in Hentry as (_ & Hll & Htitle).
  unfold keepEntry. cbn [fst snd]. rewrite Hll. cbn [andb].
  destruct (String.eqb_spec pruned (b_bookTitle record)) as [Hp|Hp]; [|reflexivity].
  cbn [andb]. subst pruned. rewrite <- Htitle.
  set (kept := retainedOf session (titleLastLocations title ls)).
  assert (Hkept : In record kept).
  { apply retainedOf_current.
    - unfold titleLastLocations. rewrite lastTwo_map.
      apply in_map_iff. now exists (key, record).
    - unfold isPrevious. rewrite Hdate. cbn [strictEq]. now rewrite String.eqb_refl. }
  assert (Hcount : (1 <= countMatches key kept)%nat).
  { unfold countMatches. apply (length_filter_In _ _ record Hkept). now rewrite Hdate. }
  destruct (countMatches key kept); [lia | reflexivity].
Qed.

Lemma prunedStorage_keeps_current session title ls key record :
  amongLastTwo (key, record) (titleEntries title ls) ->
  b_sessionDate record = VStr session ->
  includes key session = true ->
  amongLastTwo (key, record) (titleEntries title (prunedStorage session ls)).
Proof.
  intros Hlast Hdate Hkey. unfold prunedStorage. generalize (map fst ls) as keys.
  intros keys. revert ls Hlast. induction keys as [|k keys IH]; intros ls Hlast;
    [exact Hlast|].
  cbn [fold_left]. apply IH. unfold pruneFor.
  destruct (startsWith k "bookmark-"); [|exact Hlast].
  destruct (lookup k ls) as [[b|s]|]; try exact Hlast.
  now apply pruneTitle_keeps_current.
Qed.

Lemma prunedFor_keeps_current session title bookmarks ls key record :
  amongLastTwo (key, record) (titleEntries title ls) ->
  b_sessionDate record = VStr session ->
  includes key session = true ->
  amongLastTwo (key, record) (titleEntries title (prunedFor session bookmarks ls)).
Proof.
  intros Hlast Hdate Hkey. revert ls Hlast.
  induction bookmarks as [|b rest IH]; intros ls Hlast; [exact Hlast|].
  cbn [prunedFor fold_left]. apply IH. now apply pruneTitle_keeps_current.
Qed.

Lemma amongLastTwo_short {A} (x : A) l :
  In x l -> (length l <= 2)%nat -> amongLastTwo x l.
Proof.
  intros Hin Hlen. apply in_split in Hin as (pre & post & ->).
  exists pre, post. split; [reflexivity|].
  rewrite length_app in Hlen. cbn [length] in Hlen. lia.
Qed.

(** A write adds at most one entry to the last locations of a title
    that are stored under other keys. *)
Lemma length_titleEntries_assign title key v ls :
  NoDup (map fst ls) ->
  (length (titleEntries title (assign key v ls))
   <= 1 + length (titleEntries title (remove key ls)))%nat.
Proof.
  assert (Hone : forall e : string * Stored,
            (length (match snd e with
                     | Json b =>
                         if isLastLocationKey (fst e) && (title =? b_bookTitle b)%string
                         then [(fst e, b)] else []
                     | Raw _ => []
                     end) <= 1)%nat).
  { intros [k [b|t]]; cbn [fst snd length]; [|lia].
    destruct (isLastLocationKey k && (title =? b_bookTitle b)%string); cbn [length]; lia. }
  induction ls as [|[k' v'] ls IH]; intros Hnd.
  - cbn [assign]. unfold titleEntries. cbn [flat_map]. rewrite app_nil_r.
    pose proof (Hone (key, v)). cbn [remove filter length]. lia.
  - inversion Hnd as [|? ? Hnotin Hnd']; subst. cbn [assign].
    destruct (String.eqb_spec key k') as [<-|Hne].
    + unfold remove. cbn [filter fst]. rewrite String.eqb_refl. cbn [negb].
      fold (remove key ls). rewrite (remove_notin _ _ Hnotin).
      unfold titleEntries. cbn [flat_map]. rewrite length_app.
      pose proof (Hone (key, v)). lia.
    + unfold remove. cbn [filter fst].
      apply String.eqb_neq in Hne. rewrite Hne. cbn [negb].
      fold (remove key ls). unfold titleEntries. cbn [flat_map].
      rewrite !length_app. fold (titleEntries title (assign key v ls)).
      fold (titleEntries title (remove key ls)). specialize (IH Hnd'). lia.
Qed.

Lemma includes_prefix p t : includes (p ++ t) p = true.
Proof.
  pose proof (startsWith_append p t) as H. unfold startsWith in H.
  destruct (p ++ t)%string; cbn [includes]; now rewrite H.
Qed.

Section Captures.

Variable ebSlugify : string -> string.

(** The capture of a last location where at most one last location of
    the book is stored under another key. *)
Lemma lastLocation_captured session n e description w :
  reconcilable session w ->
  nth_error (elements (document w)) n = Some e -> truthy (el_id e) = true ->
  let title := bodyTitle (document w) in
  let record := captured ebSlugify "lastLocation" e description (VStr session) (document w) in
  let key := ("bookmark-" ++ ebSlugify title ++ "-lastLocation-" ++ session)%string in
  (length (titleEntries title (remove key (localStorage w))) <= 1)%nat ->
  let w0 := setLocal (assign key (Json record) (localStorage w)) w in
  let w' := after ebBookmarksCheckForBookmarks w0 in
  ebBookmarksSetBookmark ebSlugify "lastLocation" (Some n) description w = (Normal tt, w') /\
  reconcilable session w0 /\
  reconcilable session w' /\
  b_key record = key /\
  lookup key (localStorage w') = Some (Json record).
Proof.
  intros Hr He Hid title record key Hothers w0 w'.
  assert (Hkey : b_key record = key) by reflexivity.
  destruct (@capture_run ebSlugify "lastLocation" n e description session w Hr He Hid)
    as [Hcapture Hr0].
  fold record in Hcapture, Hr0. rewrite Hkey in Hcapture, Hr0. fold w0 in Hcapture, Hr0.
  destruct (ebBookmarksCheckForBookmarks_eq Hr0) as (els' & Heq & _).
  pose proof (reconcilable_after Hr0) as Hr1. fold w' in Hr1.
  assert (Hincl : includes key session = true).
  { unfold key. do 3 apply includes_behind. apply includes_refl. }
  assert (Hll : isLastLocationKey key = true).
  { unfold isLastLocationKey. apply andb_true_iff. split.
    - unfold key. apply startsWith_append.
    - unfold key. do 2 apply includes_behind.
      apply (includes_prefix "-lastLocation-" session). }
  assert (Hnd : NoDup (map fst (localStorage w))).
  { destruct Hr as (_ & Hu & _). now apply distinct_NoDup. }
  assert (Hlast : amongLastTwo (key, record)
                    (titleEntries title (assign key (Json record) (localStorage w)))).
  { apply amongLastTwo_short.
    - apply titleEntries_In. split; [|split; [exact Hll | reflexivity]].
      apply lookup_In. now rewrite lookup_assign, String.eqb_refl.
    - pose proof (@length_titleEntries_assign title key (Json record) (localStorage w) Hnd).
      lia. }
  assert (Hkept : amongLastTwo (key, record) (titleEntries title (localStorage w'))).
  { unfold w', after. rewrite Heq. cbn [snd localStorage repaired].
    apply prunedFor_keeps_current; [|reflexivity | exact Hincl].
    apply prunedStorage_keeps_current; [exact Hlast | reflexivity | exact Hincl]. }
  split; [rewrite Hcapture; unfold w', after; now rewrite Heq|].
  split; [exact Hr0|]. split; [exact Hr1|]. split; [exact Hkey|].
  apply lookup_NoDup.
  - destruct Hr1 as (_ & Hu1 & _). now apply distinct_NoDup.
  - apply amongLastTwo_lastTwo, lastTwo_incl, titleEntries_In in Hkept. apply Hkept.
Qed.


End Captures.


Lemma ebBookmarksElementID_onscreen w pre e suf :
  elements (document w) = pre ++ e :: suf ->
  (forall e', In e' pre -> onscreen e' = false) -> onscreen e = true ->
  truthy (el_id e) = true ->
  ebBookmarksElementID None w = (Normal (el_id e), w).
Proof.
  intros Hels Hpre He Hid. unfold ebBookmarksElementID.
  assert (Hq : queryOnscreen w = (Normal (Some (length pre)), w)).
  { unfold queryOnscreen, bind, getDocument, ret. rewrite Hels.
    change (fun e0 => match el_bookmark e0 with
                      | Some v => (v =? "onscreen")%string
                      | None => false
                      end) with onscreen.
    now rewrite (findIndex_first onscreen pre e suf Hpre He). }
  rewrite (bind_normal Hq).
  assert (Hn : nth_error (elements (document w)) (length pre) = Some e).
  { rewrite Hels. apply nth_error_middle. }
  rewrite (bind_normal (node_found w _ Hn)). now rewrite Hid.
Qed.

Section LastLocation.

Variable ebSlugify : string -> string.

(** X24: at the leaving of a page, in a state from which the
    reconciliation completes: when the first element in document order
    that is marked as on screen has an id, which no element before it
    has, and an ASCII text, and at most one last location of the book
    is stored under another key than that of the book and of the
    session, the listener of [beforeunload] completes and leaves a
    state of that kind, in which the record built for the element is
    stored under the key of the book and of the session; the record is
    of the current session and is shown in neither list of the
    panel. *)
Theorem storeLastLocation_stored session pre e suf w :
  reconcilable session w ->
  elements (document w) = pre ++ e :: suf ->
  (forall e', In e' pre -> onscreen e' = false) -> onscreen e = true ->
  truthy (el_id e) = true ->
  (forall e', In e' pre -> el_id e' <> el_id e) ->
  asciiText (el_innerText e) = true ->
  let title := bodyTitle (document w) in
  let record := captured ebSlugify "lastLocation" e None (VStr session) (document w) in
  let key := ("bookmark-" ++ ebSlugify title ++ "-lastLocation-" ++ session)%string in
  (length (titleEntries title (remove key (localStorage w))) <= 1)%nat ->
  let w' := after (storeLastLocation ebSlugify) w in
  result (storeLastLocation ebSlugify) w = Normal tt /\
  reconcilable session w' /\
  b_key record = key /\
  lookup key (localStorage w') = Some (Json record) /\
  ~ In record (shownIn (bookmarksList (document w'))) /\
  ~ In record (shownIn (lastLocationsList (document w'))).
Proof.
  intros Hr Hels Hpre Hon Hid Hfirst _ title record key Hothers w'.
  assert (Hn : nth_error (elements (document w)) (length pre) = Some e).
  { rewrite Hels. apply nth_error_middle. }
  assert (Hfind : findById (document w) (el_id e) = Some (length pre)).
  { unfold findById. rewrite Hid, Hels. apply findIndex_first.
    - intros e' He'. apply String.eqb_neq. now apply Hfirst.
    - apply String.eqb_refl. }
  destruct (@lastLocation_captured ebSlugify session (length pre) e None w Hr Hn Hid Hothers)
    as (Hcapture & Hr0 & Hr1 & Hkey & Hstored).
  fold title record key in Hcapture, Hr0, Hr1, Hkey, Hstored.
  set (w0 := setLocal (assign key (Json record) (localStorage w)) w) in *.
  assert (Hrun : storeLastLocation ebSlugify w
                 = (Normal tt, after ebBookmarksCheckForBookmarks w0)).
  { unfold storeLastLocation.
    rewrite (bind_normal (ebBookmarksElementID_onscreen w pre e suf Hels Hpre Hon Hid)).
    rewrite (bind_normal (getElementById_eq (el_id e) w)). rewrite Hfind.
    exact Hcapture. }
  unfold w', result, after. rewrite Hrun. cbn [fst snd].
  split; [reflexivity|]. split; [exact Hr1|]. split; [exact Hkey|].
  split; [exact Hstored|].
  assert (Hnot : ~ (In record (shownIn (bookmarksList
                      (document (after ebBookmarksCheckForBookmarks w0)))) \/
                    In record (shownIn (lastLocationsList
                      (document (after ebBookmarksCheckForBookmarks w0)))))).
  { intros Hshown.
    apply (@reconciled_shown session w0 record Hr0) in Hshown as (_ & _ & _ & Hv).
    assert (Hhidden : isVisible session record = false).
    { unfold isVisible, record, captured. cbn [b_type b_sessionDate strictEq].
      now rewrite !String.eqb_refl. }
    congruence. }
  unfold after in Hnot. split; intros H; apply Hnot; auto.
Qed.

End LastLocation.

Lemma storeLastLocation_stored_witness :
  let session := "1700000000300"%string in
  let w := readingPage in
  let record := captured sampleSlugify "lastLocation" secondParagraph None
                         (VStr session) (document w) in
  let key := "bookmark-book-lastLocation-1700000000300"%string in
  let w' := after (storeLastLocation sampleSlugify) w in
  result (storeLastLocation sampleSlugify) w = Normal tt /\
  reconcilable session w' /\
  b_key record = key /\
  lookup key (localStorage w') = Some (Json record) /\
  ~ In record (shownIn (bookmarksList (document w'))) /\
  ~ In record (shownIn (lastLocationsList (document w'))).
Proof.
  intros session w record key w'.
  apply (@storeLastLocation_stored sampleSlugify session [firstParagraph] secondParagraph
           [] w); try reflexivity.
  - split; [split; reflexivity|]. split; [reflexivity|]. split; [reflexivity|].
    split; [discriminate|]. split; [discriminate|].
    intros k b Hin _ _ _.
    repeat (destruct Hin as [Hin|Hin];
            [first [discriminate Hin | injection Hin as <- <-; discriminate]|]);
      destruct Hin.
  - intros e' [<-|[]]. reflexivity.
  - intros e' [<-|[]]. discriminate.
Defined.

(** X25: at the leaving of a page on which no element is marked as on
    screen, or on which the first that is has no id while the address
    has a fragment that is the id of no element, the listener of
    [beforeunload] throws a [TypeError], and stores nothing: the
    fragment that [ebBookmarksElementID] returns for an element without
    an id is not the id of an element. *)
Theorem storeLastLocation_not_stored (ebSlugify : string -> string) w :
  (forall e, In e (elements (document w)) -> onscreen e = false) \/
  (exists pre e suf,
     elements (document w) = pre ++ e :: suf /\
     (forall e', In e' pre -> onscreen e' = false) /\ onscreen e = true /\
     truthy (el_id e) = false /\
     truthy (fragmentOf (href (document w))) = true /\
     elementById (document w) (fragmentOf (href (document w))) = None) ->
  let w' := after (storeLastLocation ebSlugify) w in
  result (storeLastLocation ebSlugify) w = Throw TypeError /\
  localStorage w' = localStorage w /\
  document w' = document w.
Proof.
  intros Hcase w'.
  assert (Hrun : exists w1, storeLastLocation ebSlugify w = (Throw TypeError, w1) /\
                            localStorage w1 = localStorage w /\
                            document w1 = document w).
  { unfold storeLastLocation. destruct Hcase as [Hnone | Hhash].
    - exists w. split; [|auto].
      assert (Hid : ebBookmarksElementID None w = (Throw TypeError, w)).
      { unfold ebBookmarksElementID.
        assert (Hq : queryOnscreen w = (Normal None, w)).
        { unfold queryOnscreen, bind, getDocument, ret.
          change (fun e0 => match el_bookmark e0 with
                            | Some v => (v =? "onscreen")%string
                            | None => false
                            end) with onscreen.
          destruct (findIndex onscreen (elements (document w))) as [n|] eqn:Hf;
            [|reflexivity].
          apply findIndex_Some in Hf as (x & Hx & Hp).
          rewrite (Hnone x) in Hp; [discriminate|]. eapply nth_error_In; eassumption. }
        now rewrite (bind_normal Hq). }
      now rewrite (bind_throw Hid).
    - destruct Hhash as (pre & e & suf & Hels & Hpre & Hon & Hid & Hfrag & Hmissing).
      assert (Hreturned : ebBookmarksElementID None w
                          = (Normal (fragmentOf (href (document w))), w)).
      { unfold ebBookmarksElementID.
        assert (Hq : queryOnscreen w = (Normal (Some (length pre)), w)).
        { unfold queryOnscreen, bind, getDocument, ret. rewrite Hels.
          change (fun e0 => match el_bookmark e0 with
                            | Some v => (v =? "onscreen")%string
                            | None => false
                            end) with onscreen.
          now rewrite (findIndex_first onscreen pre e suf Hpre Hon). }
        rewrite (bind_normal Hq).
        assert (Hn : nth_error (elements (document w)) (length pre) = Some e).
        { rewrite Hels. apply nth_error_middle. }
        rewrite (bind_normal (node_found w _ Hn)). rewrite Hid.
        unfold bind, getDocument. now rewrite Hfrag. }
      rewrite (bind_normal Hreturned).
      rewrite (bind_normal (getElementById_eq _ w)).
      assert (Hfind : findById (document w) (fragmentOf (href (document w))) = None).
      { unfold elementById in Hmissing.
        destruct (findById (document w) (fragmentOf (href (document w)))) as [m|] eqn:Hf;
          [|reflexivity].
        destruct (findById_Some _ _ Hf) as [x Hx]. congruence. }
      rewrite Hfind. apply capture_without_element. }
  destruct Hrun as (w1 & Hrun & Hls & Hd).
  unfold w', result, after. now rewrite Hrun.
Qed.

Lemma storeLastLocation_not_stored_witness :
  let w := twoParagraphs in
  let w' := after (storeLastLocation sampleSlugify) w in
  result (storeLastLocation sampleSlugify) w = Throw TypeError /\
  localStorage w' = localStorage w /\
  document w' = document w.
Proof.
  intros w w'.
  apply (@storeLastLocation_not_stored sampleSlugify twoParagraphs).
  left. intros e [<-|[<-|[]]]; reflexivity.
Defined.

(** ** The report of the observer *)

Lemma observe_step w entry e :
  nth_error (elements (document w)) (target entry) = Some e ->
  (if isIntersecting entry
   then setAttribute (Some (target entry)) (set_bookmark "onscreen")
   else setAttribute (Some (target entry)) (set_bookmark "offscreen")) w
  = (Normal tt, withPage (updateNth (target entry) (set_bookmark (reported entry))) w).
Proof.
  intros He. unfold reported.
  destruct (isIntersecting entry); apply (setAttribute_found w _ _ He).
Qed.

Lemma observe_loop entries w :
  (forall entry, In entry entries ->
                 (target entry < length (elements (document w)))%nat) ->
  exists els',
    bookmarkObserver entries w = (Normal tt, withPage (fun _ => els') w) /\
    forall n, nth_error els' n
              = option_map (fun e => match lastReport n entries with
                                     | Some entry => set_bookmark (reported entry) e
                                     | None => e
                                     end)
                           (nth_error (elements (document w)) n).
Proof.
  unfold bookmarkObserver. revert w.
  induction entries as [|entry rest IH]; intros w Hall.
  - exists (elements (document w)). split.
    + cbn [forEach]. unfold ret. now rewrite withPage_same.
    + intros n. cbn. now destruct (nth_error (elements (document w)) n).
  - destruct (nth_error (elements (document w)) (target entry)) as [e|] eqn:He.
    2:{ apply nth_error_None in He. specialize (Hall entry (or_introl eq_refl)). lia. }
    pose proof (observe_step w entry He) as Hstep.
    set (w1 := withPage (updateNth (target entry) (set_bookmark (reported entry))) w) in *.
    destruct (IH w1) as (els' & Hloop & Hnth).
    { intros en Hin. unfold w1. cbn [withPage setDocument document withElements elements].
      rewrite <- (length_map el_id), map_updateNth by reflexivity.
      rewrite length_map. apply Hall. now right. }
    exists els'. split.
    + cbn [forEach]. rewrite (bind_normal Hstep). rewrite Hloop. reflexivity.
    + intros n. rewrite Hnth. unfold w1 at 1.
      cbn [withPage setDocument document withElements elements].
      rewrite nth_error_updateNth_same. unfold lastReport. cbn [rev].
      rewrite find_app_first. cbn [find]. rewrite (Nat.eqb_sym (target entry) n).
      destruct (find (fun en => (target en =? n)%nat) (rev rest)) as [en|];
        destruct (n =? target entry)%nat;
        destruct (nth_error (elements (document w)) n); reflexivity.
Qed.

(** X26: when the observer reports entries whose targets are elements
    of the page, the callback of [ebBookmarksMarkVisibleElements]
    completes: an element that is reported carries [data-bookmark]
    with ["onscreen"] or ["offscreen"] as its last entry says, an
    element that is not reported is as it was, and nothing but this
    attribute changes. *)
Theorem bookmarkObserver_last_report entries w :
  (forall entry, In entry entries ->
                 (target entry < length (elements (document w)))%nat) ->
  let w' := after (bookmarkObserver entries) w in
  result (bookmarkObserver entries) w = Normal tt /\
  w' = withPage (fun _ => elements (document w')) w /\
  forall n e,
    nth_error (elements (document w)) n = Some e ->
    nth_error (elements (document w')) n
    = Some (match lastReport n entries with
            | Some entry =>
                set_bookmark (if isIntersecting entry then "onscreen" else "offscreen") e
            | None => e
            end).
Proof.
  intros Hall w'.
  destruct (observe_loop entries w Hall) as (els' & Hrun & Hnth).
  unfold w', result, after. rewrite Hrun. cbn [fst snd].
  split; [reflexivity|]. split; [reflexivity|].
  intros n e He. cbn [withPage setDocument document withElements elements].
  rewrite Hnth, He. cbn [option_map]. unfold reported.
  reflexivity.
Qed.

Lemma bookmarkObserver_last_report_witness :
  let entries := [ mkEntry 0 true; mkEntry 1 true; mkEntry 0 false ] in
  let w := twoParagraphs in
  let w' := after (bookmarkObserver entries) w in
  result (bookmarkObserver entries) w = Normal tt /\
  w' = withPage (fun _ => elements (document w')) w /\
  forall n e,
    nth_error (elements (document w)) n = Some e ->
    nth_error (elements (document w')) n
    = Some (match lastReport n entries with
            | Some entry =>
                set_bookmark (if isIntersecting entry then "onscreen" else "offscreen") e
            | None => e
            end).
Proof.
  intros entries w w'.
  apply (@bookmarkObserver_last_report entries w).
  intros entry [<-|[<-|[<-|[]]]]; cbn; lia.
Defined.

(** ** Pruning a storage that lists the sessions in their order *)

Lemma NoDup_last_two {A B} (f : A -> B) pre a b :
  NoDup (map f (pre ++ [a; b])) ->
  f a <> f b /\ forall r, In r pre -> f r <> f a /\ f r <> f b.
Proof.
  rewrite map_app. cbn [map]. intros Hnd.
  pose proof (NoDup_remove_2 _ _ _ Hnd) as Ha.
  apply NoDup_remove_1 in Hnd.
  pose proof (NoDup_remove_2 _ _ _ Hnd) as Hb.
  split.
  - intros Heq. apply Ha. apply in_or_app. right. left. now symmetry.
  - intros r Hr. split; intros Heq.
    + apply Ha. apply in_or_app. left. rewrite <- Heq. now apply in_map.
    + apply Hb. rewrite app_nil_r. rewrite <- Heq. now apply in_map.
Qed.

(** X27: in a tab that has its session identifier, on a storage whose
    last-location keys hold records, and for a title whose last
    locations have distinct session dates and keys that tell the
    sessions apart: when the last two last locations that
    [Object.keys] lists for the title have plain session dates in
    ascending order, [ebBookmarksCleanLastLocations] leaves both of them
    when one is of the current session, and the later one alone when
    both are of earlier sessions; the last locations of the title that
    are listed before these two are removed. *)
Theorem ebBookmarksCleanLastLocations_in_order title session w earlier a b x y :
  sessionIs session w ->
  uniqueKeys (localStorage w) = true ->
  rawLastLocation (localStorage w) = false ->
  keysTellSessionsApart title (localStorage w) = true ->
  distinctSessions title (localStorage w) = true ->
  titleLastLocations title (localStorage w) = earlier ++ [a; b] ->
  plainDate (b_sessionDate a) = true ->
  plainDate (b_sessionDate b) = true ->
  parseFloat (b_sessionDate a) = Some x ->
  parseFloat (b_sessionDate b) = Some y ->
  x <= y ->
  result (ebBookmarksCleanLastLocations title) w = Normal tt /\
  titleLastLocations title (localStorage (after (ebBookmarksCleanLastLocations title) w))
  = if isPrevious session a && isPrevious session b then [b] else [a; b].
Proof.
  intros Hs Hu Hraw Hd Hdist Hcollected _ _ Ha Hb Hxy.
  apply distinct_NoDup in Hu. apply distinct_NoDup in Hdist.
  destruct (titleLastLocations_after title Hs Hu Hraw Hd) as [Hrun Hrem].
  split; [unfold result; now rewrite Hrun|].
  rewrite Hrem, Hcollected, (retainedOf_ascending session earlier a b Ha Hb Hxy).
  rewrite Hcollected in Hdist.
  destruct (NoDup_last_two _ _ _ _ Hdist) as [Hab Hearlier].
  assert (Hsame : forall p q,
            toStr (b_sessionDate p) <> toStr (b_sessionDate q) -> sameSession p q = false).
  { intros p q Hpq. unfold sameSession. now apply String.eqb_neq. }
  assert (Hnone : forall kept, (forall k, In k kept -> k = a \/ k = b) ->
            forall l, (forall r, In r l -> In r earlier) ->
            filter (fun r => existsb (sameSession r) kept) l = []).
  { intros kept Hkept l. induction l as [|r rest IH]; intros Hl; [reflexivity|].
    cbn [filter].
    assert (Hr : existsb (sameSession r) kept = false).
    { destruct (existsb (sameSession r) kept) eqn:He; [|reflexivity].
      apply existsb_exists in He as (k & Hk & Hrk).
      destruct (Hearlier r (Hl r (or_introl eq_refl))) as [Hra Hrb].
      destruct (Hkept k Hk) as [-> | ->];
        [rewrite (Hsame r a Hra) in Hrk | rewrite (Hsame r b Hrb) in Hrk]; discriminate. }
    rewrite Hr. apply IH. intros r' Hr'. apply Hl. now right. }
  rewrite filter_app.
  destruct (isPrevious session a && isPrevious session b).
  - rewrite (Hnone [b]) by (try (intros k [<-|[]]); auto). cbn [app filter existsb].
    rewrite (Hsame a b Hab), sameSession_refl. reflexivity.
  - rewrite (Hnone [a; b]) by (try (intros k [<-|[<-|[]]]); auto). cbn [app filter existsb].
    rewrite !sameSession_refl. cbn [orb]. rewrite orb_true_r. reflexivity.
Qed.

Lemma ebBookmarksCleanLastLocations_in_order_witness :
  let w := tabOf chronologicalStorage "1700000000300" in
  let a := sampleRecord "lastLocation" "Book" "1700000000200"
                        "bookmark-book-lastLocation-1700000000200" in
  let b := sampleRecord "lastLocation" "Book" "1700000000300"
                        "bookmark-book-lastLocation-1700000000300" in
  result (ebBookmarksCleanLastLocations "Book") w = Normal tt /\
  titleLastLocations "Book" (localStorage (after (ebBookmarksCleanLastLocations "Book") w))
  = if isPrevious "1700000000300" a && isPrevious "1700000000300" b then [b] else [a; b].
Proof.
  intros w a b.
  apply (@ebBookmarksCleanLastLocations_in_order "Book" "1700000000300" w
           [sampleRecord "lastLocation" "Book" "1700000000100"
                         "bookmark-book-lastLocation-1700000000100"]
           a b 1700000000200 1700000000300); try reflexivity.
  - split; reflexivity.
  - lia.
Defined.

(** * The start of the script *)

Lemma bindB_normal {A A'} (m : B A) (f : A -> B A') b a b' :
  m b = (Normal a, b') -> bindB m f b = f a b'.
Proof. unfold bindB; intros ->; reflexivity. Qed.

Lemma bindB_throw {A A'} (m : B A) (f : A -> B A') b e b' :
  m b = (Throw e, b') -> bindB m f b = (Throw e, b').
Proof. unfold bindB; intros ->; reflexivity. Qed.

Arguments bindB_normal {A A' m f b a b'} _.
Arguments bindB_throw {A A' m f b e b'} _.

Lemma lift_run {A} (m : M A) b r w' :
  m (world b) = (r, w') -> lift m b = (r, mkBrowser w' (chrome b)).
Proof. unfold lift; intros ->; reflexivity. Qed.

(** ** The headers of the lists *)

Lemma setOpen_run w c n v h :
  nth_error (headers c) n = Some h ->
  setOpen (Some n) v (mkBrowser w c)
  = (Normal tt, mkBrowser w (setHeaders (updateNth n (set_open v) (headers c)) c)).
Proof.
  intros Hn. unfold setOpen, bindB, getChrome, derefB, putChrome. cbn [chrome world].
  now rewrite Hn.
Qed.

Lemma setListOpen_run w c n v h :
  nth_error (headers c) n = Some h ->
  (h_parent h < length (parents c))%nat ->
  setListOpen n v (mkBrowser w c)
  = (Normal tt, mkBrowser w (setParents (updateNth (h_parent h) (fun _ => v) (parents c)) c)).
Proof.
  intros Hn Hp. unfold setListOpen, bindB, getChrome, derefB, putChrome. cbn [chrome world].
  rewrite Hn. cbn [retB].
  destruct (nth_error (parents c) (h_parent h)) eqn:E; [reflexivity|].
  apply nth_error_None in E. lia.
Qed.

Lemma updateNth_length {A} n (f : A -> A) l : length (updateNth n f l) = length l.
Proof.
  revert n. induction l as [|x l IH]; intros [|n]; cbn [updateNth length]; auto.
Qed.

Lemma onlyOpen_findIndex n c h :
  onlyOpen n c -> nth_error (headers c) n = Some h ->
  findIndex h_open (headers c) = Some n.
Proof.
  unfold onlyOpen. generalize (headers c) as l. intros l. revert n.
  induction l as [|x l IH]; intros n Hall Hn; [now destruct n|].
  cbn [findIndex]. destruct n as [|n].
  - now rewrite (Hall 0%nat x eq_refl).
  - rewrite (Hall 0%nat x eq_refl). cbn [Nat.eqb].
    rewrite (IH n); [reflexivity| |exact Hn].
    intros i h' Hi. exact (Hall (S i) h' Hi).
Qed.

(** One click on a header, from a state in which one header is open. *)
Lemma openList_run w c n m :
  onlyOpen n c -> listsClosedBut n c -> clickable c n -> clickable c m ->
  exists c',
    openList m (mkBrowser w c) = (Normal tt, mkBrowser w c') /\
    onlyOpen m c' /\ listsClosedBut m c' /\
    (exists h, nth_error (headers c') m = Some h /\
               nth_error (parents c') (h_parent h) = Some true) /\
    (forall i, clickable c i -> clickable c' i) /\
    listeners c' = listeners c /\ controls c' = controls c /\
    length (headers c') = length (headers c).
Proof.
  intros Hopen Hlists (hn & Hn & _ & Hpn) (hm & Hm & Hcm & Hpm).
  set (hs1 := updateNth n (set_open false) (headers c)).
  set (hs2 := updateNth m (set_open true) hs1).
  set (ps1 := updateNth (h_parent hn) (fun _ => false) (parents c)).
  set (ps2 := updateNth (h_parent hm) (fun _ => true) ps1).
  assert (Hparent : forall i h, nth_error hs2 i = Some h ->
            exists h0, nth_error (headers c) i = Some h0 /\
                       h_parent h = h_parent h0 /\
                       h_bookmarks h = h_bookmarks h0 /\
                       h_lastLocations h = h_lastLocations h0 /\
                       h_open h = (i =? m)%nat).
  { intros i h. unfold hs2, hs1. rewrite !nth_error_updateNth_same.
    destruct (nth_error (headers c) i) as [h0|] eqn:Hi;
      [|destruct (i =? m)%nat, (i =? n)%nat; discriminate].
    pose proof (Hopen i h0 Hi) as Ho.
    destruct (Nat.eqb_spec i m) as [Him|Hne], (Nat.eqb_spec i n) as [Hin|Hin];
      cbn [option_map]; intros [= <-]; exists h0; cbn; repeat split; auto. }
  assert (Hm1 : exists h, nth_error hs1 m = Some h /\ h_parent h = h_parent hm).
  { unfold hs1. rewrite nth_error_updateNth_same, Hm.
    destruct (m =? n)%nat; eexists; split; reflexivity. }
  destruct Hm1 as (hm1 & Hm1 & Hpm1).
  assert (Hn2 : exists h, nth_error hs2 n = Some h /\ h_parent h = h_parent hn).
  { unfold hs2, hs1. rewrite !nth_error_updateNth_same, Hn, Nat.eqb_refl.
    destruct (n =? m)%nat; eexists; split; reflexivity. }
  destruct Hn2 as (hn2 & Hn2 & Hpn2).
  assert (Hm2 : exists h, nth_error hs2 m = Some h /\ h_parent h = h_parent hm).
  { unfold hs2. rewrite nth_error_updateNth_same, Nat.eqb_refl, Hm1.
    eexists; split; [reflexivity|exact Hpm1]. }
  destruct Hm2 as (hm2 & Hm2 & Hpm2).
  exists (setParents ps2 (setHeaders hs2 c)).
  split.
  { unfold openList. unfold bindB at 1. unfold getChrome at 1. cbn [chrome].
    rewrite (onlyOpen_findIndex Hopen Hn).
    rewrite (bindB_normal (@setOpen_run w c n false hn Hn)).
    fold hs1.
    rewrite (bindB_normal (@setOpen_run w (setHeaders hs1 c) m true hm1 Hm1)).
    cbn [headers setHeaders]. fold hs2.
    rewrite (bindB_normal (@setListOpen_run w (setHeaders hs2 (setHeaders hs1 c))
                             n false hn2 Hn2
                             ltac:(cbn [parents setHeaders]; rewrite Hpn2; exact Hpn))).
    cbn [parents headers setHeaders setParents]. rewrite Hpn2. fold ps1.
    rewrite (@setListOpen_run w (setParents ps1 (setHeaders hs2 (setHeaders hs1 c)))
               m true hm2 Hm2);
      [|cbn [parents setParents]; unfold ps1; rewrite updateNth_length, Hpm2; exact Hpm].
    cbn [parents headers setHeaders setParents]. rewrite Hpm2. fold ps2.
    reflexivity. }
  unfold onlyOpen, listsClosedBut, clickable.
  cbn [headers parents listeners controls setParents setHeaders].
  split.
  { intros i h Hi. now destruct (Hparent i h Hi) as (_ & _ & _ & _ & _ & ->). }
  split.
  { intros p Hp. exists hm2. split; [exact Hm2|]. rewrite Hpm2.
    unfold ps2, ps1 in Hp. rewrite !nth_error_updateNth_same in Hp.
    destruct (Nat.eqb_spec p (h_parent hm)) as [Hpm'|Hne]; [exact Hpm'|].
    destruct (Nat.eqb_spec p (h_parent hn)) as [Hpn'|Hne'].
    - destruct (nth_error (parents c) p); discriminate.
    - destruct (Hlists p Hp) as (h & Hh & Hph). rewrite Hn in Hh.
      injection Hh as <-. contradiction. }
  split.
  { exists hm2. split; [exact Hm2|]. rewrite Hpm2. unfold ps2.
    rewrite nth_error_updateNth_same, Nat.eqb_refl.
    destruct (nth_error ps1 (h_parent hm)) eqn:E; [reflexivity|].
    apply nth_error_None in E. unfold ps1 in E. rewrite updateNth_length in E. lia. }
  split.
  { intros i (h & Hi & Hci & Hpi).
    destruct (nth_error hs2 i) as [h'|] eqn:Hi'.
    - destruct (Hparent i h' Hi') as (h0 & Hi0 & Hp0 & Hb0 & Hl0 & _).
      rewrite Hi in Hi0. injection Hi0 as <-.
      exists h'. split; [reflexivity|]. rewrite Hb0, Hl0, Hp0.
      split; [exact Hci|]. unfold ps2, ps1. now rewrite !updateNth_length.
    - apply nth_error_None in Hi'. unfold hs2, hs1 in Hi'.
      rewrite !updateNth_length in Hi'.
      assert (i < length (headers c))%nat; [|lia].
      apply nth_error_Some. now rewrite Hi. }
  split; [reflexivity|]. split; [reflexivity|].
  unfold hs2, hs1. now rewrite !updateNth_length.
Qed.

Lemma register_loop {A} (g : A -> Listener) xs w c :
  forEachB (fun x => register (g x)) xs (mkBrowser w c)
  = (Normal tt, mkBrowser w (setListeners (listeners c ++ map g xs) c)).
Proof.
  revert c. induction xs as [|x xs IH]; intros c.
  - cbn [forEachB map retB]. rewrite app_nil_r. now destruct c.
  - cbn [forEachB map]. unfold bindB at 1.
    unfold register at 1. unfold bindB, getChrome, putChrome. cbn [chrome world].
    rewrite IH. cbn [listeners setListeners]. rewrite <- app_assoc. reflexivity.
Qed.

Lemma ebBookmarkListsOpenOnClick_run w c first :
  findIndex h_bookmarks (headers c) = Some first ->
  ebBookmarkListsOpenOnClick (mkBrowser w c)
  = (Normal tt,
     mkBrowser w
       (setHeaders (updateNth first (set_open true) (headers c))
          (setListeners
             (listeners c
              ++ map OpenList (positions (fun h => h_bookmarks h || h_lastLocations h)
                                         (headers c)))
             c))).
Proof.
  intros Hfirst. destruct (findIndex_Some _ _ Hfirst) as (h & Hh & _).
  unfold ebBookmarkListsOpenOnClick. unfold bindB at 1. unfold getChrome at 1.
  cbn [chrome]. rewrite (bindB_normal (register_loop OpenList _ w c)).
  unfold bindB at 1. unfold getChrome at 1. cbn [chrome headers setListeners].
  rewrite Hfirst.
  now rewrite (@setOpen_run w (setListeners _ c) first true h Hh).
Qed.

Lemma last_cons {A} (m : A) rest n : last (m :: rest) n = last rest m.
Proof.
  revert m n. induction rest as [|x r IH]; intros m n; [reflexivity|].
  change (last (m :: x :: r) n) with (last (x :: r) n).
  now rewrite (IH x n), (IH x m).
Qed.

(** A series of clicks on list headers. *)
Lemma openList_clicks w clicks :
  forall c n,
    onlyOpen n c -> listsClosedBut n c -> clickable c n ->
    Forall (clickable c) clicks ->
    exists c',
      forEachB openList clicks (mkBrowser w c) = (Normal tt, mkBrowser w c') /\
      onlyOpen (last clicks n) c' /\ listsClosedBut (last clicks n) c' /\
      (clicks <> [] ->
       exists h, nth_error (headers c') (last clicks n) = Some h /\
                 nth_error (parents c') (h_parent h) = Some true) /\
      (clicks = [] -> c' = c) /\
      listeners c' = listeners c /\ controls c' = controls c.
Proof.
  induction clicks as [|m rest IH]; intros c n Hopen Hlists Hn Hall.
  - exists c. cbn [forEachB last retB]. repeat split; auto. now intros [].
  - inversion Hall as [|? ? Hm Hrest]; subst.
    destruct (openList_run w Hopen Hlists Hn Hm)
      as (c1 & Hrun & Hopen1 & Hlists1 & Hlist1 & Hclick1 & Hl1 & Hc1 & _).
    destruct (IH c1 m Hopen1 Hlists1 (Hclick1 m Hm)) as
      (c' & Hrun' & Hopen' & Hlists' & Hlist' & Hsame' & Hl' & Hc').
    { apply Forall_forall. intros i Hi. apply Hclick1.
      now apply (proj1 (Forall_forall _ _) Hrest). }
    exists c'. cbn [forEachB]. rewrite (bindB_normal Hrun), Hrun', last_cons.
    split; [reflexivity|]. split; [exact Hopen'|]. split; [exact Hlists'|].
    split.
    { intros _. destruct rest as [|x r].
      - rewrite (Hsame' eq_refl). exact Hlist1.
      - apply Hlist'. discriminate. }
    split; [discriminate|]. split; congruence.
Qed.

(** X30: on a page on which no list header and no list of the panel is
    marked as open, [ebBookmarkListsOpenOnClick] opens the first header
    of the bookmarks, but does not mark its list; after it and any
    series of clicks on list headers whose parents are in the page,
    exactly one header is open, the one clicked last, and once a header
    was clicked its list is the only one marked as open.  Neither the
    start nor a click touches the storage or the document. *)
Theorem ebBookmarkListsOpenOnClick_one_open b first clicks :
  (forall h, In h (headers (chrome b)) -> h_open h = false) ->
  (forall p, In p (parents (chrome b)) -> p = false) ->
  findIndex h_bookmarks (headers (chrome b)) = Some first ->
  Forall (clickable (chrome b)) (first :: clicks) ->
  let start := (ebBookmarkListsOpenOnClick ;; forEachB openList clicks)%B in
  let b' := afterB start b in
  let current := last clicks first in
  resultB start b = Normal tt /\
  onlyOpen current (chrome b') /\
  listsClosedBut current (chrome b') /\
  (clicks <> [] ->
   exists h, nth_error (headers (chrome b')) current = Some h /\
             nth_error (parents (chrome b')) (h_parent h) = Some true) /\
  (clicks = [] -> forall p, In p (parents (chrome b')) -> p = false) /\
  world b' = world b.
Proof.
  intros Hclosed Hnone Hfirst Hall start b' current.
  destruct b as [w c]. cbn [chrome world] in *.
  inversion Hall as [|? ? Hf Hclicks]; subst.
  set (c1 := setHeaders (updateNth first (set_open true) (headers c))
               (setListeners
                  (listeners c
                   ++ map OpenList (positions (fun h => h_bookmarks h || h_lastLocations h)
                                              (headers c)))
                  c)).
  assert (Hkeep : forall i, clickable c i -> clickable c1 i).
  { intros i (h & Hi & Hci & Hpi). unfold clickable, c1.
    cbn [headers parents setHeaders setListeners].
    rewrite nth_error_updateNth_same, Hi.
    destruct (i =? first)%nat; eexists; (split; [reflexivity|]); now split. }
  assert (Hopen1 : onlyOpen first c1).
  { intros i h. unfold c1. cbn [headers setHeaders].
    rewrite nth_error_updateNth_same.
    destruct (Nat.eqb_spec i first) as [Hi|Hi].
    - destruct (nth_error (headers c) i); [|discriminate]. now intros [= <-].
    - intros Hh. apply Hclosed. now apply nth_error_In in Hh. }
  assert (Hlists1 : listsClosedBut first c1).
  { intros p Hp. unfold c1 in Hp. cbn [parents setHeaders setListeners] in Hp.
    apply nth_error_In in Hp. now apply Hnone in Hp. }
  destruct (@openList_clicks w clicks c1 first Hopen1 Hlists1 (Hkeep first Hf))
    as (c' & Hrun & Hopen & Hlists & Hlist & Hsame & _).
  { apply Forall_forall. intros i Hi. apply Hkeep.
    now apply (proj1 (Forall_forall _ _) Hclicks). }
  assert (Hstart : start (mkBrowser w c) = (Normal tt, mkBrowser w c')).
  { unfold start. rewrite (bindB_normal (ebBookmarkListsOpenOnClick_run w c Hfirst)).
    exact Hrun. }
  unfold b', resultB, afterB. rewrite Hstart. cbn [fst snd chrome world].
  split; [reflexivity|]. split; [exact Hopen|]. split; [exact Hlists|].
  split; [exact Hlist|]. split; [|reflexivity].
  intros Hnil p Hp. rewrite (Hsame Hnil) in Hp. apply Hnone. exact Hp.
Qed.

Lemma ebBookmarkListsOpenOnClick_one_open_witness :
  let clicks := [1%nat; 0%nat; 1%nat] in
  let start := (ebBookmarkListsOpenOnClick ;; forEachB openList clicks)%B in
  let b' := afterB start readingBrowser in
  resultB start readingBrowser = Normal tt /\
  onlyOpen 1 (chrome b') /\
  listsClosedBut 1 (chrome b') /\
  (clicks <> [] ->
   exists h, nth_error (headers (chrome b')) 1 = Some h /\
             nth_error (parents (chrome b')) (h_parent h) = Some true) /\
  (clicks = [] -> forall p, In p (parents (chrome b')) -> p = false) /\
  world b' = world readingBrowser.
Proof.
  intros clicks.
  apply (@ebBookmarkListsOpenOnClick_one_open readingBrowser 0%nat clicks).
  - intros h [<-|[<-|[]]]; reflexivity.
  - intros p [<-|[<-|[]]]; reflexivity.
  - reflexivity.
  - assert (H0 : clickable (chrome readingBrowser) 0).
    { exists (mkHeader true false false 0). repeat split. cbn. lia. }
    assert (H1 : clickable (chrome readingBrowser) 1).
    { exists (mkHeader false true false 1). repeat split. cbn. lia. }
    repeat (constructor; [assumption|]). constructor.
Defined.

(** ** The main process *)

Lemma start_of_session b :
  (lift ebBookmarksSessionDate ;; lift ebBookmarksCreateFingerprintIndex)%B b
  = (Normal tt, mkBrowser (started (world b)) (chrome b)) /\
  sessionIs (sessionOf (world b)) (started (world b)).
Proof.
  destruct b as [w c]. cbn [world chrome]. unfold started, sessionOf, inSession.
  destruct (match ss_sessionDate (sessionStorage w) with
            | Some s => truthy s
            | None => false
            end) eqn:E.
  - destruct (ss_sessionDate (sessionStorage w)) as [s|] eqn:Hs; [|discriminate].
    rewrite E.
    rewrite (bindB_normal (lift_run _ (mkBrowser w c)
                             (ebBookmarksSessionDate_established w Hs E))).
    unfold lift, ebBookmarksCreateFingerprintIndex, bind, getDocument, setIndex, after.
    cbn [world chrome snd document sessionStorage setSession ss_sessionDate].
    rewrite Hs. split; [reflexivity|]. now split.
  - rewrite (bindB_normal (lift_run _ (mkBrowser w c) (ebBookmarksSessionDate_fresh w E))).
    assert (Hsession : match ss_sessionDate (sessionStorage w) with
                       | Some s => if truthy s then s else string_of_Z (clock w)
                       | None => string_of_Z (clock w)
                       end = string_of_Z (clock w)).
    { destruct (ss_sessionDate (sessionStorage w)); [now rewrite E | reflexivity]. }
    rewrite Hsession.
    unfold lift, ebBookmarksCreateFingerprintIndex, bind, getDocument, setIndex, after.
    cbn [world chrome snd document sessionStorage setSession ss_sessionDate].
    split; [reflexivity|]. split; [reflexivity | apply string_of_Z_truthy].
Qed.

Lemma filter_by_node (p : Element -> bool) xs w :
  (forall n, In n xs -> nth_error (elements (document w)) n <> None) ->
  filterM (fun element => (e <- node (Some element) ;; ret (p e))%js) xs w
  = (Normal (filter (fun n => match nth_error (elements (document w)) n with
                              | Some e => p e
                              | None => false
                              end) xs), w).
Proof.
  induction xs as [|x xs IH]; intros Hall; [reflexivity|].
  cbn [filterM filter].
  destruct (nth_error (elements (document w)) x) as [e|] eqn:He;
    [|now destruct (Hall x (or_introl eq_refl))].
  assert (Hx : (e <- node (Some x) ;; ret (p e))%js w = (Normal (p e), w)).
  { unfold node, bind, getDocument, deref, ret. now rewrite He. }
  rewrite (bind_normal Hx), (bind_normal (IH (fun n Hn => Hall n (or_intror Hn)))).
  reflexivity.
Qed.

Lemma ebBookmarksMarkVisibleElements_run w c :
  hasIntersectionObserver c = true ->
  bookmarkableOnPage (mkBrowser w c) ->
  (queried <- queryBookmarkable ;; ebBookmarksMarkVisibleElements queried)%B (mkBrowser w c)
  = (Normal tt,
     mkBrowser w (setListeners
                    (listeners c ++ map Observe (observedElements (mkBrowser w c))) c)).
Proof.
  intros Hio Hpage. unfold bindB at 1. unfold queryBookmarkable at 1. cbn [world chrome].
  unfold ebBookmarksMarkVisibleElements.
  assert (Hfilter : filterM (fun element =>
                               (e <- node (Some element) ;;
                                ret (negb (el_id e =? "undefined")%string))%js)
                            (bookmarkable c) w
                    = (Normal (observedElements (mkBrowser w c)), w)).
  { rewrite filter_by_node; [reflexivity|]. exact Hpage. }
  rewrite (bindB_normal (lift_run _ (mkBrowser w c) Hfilter)).
  unfold bindB at 1. unfold getChrome at 1. cbn [chrome]. rewrite Hio.
  apply register_loop.
Qed.

Lemma getChrome_run w c : getChrome (mkBrowser w c) = (Normal c, mkBrowser w c).
Proof. reflexivity. Qed.

Lemma putChrome_run w c c' : putChrome c' (mkBrowser w c) = (Normal tt, mkBrowser w c').
Proof. reflexivity. Qed.

Lemma derefB_run {A} (a : A) b : derefB (Some a) b = (Normal a, b).
Proof. reflexivity. Qed.

Lemma register_run l w c :
  register l (mkBrowser w c)
  = (Normal tt, mkBrowser w (setListeners (listeners c ++ [l]) c)).
Proof. reflexivity. Qed.

Lemma ebBookmarksOpenOnClick_run w c ctl :
  controls c = Some ctl ->
  ebBookmarksOpenOnClick (mkBrowser w c)
  = (Normal tt, mkBrowser w (setListeners (listeners c ++ [OpenModal]) c)).
Proof.
  intros Hctl. unfold ebBookmarksOpenOnClick.
  rewrite (bindB_normal (getChrome_run w c)), Hctl.
  rewrite (bindB_normal (derefB_run ctl _)). apply register_run.
Qed.

Lemma queryBookmarkable_run b :
  exists queried, queryBookmarkable b = (Normal queried, b).
Proof. eexists. reflexivity. Qed.

Lemma startedChrome_run {A} (k : B A) w w' ctl first c :
  controls c = Some ctl ->
  findIndex h_bookmarks (headers c) = Some first ->
  hasIntersectionObserver c = true ->
  bookmarkableOnPage (mkBrowser w c) ->
  elements (document w') = elements (document w) ->
  (c0 <- getChrome ;;
   bookmarksControls <- derefB (controls c0) ;;
   putChrome (setControls (Some (mkControls false (display bookmarksControls))) c0) ;;
   ebBookmarksOpenOnClick ;;
   ebBookmarkListsOpenOnClick ;;
   register StoreLastLocation ;;
   queried <- queryBookmarkable ;;
   ebBookmarksMarkVisibleElements queried ;;
   queried' <- queryBookmarkable ;;
   ebBookmarksAddButtons queried' None ;;
   k)%B (mkBrowser w' c)
  = k (mkBrowser w' (startedChrome ctl first (mkBrowser w c))).
Proof.
  intros Hctl Hfirst Hio Hpage Hels.
  rewrite (bindB_normal (getChrome_run w' c)), Hctl.
  rewrite (bindB_normal (derefB_run ctl _)).
  rewrite (bindB_normal (putChrome_run w' c _)).
  set (c1 := setControls (Some (mkControls false (display ctl))) c).
  rewrite (bindB_normal (@ebBookmarksOpenOnClick_run w' c1 (mkControls false (display ctl))
                           eq_refl)).
  set (c2 := setListeners (listeners c1 ++ [OpenModal]) c1).
  rewrite (bindB_normal (@ebBookmarkListsOpenOnClick_run w' c2 first Hfirst)).
  set (c3 := setHeaders _ _).
  rewrite (bindB_normal (register_run StoreLastLocation w' c3)).
  set (c4 := setListeners (listeners c3 ++ [StoreLastLocation]) c3).
  assert (Hpage4 : bookmarkableOnPage (mkBrowser w' c4)).
  { intros n Hn. cbn [world chrome] in *. rewrite Hels. apply Hpage. exact Hn. }
  pose proof (@ebBookmarksMarkVisibleElements_run w' c4 Hio Hpage4) as Hmark.
  destruct (queryBookmarkable_run (mkBrowser w' c4)) as (queried & Hq).
  rewrite (bindB_normal Hq) in Hmark.
  rewrite (bindB_normal Hq), (bindB_normal Hmark).
  set (c5 := setListeners _ c4).
  destruct (queryBookmarkable_run (mkBrowser w' c5)) as (queried' & Hq').
  rewrite (bindB_normal Hq'). cbn [ebBookmarksAddButtons].
  rewrite (bindB_normal (m := retB tt) eq_refl).
  f_equal. f_equal.
  unfold startedChrome, registeredAtStart, c5, c4, c3, c2, c1.
  unfold observedElements, setListeners, setHeaders, setControls.
  cbn [chrome world listeners headers bookmarkable controls parents hasIntersectionObserver
       hasGetSelection hasSelectionToString hasLocalStorage ebIDsAssigned
       ebFingerprintsAssigned ebBookmarksCheckForIDs onselectionchange].
  rewrite Hels. rewrite <- !app_assoc. reflexivity.
Qed.

Lemma ebBookmarksProcess_run b ctl first r w3 :
  hasIntersectionObserver (chrome b) = true ->
  bookmarkableOnPage b ->
  controls (chrome b) = Some ctl ->
  findIndex h_bookmarks (headers (chrome b)) = Some first ->
  ebBookmarksCheckForBookmarks (started (world b)) = (r, w3) ->
  ebBookmarksProcess b
  = match r with
    | Normal _ =>
        (Normal tt, mkBrowser w3 (setOnselectionchange true (startedChrome ctl first b)))
    | Throw e => (Throw e, mkBrowser w3 (startedChrome ctl first b))
    end.
Proof.
  intros Hio Hpage Hctl Hfirst Hcheck.
  destruct (start_of_session b) as [Hstart _].
  destruct b as [w c]. cbn [world chrome] in *.
  unfold ebBookmarksProcess.
  unfold bindB at 1 2. unfold bindB at 1 in Hstart.
  destruct (lift ebBookmarksSessionDate (mkBrowser w c)) as [[v|e] b1];
    [|discriminate Hstart].
  rewrite Hstart.
  rewrite (@startedChrome_run _ _ w (started w) ctl first c Hctl Hfirst Hio Hpage eq_refl).
  unfold bindB at 1. rewrite (lift_run _ (mkBrowser (started w) _) Hcheck).
  destruct r as [[]|e]; reflexivity.
Qed.

Lemma ebBookmarksInit_run b :
  supported (chrome b) = true -> ebBookmarksInit b = ebBookmarksProcess b.
Proof.
  intros Hs. unfold ebBookmarksInit, bindB at 1, ebBookmarksSupport, bindB at 1, getChrome.
  unfold supported in Hs. now rewrite Hs.
Qed.

Lemma supported_observer c : supported c = true -> hasIntersectionObserver c = true.
Proof.
  unfold supported. intros H.
  now destruct (hasIntersectionObserver c).
Qed.

Lemma checkForIDs_run b :
  ready (chrome b) = true ->
  checkForIDs b
  = match ebBookmarksInit b with
    | (Normal _, b1) => (Normal tt, mkBrowser (world b1) (setInterval false (chrome b1)))
    | (Throw e, b1) => (Throw e, b1)
    end.
Proof.
  intros Hr. unfold checkForIDs, bindB at 1, getChrome at 1. unfold ready in Hr.
  rewrite Hr. unfold bindB at 1.
  destruct (ebBookmarksInit b) as [[[]|e] b1]; reflexivity.
Qed.

Lemma reconcilable_started w :
  reconcilable (sessionOf w) (inSession (sessionOf w) w) ->
  reconcilable (sessionOf w) (started w).
Proof.
  intros (Hs & Hu & Hp & Hl1 & Hl2 & Ha). unfold started.
  split; [exact Hs|]. split; [exact Hu|]. split; [exact Hp|].
  split; [exact Hl1|]. split; [exact Hl2|]. exact Ha.
Qed.

(** X29: in a browser that passes the test of [ebBookmarksSupport], on
    a page that has the bookmarks button and a header of the list of
    bookmarks, once [setup.js] has assigned the ids and the
    fingerprints, and from a storage and a page that are reconcilable in
    the session the tab has or is given, with plain session dates in
    the last locations, the callback of the poller starts the script
    and stops the poller.  Afterwards the tab has its
    session identifier and the index of the fingerprints of the page;
    the two lists of the panel show the stored records, but for the
    last locations of this session; an element carries
    [data-bookmarked] exactly when a record shown is on the page and has
    its id; the button is no longer hidden and the first header of the
    bookmarks is marked as open; and the listeners registered are those
    of the button, of the list headers and of [beforeunload] and the
    observer of the bookmarkable elements, none of them for the action
    of [ebBookmarksAddButtons], which is called without one. *)
Theorem checkForIDs_starts b ctl first :
  ready (chrome b) = true ->
  supported (chrome b) = true ->
  controls (chrome b) = Some ctl ->
  findIndex h_bookmarks (headers (chrome b)) = Some first ->
  bookmarkableOnPage b ->
  let session := sessionOf (world b) in
  reconcilable session (inSession session (world b)) ->
  plainDates (localStorage (world b)) = true ->
  let b' := afterB checkForIDs b in
  let bookmarks :=
    visibleBookmarks session (prunedStorage session (localStorage (world b))) in
  resultB checkForIDs b = Normal tt /\
  ebBookmarksCheckForIDs (chrome b') = false /\
  sessionIs session (world b') /\
  ss_index (sessionStorage (world b'))
  = ss_index (sessionStorage (after ebBookmarksCreateFingerprintIndex (world b))) /\
  bookmarksList (document (world b'))
  = Some (panelList (filter listedAsBookmark bookmarks)) /\
  lastLocationsList (document (world b'))
  = Some (panelList (filter (fun r => (b_type r =? "lastLocation")%string) bookmarks)) /\
  (forall n e,
     nth_error (elements (document (world b))) n = Some e ->
     exists e',
       nth_error (elements (document (world b'))) n = Some e' /\
       el_bookmarked e'
       = if existsb (targets (document (world b)) n) bookmarks
         then Some "true"%string else None) /\
  controls (chrome b') = Some (mkControls false (display ctl)) /\
  headers (chrome b') = updateNth first (set_open true) (headers (chrome b)) /\
  listeners (chrome b') = listeners (chrome b) ++ registeredAtStart b /\
  onselectionchange (chrome b') = true.
Proof.
  intros Hready Hsup Hctl Hfirst Hpage session Hr _ b' bookmarks.
  pose proof (reconcilable_started Hr) as Hr2. fold session in Hr2.
  destruct (ebBookmarksCheckForBookmarks_eq Hr2) as (els' & Hcheck & Hnth).
  destruct Hr2 as (Hs & _).
  change (localStorage (started (world b))) with (localStorage (world b)) in Hcheck, Hnth.
  change (document (started (world b))) with (document (world b)) in Hnth.
  fold bookmarks in Hcheck, Hnth.
  pose proof (@ebBookmarksProcess_run b ctl first _ _ (supported_observer _ Hsup) Hpage
                Hctl Hfirst Hcheck) as Hprocess.
  pose proof (checkForIDs_run b Hready) as Hrun.
  rewrite (ebBookmarksInit_run b Hsup), Hprocess in Hrun.
  unfold b', resultB, afterB. rewrite Hrun.
  cbn [fst snd world chrome].
  split; [reflexivity|]. split; [reflexivity|].
  split; [exact Hs|]. split; [reflexivity|].
  split; [reflexivity|].
  split.
  { cbn [repaired document lastLocationsList]. unfold panelList. do 3 f_equal.
    apply filter_ext_in. intros r Hin.
    apply visibleBookmarks_In in Hin as (k & _ & _ & Hv).
    unfold listedAsLastLocation. unfold isVisible in Hv.
    destruct (b_type r =? "lastLocation")%string; [|reflexivity].
    cbn [negb orb andb] in *. exact Hv. }
  split.
  { intros n e He.
    cbn [repaired document elements withPage setDocument withElements].
    rewrite Hnth, He. cbn [option_map].
    eexists. split; [reflexivity|]. unfold markedElement.
    rewrite el_bookmarked_marked, existsb_filter_nil.
    now destruct (filter (targets (document (world b)) n) bookmarks). }
  repeat split.
Qed.

Lemma checkForIDs_starts_witness :
  let b' := afterB checkForIDs readingBrowser in
  resultB checkForIDs readingBrowser = Normal tt /\
  ebBookmarksCheckForIDs (chrome b') = false /\
  listeners (chrome b')
  = [OpenModal; OpenList 0; OpenList 1; StoreLastLocation; Observe 0; Observe 1].
Proof.
  destruct (@checkForIDs_starts readingBrowser (mkControls true None) 0%nat)
    as (Hresult & Hstopped & _ & _ & _ & _ & _ & _ & _ & Hlisteners & _);
    try reflexivity.
  - intros n [<-|[<-|[]]]; discriminate.
  - split; [split; reflexivity|]. split; [reflexivity|]. split; [reflexivity|].
    split; [discriminate|]. split; [discriminate|].
    intros k b Hin _ _ _.
    repeat (destruct Hin as [Hin|Hin];
            [first [discriminate Hin | injection Hin as <- <-; discriminate]|]);
      destruct Hin.
  - split; [exact Hresult|]. split; [exact Hstopped|]. rewrite Hlisteners. reflexivity.
Defined.

(** ** A start that fails *)







